(* ===== verification/_CoqProject ===== *)
-Q . S2P
Prelude.v
Words.v
Decimal.v
Hashing.v
Types.v
Epoch.v
Revolver.v
Committee.v
Mempool.v
Outage.v
Governance.v
Bank.v
Merkle.v
Field.v
ZkTree.v
Circuit.v
Groth.v
NFT.v
Silent.v
Store.v
Chain.v
Pipeline.v
Sample.v
Admission.v
Batch.v
Tally.v
Local.v
History.v
Replay.v
Net.v
Node.v
Consensus.v
Ledger.v
Propose.v
NodeSample.v
Recovery.v
Faults.v
Replica.v
Agreement.v
Ast.v
Interp.v
Sema.v
Codegen.v
Emitted.v
Compiled.v
Typing.v
Stages.v
Shadow.v
Prover.v
Accept.v
Builder.v
Query.v
Canonical.v
Mirrors.v
Memo.v
Wallet.v
Spend.v
Ballot.v
Clients.v
TxClient.v
Keystore.v
Flags.v
Params.v
WalletCmd.v
Commands.v
Startup.v
QueryServer.v
Feeds.v
