(* ===== verification/Prelude.v ===== *)
(** * ShadowForge L1: a verification development of the Go node, its clients and commands

    ShadowForge is a shielded chain run by holders of validator NFTs. A node keeps a key-value store
    with the typed rows of the ledger (NFTs, proposals, stakes, nullifiers, ...), a
    SHA-256 tree of every output commitment (its root is a block's state root), three
    MiMC trees the zero-knowledge circuits prove membership in, a memory pool, a registry
    of the validators it has heard from, and a chain of blocks signed by a committee.
    Transactions pass five stages (src/pkg/tx); a proposer runs them over a batch, the
    committee replays the batch and votes on the root, and whoever gathers a majority
    commits and announces the block (src/pkg/validator).

    ** The files

    The model follows the packages; a definition has the name of the Go function it
    translates, and a comment where the name had to change.

    - [Prelude] (this file): [result] (Go's value-or-error), [call] (a call that mutates
      shared state and keeps its mutations when it fails), and the lemmas and tactics on
      them, on lists and on options that the other files share.
    - [Words]: [uint64]/[int64] wrap-around, byte encodings, [time.Time] and the
      saturating [time.Duration]. [Decimal]: pkg/decimal over the canonical rationals.
      [Hashing], [Types]: pkg/types, its identifiers, framed hashes and records.
    - [Epoch] (consensus/epoch.go, staking/yield.go), [Revolver] (revolver.go,
      sentinel.go), [Committee] (assignment.go, bft.go), [Outage] (outage.go): the parts
      of pkg/consensus, each with its own state and steps.
    - [Mempool] (tx/mempool.go), [Governance] (pkg/governance and pkg/vault), [Bank]
      (pkg/bank and pkg/oracle), [NFT] (pkg/nft, pkg/container, the signature checks of
      pkg/crypto), [Silent] (pkg/silent).
    - [Merkle] (state/merkle.go), [Store] (state/store.go and txn.go: [Rows] is the typed
      content, [Keyed] the code's key layout over a Badger transaction, and one refines
      the other), [Chain] (pkg/chain).
    - [Field], [ZkTree], [Circuit], [Groth]: pkg/zk. Field elements, the sparse note tree
      and the root history, the five circuits as the constraints their [Define] methods
      emit, and the verifier side of Groth16.
    - [Pipeline]: tx/pipeline.go, the five stages and [ProcessBatch], as calls over the
      record [State] of everything the Go [Deps] point to. [Tally]: its epoch-end
      [TallyDueProposals]. [Admission], [Batch], [History], [Replay]: what these
      guarantee of one transaction, of a batch, along a whole history, and of the tree a
      replay leaves. [Local]: what two replays of one batch owe to the node and the
      instant they run at.
    - [Net] (pkg/net), [Node], [Consensus], [Propose] (pkg/validator): the validator.
      [Node] is its record (registry, pool, rounds, outstanding megabatch parts, the
      shared [State], the messages sent) with the registry operations and heartbeat;
      [Consensus] the handlers of proposals, votes, announcements and catch-up;
      [Propose] batch building, the proposer's turn, time-outs, dispatch, and
      [run_node], a node fed any sequence of events (message received, round tick,
      heartbeat tick, local submission, reseeding of the eligibility tree).
    - [Ledger]: the abstract specification the node is shown to implement; [Replica]: the
      invariant of its rounds and the simulation; [Agreement], [Recovery]: the
      properties of pkg/validator; [Faults]: where it does not do what it means to.
    - [Sample], [NodeSample]: a concrete node and a concrete committee of three, with toy
      hashes, fields and proofs that satisfy every law assumed below; the witnesses and
      the findings are evaluated on them.
    - ShadowRust, the contract language (src/parser, src/ast, src/interp, src/sema and
      src/codegen): [Ast] holds the syntax tree, the parse tree of
      grammar/ShadowRustExt.g4 and the builder from one to the other; [Interp] the
      interpreter; [Sema] the two-stage analyser; [Codegen] the code generator, whose
      output is text, and the run-time package the text calls. [Emitted] gives that text a
      meaning: the small part of Go it uses, its printer, its compile-time checks, and
      its runs over a heap of [*big.Rat], where a local that hides the package [runtime]
      turns a call into a method that writes.
      [Compiled] relates the text and its runs to the source, [Typing] the trees the
      grammar produces to what every phase expects, [Stages] the analyser's verdict to the
      interpreter's; [Shadow] states the properties and the flaws.

    - The clients: [Prover] (signing and the provers of the five circuits), [Builder]
      (pkg/txbuilder), [Query] (pkg/query and pkg/queryclient), [Mirrors] (pkg/govwallet,
      pkg/stakewallet), [Memo] (crypto/aead.go, shieldedwallet/memo.go) and [Wallet]
      (pkg/shieldedwallet). [Accept] is the pipeline from their side, what suffices for a
      stage to accept; [Canonical] the two MiMC trees as functions of the accepted
      transactions. [Spend] and [Ballot] run the clients against the node; [Clients] states
      the properties. [TxClient] (pkg/txclient) submits a transaction and polls for it;
      [Keystore] (pkg/walletkey, cmd/walletkey) keeps an identity under a passphrase. Each
      of the two states its contract, properties, witnesses and findings itself.

    - The programs and the edges: [Params] (pkg/zk/persist.go and who writes and reads the
      parameter files: cmd/wallet/zksetup.go and the loaders of cmd/node), [Flags] and
      [WalletCmd] (cmd/wallet: the parsed flags, and each command from them to what it
      prints), [Commands] (the properties of those commands), [Startup] (cmd/node/main.go:
      the files a node keeps, and [main] up to the running node), [QueryServer]
      (pkg/query/server.go and ratelimit.go: the chain of handlers and the token bucket of
      each address), [Feeds] (pkg/oracle/coingecko.go and coinbase.go: what is asked of the
      price services and what is made of the answers).

    ** How the parts interact

    [Pipeline.State] is the one shared store: [ProcessBatch] threads it through the
    stages, [Node.n_shared] holds it next to the rows the store has committed. A Badger
    transaction is a second copy of the rows in that state, which a commit makes the
    committed one and a discard drops; the trees, root histories, vault and parameters
    are not part of the transaction, in the code as in the model, so what a discarded
    replay did to them stays (a finding). [Chain.Append] is the gate a node commits
    through. What a node sends is recorded in [Node.n_sent], in order.

    ShadowRust is a separate program, linked with the node only by the kinds of transaction
    its contracts name: [Ast.Build] feeds [Sema.Analyze], and a program it accepts goes to
    [Interp.Run] or to [Codegen.Generate].

    A client shares nothing with a node. What it builds is a [Types.Transaction] that
    [Pipeline.ProcessBatch] receives; what it learns it reads through [Query], whose
    handlers look at the committed rows and the chain, and [Mirrors] and [Wallet] replay the
    committed blocks in the order the pipeline processed them. A command of cmd/wallet is a
    fresh client: it unlocks the keystore, loads parameters, syncs from genesis, builds,
    submits and waits, and what the next command needs is in what it printed. A node and the
    commands share the parameter files and nothing else; [Startup.main] assembles what
    [Propose.run_node] runs from. [Feeds] are two sources of the Bank's [Oracle.quote].

    Go mutexes make one handler, one pool or controller operation, a step; [run_node]
    ranges over all the orders of such steps. A handler is given the instant it runs at, and
    every [time.Now] inside it returns that instant. What a mutex does not cover is cut out
    as a definition of its own: the guards of a proposal ([proposal_guards]) run before
    [roundMu] is taken and [process_proposal] under it, and [handleBlockProposal] is the two
    with nothing in between. The properties of [run_node] are about that handler; what
    another commit in the gap does to it is a finding ([late_proposal_opens_stale_round]).
    Likewise the token bucket of an address is asked after the limiter's mutex is released,
    at one instant with it ([QueryServer.allow]), and the set-up of parameters is
    [create_system] after a look at the file: two first starts at once end with different
    keys, as the source says ([concurrent_first_starts_differ]).

    ** What the theorems show

    - The node (Agreement, Recovery, Net): over any sequence of events its committed rows
      and chain are a run of [Ledger]; no nullifier is spent twice on its chain; its state
      tree has the root of the head block; a proposal alone commits nothing, an adopted
      block replays to its root; a voter and a later adopter of a block end with the same
      ledger, unless the adopter's own rate monitor, oracle or clock rejects it; building a
      batch loses no transaction; megabatch announcements reassemble. As lemmas: catch-up
      serves the longest stored run, the limiter lets a peer send at most its budget.
    - The pipeline (Batch, Tally, History): a rejected transaction leaves no trace, an
      accepted transfer with canonical nullifiers conserves value (and, a lemma, nullifiers
      are spent once over a batch); the tally counts every due proposal once and mints only
      by vote; the life of a proposal and the one-NFT-per-wallet index along any history.
    - The chain and the store (Chain, Store): the chain stays linked, and the writes of a
      block are atomic; as lemmas, the append gate and what every accessor reads back.
    - Zero knowledge and trees (Circuit, ZkTree, Merkle): transfers conserve value, the
      honest prover succeeds, a note has one nullifier, the sparse tree is the dense one,
      proofs are complete and roots bind the leaves.
    - Committees and time (Committee, Epoch, Revolver), as lemmas: quorums intersect,
      committees are the same on every node, the epoch of an instant is the right one.
    - Pools, money, monitors (Mempool, Governance, Bank, NFT, Silent, Outage): bounds after
      every trace, conservation, quorums of the oracle, lifecycles as invariants over any
      sequence of operations.
    - ShadowRust (Shadow): a transfer the emitted program runs is the one the interpreter
      runs, where no local hides [runtime] or [nil]; an accepted program keeps the two
      stages apart; a program the builder makes evaluates as a reference semantics says and
      fails only at a name without a binding or a divisor that is zero.
    - The clients (Clients): a wallet's notes are provable in the node's tree and belong to
      its key, along any history of scans, submissions and failures; a transfer it builds
      spends its two largest notes and is accepted when their nullifiers differ; a payment
      is found by its receiver with its value; the mirrors have the node's roots; a ballot
      opens the poll it is for; what [Builder] builds passes the first two stages; as a
      lemma, a mint claim pays only the proposer.
    - The commands (Commands, Params, Startup): a transfer that is reported as confirmed was
      made with the keystore's passphrase and is the owner's, for the amount and fee of the
      flags, and on a server's chain; a wallet that is attested becomes a voter; the
      position a mint command prints is the one its redemption is built from; set-ups,
      wallets and nodes that are given one path hold one set of keys; a node that is started
      again is the same validator on the same chain.
    - The edges (QueryServer, Feeds): an address is answered as by a server of its own, and
      no faster than the bucket's rate; from one market both feeds compute one average true
      range, which is not negative.
    - Submission and keys (TxClient, Keystore): a confirmed submission is in a block of a
      server's chain and waiting ends within the rounds of the time-out; the keystore
      commands implement a contract in which an identity, once there, is never lost to a
      failed write, a crash or a rejected passphrase.
    - Lemmas named as sentences ([honest_timeout_forks], [adopted_batch_is_not_bound],
      [zero_refund_cap_refunds_all], ...) prove the flaws that modelling showed.

    ** Fuel and bounds

    Loops that are not structural run on fuel that is proved to suffice. The epoch loops
    have 97 rounds, since at epoch 96 a duration reaches its cap and both loops leave
    (Epoch). The Merkle root's loop has as many rounds as leaves and each one halves the
    list (Merkle). [collect_blocks] has one round more than there are stored blocks, and
    heights are distinct (Recovery). [Confirm] has the rounds the time-out leaves room for
    (TxClient), the wait for an address file the 152 that fit its deadline ([addr_rounds],
    Flags). The cuts of [split_loop] recur on the transactions,
    [evict] on the order of arrival. Integers
    are [Z] with Go's wrap-around written at every operation that can overflow; where a
    theorem needs an operand in range, that is a hypothesis of it.

    ** Assumed

    Code that is not in this repository is a parameter: SHA-256 (any function of its
    bytes), MiMC and the scalar field ([Field.Fr]), gnark's frontend ([FrontendLaws]) and
    Groth16 (a verifying key is [sound] for a circuit), Dilithium and ed25519, Badger
    ([Store]'s laws of get, set, delete and prefix iteration), X25519, HKDF and
    ChaCha20-Poly1305 (key agreement, and that opening inverts sealing; nothing of secrecy),
    the completeness of a proving key ([Prover.completes]), Argon2 (any function of its
    arguments, which panics without a round or a thread), encoding/json (the class
    [Net.Codec], used for round trips and lengths only, and [FeedJson], any function of the
    body), gnark's serialization of keys, libp2p, the HTTP transport, the token bucket of
    x/time/rate ([TokenBucketLaws]: left alone it fills up, and over a window it grants at
    most its burst and what flows in, as it is documented, in exact arithmetic; the package
    itself counts in float64), [strconv.FormatFloat] ([FormatFloatLaws]). Faults of the
    storage engine and failures of [json.Marshal] are values of the model only where the
    code reacts to them. Map iteration order is an argument where it can be observed.

    ** Not modelled

    The listener and serve loop of the query server, opening libp2p hosts and streams, the
    dispatch of cmd/wallet's main and its usage texts, cmd/walletsim, cmd/shadowc and
    cmd/hello, the loops of cmd/node that only log and its warning about a public query
    address are input and output around the modelled core. ShadowRust's lexer and parser are
    generated by ANTLR; their output, the parse tree, is where the model starts. The random
    draws (Poisson pads, Revolver positions, the Bank's salt) are arguments, or left out
    where nothing depends on them. *)
From stdpp Require Export base tactics numbers list option strings gmap fin_maps fin_sets sorting.
From Stdlib Require Export ZArith Lia.
From coqutil Require Export Datatypes.RecordSettersUsingExistingGetters.

#[global] Arguments RecordSettersUsingExistingGetters.const {E} newValue _ /.

Open Scope Z_scope.

(** * Results: Go's [(value, error)] pairs *)

(** A Go call either returns its value or a non-nil error; the error is kept as
    its message (the text up to the first formatting verb). *)
Inductive result (A : Type) : Type :=
| Ok (a : A)
| Err (e : string).
Arguments Ok {A} a.
Arguments Err {A} e.

#[export] Instance result_ret : MRet result := λ A a, Ok a.
#[export] Instance result_bind : MBind result := λ A B f m,
  match m with Ok a => f a | Err e => Err e end.
#[export] Instance result_eq_dec `{EqDecision A} : EqDecision (result A).
Proof. solve_decision. Defined.

Definition is_ok {A} (r : result A) : bool :=
  match r with Ok _ => true | Err _ => false end.

Definition require (b : bool) (e : string) : result unit :=
  if b then Ok tt else Err e.

(** [when] is Go's [if cond { ...may return an error... }]. *)
Definition when (b : bool) (r : result unit) : result unit :=
  if b then r else Ok tt.

Lemma bind_Ok {A B} (r : result A) (f : A → result B) b :
  r ≫= f = Ok b ↔ ∃ a, r = Ok a ∧ f a = Ok b.
Proof. destruct r; naive_solver. Qed.

Lemma require_Ok b e u : require b e = Ok u ↔ b = true.
Proof. destruct b, u; naive_solver. Qed.

Lemma when_Ok b r u : when b r = Ok u ↔ (b = true → r = Ok u).
Proof. destruct b, u; naive_solver. Qed.

(** * Stateful calls that can fail *)

(** A Go call that mutates shared state and returns an error keeps the mutations made
    before the error: the state comes back in both cases. *)
Definition call (S A : Type) : Type := S → result A * S.
#[export] Instance call_ret {S} : MRet (call S) := λ A a s, (Ok a, s).
#[export] Instance call_bind {S} : MBind (call S) := λ A B f m s,
  match m s with
  | (Ok a, s') => f a s'
  | (Err e, s') => (Err e, s')
  end.

(** Reading the state, mutating it, and failing without touching it. *)
Definition gets {S A} (f : S → A) : call S A := λ s, (Ok (f s), s).
Definition modify {S} (f : S → S) : call S unit := λ s, (Ok tt, f s).
Definition lift {S A} (r : result A) : call S A := λ s, (r, s).
Definition fail {S A} (e : string) : call S A := λ s, (Err e, s).
Definition check {S} (b : bool) (e : string) : call S unit := lift (require b e).

Section call_laws.
Context {S : Type}.
Implicit Type s : S.

Lemma call_bind_Ok {A B} (m : call S A) (f : A → call S B) s b s' :
  (m ≫= f) s = (Ok b, s') ↔ ∃ a s1, m s = (Ok a, s1) ∧ f a s1 = (Ok b, s').
Proof. unfold mbind, call_bind. destruct (m s) as [[a|e] s1]; naive_solver. Qed.

Lemma call_bind_Err {A B} (m : call S A) (f : A → call S B) s e s' :
  (m ≫= f) s = (Err e, s') ↔
  m s = (Err e, s') ∨ ∃ a s1, m s = (Ok a, s1) ∧ f a s1 = (Err e, s').
Proof. unfold mbind, call_bind. destruct (m s) as [[a|e'] s1]; naive_solver. Qed.

Lemma check_Ok b e s u s' : check b e s = (Ok u, s') ↔ b = true ∧ s' = s.
Proof. unfold check, lift, require. destruct b, u; naive_solver. Qed.

(** A call all of whose runs relate the state before and after by [R]. *)
Definition preserves {A} (R : S → S → Prop) (m : call S A) : Prop := ∀ s, R s (m s).2.

Context (R : S → S → Prop) `{!Reflexive R, !Transitive R}.

Lemma preserves_bind {A B} (m : call S A) (f : A → call S B) :
  preserves R m → (∀ a, preserves R (f a)) → preserves R (m ≫= f).
Proof.
  intros Hm Hf s. unfold mbind, call_bind. specialize (Hm s).
  destruct (m s) as [[a|e] s1]; [|done]. etrans; [exact Hm|apply Hf].
Qed.
Lemma preserves_ret {A} (a : A) : preserves R (mret a).
Proof. intros s. apply reflexivity. Qed.
Lemma preserves_gets {A} (f : S → A) : preserves R (gets f).
Proof. intros s. apply reflexivity. Qed.
Lemma preserves_lift {A} (r : result A) : preserves R (lift r).
Proof. intros s. apply reflexivity. Qed.
Lemma preserves_fail {A} e : preserves R (fail (A:=A) e).
Proof. intros s. apply reflexivity. Qed.
Lemma preserves_check b e : preserves R (check b e).
Proof. intros s. apply reflexivity. Qed.
Lemma preserves_modify (f : S → S) : (∀ s, R s (f s)) → preserves R (modify f).
Proof. intros Hf s. apply Hf. Qed.
End call_laws.

Create HintDb call.
#[export] Hint Resolve preserves_bind preserves_ret preserves_gets preserves_lift
  preserves_fail preserves_check preserves_modify : call.

(** Splits every bind, guard and conditional of a computation that returned. *)
Ltac ok_inv :=
  repeat match goal with
  | H : (_ ≫= _) = Ok _ |- _ => apply bind_Ok in H as (? & ? & ?)
  | H : require _ _ = Ok _ |- _ => apply require_Ok in H
  | H : Ok _ = Ok _ |- _ => injection H as H; subst
  | H : Err _ = Ok _ |- _ => discriminate H
  | H : Ok _ = Err _ |- _ => discriminate H
  end.

(** The same for calls over a state. *)
Ltac call_inv :=
  repeat match goal with
  | H : (_ ≫= _) _ = (Ok _, _) |- _ => apply call_bind_Ok in H as (? & ? & ? & H)
  | H : check _ _ _ = (Ok _, _) |- _ => apply check_Ok in H as [? ?]; subst
  | H : gets _ _ = (Ok _, _) |- _ => injection H as ? ?; subst
  | H : modify _ _ = (Ok _, _) |- _ => injection H as ? ?; subst
  | H : mret _ _ = (Ok _, _) |- _ => injection H as ? ?; subst
  | H : lift _ _ = (Ok _, _) |- _ => injection H as ? ?; subst
  | H : fail _ _ = (Ok _, _) |- _ => discriminate H
  end.

(** Case analysis on every [match]/[if] in sight, simplifying on the way. *)
Ltac split_matches :=
  repeat (case_match; simplify_eq/=; try done).

(** Turns boolean tests of the code into the propositions they decide. *)
Create Rewrite HintDb go_bool.
#[export] Hint Rewrite andb_true_iff andb_false_iff orb_true_iff orb_false_iff
  negb_true_iff negb_false_iff bool_decide_eq_true bool_decide_eq_false
  Z.ltb_lt Z.ltb_ge Z.leb_le Z.leb_gt Z.eqb_eq Z.eqb_neq : go_bool.

Ltac bools := autorewrite with go_bool in *.

(** * Generic list lemmas *)

Section lists.
Context {A : Type}.
Implicit Types (l : list A) (P : A → Prop).

Lemma filter_idem P `{!∀ x, Decision (P x)} l :
  Forall P l → filter P l = l.
Proof.
  induction 1 as [|x l Hx _ IH]; [done|].
  rewrite filter_cons_True by done. by rewrite IH.
Qed.

Lemma filter_none P `{!∀ x, Decision (P x)} l :
  Forall (λ x, ¬ P x) l → filter P l = [].
Proof.
  induction 1 as [|x l Hx _ IH]; [done|].
  by rewrite filter_cons_False.
Qed.

Lemma length_filter_split P `{!∀ x, Decision (P x)} l :
  (length (filter P l) + length (filter (λ x, ¬ P x) l) = length l)%nat.
Proof.
  induction l as [|x l IH]; [done|]. rewrite !filter_cons.
  destruct (decide (P x)), (decide (¬ P x)); naive_solver lia.
Qed.

Lemma Forall_filter_sub P Q `{!∀ x, Decision (Q x)} l :
  Forall P l → Forall P (filter Q l).
Proof. rewrite !Forall_forall. intros HP x [_ ?]%list_elem_of_filter. auto. Qed.
End lists.

(** A membership-checked distinct count: the number of distinct elements. *)
Lemma NoDup_incl_length `{EqDecision A} (l k : list A) :
  NoDup l → l ⊆ k → (length l ≤ length k)%nat.
Proof. intros Hd Hs. apply submseteq_length, NoDup_submseteq; auto. Qed.

(** Counting one more distinct element outside the ones already seen. *)
Lemma size_insert_unseen `{Countable A} (x : A) (V seen : gset A) :
  x ∉ seen → size (({[x]} ∪ V) ∖ seen) = S (size (V ∖ ({[x]} ∪ seen))).
Proof.
  intros Hn. assert (E : ({[x]} ∪ V) ∖ seen = {[x]} ∪ (V ∖ ({[x]} ∪ seen))).
  { apply leibniz_equiv. intros y. destruct (decide (y = x)) as [->|]; set_solver. }
  rewrite E, size_union by set_solver. by rewrite size_singleton.
Qed.

(** Induction two elements at a time. *)
Lemma list_pair_ind {A} (P : list A → Prop) :
  P [] → (∀ x, P [x]) → (∀ x y l, P l → P (x :: y :: l)) → ∀ l, P l.
Proof.
  intros H0 H1 H2 l. enough (P l ∧ ∀ x, P (x :: l)) by naive_solver.
  induction l as [|y l [IH1 IH2]]; auto.
Qed.

Lemma even_half n : Nat.even n = true → ∃ k, n = (2 * k)%nat.
Proof. intros [k Hk]%Nat.even_spec. by exists k. Qed.

Lemma odd_half n : Nat.odd n = true → ∃ k, n = (2 * k + 1)%nat.
Proof. intros [k Hk]%Nat.odd_spec. by exists k. Qed.
