(* ===== verification/Words.v ===== *)
(** Machine integers, byte encodings and the clock: Go's [uint64]/[int64]
    wrap-around, the little- and big-endian 8-byte encodings the node hashes and
    stores, and [time.Time]/[time.Duration] arithmetic (a saturating [Sub]). *)
From S2P Require Import Prelude.

(** * Fixed-width integers *)

Definition u64 (x : Z) : Z := x mod 2 ^ 64.
Definition i64 (x : Z) : Z := (x + 2 ^ 63) mod 2 ^ 64 - 2 ^ 63.

Definition MaxInt64 : Z := 2 ^ 63 - 1.
Definition MinInt64 : Z := - 2 ^ 63.
Definition MaxUint64 : Z := 2 ^ 64 - 1.

Definition is_int64 (x : Z) : bool := (MinInt64 <=? x) && (x <=? MaxInt64).
Definition is_uint64 (x : Z) : bool := (0 <=? x) && (x <=? MaxUint64).

Create HintDb words discriminated.
Create Rewrite HintDb words.

Lemma u64_range x : 0 ≤ u64 x < 2 ^ 64.
Proof. apply Z.mod_pos_bound. lia. Qed.

Lemma u64_id x : 0 ≤ x < 2 ^ 64 → u64 x = x.
Proof. apply Z.mod_small. Qed.

Lemma u64_idem x : u64 (u64 x) = u64 x.
Proof. apply u64_id, u64_range. Qed.

Lemma i64_range x : - 2 ^ 63 ≤ i64 x < 2 ^ 63.
Proof. unfold i64. pose proof (Z.mod_pos_bound (x + 2 ^ 63) (2 ^ 64)). lia. Qed.

Lemma i64_id x : - 2 ^ 63 ≤ x < 2 ^ 63 → i64 x = x.
Proof. intros ?. unfold i64. rewrite Z.mod_small by lia. lia. Qed.

Lemma u64_i64 x : u64 (i64 x) = u64 x.
Proof.
  unfold u64, i64. rewrite Zminus_mod_idemp_l. f_equal. lia.
Qed.

Lemma is_int64_spec x : is_int64 x = true ↔ - 2 ^ 63 ≤ x < 2 ^ 63.
Proof. unfold is_int64, MinInt64, MaxInt64. bools. lia. Qed.

Lemma is_uint64_spec x : is_uint64 x = true ↔ 0 ≤ x < 2 ^ 64.
Proof. unfold is_uint64, MaxUint64. bools. lia. Qed.

#[export] Hint Resolve u64_range i64_range : words.
#[export] Hint Rewrite u64_idem u64_i64 : words.

(** * Bytes *)

(** A byte is an integer in [0, 256); a byte string is a list of them. *)
Abbreviation bytes := (list Z).

Definition byte_at (v i : Z) : Z := Z.land (Z.shiftr v (8 * i)) 255.

(** [putUint64] (pkg/types/types.go), the loops of [HashBlock], [Mint] and
    [binary.LittleEndian.PutUint64]: byte [i] is [byte(v >> (8*i))]. *)
Definition le64 (v : Z) : bytes := byte_at v <$> [0;1;2;3;4;5;6;7].

(** [binary.BigEndian.PutUint64]. *)
Definition be64 (v : Z) : bytes := byte_at v <$> [7;6;5;4;3;2;1;0].

(** [binary.BigEndian.Uint64], most significant byte first. *)
Definition be_value (b : bytes) : Z := foldl (λ acc x, 256 * acc + x) 0 b.
Definition le_value (b : bytes) : Z := foldr (λ x acc, x + 256 * acc) 0 b.

Lemma byte_at_div v i : 0 ≤ i → byte_at v i = (v / 256 ^ i) mod 256.
Proof.
  intros ?. unfold byte_at. change 255 with (Z.ones 8).
  rewrite Z.land_ones, Z.shiftr_div_pow2 by lia.
  by replace (2 ^ (8 * i)) with (256 ^ i) by (by rewrite Z.pow_mul_r by lia).
Qed.

Lemma byte_at_range v i : 0 ≤ i → 0 ≤ byte_at v i < 256.
Proof. intros ?. rewrite byte_at_div by done. apply Z.mod_pos_bound. lia. Qed.

Lemma le64_length v : length (le64 v) = 8%nat.
Proof. done. Qed.

Lemma be64_length v : length (be64 v) = 8%nat.
Proof. done. Qed.

Lemma le_value_le64 v : 0 ≤ v < 2 ^ 64 → le_value (le64 v) = v.
Proof.
  intros Hv. unfold le64, le_value. cbn [fmap list_fmap foldr].
  rewrite !byte_at_div by lia.
  Z.div_mod_to_equations. lia.
Qed.

Lemma be64_le64 v : be64 v = reverse (le64 v).
Proof. done. Qed.

Lemma be_value_reverse b : be_value (reverse b) = le_value b.
Proof.
  unfold be_value, le_value.
  induction b as [|x b IH]; [done|].
  rewrite reverse_cons, foldl_snoc. cbn. rewrite IH. lia.
Qed.

Lemma be_value_be64 v : 0 ≤ v < 2 ^ 64 → be_value (be64 v) = v.
Proof. intros. rewrite be64_le64, be_value_reverse. by apply le_value_le64. Qed.

Lemma le64_inj v w : 0 ≤ v < 2 ^ 64 → 0 ≤ w < 2 ^ 64 → le64 v = le64 w → v = w.
Proof. intros Hv Hw E. rewrite <-(le_value_le64 v), <-(le_value_le64 w), E; done. Qed.

Lemma be64_inj v w : 0 ≤ v < 2 ^ 64 → 0 ≤ w < 2 ^ 64 → be64 v = be64 w → v = w.
Proof. intros Hv Hw E. rewrite <-(be_value_be64 v), <-(be_value_be64 w), E; done. Qed.

(** * Time *)

(** A [time.Time] is its instant in nanoseconds since the Unix epoch; the zero
    [Time] is January 1 of year 1. A [time.Duration] is an [int64] of nanoseconds. *)
Abbreviation Time := Z (only parsing).
Abbreviation Duration := Z (only parsing).

Definition zero_time : Time := - 62135596800 * 10 ^ 9.
Definition time_is_zero (t : Time) : bool := t =? zero_time.

Definition Millisecond : Duration := 10 ^ 6.
Definition Second : Duration := 10 ^ 9.
Definition Minute : Duration := 60 * Second.
Definition Hour : Duration := 60 * Minute.

(** [t.Sub(u)] saturates at the extreme durations. *)
Definition time_sub (t u : Time) : Duration :=
  Z.max MinInt64 (Z.min MaxInt64 (t - u)).

Definition time_add (t : Time) (d : Duration) : Time := t + d.

Definition unix_milli (t : Time) : Z := i64 (t / Millisecond).
Definition time_of_milli (ms : Z) : Time := ms * Millisecond.

Lemma time_sub_exact t u :
  MinInt64 ≤ t - u ≤ MaxInt64 → time_sub t u = t - u.
Proof. unfold time_sub. lia. Qed.

Lemma time_sub_lt t u d : d ≤ MaxInt64 → MinInt64 < d → time_sub t u < d ↔ t - u < d.
Proof. unfold time_sub. lia. Qed.

Lemma time_sub_ge t u d : MinInt64 < d ≤ MaxInt64 → d ≤ time_sub t u ↔ d ≤ t - u.
Proof. unfold time_sub. lia. Qed.

(** * Lexicographic order of byte strings *)

(** The byte-by-byte comparison of the code's sorts. The arrays it compares have
    one length; a proper prefix, which never occurs there, is placed first so that
    the order is total. *)
Fixpoint bytes_lt (a b : bytes) : bool :=
  match a, b with
  | x :: a, y :: b => if negb (x =? y) then x <? y else bytes_lt a b
  | [], _ :: _ => true
  | _, [] => false
  end.

Definition bytes_le (a b : bytes) : Prop := bytes_lt b a = false.
#[export] Instance bytes_le_dec a b : Decision (bytes_le a b).
Proof. unfold bytes_le. apply _. Defined.

Lemma bytes_lt_irrefl a : bytes_lt a a = false.
Proof. induction a as [|x a IH]; [done|]. cbn. by rewrite Z.eqb_refl. Qed.

Lemma bytes_lt_trans a b c : bytes_lt a b = true → bytes_lt b c = true → bytes_lt a c = true.
Proof.
  revert b c. induction a as [|x a IH]; intros [|y b] [|z c]; cbn; try done.
  destruct (Z.eqb_spec x y), (Z.eqb_spec y z), (Z.eqb_spec x z);
    cbn; bools; intros; try lia; eauto.
Qed.

Lemma bytes_lt_trichotomy a b : bytes_lt a b = true ∨ a = b ∨ bytes_lt b a = true.
Proof.
  revert b. induction a as [|x a IH]; intros [|y b]; cbn; auto.
  destruct (Z.eqb_spec x y) as [->|]; cbn.
  - rewrite Z.eqb_refl. cbn. destruct (IH b) as [|[->|]]; auto.
  - destruct (Z.eqb_spec y x); [lia|]. cbn. bools. lia.
Qed.

#[export] Instance bytes_le_total : Total bytes_le.
Proof.
  intros a b. unfold bytes_le.
  destruct (bytes_lt b a) eqn:E1, (bytes_lt a b) eqn:E2; auto.
  pose proof (bytes_lt_trans a b a E2 E1). by rewrite bytes_lt_irrefl in *.
Qed.

#[export] Instance bytes_le_antisymm : AntiSymm (=) bytes_le.
Proof.
  intros a b. unfold bytes_le. intros E1 E2.
  destruct (bytes_lt_trichotomy a b) as [|[|]]; congruence.
Qed.

#[export] Instance bytes_le_trans : Transitive bytes_le.
Proof.
  intros a b c. unfold bytes_le. intros E1 E2. destruct (bytes_lt c a) eqn:E; [|done].
  destruct (bytes_lt_trichotomy b c) as [H|[->|H]]; [|congruence|congruence].
  pose proof (bytes_lt_trans b c a H E). congruence.
Qed.

(** [sort.Slice] by this comparison: on a total order its result is the one sorted
    permutation of its input. *)
Definition sort_bytes : list bytes → list bytes := merge_sort bytes_le.

Lemma sort_bytes_perm l : sort_bytes l ≡ₚ l.
Proof. apply merge_sort_Permutation. Qed.

Lemma sort_bytes_sorted l : Sorted bytes_le (sort_bytes l).
Proof. apply Sorted_merge_sort, _. Qed.

Lemma sort_bytes_unique l k : l ≡ₚ k → sort_bytes l = sort_bytes k.
Proof.
  intros E. apply (Sorted_unique bytes_le); [apply sort_bytes_sorted..|].
  by rewrite !sort_bytes_perm.
Qed.
