(* ===== verification/Decimal.v ===== *)
(** pkg/decimal: exact rational arithmetic. A [Decimal] wraps a [*big.Rat], which
    is always kept in lowest terms: that is exactly Stdlib's canonical rational
    [Qc], on which equality of values is Leibniz equality. *)
From S2P Require Import Prelude Words.
From Stdlib Require Export QArith Qcanon Lqa.
From Stdlib Require Import DecimalString.
Open Scope Z_scope.

Module Decimal.
Abbreviation Decimal := Qc.

Definition Zero : Decimal := Q2Qc 0.

(** [FromInt(n int64)]. *)
Definition FromInt (n : Z) : Decimal := Q2Qc (inject_Z n).

(** [MustFromString] of a literal of the source, read as the rational it denotes. *)
Definition lit (num : Z) (den : positive) : Decimal := Q2Qc (num # den).

(** [New(num, den int64)]; [big.NewRat] panics on a zero denominator. *)
Definition New (num den : Z) : result Decimal :=
  if den =? 0 then Err "division by zero" else Ok (FromInt num / FromInt den)%Qc.

Definition Add (d o : Decimal) : Decimal := (d + o)%Qc.
Definition Sub (d o : Decimal) : Decimal := (d - o)%Qc.
Definition Mul (d o : Decimal) : Decimal := (d * o)%Qc.

(** [Rat.Sign]: the sign of the numerator. *)
Definition Sign (d : Decimal) : Z := Z.sgn (Qnum d).

(** [Rat.Cmp]. *)
Definition Cmp (d o : Decimal) : Z :=
  match Qccompare d o with Lt => -1 | Eq => 0 | Gt => 1 end.

(** [Div] panics on a zero divisor: the panic is kept as an error. *)
Definition Div (d o : Decimal) : result Decimal :=
  if Sign o =? 0 then Err "decimal: division by zero" else Ok (d / o)%Qc.

Definition IsNeg (d : Decimal) : bool := Sign d <? 0.
Definition Max0 (d : Decimal) : Decimal := if Sign d <? 0 then Zero else d.
Definition Max (a b : Decimal) : Decimal := if 0 <=? Cmp a b then a else b.
Definition Min (a b : Decimal) : Decimal := if Cmp a b <=? 0 then a else b.

(** [Uint64] truncates toward zero; [big.Int.Uint64] keeps the low 64 bits. *)
Definition Uint64 (d : Decimal) : Z := u64 (Z.quot (Qnum d) (Zpos (Qden d))).

(** [String] is [Rat.RatString]: ["a"] when the denominator is 1, else ["a/b"]. *)
Definition int_string (z : Z) : string := NilZero.string_of_int (Z.to_int z).
Definition RatString (d : Decimal) : string :=
  if (Qden d =? 1)%positive then int_string (Qnum d)
  else (int_string (Qnum d) +:+ "/" +:+ int_string (Zpos (Qden d)))%string.
End Decimal.
Export Decimal (Decimal).

(** math/big's [Rat.SetString], the parser behind [FromString]. *)
Class BigRat := SetString : string → option Decimal.
Definition FromString `{BigRat} (s : string) : result Decimal :=
  match SetString s with Some d => Ok d | None => Err "decimal: invalid literal" end.

(** * Arithmetic over [Qc] by reduction to linear arithmetic over [Q] *)

Lemma this_Q2Qc q : (Q2Qc q : Q) == q.
Proof. apply Qred_correct. Qed.

Lemma this_plus (x y : Qc) : ((x + y)%Qc : Q) == x + y.
Proof. apply Qred_correct. Qed.
Lemma this_mult (x y : Qc) : ((x * y)%Qc : Q) == x * y.
Proof. apply Qred_correct. Qed.
Lemma this_opp (x : Qc) : ((- x)%Qc : Q) == - x.
Proof. apply Qred_correct. Qed.
Lemma this_minus (x y : Qc) : ((x - y)%Qc : Q) == x - y.
Proof. unfold Qcminus. rewrite this_plus, this_opp. reflexivity. Qed.
Lemma this_FromInt n : (Decimal.FromInt n : Q) == inject_Z n.
Proof. apply this_Q2Qc. Qed.

Ltac qc_hyp H :=
  first [ setoid_rewrite this_plus in H | setoid_rewrite this_mult in H
        | setoid_rewrite this_minus in H | setoid_rewrite this_opp in H
        | setoid_rewrite this_Q2Qc in H | setoid_rewrite this_FromInt in H ].
Ltac qc_goal :=
  first [ setoid_rewrite this_plus | setoid_rewrite this_mult
        | setoid_rewrite this_minus | setoid_rewrite this_opp
        | setoid_rewrite this_Q2Qc | setoid_rewrite this_FromInt ].

(** Rephrases every [Qc] (in)equality in sight over [Q]. *)
Ltac qc_to_q :=
  unfold Decimal.Add, Decimal.Sub, Decimal.Mul, Decimal.Zero in *;
  repeat match goal with
  | H : @eq Qc ?a ?b |- _ =>
      let H' := fresh in
      assert (H' : (a : Q) == b) by (rewrite H; reflexivity); clear H
  end;
  lazymatch goal with |- @eq Qc _ _ => apply Qc_is_canon | _ => idtac end;
  unfold Qcle, Qclt in *;
  repeat match goal with
  | H : Qeq _ _ |- _ => qc_hyp H
  | H : Qle _ _ |- _ => qc_hyp H
  | H : Qlt _ _ |- _ => qc_hyp H
  end;
  repeat qc_goal.

Ltac qclra := qc_to_q; change (inject_Z 0) with 0%Q in *; change (inject_Z 1) with 1%Q in *; lra.
Ltac qcnra := qc_to_q; change (inject_Z 0) with 0%Q in *; change (inject_Z 1) with 1%Q in *; nra.

(** * Signs and comparisons *)

Section decimal_lemmas.
Import Decimal.
Implicit Types a b d o : Decimal.
Local Open Scope Qc_scope.

Lemma Sign_pos d : (0 < Sign d)%Z ↔ 0 < d.
Proof.
  unfold Sign, Qclt, Qlt. change (this (Q2Qc 0)) with 0%Q. cbn. destruct (Qnum d); cbn; lia.
Qed.
Lemma Sign_neg d : (Sign d < 0)%Z ↔ d < 0.
Proof.
  unfold Sign, Qclt, Qlt. change (this (Q2Qc 0)) with 0%Q. cbn. destruct (Qnum d); cbn; lia.
Qed.
Lemma Sign_zero d : Sign d = 0%Z ↔ d = 0.
Proof.
  split.
  - intros H. apply Qc_is_canon. change (this (Q2Qc 0)) with 0%Q. unfold Qeq, Sign in *.
    cbn. destruct (Qnum d); cbn in *; lia.
  - by intros ->.
Qed.

Lemma Cmp_spec a b :
  Cmp a b = (-1)%Z ∧ a < b ∨ Cmp a b = 0%Z ∧ a = b ∨ Cmp a b = 1%Z ∧ b < a.
Proof.
  unfold Cmp. destruct (Qccompare a b) eqn:E.
  - right; left. split; [done|]. by apply Qceq_alt.
  - left. split; [done|]. by apply Qclt_alt.
  - right; right. split; [done|]. by apply Qcgt_alt.
Qed.

Lemma Cmp_lt a b : (Cmp a b < 0)%Z ↔ a < b.
Proof. destruct (Cmp_spec a b) as [[-> ?]|[[-> ->]|[-> ?]]]; split; intros; try done; try lia; exfalso; qclra. Qed.
Lemma Cmp_gt a b : (0 < Cmp a b)%Z ↔ b < a.
Proof. destruct (Cmp_spec a b) as [[-> ?]|[[-> ->]|[-> ?]]]; split; intros; try done; try lia; exfalso; qclra. Qed.
Lemma Cmp_ge a b : (0 ≤ Cmp a b)%Z ↔ b ≤ a.
Proof. rewrite Qcle_ngt, <-Cmp_lt. lia. Qed.
Lemma Cmp_le a b : (Cmp a b ≤ 0)%Z ↔ a ≤ b.
Proof. rewrite Qcle_ngt, <-Cmp_gt. lia. Qed.
Lemma Cmp_eq a b : Cmp a b = 0%Z ↔ a = b.
Proof. destruct (Cmp_spec a b) as [[-> ?]|[[-> ->]|[-> ?]]]; split; intros; try done; subst; exfalso; qclra. Qed.

Lemma Max0_nonneg d : 0 ≤ Max0 d.
Proof.
  unfold Max0. case_match eqn:E; bools; [unfold Zero; qclra|].
  apply Qcnot_lt_le. rewrite <-Sign_neg. lia.
Qed.
Lemma Max0_ge d : d ≤ Max0 d.
Proof.
  unfold Max0. case_match eqn:E; bools; [|apply Qcle_refl].
  apply Sign_neg in E. unfold Zero. qclra.
Qed.
Lemma Min_le_l a b : Min a b ≤ a.
Proof.
  unfold Min. case_match eqn:E; bools; [apply Qcle_refl|].
  apply Cmp_gt in E. qclra.
Qed.
Lemma Min_le_r a b : Min a b ≤ b.
Proof. unfold Min. case_match eqn:E; bools; [by apply Cmp_le|apply Qcle_refl]. Qed.
Lemma Min_cases a b : Min a b = a ∨ Min a b = b.
Proof. unfold Min. case_match; auto. Qed.

Lemma Div_Ok d o : o ≠ 0 → Div d o = Ok (d / o).
Proof.
  intros Ho. unfold Div. case_match eqn:E; [|done].
  by apply Z.eqb_eq, Sign_zero in E.
Qed.
Lemma Div_mul d o : o ≠ 0 → (d / o) * o = d.
Proof. intros. rewrite Qcmult_comm. by apply Qcmult_div_r. Qed.

Lemma FromInt_add n m : FromInt (n + m) = FromInt n + FromInt m.
Proof. apply Qc_is_canon. qc_to_q. rewrite inject_Z_plus. reflexivity. Qed.
Lemma FromInt_mul n m : FromInt (n * m) = FromInt n * FromInt m.
Proof. apply Qc_is_canon. qc_to_q. rewrite inject_Z_mult. reflexivity. Qed.
Lemma FromInt_le n m : FromInt n ≤ FromInt m ↔ (n ≤ m)%Z.
Proof. unfold Qcle. rewrite !this_FromInt. by rewrite Zle_Qle. Qed.
Lemma FromInt_lt n m : FromInt n < FromInt m ↔ (n < m)%Z.
Proof. unfold Qclt. rewrite !this_FromInt. by rewrite Zlt_Qlt. Qed.
Lemma FromInt_inj n m : FromInt n = FromInt m → n = m.
Proof. intros E. apply Z.le_antisymm; apply FromInt_le; rewrite E; apply Qcle_refl. Qed.

(** Truncation brackets a non-negative decimal that fits in 64 bits. *)
Lemma Uint64_floor d :
  0 ≤ d → d < FromInt (2 ^ 64) →
  FromInt (Uint64 d) ≤ d ∧ d < FromInt (Uint64 d) + 1.
Proof.
  unfold Uint64, Qcle, Qclt. rewrite this_plus, !this_FromInt, !this_Q2Qc.
  destruct d as [[n p] Hc]; cbn. unfold Qle, Qlt; cbn. intros Hn Hlt.
  assert (0 <= n)%Z by lia.
  rewrite Z.quot_div_nonneg by lia.
  assert (0 <= n / Zpos p < 2 ^ 64)%Z.
  { split; [apply Z.div_pos; lia|]. apply Z.div_lt_upper_bound; lia. }
  rewrite u64_id by lia.
  pose proof (Z.div_mod n (Zpos p) ltac:(lia)).
  pose proof (Z.mod_pos_bound n (Zpos p) ltac:(lia)). lia.
Qed.
End decimal_lemmas.

#[export] Hint Rewrite Sign_pos Sign_neg Cmp_lt Cmp_gt Cmp_ge Cmp_le Cmp_eq : go_bool.
