(* ===== verification/Hashing.v ===== *)
(** pkg/types/types.go: 32-byte identifiers, their hexadecimal and JSON text
    forms, and the length-framed hash [SumHash] every identifier in the node is
    derived with. SHA-256 itself is a parameter: nothing below depends on how it
    computes, only on the fact that it is a function of the bytes it is fed. *)
From S2P Require Import Prelude Words.
From Stdlib Require Import Ascii.

(** A [types.Hash], [types.NFTID] or [types.Address]: its 32 bytes. *)
Abbreviation Hash := (list Z).
Abbreviation NFTID := (list Z).
Abbreviation Address := (list Z).

Definition hash_zero : Hash := replicate 32 0.

(** [Hash.IsZero] and [NFTID.IsZero]. *)
Definition IsZero (h : Hash) : bool := bool_decide (h = hash_zero).

(** crypto/sha256: [Sum256]. *)
Class Sha256 := sha256 : bytes → Hash.

(** * SumHash *)

Section sumhash.
Context `{Sha256}.

(** One hashed field: its length on 8 little-endian bytes, then its bytes. *)
Definition frame (p : bytes) : bytes := le64 (Z.of_nat (length p)) ++ p.
Definition frames (parts : list bytes) : bytes := concat (frame <$> parts).
Definition SumHash (parts : list bytes) : Hash := sha256 (frames parts).

(** Two inputs with the same digest. *)
Definition collision : Prop := ∃ x y : bytes, x ≠ y ∧ sha256 x = sha256 y.

(** [AddressFromPubkey] and [Address.Truncated] hash the raw bytes. *)
Definition AddressFromPubkey (pk : bytes) : Address := sha256 pk.
End sumhash.

(** SHA-256 digests are 32 bytes long. *)
Class Sha256Length `{Sha256} : Prop := sha256_length : ∀ b, length (sha256 b) = 32%nat.

(** Byte strings a Go slice can hold: fewer than 2^64 bytes. *)
Definition slice_ok (p : bytes) : Prop := Z.of_nat (length p) < 2 ^ 64.

Lemma frame_app_inj p q r s :
  slice_ok p → slice_ok q → frame p ++ r = frame q ++ s → p = q ∧ r = s.
Proof.
  unfold slice_ok, frame. intros Hp Hq. rewrite <-!app_assoc. intros E.
  apply app_inj_1 in E as [El E]; [|done].
  apply le64_inj in El; [|lia..].
  apply app_inj_1 in E; [done|lia].
Qed.

Lemma frame_nonempty p r : frame p ++ r ≠ [].
Proof. done. Qed.

Lemma frames_inj ps qs :
  Forall slice_ok ps → Forall slice_ok qs → frames ps = frames qs → ps = qs.
Proof.
  intros Hps. revert qs. induction Hps as [|p ps Hp _ IH]; intros qs Hqs E.
  - destruct qs; [done|]. discriminate E.
  - destruct Hqs as [|q qs Hq Hqs]; [discriminate E|].
    unfold frames in E. cbn in E.
    apply frame_app_inj in E as [-> E]; [|done..]. by rewrite (IH qs).
Qed.

(** Equal digests mean equal field sequences, unless SHA-256 collides: the
    "domain separation between fields" [SumHash] promises. *)
Lemma SumHash_inj `{Sha256} ps qs :
  Forall slice_ok ps → Forall slice_ok qs →
  SumHash ps = SumHash qs → ps = qs ∨ collision.
Proof.
  intros Hp Hq E. destruct (decide (frames ps = frames qs)) as [Ef|Hne].
  - left. by apply frames_inj.
  - right. by exists (frames ps), (frames qs).
Qed.

Lemma hash_slice_ok (h : Hash) : length h = 32%nat → slice_ok h.
Proof. unfold slice_ok. lia. Qed.

(** Two hashes of pairs of digests: equal halves or a collision. *)
Lemma SumHash_pair_inj `{Sha256} (a b c d : Hash) :
  Forall (λ h : Hash, length h = 32%nat) [a; b; c; d] →
  SumHash [a; b] = SumHash [c; d] → (a = c ∧ b = d) ∨ collision.
Proof.
  intros Hl E. repeat (apply Forall_cons in Hl as [? Hl]).
  apply SumHash_inj in E as [E|]; [|by right|..].
  - left. apply (inj2 cons) in E as [-> E]. by apply (inj2 cons) in E as [-> _].
  - repeat constructor; by apply hash_slice_ok.
  - repeat constructor; by apply hash_slice_ok.
Qed.

(** * Hexadecimal text *)

Definition hex_digit (d : Z) : ascii :=
  ascii_of_nat (Z.to_nat (if d <? 10 then 48 + d else 87 + d)).

(** encoding/hex: lower-case digits, high nibble first. *)
Fixpoint hex_encode (b : bytes) : string :=
  match b with
  | [] => EmptyString
  | x :: b => String (hex_digit (x / 16)) (String (hex_digit (x mod 16)) (hex_encode b))
  end.

(** [fromHexChar]: both cases are accepted. *)
Definition hex_value (c : ascii) : option Z :=
  let n := Z.of_nat (nat_of_ascii c) in
  if (48 <=? n) && (n <=? 57) then Some (n - 48)
  else if (97 <=? n) && (n <=? 102) then Some (n - 87)
  else if (65 <=? n) && (n <=? 70) then Some (n - 55)
  else None.

Fixpoint hex_decode (s : string) : result bytes :=
  match s with
  | EmptyString => Ok []
  | String _ EmptyString => Err "encoding/hex: odd length hex string"
  | String c1 (String c2 s) =>
      match hex_value c1, hex_value c2 with
      | Some h, Some l => rest ← hex_decode s; Ok (16 * h + l :: rest)
      | _, _ => Err "encoding/hex: invalid byte"
      end
  end.

(** The quotation mark of JSON strings. *)
Definition quote : string := String (ascii_of_nat 34) EmptyString.

Definition marshalHexJSON (b : bytes) : string := (quote +:+ hex_encode b +:+ quote)%string.

Fixpoint drop_last (s : string) : string :=
  match s with
  | EmptyString | String _ EmptyString => EmptyString
  | String c s => String c (drop_last s)
  end.
Fixpoint last_char (s : string) : option ascii :=
  match s with
  | EmptyString => None
  | String c EmptyString => Some c
  | String _ s => last_char s
  end.

(** [unmarshalHexJSON(b, out)]: [n] is [len(out)]. *)
Definition unmarshalHexJSON (s : string) (n : nat) : result bytes :=
  let q := ascii_of_nat 34 in
  match s with
  | String c ((String _ _) as rest) =>
      if bool_decide (c = q) && bool_decide (last_char rest = Some q) then
        decoded ← hex_decode (drop_last rest);
        _ ← require (bool_decide (length decoded = n)) "types: wrong byte count";
        Ok decoded
      else Err "types: invalid JSON hex string"
  | _ => Err "types: invalid JSON hex string"
  end.

(** [ParseHash] and [UnmarshalText]. *)
Definition ParseHash (s : string) : result Hash :=
  b ← hex_decode s;
  _ ← require (bool_decide (length b = 32%nat)) "types: hash must be 32 bytes";
  Ok b.

Definition is_bytes (b : bytes) : Prop := Forall (λ x, 0 ≤ x < 256) b.

Lemma hex_value_digit d : 0 ≤ d < 16 → hex_value (hex_digit d) = Some d.
Proof.
  intros Hd. assert (Hc : d ∈ seqZ 0 16) by (apply elem_of_seqZ; lia).
  vm_compute in Hc. repeat (apply elem_of_cons in Hc as [->|Hc]; [done|]).
  by apply elem_of_nil in Hc.
Qed.

Lemma hex_decode_encode b : is_bytes b → hex_decode (hex_encode b) = Ok b.
Proof.
  induction 1 as [|x b Hx _ IH]; [done|]. cbn.
  rewrite !hex_value_digit by (Z.div_mod_to_equations; lia).
  rewrite IH. cbn -[Z.mul Z.add]. do 2 f_equal. symmetry. by apply Z.div_mod.
Qed.

Lemma drop_last_app s c : drop_last (s +:+ String c EmptyString)%string = s.
Proof.
  induction s as [|d s IH]; [done|]. destruct s as [|e s]; [done|].
  change (String d (drop_last (String e s +:+ String c EmptyString)) = String d (String e s)).
  by rewrite IH.
Qed.
Lemma last_char_app s c : last_char (s +:+ String c EmptyString)%string = Some c.
Proof.
  induction s as [|d s IH]; [done|]. destruct s as [|e s]; [done|].
  change (last_char (String e s +:+ String c EmptyString)%string = Some c). by rewrite IH.
Qed.

Lemma hex_encode_inj b c : is_bytes b → is_bytes c → hex_encode b = hex_encode c → b = c.
Proof.
  intros Hb Hc E. apply hex_decode_encode in Hb, Hc. rewrite E in Hb. congruence.
Qed.

Lemma unmarshal_marshal_hex b :
  is_bytes b → unmarshalHexJSON (marshalHexJSON b) (length b) = Ok b.
Proof.
  intros Hb. unfold unmarshalHexJSON, marshalHexJSON, quote.
  set (q := ascii_of_nat 34). cbn [String.append].
  destruct (hex_encode b +:+ String q EmptyString)%string as [|c r] eqn:E.
  { by destruct (hex_encode b). }
  change (String q EmptyString +:+ String c r)%string with (String q (String c r)).
  cbv iota. rewrite <-E, last_char_app, drop_last_app, !bool_decide_true by done. cbn [andb].
  rewrite hex_decode_encode by done. cbn. by rewrite bool_decide_true.
Qed.
