(* ===== verification/Types.v ===== *)
(** pkg/types/models.go: the data model every component shares (transactions and
    their per-kind public inputs, votes, blocks, NFT and Bank records), and the
    hashes that bind them: transaction ids, vote commitments and block hashes. *)
From S2P Require Import Prelude Words Decimal Hashing.

(** * Transactions *)

(** [TxKind] is a [uint8]; [TxUnknown k] stands for the values above
    [TxNFTTransfer], which Stage 2 rejects. *)
Inductive TxKind :=
| TxTransfer | TxMint | TxVote | TxBankDeposit | TxBankWithdraw | TxNFTTrait
| TxContainerSync | TxVoteReveal | TxNFTMint | TxUnstake | TxNFTTransfer
| TxUnknown (k : Z).
#[export] Instance TxKind_eq_dec : EqDecision TxKind.
Proof. solve_decision. Defined.

Definition TxKind_String (k : TxKind) : string :=
  match k with
  | TxTransfer => "Transfer" | TxMint => "Mint" | TxVote => "Vote"
  | TxBankDeposit => "BankDeposit" | TxBankWithdraw => "BankWithdraw"
  | TxNFTTrait => "NFTTrait" | TxContainerSync => "ContainerSync"
  | TxVoteReveal => "VoteReveal" | TxNFTMint => "NFTMint" | TxUnstake => "Unstake"
  | TxNFTTransfer => "NFTTransfer" | TxUnknown _ => "Unknown"
  end%string.

(** [StageSet] is a [uint8] bit set over the five stages. *)
Module StageSet.
Definition Has (s stage : Z) : bool :=
  (1 <=? stage) && (stage <=? 5) && negb (Z.land s (Z.shiftl 1 (stage - 1)) =? 0).
Definition With (s stage : Z) : Z :=
  if (stage <? 1) || (5 <? stage) then s else Z.lor s (Z.shiftl 1 (stage - 1)).
Definition Complete (s : Z) : bool := s =? 31.
End StageSet.

(** [AssetID]s. *)
Definition AssetSFG : string := "SFG".
Definition AssetBTC : string := "BTC".
Definition AssetETH : string := "ETH".

Record TransferPublicInputs := {
  tpi_MerkleRoot : Hash; tpi_Nullifiers : list Hash;
  tpi_OutCommits : list Hash; tpi_FeeAmount : Z }.
Record UnstakePublicInputs := {
  upi_MerkleRoot : Hash; upi_Principal : Z; upi_StartEpoch : Z; upi_FinalAmount : Z }.
Record NFTTransferPublicInputs := { ntpi_Target : NFTID; ntpi_NewOwner : Address }.
Record BankPublicInputs := {
  bpi_Asset : string; bpi_OraclePriceUSD : Decimal; bpi_ATRUSD : Decimal;
  bpi_BufferUSD : Decimal }.
Record VotePublicInputs := {
  vpi_ProposalID : string; vpi_Commitment : Hash;
  vpi_ParamKey : string; vpi_NewValue : string;
  vpi_MintAmount : Z; vpi_MintOutCommit : Hash; vpi_MintProof : bytes;
  vpi_MintStaked : bool; vpi_StakePositionCommit : Hash; vpi_StakeProof : bytes;
  vpi_SlashTargetNFT : NFTID; vpi_SlashBurn : bool;
  vpi_UnlockTransferTarget : NFTID; vpi_ContainerAssetTarget : string;
  vpi_UnwindDualSign : bool }.
Record VoteRevealPublicInputs := {
  vrpi_ProposalID : string; vrpi_Approve : bool; vrpi_Nonce : Hash }.
Record VoteEligibilityProof := {
  vep_Proof : bytes; vep_MerkleRoot : Hash; vep_Nullifier : Hash }.
Record TraitPublicInputs := { trpi_Key : string; trpi_DeltaCommitment : Hash }.
Record NFTMintPublicInputs := {
  nmpi_Owner : Address; nmpi_Nonce : Z; nmpi_AttestationIssuedAtMs : Z;
  nmpi_Attestor : bytes; nmpi_AttestationSig : bytes; nmpi_VoterCommitment : Hash }.

Record ShieldedTx := {
  tx_TxID : Hash; tx_Nullifier : Hash; tx_Commitments : list Hash; tx_Proof : bytes;
  tx_FeeCommit : Hash; tx_Memo : bytes; tx_Sig : bytes; tx_SignerPubKey : bytes;
  tx_ClassicalSig : bytes; tx_ClassicalPubKey : bytes;
  tx_Kind : TxKind; tx_StageHints : Z; tx_ContainerID : option string;
  tx_Bank : option BankPublicInputs; tx_Vote : option VotePublicInputs;
  tx_VoteReveal : option VoteRevealPublicInputs; tx_Trait : option TraitPublicInputs;
  tx_NFTMint : option NFTMintPublicInputs; tx_VoteEligibility : option VoteEligibilityProof;
  tx_Transfer : option TransferPublicInputs; tx_Unstake : option UnstakePublicInputs;
  tx_NFTTransfer : option NFTTransferPublicInputs }.

(** [t.StageHints = t.StageHints.With(n)]. *)
Definition with_stage (n : Z) (t : ShieldedTx) : ShieldedTx :=
  {| tx_TxID := tx_TxID t; tx_Nullifier := tx_Nullifier t;
     tx_Commitments := tx_Commitments t; tx_Proof := tx_Proof t;
     tx_FeeCommit := tx_FeeCommit t; tx_Memo := tx_Memo t; tx_Sig := tx_Sig t;
     tx_SignerPubKey := tx_SignerPubKey t; tx_ClassicalSig := tx_ClassicalSig t;
     tx_ClassicalPubKey := tx_ClassicalPubKey t; tx_Kind := tx_Kind t;
     tx_StageHints := StageSet.With (tx_StageHints t) n;
     tx_ContainerID := tx_ContainerID t; tx_Bank := tx_Bank t; tx_Vote := tx_Vote t;
     tx_VoteReveal := tx_VoteReveal t; tx_Trait := tx_Trait t;
     tx_NFTMint := tx_NFTMint t; tx_VoteEligibility := tx_VoteEligibility t;
     tx_Transfer := tx_Transfer t; tx_Unstake := tx_Unstake t;
     tx_NFTTransfer := tx_NFTTransfer t |}.

(** Go's zero value [types.ShieldedTx{}], its id and kind set. *)
Definition zero_tx (id : Hash) (kind : TxKind) : ShieldedTx :=
  {| tx_TxID := id; tx_Nullifier := hash_zero; tx_Commitments := []; tx_Proof := [];
     tx_FeeCommit := hash_zero; tx_Memo := []; tx_Sig := []; tx_SignerPubKey := [];
     tx_ClassicalSig := []; tx_ClassicalPubKey := []; tx_Kind := kind; tx_StageHints := 0;
     tx_ContainerID := None; tx_Bank := None; tx_Vote := None; tx_VoteReveal := None;
     tx_Trait := None; tx_NFTMint := None; tx_VoteEligibility := None; tx_Transfer := None;
     tx_Unstake := None; tx_NFTTransfer := None |}.

(** * Mint fees *)

Definition MintFeeNumerator : Z := 1.
Definition MintFeeDenominator : Z := 10.
Definition MintFeeAmount (amount : Z) : Z :=
  u64 (amount * MintFeeNumerator) / MintFeeDenominator.
Definition MintNetAmount (amount : Z) : Z := u64 (amount - MintFeeAmount amount).

(** * Votes, blocks and records *)

Record Vote := { v_Validator : NFTID; v_StateRoot : Hash; v_Sig : bytes }.

Record Block := {
  b_Height : Z; b_Epoch : Z; b_PrevHash : Hash; b_Timestamp : Z;
  b_Batch : list ShieldedTx; b_TxRoot : Hash; b_StateRoot : Hash; b_DARoot : Hash;
  b_Proposer : NFTID; b_ProposerSig : bytes; b_Votes : list Vote; b_DualTrack : bool }.

Record ValidatorNFT := {
  nft_ID : NFTID; nft_Owner : Address; nft_MintedAt : Z;
  nft_Traits : gmap string string; nft_TP : Z; nft_Slashed : bool }.

Record QueueItem := {
  qi_NFT : NFTID; qi_Address : Address; qi_JoinedAt : Z; qi_LastBeat : Z;
  qi_CooldownUntil : Z; qi_TP : Z }.

Inductive HoldStatus := HoldOpen | HoldLocked24h | HoldClosing | HoldClosed.
#[export] Instance HoldStatus_eq_dec : EqDecision HoldStatus.
Proof. solve_decision. Defined.

Record ATRPoint := { ap_Timestamp : Z; ap_ATRUSD : Decimal }.

Record BankHold := {
  bh_HoldID : Hash; bh_Owner : Address; bh_ExternalAsset : string;
  bh_ExternalAmount : Decimal; bh_EntryPriceUSD : Decimal; bh_EntryATR : Decimal;
  bh_EntryBuffer : Decimal; bh_EntryFee : Decimal; bh_SFGIssued : Z; bh_OpenedAt : Z;
  bh_DailySnapshots : list ATRPoint; bh_Status : HoldStatus; bh_CycleCount30d : Z }.

(** * Hashes *)

(** The bytes of a string ([[]byte(s)]). *)
Fixpoint string_bytes (s : string) : bytes :=
  match s with
  | EmptyString => []
  | String c s => Z.of_nat (Ascii.nat_of_ascii c) :: string_bytes s
  end.

Section hashes.
Context `{Sha256}.

Definition txid_parts (proof : bytes) (commitments : list Hash) (nullifier : Hash) : list bytes :=
  proof :: commitments ++ [nullifier].
Definition ComputeTxID (proof : bytes) (commitments : list Hash) (nullifier : Hash) : Hash :=
  SumHash (txid_parts proof commitments nullifier).

Definition VoteEligibilityScope (proposalID : string) : Hash :=
  SumHash [string_bytes "shadowforge-vote-eligibility-scope-v1"; string_bytes proposalID].

Definition ComputeVoteCommitment (voter : Hash) (approve : bool) (nonce : Hash) : Hash :=
  SumHash [voter; [if approve then 1 else 0]; nonce].

Definition header_parts (b : Block) : list bytes :=
  [le64 (b_Height b); le64 (b_Epoch b); b_PrevHash b; le64 (u64 (b_Timestamp b));
   b_TxRoot b; b_StateRoot b; b_DARoot b; b_Proposer b; [if b_DualTrack b then 1 else 0]].
Definition HashBlock (b : Block) : Hash := SumHash (header_parts b).
End hashes.

(** * Lemmas *)

(** What the Go types guarantee of a block: machine-width integers and 32-byte
    arrays. *)
Record block_wf (b : Block) : Prop := {
  bwf_height : 0 ≤ b_Height b < 2 ^ 64;
  bwf_epoch : 0 ≤ b_Epoch b < 2 ^ 64;
  bwf_time : - 2 ^ 63 ≤ b_Timestamp b < 2 ^ 63;
  bwf_hashes : Forall (λ h : Hash, length h = 32%nat)
    [b_PrevHash b; b_TxRoot b; b_StateRoot b; b_DARoot b; b_Proposer b] }.

(** The header fields a block hash commits to. *)
Definition same_header (b c : Block) : Prop :=
  b_Height b = b_Height c ∧ b_Epoch b = b_Epoch c ∧ b_PrevHash b = b_PrevHash c ∧
  b_Timestamp b = b_Timestamp c ∧ b_TxRoot b = b_TxRoot c ∧
  b_StateRoot b = b_StateRoot c ∧ b_DARoot b = b_DARoot c ∧
  b_Proposer b = b_Proposer c ∧ b_DualTrack b = b_DualTrack c.

Lemma u64_inj_int64 x y :
  - 2 ^ 63 ≤ x < 2 ^ 63 → - 2 ^ 63 ≤ y < 2 ^ 63 → u64 x = u64 y → x = y.
Proof.
  intros Hx Hy E. rewrite <-(i64_id x), <-(i64_id y) by done.
  unfold i64, u64 in *. rewrite <-(Zplus_mod_idemp_l x), <-(Zplus_mod_idemp_l y). by rewrite E.
Qed.

Lemma header_parts_slice_ok b : block_wf b → Forall slice_ok (header_parts b).
Proof.
  intros [_ _ _ Hh]. unfold slice_ok, header_parts.
  repeat match goal with H : Forall _ (_ :: _) |- _ => apply Forall_cons in H as [? H] end.
  repeat constructor; rewrite ?le64_length; cbn; lia.
Qed.

Lemma header_parts_inj b c :
  block_wf b → block_wf c → header_parts b = header_parts c → same_header b c.
Proof.
  intros [Hb1 Hb2 Hb3 _] [Hc1 Hc2 Hc3 _] E. unfold header_parts in E.
  repeat match goal with
  | E : @eq (list bytes) (_ :: _) (_ :: _) |- _ => apply (inj2 cons) in E as [? E]
  end.
  repeat split; try done.
  - by apply le64_inj.
  - by apply le64_inj.
  - apply u64_inj_int64; [done..|]. by apply le64_inj; [apply u64_range..|].
  - by destruct (b_DualTrack b), (b_DualTrack c).
Qed.

Lemma txid_parts_inj p cs n p' cs' n' :
  txid_parts p cs n = txid_parts p' cs' n' → p = p' ∧ cs = cs' ∧ n = n'.
Proof.
  unfold txid_parts. intros [-> E]%(inj2 cons). apply app_inj_tail in E as [-> ->]. done.
Qed.

Lemma with_stage_kind n t : tx_Kind (with_stage n t) = tx_Kind t.
Proof. done. Qed.

(** The stage bit set behaves as a set: a stage is in [With s n] iff it is stage
    [n] or was already there. *)
Lemma StageSet_Has_With s n m :
  0 ≤ s → 1 ≤ n ≤ 5 → 1 ≤ m ≤ 5 →
  StageSet.Has (StageSet.With s n) m = bool_decide (n = m) || StageSet.Has s m.
Proof.
  intros Hs Hn Hm. unfold StageSet.Has, StageSet.With.
  replace ((n <? 1) || (5 <? n)) with false by (symmetry; bools; lia).
  replace ((1 <=? m) && (m <=? 5)) with true by (symmetry; bools; lia). cbn [andb].
  assert (Ht : ∀ a, (Z.land a (Z.shiftl 1 (m - 1)) =? 0) = negb (Z.testbit a (m - 1))).
  { intros a. rewrite Z.shiftl_1_l. destruct (Z.testbit a (m - 1)) eqn:E; cbn.
    - apply Z.eqb_neq. intros H0. apply (f_equal (λ z, Z.testbit z (m - 1))) in H0.
      rewrite Z.land_spec, E, Z.pow2_bits_true, Z.bits_0 in H0 by lia. done.
    - apply Z.eqb_eq. apply Z.bits_inj'. intros k Hk. rewrite Z.land_spec, Z.bits_0.
      destruct (decide (k = m - 1)) as [->|]; [by rewrite E|].
      rewrite Z.pow2_bits_false by lia. apply andb_false_r. }
  rewrite !Ht, !negb_involutive, Z.lor_spec, Z.shiftl_1_l.
  case_bool_decide as Hnm.
  - subst. rewrite Z.pow2_bits_true by lia. apply orb_true_r.
  - rewrite Z.pow2_bits_false by lia. apply orb_false_r.
Qed.

(** The mint fee and the net amount split the requested amount exactly. *)
Lemma MintNetAmount_split amount :
  0 ≤ amount < 2 ^ 64 →
  MintNetAmount amount + MintFeeAmount amount = amount ∧ 0 ≤ MintFeeAmount amount.
Proof.
  intros Ha. unfold MintNetAmount, MintFeeAmount, MintFeeNumerator, MintFeeDenominator.
  rewrite Z.mul_1_r, !(u64_id amount) by done.
  rewrite u64_id by (Z.div_mod_to_equations; lia). Z.div_mod_to_equations; lia.
Qed.
