(* ===== verification/Epoch.v ===== *)
(** pkg/consensus/epoch.go and pkg/staking/yield.go: the epoch clock (durations
    growing by 11/10 per epoch up to a one-year cap, elapsed time between epochs,
    the current epoch at an instant) and the staking yield computed from it.

    The two loops of the Go code run on fuel 97: an epoch's duration reaches the
    cap at epoch 96, where both loops leave. *)
From S2P Require Import Prelude Words Decimal.

Definition EpochGrowthNumerator : Z := 11.
Definition EpochGrowthDenominator : Z := 10.
Definition EpochCapMillis : Z := 365 * 24 * 60 * 60 * 1000.
Definition hourMillis : Z := 60 * 60 * 1000.

(** [durationMillis(n)]: the rational [(11/10)^n] hours, in lowest terms as
    [big.Rat] keeps it, rounded to the nearest millisecond and capped. *)
Definition durationMillis (n : Z) : Z :=
  let num := EpochGrowthNumerator ^ n in
  let den := EpochGrowthDenominator ^ n in
  let r := Qcmult (Q2Qc (num # Z.to_pos den)) (Decimal.FromInt hourMillis) in
  let q := Z.quot (Qnum r * 2 + Zpos (Qden r)) (Zpos (Qden r) * 2) in
  if negb (is_int64 q) || (EpochCapMillis <? q) then EpochCapMillis else q.

Definition EpochDuration (n : Z) : Duration := i64 (durationMillis n * Millisecond).

Fixpoint elapsed_loop (fuel : nat) (n toEpoch total : Z) : option Z :=
  match fuel with
  | O => None
  | S fuel =>
      if n <? toEpoch then
        let d := durationMillis n in
        if EpochCapMillis <=? d then
          let remaining := u64 (toEpoch - n) in
          let capped := i64 remaining * EpochCapMillis + total in
          Some (if is_int64 capped then capped else MaxInt64)
        else elapsed_loop fuel (u64 (n + 1)) toEpoch (i64 (total + d))
      else Some total
  end.

Definition ElapsedMillis (fromEpoch toEpoch : Z) : Z :=
  if toEpoch <=? fromEpoch then 0
  else default 0 (elapsed_loop 97 fromEpoch toEpoch 0).

(** The walk of [CurrentEpoch]: the epoch reached and the milliseconds left. *)
Fixpoint epoch_loop (fuel : nat) (n elapsed : Z) : option (Z * Z) :=
  match fuel with
  | O => None
  | S fuel =>
      let d := durationMillis n in
      if EpochCapMillis <=? d then Some (n, elapsed)
      else if elapsed <? d then Some (n, 0)
      else epoch_loop fuel (u64 (n + 1)) (i64 (elapsed - d))
  end.

Definition CurrentEpoch (genesis : Z) (now : Time) : Z :=
  let elapsed := i64 (unix_milli now - genesis) in
  if elapsed <? 0 then 0
  else match epoch_loop 97 0 elapsed with
       | Some (n, rest) => u64 (n + u64 (Z.quot rest EpochCapMillis))
       | None => 0
       end.

(** * Staking yield (pkg/staking) *)

Definition YieldNumerator : Z := 2.
Definition YieldDenominator : Z := 100.
Definition millisPerYear : Z := 365 * 24 * 60 * 60 * 1000.

Definition YieldAmount (principal startEpoch endEpoch : Z) : Z :=
  if (principal =? 0) || (endEpoch <=? startEpoch) then 0
  else
    let elapsed := ElapsedMillis startEpoch endEpoch in
    if elapsed <=? 0 then 0
    else
      let num := principal * YieldNumerator * elapsed in
      let den := YieldDenominator * millisPerYear in
      let q := Z.quot num den in
      if negb (is_uint64 q) then MaxUint64 else q.

Definition FinalAmount (principal startEpoch endEpoch : Z) : Z :=
  u64 (principal + YieldAmount principal startEpoch endEpoch).

(** * Specification *)

(** Total length of [len] consecutive epochs starting at [from]. *)
Definition span_millis (from len : Z) : Z :=
  foldr Z.add 0 (durationMillis <$> seqZ from len).

(** * Lemmas: epoch durations *)

Lemma round_half_up_scale (N D k : Z) :
  0 < D → 0 < k → (2 * (k * N) + k * D) / (2 * (k * D)) = (2 * N + D) / (2 * D).
Proof.
  intros. rewrite <-(Z.div_mul_cancel_l (2 * N + D) (2 * D) k) by lia. f_equal; lia.
Qed.

(** The reduction to lowest terms does not change the rounded value. *)
Lemma durationMillis_unreduced n :
  0 ≤ n →
  durationMillis n =
  Z.min EpochCapMillis ((2 * (11 ^ n * hourMillis) + 10 ^ n) / (2 * 10 ^ n)).
Proof.
  intros Hn. unfold durationMillis, EpochGrowthNumerator, EpochGrowthDenominator.
  assert (0 < 10 ^ n) by (apply Z.pow_pos_nonneg; lia).
  assert (0 < 11 ^ n) by (apply Z.pow_pos_nonneg; lia).
  set (r := Qcmult _ _).
  assert (Hr : (r : Q) == (11 ^ n * hourMillis) # Z.to_pos (10 ^ n)).
  { unfold r. rewrite this_mult, this_Q2Qc, this_FromInt.
    unfold Qeq; cbn. lia. }
  destruct r as [[N D] Hc]; cbn [this Qnum Qden] in *. unfold Qeq in Hr. cbn [Qnum Qden] in Hr.
  rewrite Z2Pos.id in Hr by done.
  set (A := 11 ^ n * hourMillis) in *. set (B := 10 ^ n) in *.
  assert (0 < A) by (unfold A, hourMillis; lia). assert (0 < N) by nia.
  assert (E : Z.quot (N * 2 + Zpos D) (Zpos D * 2) = (2 * A + B) / (2 * B)).
  { rewrite Z.quot_div_nonneg by lia. rewrite (Z.mul_comm N), (Z.mul_comm (Zpos D)).
    rewrite <-(round_half_up_scale A B (Zpos D)) by lia.
    rewrite <-(round_half_up_scale N (Zpos D) B) by lia.
    f_equal; lia. }
  rewrite E. set (q := (2 * A + B) / (2 * B)).
  assert (0 ≤ q) by (apply Z.div_pos; lia).
  unfold is_int64, MinInt64, MaxInt64, EpochCapMillis.
  destruct (_ || _) eqn:Eb; bools; lia.
Qed.

Lemma durationMillis_bounds n : 0 ≤ n → hourMillis ≤ durationMillis n ≤ EpochCapMillis.
Proof.
  intros Hn. rewrite durationMillis_unreduced by done. split; [|lia].
  assert (0 < 10 ^ n) by (apply Z.pow_pos_nonneg; lia).
  assert (10 ^ n ≤ 11 ^ n) by (apply Z.pow_le_mono_l; lia).
  apply Z.min_glb; [done|]. apply Z.div_le_lower_bound; unfold hourMillis; lia.
Qed.

Lemma durationMillis_mono n m : 0 ≤ n ≤ m → durationMillis n ≤ durationMillis m.
Proof.
  intros Hn. rewrite !durationMillis_unreduced by lia. apply Z.min_le_compat_l.
  replace m with (n + (m - n)) by lia. rewrite !Z.pow_add_r by lia.
  set (k := m - n). assert (10 ^ k ≤ 11 ^ k) by (apply Z.pow_le_mono_l; lia).
  assert (0 < 10 ^ k) by (apply Z.pow_pos_nonneg; lia).
  assert (0 < 10 ^ n) by (apply Z.pow_pos_nonneg; lia).
  assert (0 < 11 ^ n) by (apply Z.pow_pos_nonneg; lia).
  rewrite <-(round_half_up_scale (11 ^ n * hourMillis) (10 ^ n) (10 ^ k)) by lia.
  replace (10 ^ n * 10 ^ k) with (10 ^ k * 10 ^ n) by lia.
  apply Z.div_le_mono; [lia|]. apply Z.add_le_mono_r.
  unfold hourMillis. nia.
Qed.

Lemma durationMillis_growing n : 0 ≤ n < 96 → durationMillis n < EpochCapMillis.
Proof.
  intros Hn. assert (Hall : forallb (λ n, durationMillis n <? EpochCapMillis) (seqZ 0 96) = true)
    by (vm_compute; reflexivity).
  rewrite forallb_forall in Hall. apply Z.ltb_lt, Hall, list_elem_of_In, elem_of_seqZ. lia.
Qed.

Lemma durationMillis_capped n : 96 ≤ n → durationMillis n = EpochCapMillis.
Proof.
  intros Hn. apply Z.le_antisymm; [apply durationMillis_bounds; lia|].
  transitivity (durationMillis 96); [vm_compute; discriminate|].
  apply durationMillis_mono; lia.
Qed.

(** * Lemmas: spans of epochs *)

Lemma span_cons from len :
  0 < len → span_millis from len = durationMillis from + span_millis (from + 1) (len - 1).
Proof.
  intros Hl. unfold span_millis. rewrite seqZ_cons by lia. cbn.
  by rewrite <-Z.add_1_r, <-Z.sub_1_r.
Qed.

Lemma span_nonpos from len : len ≤ 0 → span_millis from len = 0.
Proof. intros. unfold span_millis. by rewrite seqZ_nil by lia. Qed.

Lemma span_app from a b :
  0 ≤ a → 0 ≤ b → span_millis from (a + b) = span_millis from a + span_millis (from + a) b.
Proof.
  intros Ha Hb. unfold span_millis. rewrite seqZ_app by lia. rewrite fmap_app.
  generalize (durationMillis <$> seqZ (from + a) b) as l2.
  induction (durationMillis <$> seqZ from a); intros; cbn; [done|]. rewrite IHl. lia.
Qed.

(** Induction over the epochs of a span, from its first one. *)
Lemma span_ind (P : Z → Z → Prop) :
  (∀ from, P from 0) →
  (∀ from len, 0 < len → P (from + 1) (len - 1) → P from len) →
  ∀ len from, 0 ≤ len → P from len.
Proof.
  intros H0 HS len from Hl. rewrite <-(Z2Nat.id len) by done.
  generalize (Z.to_nat len) as k. clear len Hl. intros k. revert from.
  induction k as [|k IH]; intros from; [apply H0|].
  apply HS; [lia|]. replace (Z.of_nat (S k) - 1) with (Z.of_nat k) by lia. apply IH.
Qed.

Lemma span_capped from len : 96 ≤ from → 0 ≤ len → span_millis from len = len * EpochCapMillis.
Proof.
  intros Hf Hl. revert Hf. pattern from, len. apply span_ind; [|clear from len Hl|done].
  { intros. by rewrite span_nonpos. }
  intros from len Hl IH Hf. rewrite span_cons, IH, durationMillis_capped by lia. lia.
Qed.

Lemma span_bounds from len : 0 ≤ from → 0 ≤ len → 0 ≤ span_millis from len ≤ len * EpochCapMillis.
Proof.
  intros Hf Hl. revert Hf. pattern from, len. apply span_ind; [|clear from len Hl|done].
  { intros. rewrite span_nonpos; lia. }
  intros from len Hl IH Hf. rewrite span_cons by lia.
  pose proof (durationMillis_bounds from Hf). unfold hourMillis in *. lia.
Qed.

Lemma span_pos from len : 0 ≤ from → 0 < len → 0 < span_millis from len.
Proof.
  intros Hf Hl. rewrite span_cons by done. pose proof (durationMillis_bounds from Hf).
  pose proof (span_bounds (from + 1) (len - 1)). unfold hourMillis in *. lia.
Qed.

Lemma span_mono from a b : 0 ≤ from → 0 ≤ a ≤ b → span_millis from a ≤ span_millis from b.
Proof.
  intros. replace b with (a + (b - a)) by lia. rewrite span_app by lia.
  pose proof (span_bounds (from + a) (b - a)). lia.
Qed.

Lemma span_snoc from len :
  0 ≤ from → 0 ≤ len → span_millis from (len + 1) = span_millis from len + durationMillis (from + len).
Proof.
  intros. rewrite span_app, (span_cons (from + len)), (span_nonpos _ (1 - 1)) by lia. lia.
Qed.

(** * Lemmas: elapsed time *)

Lemma elapsed_loop_spec fuel n toEpoch total :
  0 ≤ n ≤ toEpoch → toEpoch < 2 ^ 64 → toEpoch - n < 2 ^ 63 →
  97 ≤ n + Z.of_nat fuel → Z.of_nat fuel ≤ 97 →
  0 ≤ total ≤ (97 - Z.of_nat fuel) * EpochCapMillis → (0 < fuel)%nat →
  elapsed_loop fuel n toEpoch total = Some (Z.min MaxInt64 (total + span_millis n (toEpoch - n))).
Proof.
  revert n total. induction fuel as [|fuel IH]; intros n total Hn Ht Hs Hf Hf' Htot Hpos; [lia|].
  cbn [elapsed_loop]. pose proof (durationMillis_bounds n ltac:(lia)) as [Hd1 Hd2].
  unfold hourMillis in *. case_match eqn:E; bools; cycle 1.
  { rewrite span_nonpos by lia. f_equal. unfold MaxInt64, EpochCapMillis in *. lia. }
  case_match eqn:Ed; bools.
  - assert (Hc : 96 ≤ n). { destruct (decide (96 ≤ n)); [done|].
      pose proof (durationMillis_growing n). lia. }
    rewrite u64_id, i64_id, span_capped by lia.
    unfold is_int64, MinInt64. unfold EpochCapMillis in *.
    f_equal. unfold MaxInt64. case_match eqn:Ei; bools; lia.
  - assert (Hc : n < 96). { destruct (decide (n < 96)); [done|].
      rewrite durationMillis_capped in Ed by lia. lia. }
    rewrite u64_id by lia. unfold EpochCapMillis in *.
    rewrite i64_id by lia. rewrite IH by lia.
    rewrite (span_cons n) by lia. do 2 f_equal.
    replace (toEpoch - (n + 1)) with (toEpoch - n - 1) by lia. lia.
Qed.

(** A span of fewer than 2^63 epochs is the exact sum of its durations, clamped. *)
Lemma ElapsedMillis_exact a b :
  0 ≤ a → 0 ≤ b < 2 ^ 64 → b - a < 2 ^ 63 →
  ElapsedMillis a b = Z.min MaxInt64 (span_millis a (b - a)).
Proof.
  intros. unfold ElapsedMillis. case_match eqn:E; bools.
  { rewrite span_nonpos by lia. done. }
  rewrite elapsed_loop_spec by (unfold EpochCapMillis; lia). done.
Qed.

(** Within the horizon an [int64] of milliseconds can count, elapsed times add up. *)
Lemma ElapsedMillis_additive a b c :
  0 ≤ a ≤ b → b ≤ c → c < 2 ^ 63 → span_millis a (c - a) ≤ MaxInt64 →
  ElapsedMillis a c = ElapsedMillis a b + ElapsedMillis b c.
Proof.
  intros Hab Hbc Hc Hs.
  assert (E : span_millis a (c - a) = span_millis a (b - a) + span_millis b (c - b)).
  { replace (c - a) with ((b - a) + (c - b)) by lia. rewrite span_app by lia.
    by replace (a + (b - a)) with b by lia. }
  pose proof (span_bounds a (b - a) ltac:(lia) ltac:(lia)).
  pose proof (span_bounds b (c - b) ltac:(lia) ltac:(lia)).
  rewrite !ElapsedMillis_exact by lia. lia.
Qed.

(** * Lemmas: the current epoch *)

Lemma epoch_loop_spec fuel n elapsed :
  0 ≤ n → 97 ≤ n + Z.of_nat fuel → (0 < fuel)%nat → n ≤ 96 → 0 ≤ elapsed < 2 ^ 63 →
  ∃ m rest, epoch_loop fuel n elapsed = Some (m, rest) ∧ n ≤ m ≤ 96 ∧ 0 ≤ rest ∧
    span_millis n (m - n) + rest ≤ elapsed ∧
    (m < 96 → rest = 0 ∧ elapsed < span_millis n (m + 1 - n)) ∧
    (m = 96 → span_millis n (m - n) + rest = elapsed).
Proof.
  revert n elapsed. induction fuel as [|fuel IH]; intros n elapsed Hn Hf Hpos Hn' He; [lia|].
  cbn [epoch_loop]. case_match eqn:Ed; bools.
  - exists n, elapsed. rewrite Z.sub_diag, (span_nonpos n 0) by lia.
    split; [done|]. repeat split; try lia.
    all: intros; pose proof (durationMillis_growing n ltac:(lia)); lia.
  - assert (Hlt : n < 96). { destruct (decide (n < 96)); [done|].
      rewrite durationMillis_capped in Ed by lia. lia. }
    case_match eqn:Ee; bools.
    + exists n, 0. rewrite Z.sub_diag, (span_nonpos n 0) by lia.
      split; [done|]. repeat split; try lia. intros.
      rewrite (span_cons n), (span_nonpos (n + 1)) by lia. lia.
    + pose proof (durationMillis_bounds n Hn) as [Hd _]. unfold hourMillis in Hd.
      rewrite u64_id, i64_id by lia.
      destruct (IH (n + 1) (elapsed - durationMillis n)) as (m & rest & -> & Hm & Hr & Hle & Hlo & Hhi);
        [lia..|].
      exists m, rest. split; [done|].
      assert (Hsp : ∀ k, n < k → span_millis n (k - n) =
                durationMillis n + span_millis (n + 1) (k - (n + 1))).
      { intros k Hk. rewrite span_cons by lia. do 2 f_equal. lia. }
      rewrite !Hsp by lia. repeat split; try lia.
      all: intros; first [destruct (Hlo ltac:(lia)); lia | specialize (Hhi ltac:(lia)); lia].
Qed.

(** The reference reading of the clock: the epoch whose interval holds [elapsed]. *)
Definition in_epoch (n elapsed : Z) : Prop :=
  0 ≤ n ∧ span_millis 0 n ≤ elapsed < span_millis 0 (n + 1).

Lemma in_epoch_unique n m elapsed : in_epoch n elapsed → in_epoch m elapsed → n = m.
Proof.
  intros [Hn [Hn1 Hn2]] [Hm [Hm1 Hm2]].
  destruct (Z.lt_trichotomy n m) as [Hlt|[Heq|Hgt]]; [|done|].
  - pose proof (span_mono 0 (n + 1) m ltac:(lia) ltac:(lia)). lia.
  - pose proof (span_mono 0 (m + 1) n ltac:(lia) ltac:(lia)). lia.
Qed.

Lemma CurrentEpoch_in_epoch genesis now :
  0 ≤ unix_milli now - genesis < 2 ^ 63 →
  in_epoch (CurrentEpoch genesis now) (unix_milli now - genesis).
Proof.
  intros He. unfold CurrentEpoch. rewrite i64_id by lia. set (e := unix_milli now - genesis) in *.
  replace (e <? 0) with false by (symmetry; bools; lia).
  destruct (epoch_loop_spec 97 0 e) as (m & rest & -> & Hm & Hr & Hle & Hlo & Hhi); [lia..|].
  rewrite !Z.sub_0_r in *.
  assert (Hq : 0 ≤ rest / EpochCapMillis < 2 ^ 60).
  { pose proof (span_bounds 0 m ltac:(lia) ltac:(lia)).
    unfold EpochCapMillis. split; [apply Z.div_pos; lia|apply Z.div_lt_upper_bound; lia]. }
  rewrite Z.quot_div_nonneg, (u64_id (rest / _)), u64_id by (unfold EpochCapMillis in *; lia).
  unfold in_epoch. split; [lia|].
  destruct (decide (m < 96)) as [Hm'|Hm'].
  - destruct (Hlo Hm') as [-> Hlt]. rewrite Zdiv_0_l, Z.add_0_r. lia.
  - replace m with 96 in * by lia. specialize (Hhi ltac:(lia)).
    rewrite <-Z.add_assoc, !(span_app 0 96), !(span_capped (0 + 96)) by lia.
    pose proof (Z.div_mod rest EpochCapMillis ltac:(unfold EpochCapMillis; lia)).
    pose proof (Z.mod_pos_bound rest EpochCapMillis ltac:(unfold EpochCapMillis; lia)). lia.
Qed.

(** * Lemmas: the yield *)

Lemma ElapsedMillis_range a b :
  0 ≤ a → 0 ≤ b < 2 ^ 64 → b - a < 2 ^ 63 → 0 ≤ ElapsedMillis a b ≤ MaxInt64.
Proof.
  intros. rewrite ElapsedMillis_exact by done.
  destruct (decide (b ≤ a)); [rewrite span_nonpos by lia; unfold MaxInt64; lia|].
  pose proof (span_bounds a (b - a) ltac:(lia) ltac:(lia)). unfold MaxInt64 in *. lia.
Qed.

Lemma YieldAmount_eq p a b :
  0 ≤ p → 0 ≤ a → 0 ≤ b < 2 ^ 64 → b - a < 2 ^ 63 →
  YieldAmount p a b =
  Z.min MaxUint64 (p * YieldNumerator * ElapsedMillis a b / (YieldDenominator * millisPerYear)).
Proof.
  intros Hp Ha Hb Hs. pose proof (ElapsedMillis_range a b Ha Hb Hs) as [He _].
  unfold YieldAmount. case_match eqn:E0; bools.
  { destruct E0 as [->|E0]; [done|]. unfold ElapsedMillis.
    replace (b <=? a) with true by (symmetry; bools; lia). by rewrite Z.mul_0_r. }
  case_match eqn:E1; bools.
  { replace (ElapsedMillis a b) with 0 by lia. by rewrite Z.mul_0_r. }
  unfold YieldNumerator, YieldDenominator, millisPerYear.
  rewrite Z.quot_div_nonneg by nia. set (q := _ / _).
  assert (0 ≤ q) by (apply Z.div_pos; nia).
  unfold is_uint64, MaxUint64. case_match eqn:Eq; bools; lia.
Qed.

(** * Properties *)

(** The clock of spec 5.2. For every instant at or after genesis that an
    [int64] of milliseconds can count, [CurrentEpoch] returns the epoch whose
    interval contains it: the largest [n] whose first [n] durations fit in the
    elapsed time. No epoch is skipped or counted twice, and the O(1) tail past the
    one-year cap agrees with walking the epochs one by one. *)
Theorem CurrentEpoch_correct genesis now n :
  0 ≤ unix_milli now - genesis < 2 ^ 63 →
  CurrentEpoch genesis now = n ↔ in_epoch n (unix_milli now - genesis).
Proof.
  intros He. pose proof (CurrentEpoch_in_epoch genesis now He) as Hin. split.
  - by intros <-.
  - intros Hn. by eapply in_epoch_unique.
Qed.

Lemma CurrentEpoch_correct_witness :
  0 ≤ unix_milli (7 * Hour) - 0 < 2 ^ 63 ∧
  (CurrentEpoch 0 (7 * Hour) = 5 ↔ in_epoch 5 (unix_milli (7 * Hour) - 0)).
Proof.
  assert (H : 0 ≤ unix_milli (7 * Hour) - 0 < 2 ^ 63)
    by (vm_compute; split; [discriminate|reflexivity]).
  split; [exact H|]. apply (CurrentEpoch_correct 0 (7 * Hour) 5 H).
Defined.

(** Elapsed time between epochs. For spans shorter than 2^63 epochs
    [ElapsedMillis] returns (its loop ends) the exact sum of the durations of the
    epochs in between, clamped at the largest [int64]; and within the unclamped
    horizon elapsed times add up over any intermediate epoch. *)
Theorem ElapsedMillis_correct a b c :
  0 ≤ a ≤ b → b ≤ c → c < 2 ^ 63 →
  ElapsedMillis a c = Z.min MaxInt64 (span_millis a (c - a)) ∧
  (span_millis a (c - a) ≤ MaxInt64 → ElapsedMillis a c = ElapsedMillis a b + ElapsedMillis b c).
Proof.
  intros. split; [apply ElapsedMillis_exact; lia|]. intros. by apply ElapsedMillis_additive.
Qed.

Lemma ElapsedMillis_correct_witness :
  ElapsedMillis 0 200 = Z.min MaxInt64 (span_millis 0 (200 - 0)) ∧
  (span_millis 0 (200 - 0) ≤ MaxInt64 → ElapsedMillis 0 200 = ElapsedMillis 0 96 + ElapsedMillis 96 200).
Proof. apply (ElapsedMillis_correct 0 96 200); lia. Defined.

(** The staking yield never mints more than its formula, however a position is
    held. Unstaking at an intermediate epoch and staking again never yields more
    than holding through, the yield is monotone in the principal, and a capped
    one-year epoch pays the floor of exactly two percent. *)
Theorem YieldAmount_no_gain p q a b c :
  0 ≤ p ≤ q → 0 ≤ a ≤ b → b ≤ c → c < 2 ^ 63 → span_millis a (c - a) ≤ MaxInt64 →
  YieldAmount p a b + YieldAmount p b c ≤ YieldAmount p a c + MaxUint64 * Z.b2z (YieldAmount p a c =? MaxUint64) ∧
  YieldAmount p a c ≤ YieldAmount q a c ∧
  YieldAmount p (97 + a) (98 + a) = Z.min MaxUint64 (p * 2 / 100).
Proof.
  intros Hp Hab Hbc Hc Hs.
  pose proof (ElapsedMillis_range a b ltac:(lia) ltac:(lia) ltac:(lia)) as [Hx _].
  pose proof (ElapsedMillis_range b c ltac:(lia) ltac:(lia) ltac:(lia)) as [Hy _].
  rewrite !YieldAmount_eq by lia.
  rewrite (ElapsedMillis_additive a b c) by lia.
  rewrite (ElapsedMillis_exact (97 + a)), span_capped by lia.
  set (x := ElapsedMillis a b) in *. set (y := ElapsedMillis b c) in *.
  unfold YieldNumerator, YieldDenominator, millisPerYear, EpochCapMillis.
  set (D := 100 * (365 * 24 * 60 * 60 * 1000)). assert (0 < D) by done.
  rewrite Z.mul_add_distr_l.
  assert (0 ≤ p * 2 * x / D) by (apply Z.div_pos; nia).
  assert (0 ≤ p * 2 * y / D) by (apply Z.div_pos; nia).
  assert (Hsum : p * 2 * x / D + p * 2 * y / D ≤ (p * 2 * x + p * 2 * y) / D).
  { apply Z.div_le_lower_bound; [done|].
    pose proof (Z.mul_div_le (p * 2 * x) D). pose proof (Z.mul_div_le (p * 2 * y) D). lia. }
  split; [|split].
  - destruct (_ =? MaxUint64) eqn:E; bools; cbn [Z.b2z]; unfold MaxUint64 in *; lia.
  - apply Z.min_le_compat_l, Z.div_le_mono; [done|]. nia.
  - f_equal. replace (98 + a - (97 + a)) with 1 by lia.
    rewrite Z.min_r by (unfold MaxInt64; lia). unfold D.
    rewrite Z.mul_1_l, Z.div_mul_cancel_r by lia. done.
Qed.

Lemma YieldAmount_no_gain_witness :
  YieldAmount 1000000 0 50 + YieldAmount 1000000 50 97
    ≤ YieldAmount 1000000 0 97 + MaxUint64 * Z.b2z (YieldAmount 1000000 0 97 =? MaxUint64) ∧
  YieldAmount 1000000 0 97 ≤ YieldAmount 2000000 0 97 ∧
  YieldAmount 1000000 (97 + 0) (98 + 0) = Z.min MaxUint64 (1000000 * 2 / 100).
Proof.
  apply (YieldAmount_no_gain 1000000 2000000 0 50 97); try lia.
  vm_compute. discriminate.
Defined.

(** * Findings *)

Lemma YieldAmount_not_elapsed p a b : ElapsedMillis a b ≤ 0 → YieldAmount p a b = 0.
Proof.
  intros H. unfold YieldAmount. case_match; [done|].
  by rewrite (proj2 (Z.leb_le _ _) H).
Qed.

Lemma elapsed_loop_at_cap fuel a b :
  96 ≤ a < b → b < 2 ^ 64 →
  elapsed_loop (S fuel) a b 0 =
    Some (let capped := i64 (b - a) * EpochCapMillis in if is_int64 capped then capped else MaxInt64).
Proof.
  intros Ha Hb. cbn [elapsed_loop]. rewrite durationMillis_capped by lia.
  rewrite (proj2 (Z.ltb_lt a b)) by lia. rewrite Z.leb_refl, u64_id by lia.
  by rewrite Z.add_0_r.
Qed.

Lemma ElapsedMillis_at_cap a b :
  96 ≤ a < b → b < 2 ^ 64 →
  ElapsedMillis a b =
    (let capped := i64 (b - a) * EpochCapMillis in if is_int64 capped then capped else MaxInt64).
Proof.
  intros Ha Hb. unfold ElapsedMillis. rewrite (proj2 (Z.leb_gt _ _)) by lia.
  by rewrite elapsed_loop_at_cap by done.
Qed.

(** A span of 2^63 epochs or more turns negative instead of clamping, so the
    yield drops to zero: the conversion [int64(remaining)] wraps. *)
Theorem ElapsedMillis_wraps :
  ElapsedMillis 100 (100 + 2 ^ 64 - 101) = - 100 * EpochCapMillis - EpochCapMillis ∧
  YieldAmount 1000000 100 (100 + 2 ^ 64 - 101) = 0.
Proof.
  assert (E : ElapsedMillis 100 (100 + 2 ^ 64 - 101) = - 100 * EpochCapMillis - EpochCapMillis).
  { by rewrite ElapsedMillis_at_cap by lia. }
  split; [done|]. apply YieldAmount_not_elapsed. rewrite E. unfold EpochCapMillis. lia.
Qed.

(** The final amount is the principal plus the yield modulo 2^64: a position of
    2^63 held for fifty capped epochs is paid nothing back. *)
Theorem FinalAmount_wraps : FinalAmount (2 ^ 63) 96 146 = 0.
Proof. vm_compute. reflexivity. Qed.
