(* ===== verification/Revolver.v ===== *)
(** pkg/consensus/revolver.go and sentinel.go: the queue of online validators, its
    unfair-position insert, the low-trust join delay, offline and cooldown rules,
    and the sentinel activation state machine. *)
From S2P Require Import Prelude Words Decimal Hashing Types.

Definition HeartbeatInterval : Duration := 10 * Second.
Definition MissedBeatsOffline : Z := 3.
Definition OfflineWindow : Duration := MissedBeatsOffline * HeartbeatInterval.
Definition CooldownDuration : Duration := Hour.
Definition SentinelThreshold : Z := 10.
Definition LowTPThreshold : Z := 50.
Definition LowTPDelay : Duration := 30 * Second.

Record Revolver := {
  rv_items : list QueueItem;
  rv_pendingLowTP : gmap NFTID Time }.

Definition NewRevolver : Revolver := {| rv_items := []; rv_pendingLowTP := ∅ |}.

Definition with_items (r : Revolver) (items : list QueueItem) : Revolver :=
  {| rv_items := items; rv_pendingLowTP := rv_pendingLowTP r |}.
Definition with_pending (r : Revolver) (p : gmap NFTID Time) : Revolver :=
  {| rv_items := rv_items r; rv_pendingLowTP := p |}.

Definition Len (r : Revolver) : Z := Z.of_nat (length (rv_items r)).
Definition Snapshot (r : Revolver) : list QueueItem := rv_items r.

Definition contains (r : Revolver) (id : NFTID) : bool :=
  existsb (λ it, bool_decide (qi_NFT it = id)) (rv_items r).

Definition unfairPositions (queueLen : Z) : list Z := [queueLen; 4; 10; 2; 7].

Definition insertAt (s : list QueueItem) (idx : Z) (v : QueueItem) : list QueueItem :=
  let idx := if idx <? 0 then 0 else idx in
  let idx := if Z.of_nat (length s) <? idx then Z.of_nat (length s) else idx in
  take (Z.to_nat idx) s ++ v :: drop (Z.to_nat idx) s.

Definition insert_at_position (item : QueueItem) (items : list QueueItem) (pos : Z) : list QueueItem :=
  insertAt items (Z.rem pos (Z.of_nat (length items) + 1)) item.

(** [insertLocked]; [InsertValidator] is the same under the mutex. *)
Definition InsertValidator (r : Revolver) (item : QueueItem) : Revolver :=
  if contains r (qi_NFT item) then r
  else with_items r (foldl (insert_at_position item) (rv_items r) (unfairPositions (Len r))).

Definition RequestJoin (r : Revolver) (item : QueueItem) (now : Time) : Revolver :=
  if qi_TP item <? LowTPThreshold then
    with_pending r (<[qi_NFT item := time_add now LowTPDelay]> (rv_pendingLowTP r))
  else InsertValidator r item.

(** [order] is the order in which Go's map iteration visits the pending set. *)
Definition ReleaseEligiblePending (r : Revolver) (now : Time)
    (resolve : NFTID → option QueueItem) (order : list NFTID) : Revolver :=
  let due id := match rv_pendingLowTP r !! id with
                | Some t => negb (now <? t) | None => false end in
  let ready := filter (λ id, due id = true) order in
  let r' := with_pending r (foldr delete (rv_pendingLowTP r) ready) in
  foldl (λ r id, match resolve id with Some item => InsertValidator r item | None => r end) r' ready.

Definition PopFront (r : Revolver) : option (QueueItem * Revolver) :=
  match rv_items r with
  | [] => None
  | item :: rest => Some (item, with_items r rest)
  end.

Definition PushBack (r : Revolver) (item : QueueItem) : Revolver :=
  with_items r (rv_items r ++ [item]).

Definition Remove (r : Revolver) (id : NFTID) : Revolver :=
  with_items r (filter (λ it, qi_NFT it ≠ id) (rv_items r)).

Definition Online (r : Revolver) (now : Time) : Z :=
  Z.of_nat (length (filter
    (λ it, (qi_CooldownUntil it =? 0) || (qi_CooldownUntil it <=? unix_milli now) = true)
    (rv_items r))).

Definition IsOffline (lastBeat now : Time) : bool :=
  MissedBeatsOffline * HeartbeatInterval <=? time_sub now lastBeat.

Definition ApplyCooldown (r : Revolver) (id : NFTID) (now : Time) : Revolver :=
  with_items r (filter (λ it, ¬ (qi_NFT it = id)) (rv_items r)).

Definition CooldownExpiry (now : Time) : Z := unix_milli (time_add now CooldownDuration).

Definition ValidatorsPerStage (online : Z) : Z :=
  if 300 <? online then 3 else if 200 <? online then 2 else 1.

Definition SentinelsNeeded (online : Z) : bool := online <? SentinelThreshold.

(** * Sentinels *)

Definition SentinelCount : Z := 10.

Record SentinelManager := { sm_active : bool; sm_activations : list Z }.
Definition NewSentinelManager : SentinelManager := {| sm_active := false; sm_activations := [] |}.

Inductive SentinelAction := ActionNone | ActionActivate | ActionWithdraw.

Definition Evaluate (s : SentinelManager) (onlineCivilians nowUnixMilli : Z)
    : SentinelAction * SentinelManager :=
  let needed := onlineCivilians <? SentinelThreshold in
  if needed && negb (sm_active s) then
    (ActionActivate, {| sm_active := true; sm_activations := sm_activations s ++ [nowUnixMilli] |})
  else if negb needed && sm_active s then
    (ActionWithdraw, {| sm_active := false; sm_activations := sm_activations s |})
  else (ActionNone, s).

Definition ActivationsInWindow (s : SentinelManager) (since now : Z) : Z :=
  Z.of_nat (length (filter (λ t, (since <=? t) && (t <=? now) = true) (sm_activations s))).

(** The manager driven by a sequence of ticks, each an online count and a time. *)
Definition evaluate_all (s : SentinelManager) (ticks : list (Z * Z)) : SentinelManager :=
  foldl (λ s tk, (Evaluate s tk.1 tk.2).2) s ticks.

(** The rising edges of the "too few validators" signal along the ticks: what the
    health metric is meant to count. *)
Fixpoint rising_edges (prev : bool) (ticks : list (Z * Z)) : list Z :=
  match ticks with
  | [] => []
  | (online, now) :: ticks =>
      (if SentinelsNeeded online && negb prev then [now] else [])
        ++ rising_edges (SentinelsNeeded online) ticks
  end.

(** * Lemmas *)

Section insert_lemmas.
Implicit Types (s l : list QueueItem) (v : QueueItem) (id : NFTID).

Lemma insertAt_in_range s idx v :
  0 ≤ idx ≤ Z.of_nat (length s) →
  insertAt s idx v = take (Z.to_nat idx) s ++ v :: drop (Z.to_nat idx) s.
Proof.
  intros. unfold insertAt. replace (idx <? 0) with false by (symmetry; bools; lia).
  by replace (_ <? idx) with false by (symmetry; bools; lia).
Qed.

Lemma insertAt_perm s idx v : insertAt s idx v ≡ₚ v :: s.
Proof.
  unfold insertAt. rewrite <-Permutation_middle. by rewrite take_drop.
Qed.

Lemma insertAt_others s idx v :
  filter (λ it, qi_NFT it ≠ qi_NFT v) (insertAt s idx v) =
  filter (λ it, qi_NFT it ≠ qi_NFT v) s.
Proof.
  unfold insertAt. rewrite filter_app, filter_cons_False by naive_solver.
  by rewrite <-filter_app, take_drop.
Qed.

Lemma scatter_perm v ps s :
  foldl (insert_at_position v) s ps ≡ₚ replicate (length ps) v ++ s.
Proof.
  revert s. induction ps as [|p ps IH]; intros s; [done|]. cbn [foldl length replicate].
  rewrite IH. unfold insert_at_position. rewrite insertAt_perm.
  rewrite <-Permutation_middle. done.
Qed.

Lemma scatter_others v ps s :
  filter (λ it, qi_NFT it ≠ qi_NFT v) (foldl (insert_at_position v) s ps) =
  filter (λ it, qi_NFT it ≠ qi_NFT v) s.
Proof.
  revert s. induction ps as [|p ps IH]; intros s; [done|]. cbn [foldl].
  rewrite IH. apply insertAt_others.
Qed.

Lemma contains_spec r id : contains r id = true ↔ ∃ it, it ∈ rv_items r ∧ qi_NFT it = id.
Proof.
  unfold contains. rewrite existsb_exists. setoid_rewrite bool_decide_eq_true.
  by setoid_rewrite list_elem_of_In.
Qed.

Lemma not_contains_filter r id :
  contains r id = false → filter (λ it, qi_NFT it ≠ id) (rv_items r) = rv_items r.
Proof.
  intros Hc. apply filter_idem. apply Forall_forall. intros it Hit E.
  assert (contains r id = true) by (apply contains_spec; eauto). congruence.
Qed.

Lemma insert_at_nat s (p : nat) v :
  (p ≤ length s)%nat →
  insert_at_position v s (Z.of_nat p) = take p s ++ v :: drop p s.
Proof.
  intros. unfold insert_at_position. rewrite Z.rem_small by lia.
  rewrite insertAt_in_range by lia. by rewrite Nat2Z.id.
Qed.
End insert_lemmas.

Lemma InsertValidator_absent_only r item id :
  id ≠ qi_NFT item → contains (InsertValidator r item) id = contains r id.
Proof.
  intros Hid. unfold InsertValidator. case_match; [done|]. apply eq_bool_prop_intro.
  rewrite !Is_true_true, !contains_spec. cbn [with_items rv_items].
  setoid_rewrite scatter_perm. setoid_rewrite elem_of_app. setoid_rewrite elem_of_replicate.
  naive_solver.
Qed.

Lemma InsertValidator_pending r item :
  rv_pendingLowTP (InsertValidator r item) = rv_pendingLowTP r.
Proof. unfold InsertValidator. by case_match. Qed.

Lemma evaluate_all_edges s ticks :
  sm_activations (evaluate_all s ticks) = sm_activations s ++ rising_edges (sm_active s) ticks ∧
  sm_active (evaluate_all s ticks) =
    default (sm_active s) ((λ tk : Z * Z, SentinelsNeeded tk.1) <$> last ticks).
Proof.
  revert s. induction ticks as [|[online now] ticks IH]; intros s.
  { by rewrite app_nil_r. }
  assert (E : (Evaluate s online now).2 =
    {| sm_active := SentinelsNeeded online;
       sm_activations := sm_activations s ++
         (if SentinelsNeeded online && negb (sm_active s) then [now] else []) |}).
  { unfold Evaluate, SentinelsNeeded. destruct s as [[] acts]; cbn;
      destruct (online <? SentinelThreshold); cbn; by rewrite ?app_nil_r. }
  change (evaluate_all s ((online, now) :: ticks)) with
    (evaluate_all (Evaluate s online now).2 ticks).
  destruct (IH (Evaluate s online now).2) as [IH1 IH2]. rewrite IH1, IH2, E. cbn.
  split; [by rewrite <-app_assoc|]. destruct ticks as [|tk ticks]; [done|].
  change (last ((online, now) :: tk :: ticks)) with (last (tk :: ticks)).
  destruct (last (tk :: ticks)) eqn:El; [done|]. by apply last_None in El.
Qed.

(** * Properties *)

(** The unfair-position insert. A joiner already queued changes nothing. A new
    joiner ends up queued exactly five times, every other entry keeps its relative
    order, and in a queue of at least ten it takes positions 2, 5, 7, 12 and the
    last one: neither the front nor two adjacent turns. *)
Theorem InsertValidator_scatters r item :
  (contains r (qi_NFT item) = true → InsertValidator r item = r) ∧
  (contains r (qi_NFT item) = false →
     rv_items (InsertValidator r item) ≡ₚ replicate 5 item ++ rv_items r ∧
     filter (λ it, qi_NFT it ≠ qi_NFT item) (rv_items (InsertValidator r item)) = rv_items r ∧
     (10 ≤ Len r →
      rv_items (InsertValidator r item) =
        take 2 (rv_items r) ++ [item] ++ take 2 (drop 2 (rv_items r)) ++ [item] ++
        take 1 (drop 4 (rv_items r)) ++ [item] ++ take 4 (drop 5 (rv_items r)) ++ [item] ++
        drop 9 (rv_items r) ++ [item])).
Proof.
  unfold InsertValidator. split; intros Hc; rewrite Hc; [done|].
  cbn [rv_items with_items]. split; [apply (scatter_perm item (unfairPositions (Len r)))|].
  split. { rewrite scatter_others. by apply not_contains_filter. }
  unfold Len, unfairPositions. intros Hlen. cbn [foldl].
  set (s := rv_items r) in *. clearbody s.
  do 9 (destruct s as [|? s]; [cbn in Hlen; lia|]).
  rewrite (insert_at_nat _ (length _)), take_ge, drop_ge by lia. cbn [app].
  rewrite (insert_at_nat _ 4) by (cbn [length]; lia). cbn [take drop app].
  rewrite (insert_at_nat _ 10) by (cbn [length]; rewrite ?length_app; cbn [length]; lia).
  cbn [take drop app].
  rewrite (insert_at_nat _ 2) by (cbn [length]; lia). cbn [take drop app].
  rewrite (insert_at_nat _ 7) by (cbn [length]; lia). done.
Qed.

(** The Sybil brake. A joiner below the trust threshold does not enter the queue
    by asking, nor by any release tick before its delay has elapsed, whatever order
    the pending set is visited in; its delay stays recorded meanwhile. *)
Theorem RequestJoin_low_trust_waits r item now later resolve order :
  qi_TP item < LowTPThreshold → later < now + LowTPDelay →
  (∀ id it, resolve id = Some it → qi_NFT it = id) →
  let r' := ReleaseEligiblePending (RequestJoin r item now) later resolve order in
  contains r' (qi_NFT item) = contains r (qi_NFT item) ∧
  rv_pendingLowTP r' !! qi_NFT item = Some (now + LowTPDelay).
Proof.
  intros Htp Hlate Hres. unfold RequestJoin.
  replace (qi_TP item <? LowTPThreshold) with true by (symmetry; bools; lia).
  unfold ReleaseEligiblePending. cbn [rv_pendingLowTP with_pending].
  set (ready := filter _ order).
  assert (Hr : qi_NFT item ∉ ready).
  { unfold ready. rewrite list_elem_of_filter, lookup_insert_eq. unfold time_add.
    intros [E _]. bools. lia. }
  clearbody ready. cbn zeta.
  assert (Hp : foldr delete (<[qi_NFT item := time_add now LowTPDelay]> (rv_pendingLowTP r)) ready
                 !! qi_NFT item = Some (now + LowTPDelay)).
  { clear -Hr. induction ready as [|id ready IH]; [by apply lookup_insert_eq|].
    apply not_elem_of_cons in Hr as [? ?]. cbn. rewrite lookup_delete_ne by done. auto. }
  set (r0 := with_pending _ _).
  assert (H0 : contains r0 (qi_NFT item) = contains r (qi_NFT item)) by done.
  assert (H1 : rv_pendingLowTP r0 !! qi_NFT item = Some (now + LowTPDelay)) by exact Hp.
  clearbody r0. rewrite <-H0. clear Hp H0. revert r0 H1.
  induction ready as [|id ready IH]; intros r0 H1; [done|].
  apply not_elem_of_cons in Hr as [Hne Hr]. cbn [foldl].
  destruct (resolve id) as [it|] eqn:E; [|by apply IH].
  destruct (IH Hr (InsertValidator r0 it)) as [IH1 IH2].
  { by rewrite InsertValidator_pending. }
  split; [|done]. rewrite IH1. apply InsertValidator_absent_only.
  by rewrite (Hres _ _ E).
Qed.

Lemma RequestJoin_low_trust_waits_witness :
  let low := {| qi_NFT := [7]; qi_Address := [7]; qi_JoinedAt := 0; qi_LastBeat := 0;
                qi_CooldownUntil := 0; qi_TP := 10 |} in
  let r' := ReleaseEligiblePending (RequestJoin NewRevolver low 0) (29 * Second)
              (λ id, if decide (id = [7]) then Some low else None) [[7]] in
  contains r' [7] = contains NewRevolver [7] ∧ rv_pendingLowTP r' !! [7] = Some (0 + LowTPDelay).
Proof.
  intros low. refine (RequestJoin_low_trust_waits NewRevolver low 0 (29 * Second) _ [[7]] _ _ _).
  - reflexivity.
  - reflexivity.
  - intros id it E. destruct (decide (id = [7])) as [->|]; [|discriminate].
    injection E as <-. reflexivity.
Defined.

(** The sentinel state machine. Along any sequence of ticks, activations are
    recorded exactly at the rising edges of "fewer than ten online" (so the monthly
    metric counts activations, not ticks) and after each tick sentinels are active
    iff the last tick needed them. *)
Theorem SentinelManager_edges ticks :
  sm_activations (evaluate_all NewSentinelManager ticks) = rising_edges false ticks ∧
  sm_active (evaluate_all NewSentinelManager ticks) =
    default false ((λ tk : Z * Z, SentinelsNeeded tk.1) <$> last ticks).
Proof. apply (evaluate_all_edges NewSentinelManager). Qed.
