(* ===== verification/Committee.v ===== *)
(** pkg/consensus/assignment.go and bft.go: the deterministic committee of a height
    and the majority count of its votes. *)
From S2P Require Import Prelude Words Decimal Hashing Types.

Definition MinCommitteeSize : Z := 2.

Definition AssignCommittee (onlineSorted : list NFTID) (height count : Z) : list NFTID :=
  let n := Z.of_nat (length onlineSorted) in
  if n <? MinCommitteeSize then []
  else
    let count := if n <? count then n else count in
    if count <=? 0 then []
    else
      let start := i64 (height mod u64 n) in
      (λ i, default [] (onlineSorted !! Z.to_nat (Z.rem (start + i) n))) <$> seqZ 0 count.

Definition SortNFTIDs (ids : list NFTID) : list NFTID := sort_bytes ids.

Definition BFTQuorumMet (assigned votes : Z) : bool :=
  if assigned <=? 0 then false else assigned <? votes * 2.

Definition BFTFaultTolerance (assigned : Z) : Z := Z.quot assigned 3.

(** The loop of [TallyVotes]; [counted] is its set of counted voters. *)
Fixpoint tally_loop (inCommittee counted : gset NFTID) (candidate : Hash)
    (votes : list Vote) (endorsements : Z) : Z :=
  match votes with
  | [] => endorsements
  | v :: votes =>
      if negb (bool_decide (v_StateRoot v = candidate)) then
        tally_loop inCommittee counted candidate votes endorsements
      else if negb (bool_decide (v_Validator v ∈ inCommittee)) then
        tally_loop inCommittee counted candidate votes endorsements
      else if bool_decide (v_Validator v ∈ counted) then
        tally_loop inCommittee counted candidate votes endorsements
      else
        tally_loop inCommittee ({[v_Validator v]} ∪ counted) candidate votes (endorsements + 1)
  end.

Definition TallyVotes (committee : list NFTID) (candidate : Hash) (votes : list Vote) : Z * bool :=
  let endorsements := tally_loop (list_to_set committee) ∅ candidate votes 0 in
  (endorsements, BFTQuorumMet (Z.of_nat (length committee)) endorsements).

(** * Specification *)

(** The validators that cast at least one vote for a root. *)
Definition voters_for (candidate : Hash) (votes : list Vote) : gset NFTID :=
  list_to_set (v_Validator <$> filter (λ v, v_StateRoot v = candidate) votes).

(** Validators that voted for two different roots. *)
Definition equivocators (committee : list NFTID) (A B : Hash) (va vb : list Vote) : gset NFTID :=
  voters_for A va ∩ voters_for B vb ∩ list_to_set committee.

(** * Lemmas *)

Lemma voters_for_cons candidate v votes :
  voters_for candidate (v :: votes) =
  if decide (v_StateRoot v = candidate) then {[v_Validator v]} ∪ voters_for candidate votes
  else voters_for candidate votes.
Proof. unfold voters_for. rewrite filter_cons. by case_decide. Qed.

Lemma count_new (id : NFTID) (V C counted : gset NFTID) :
  id ∈ C → id ∉ counted →
  size ((({[id]} ∪ V) ∩ C) ∖ counted) = S (size ((V ∩ C) ∖ ({[id]} ∪ counted))).
Proof.
  intros HC Hn. rewrite <-size_insert_unseen by done. f_equal. set_solver.
Qed.

Lemma tally_loop_spec C counted candidate votes acc :
  counted ⊆ C →
  tally_loop C counted candidate votes acc =
  acc + Z.of_nat (size ((voters_for candidate votes ∩ C) ∖ counted)).
Proof.
  revert counted acc. induction votes as [|v votes IH]; intros counted acc Hsub.
  { cbn. unfold voters_for. cbn. replace ((∅ ∩ C) ∖ counted) with (∅ : gset NFTID) by set_solver.
    rewrite size_empty. lia. }
  cbn [tally_loop]. rewrite voters_for_cons.
  repeat case_bool_decide; cbn [negb]; case_decide; try done.
  all: try by rewrite IH.
  1: { rewrite IH by done. do 3 f_equal. set_solver. }
  1: { rewrite IH by set_solver.
       rewrite (count_new (v_Validator v) (voters_for candidate votes)) by done. lia. }
  all: rewrite IH by done; do 3 f_equal; set_solver.
Qed.

Lemma TallyVotes_size committee candidate votes :
  (TallyVotes committee candidate votes).1 =
  Z.of_nat (size (voters_for candidate votes ∩ list_to_set committee)).
Proof.
  cbn. rewrite tally_loop_spec by set_solver.
  rewrite difference_empty_L. lia.
Qed.

Lemma size_committee (committee : list NFTID) :
  NoDup committee → size (list_to_set committee : gset NFTID) = length committee.
Proof. intros. by rewrite size_list_to_set. Qed.

Lemma assign_index (n height i : Z) :
  0 < n < 2 ^ 63 → 0 ≤ i < n →
  Z.rem (i64 (height mod u64 n) + i) n = (height + i) mod n.
Proof.
  intros. rewrite u64_id by lia. pose proof (Z.mod_pos_bound height n ltac:(lia)).
  rewrite i64_id by lia. rewrite Z.rem_mod_nonneg by lia.
  by rewrite Zplus_mod_idemp_l.
Qed.

(** A committee in closed form: the [count] entries from [height], cyclically. *)
Lemma AssignCommittee_eq ids height count :
  2 ≤ Z.of_nat (length ids) < 2 ^ 63 →
  AssignCommittee ids height count =
  (λ i, default [] (ids !! Z.to_nat ((height + i) mod Z.of_nat (length ids))))
    <$> seqZ 0 (Z.min count (Z.of_nat (length ids))).
Proof.
  intros Hn. unfold AssignCommittee, MinCommitteeSize.
  replace (_ <? 2) with false by (symmetry; bools; lia).
  set (n := Z.of_nat (length ids)) in *.
  replace (if n <? count then n else count) with (Z.min count n)
    by (case_match; bools; lia).
  case_match eqn:Ec; bools. { by rewrite seqZ_nil by lia. }
  apply list_fmap_ext. intros j i Hj. apply lookup_seqZ in Hj as [-> ?].
  rewrite assign_index by lia. done.
Qed.

Lemma committee_lookup (ids : list NFTID) k :
  ids ≠ [] → ∃ x, ids !! Z.to_nat (k mod Z.of_nat (length ids)) = Some x ∧ x ∈ ids.
Proof.
  intros Hne. assert (0 < Z.of_nat (length ids)) by (destruct ids; [done|cbn; lia]).
  pose proof (Z.mod_pos_bound k (Z.of_nat (length ids)) ltac:(lia)).
  destruct (lookup_lt_is_Some_2 ids (Z.to_nat (k mod Z.of_nat (length ids)))) as [x Hx]; [lia|].
  exists x. split; [done|]. by eapply list_elem_of_lookup_2.
Qed.

Lemma mod_window_inj n a i j :
  0 < n → 0 ≤ i < n → 0 ≤ j < n → (a + i) mod n = (a + j) mod n → i = j.
Proof.
  intros Hn Hi Hj E. apply (f_equal (λ x, (x - a) mod n)) in E.
  rewrite !Zminus_mod_idemp_l in E.
  replace (a + i - a) with i in E by lia. replace (a + j - a) with j in E by lia.
  by rewrite !Z.mod_small in E by lia.
Qed.

(** * Properties *)

(** Every node derives the same committee. For distinct online validators seen
    in any order, [AssignCommittee] of the sorted set returns distinct members of
    that set, as many as asked for or all of them, none when fewer than two are
    online, and the same list on every node that saw the same set. *)
Theorem AssignCommittee_agreement (seen seen' : list NFTID) height count :
  NoDup seen → Z.of_nat (length seen) < 2 ^ 63 → seen ≡ₚ seen' →
  let committee := AssignCommittee (SortNFTIDs seen) height count in
  committee = AssignCommittee (SortNFTIDs seen') height count ∧
  NoDup committee ∧ committee ⊆ seen ∧
  Z.of_nat (length committee) =
    (if decide (2 ≤ Z.of_nat (length seen))
     then Z.max 0 (Z.min count (Z.of_nat (length seen))) else 0).
Proof.
  intros Hnd Hlen Hp committee.
  assert (Hperm := sort_bytes_perm seen). unfold committee, SortNFTIDs.
  rewrite (sort_bytes_unique seen seen' Hp).
  rewrite <-(sort_bytes_unique seen seen' Hp). set (ids := sort_bytes seen) in *.
  assert (Hids : NoDup ids) by by rewrite Hperm.
  assert (Hl : length ids = length seen) by by rewrite Hperm.
  split; [done|]. rewrite <-Hl in *. case_decide as Hmin; cycle 1.
  { unfold AssignCommittee, MinCommitteeSize.
    replace (_ <? 2) with true by (symmetry; bools; lia).
    split; [constructor|]. split; [apply list_subseteq_nil|]. done. }
  rewrite AssignCommittee_eq by lia.
  assert (Hne : ids ≠ []) by (intros E; rewrite E in Hmin; cbn in Hmin; lia).
  set (n := Z.of_nat (length ids)) in *.
  split; [|split].
  - apply NoDup_fmap_2_strong; [|apply NoDup_seqZ].
    intros i j Hi Hj E. apply elem_of_seqZ in Hi, Hj.
    destruct (committee_lookup ids (height + i) Hne) as (x & Hx & _).
    destruct (committee_lookup ids (height + j) Hne) as (y & Hy & _).
    unfold n in *. rewrite Hx, Hy in E. cbn in E. subst y.
    pose proof (NoDup_lookup _ _ _ _ Hids Hx Hy) as E.
    pose proof (Z.mod_pos_bound (height + i) (Z.of_nat (length ids)) ltac:(lia)).
    pose proof (Z.mod_pos_bound (height + j) (Z.of_nat (length ids)) ltac:(lia)).
    apply (mod_window_inj (Z.of_nat (length ids)) height); lia.
  - intros x Hx. apply list_elem_of_fmap in Hx as (i & -> & Hi).
    destruct (committee_lookup ids (height + i) Hne) as (y & Hy & Hin).
    unfold n in *. rewrite Hy. cbn. by rewrite <-Hperm.
  - rewrite length_fmap, length_seqZ. lia.
Qed.

Lemma AssignCommittee_agreement_witness :
  let committee := AssignCommittee (SortNFTIDs [[3];[1];[2]]) 4 2 in
  committee = AssignCommittee (SortNFTIDs [[1];[2];[3]]) 4 2 ∧
  NoDup committee ∧ committee ⊆ [[3];[1];[2]] ∧
  Z.of_nat (length committee) =
    (if decide (2 ≤ Z.of_nat (length [[3];[1];[2]]))
     then Z.max 0 (Z.min 2 (Z.of_nat (length [[3];[1];[2]]))) else 0).
Proof.
  refine (AssignCommittee_agreement [[3];[1];[2]] [[1];[2];[3]] 4 2 _ _ _).
  - apply (bool_decide_unpack _). vm_compute. exact I.
  - reflexivity.
  - apply (bool_decide_unpack _). vm_compute. exact I.
Defined.

(** The proposer seat rotates: over any window of as many consecutive heights as
    there are online validators, the first seat of the committee visits each of them
    exactly once. *)
Theorem AssignCommittee_rotates (ids : list NFTID) h count :
  2 ≤ Z.of_nat (length ids) < 2 ^ 63 → 0 ≤ h → 1 ≤ count →
  (λ k, default [] (head (AssignCommittee ids (h + k) count)))
    <$> seqZ 0 (Z.of_nat (length ids)) ≡ₚ ids.
Proof.
  intros Hn Hh Hc. set (n := Z.of_nat (length ids)) in *.
  assert (E : (λ k, default [] (head (AssignCommittee ids (h + k) count))) <$> seqZ 0 n =
              (λ k, default [] (ids !! Z.to_nat k)) <$> ((λ k, (h + k) mod n) <$> seqZ 0 n)).
  { rewrite <-list_fmap_compose. apply list_fmap_ext. intros j k Hk. cbn.
    rewrite AssignCommittee_eq by done. rewrite seqZ_cons by lia. cbn.
    by rewrite Z.add_0_r. }
  rewrite E. clear E. transitivity ((λ k, default [] (ids !! Z.to_nat k)) <$> seqZ 0 n).
  - apply fmap_Permutation. apply submseteq_length_Permutation; [|by rewrite length_fmap].
    apply NoDup_submseteq.
    + apply NoDup_fmap_2_strong; [|apply NoDup_seqZ]. intros i j Hi Hj.
      apply elem_of_seqZ in Hi, Hj. apply mod_window_inj; lia.
    + intros x Hx. apply list_elem_of_fmap in Hx as (k & -> & _).
      apply elem_of_seqZ. pose proof (Z.mod_pos_bound (h + k) n). lia.
  - match goal with |- ?l ≡ₚ ?k => assert (l = k) as ->; [|done] end.
    apply list_eq. intros i. rewrite list_lookup_fmap.
    destruct (decide (i < length ids)%nat) as [Hi|Hi].
    + rewrite (lookup_seqZ_lt 0 n i) by lia. cbn.
      destruct (lookup_lt_is_Some_2 ids i Hi) as [x Hx].
      replace (Z.to_nat (0 + Z.of_nat i)) with i by lia. by rewrite Hx.
    + rewrite lookup_seqZ_ge by lia. cbn. symmetry. apply lookup_ge_None. lia.
Qed.

Lemma AssignCommittee_rotates_witness :
  (λ k, default [] (head (AssignCommittee [[1];[2];[3]] (5 + k) 2)))
    <$> seqZ 0 (Z.of_nat (length [[1];[2];[3]])) ≡ₚ [[1];[2];[3]].
Proof. apply (AssignCommittee_rotates [[1];[2];[3]] 5 2); cbn; lia. Defined.

(** Quorum counting. The endorsement count is the number of distinct committee
    members that voted for the root (outsiders and repeated votes never count), and
    any two quorums of one committee share a member: if no member voted for both
    roots, the two roots are equal. *)
Theorem TallyVotes_intersection committee A B va vb :
  NoDup committee →
  (TallyVotes committee A va).1 =
    Z.of_nat (size (voters_for A va ∩ list_to_set committee)) ∧
  ((TallyVotes committee A va).2 = true → (TallyVotes committee B vb).2 = true →
   ∃ id, id ∈ committee ∧ id ∈ voters_for A va ∧ id ∈ voters_for B vb).
Proof.
  intros Hnd. split; [apply TallyVotes_size|].
  pose proof (TallyVotes_size committee A va) as Ea.
  pose proof (TallyVotes_size committee B vb) as Eb.
  unfold TallyVotes, BFTQuorumMet in *. cbn [fst snd] in *. rewrite Ea, Eb.
  intros Qa Qb. case_match; [done|]. bools.
  set (SA := voters_for A va ∩ list_to_set committee) in *.
  set (SB := voters_for B vb ∩ list_to_set committee) in *.
  destruct (decide (SA ∩ SB = ∅)) as [E|E].
  - exfalso. assert (Hsz : (size (SA ∪ SB) ≤ size (list_to_set committee : gset NFTID))%nat).
    { apply subseteq_size. set_solver. }
    rewrite size_union in Hsz by set_solver. rewrite size_committee in Hsz by done. lia.
  - apply set_choose_L in E as [id Hid]. exists id. set_solver.
Qed.

Lemma TallyVotes_intersection_witness :
  let v x := {| v_Validator := [x]; v_StateRoot := [9]; v_Sig := [] |} in
  (TallyVotes [[1];[2];[3]] [9] [v 1; v 2; v 1; v 7]).1 =
    Z.of_nat (size (voters_for [9] [v 1; v 2; v 1; v 7] ∩ list_to_set [[1];[2];[3]])) ∧
  ((TallyVotes [[1];[2];[3]] [9] [v 1; v 2; v 1; v 7]).2 = true →
   (TallyVotes [[1];[2];[3]] [9] [v 2; v 3]).2 = true →
   ∃ id, id ∈ [[1];[2];[3]] ∧ id ∈ voters_for [9] [v 1; v 2; v 1; v 7] ∧
         id ∈ voters_for [9] [v 2; v 3]).
Proof.
  intros v. apply (TallyVotes_intersection [[1];[2];[3]] [9] [9]).
  apply (bool_decide_unpack _). vm_compute. exact I.
Defined.

(** * Findings *)

(** The stated tolerance of one third does not hold of the majority rule: in a
    committee of five, whose tolerance is one, a single member voting for two roots
    lets both reach quorum. *)
Theorem one_equivocator_forks :
  let committee := [[1];[2];[3];[4];[5]] in
  let v x r := {| v_Validator := [x]; v_StateRoot := [r]; v_Sig := [] |} in
  let va := [v 1 7; v 2 7; v 3 7] in
  let vb := [v 3 8; v 4 8; v 5 8] in
  BFTFaultTolerance (Z.of_nat (length committee)) = 1 ∧
  (TallyVotes committee [7] va).2 = true ∧ (TallyVotes committee [8] vb).2 = true ∧
  elements (equivocators committee [7] [8] va vb) = [[3]].
Proof. vm_compute. auto. Qed.
