(* ===== verification/Mempool.v ===== *)
(** pkg/tx/mempool.go: the bounded pool of admitted transactions, its windowed
    duplicate detection and its byte-bounded batcher. [encoding/json]'s encoding of
    a transaction is a parameter: the pool uses only the length of its output. *)
From S2P Require Import Prelude Words Decimal Hashing Types.

Record Entry := { e_Tx : ShieldedTx; e_SubmittedAt : Time }.

Definition TxTTL : Duration := 60 * Second.
Definition DefaultMaxMempoolSize : Z := 100000.
Definition MaxTxSize : Z := 256 * 1024.
Definition seenTTL : Duration := 2 * TxTTL.

Definition ErrMempoolFull : string := "tx: mempool is full".
Definition ErrDuplicateTx : string := "tx: duplicate transaction".

Module Mempool.
Record Mempool := {
  MaxSize : Z; pending : list Entry; seen : gmap Hash Time }.

Definition NewMempool : Mempool := {| MaxSize := 0; pending := []; seen := ∅ |}.

Definition maxSize (m : Mempool) : Z :=
  if MaxSize m <=? 0 then DefaultMaxMempoolSize else MaxSize m.

Definition with_pending (m : Mempool) (p : list Entry) : Mempool :=
  {| MaxSize := MaxSize m; pending := p; seen := seen m |}.

Definition push (m : Mempool) (t : ShieldedTx) (now : Time) : Mempool :=
  {| MaxSize := MaxSize m;
     pending := pending m ++ [{| e_Tx := t; e_SubmittedAt := now |}];
     seen := <[tx_TxID t := now]> (seen m) |}.

Definition Submit (m : Mempool) (t : ShieldedTx) (now : Time) : result Mempool :=
  match seen m !! tx_TxID t with
  | Some seenAt =>
      if time_sub now seenAt <? seenTTL then Err ErrDuplicateTx
      else if maxSize m <=? Z.of_nat (length (pending m)) then Err ErrMempoolFull
      else Ok (push m t now)
  | None =>
      if maxSize m <=? Z.of_nat (length (pending m)) then Err ErrMempoolFull
      else Ok (push m t now)
  end.

Definition sweepSeenLocked (m : Mempool) (now : Time) : Mempool :=
  {| MaxSize := MaxSize m; pending := pending m;
     seen := filter (λ p, ¬ seenTTL ≤ time_sub now p.2) (seen m) |}.

Definition DrainBatch (m : Mempool) (max : Z) (now : Time) : list Entry * Mempool :=
  let m := sweepSeenLocked m now in
  let max := if (max <=? 0) || (Z.of_nat (length (pending m)) <? max)
             then Z.of_nat (length (pending m)) else max in
  (take (Z.to_nat max) (pending m), with_pending m (drop (Z.to_nat max) (pending m))).

Section json.
(** encoding/json's [Marshal] of a transaction. *)
Context (json_marshal : ShieldedTx → result bytes).

Definition jsonSize (t : ShieldedTx) : result Z :=
  b ← json_marshal t; Ok (Z.of_nat (length b)).

(** The counting loop of [DrainBatchBytes] over the entries from index [n]. *)
Fixpoint drain_loop (entries : list Entry) (limit maxBytes n total : Z) : Z :=
  match entries with
  | [] => n
  | e :: entries =>
      if n <? limit then
        match jsonSize (e_Tx e) with
        | Err _ => drain_loop entries limit maxBytes (n + 1) total
        | Ok size =>
            if (0 <? maxBytes) && (0 <? n) && (maxBytes <? total + size) then n
            else drain_loop entries limit maxBytes (n + 1) (total + size)
        end
      else n
  end.

Definition DrainBatchBytes (m : Mempool) (maxCount maxBytes : Z) (now : Time)
    : list Entry * Mempool :=
  let m := sweepSeenLocked m now in
  let limit := Z.of_nat (length (pending m)) in
  let limit := if (0 <? maxCount) && (maxCount <? limit) then maxCount else limit in
  let n := drain_loop (pending m) limit maxBytes 0 0 in
  (take (Z.to_nat n) (pending m), with_pending m (drop (Z.to_nat n) (pending m))).
End json.

Definition Reinsert (m : Mempool) (t : ShieldedTx) (now : Time) : result Mempool :=
  if maxSize m <=? Z.of_nat (length (pending m)) then Err ErrMempoolFull
  else Ok (push m t now).

Definition Len (m : Mempool) : Z := Z.of_nat (length (pending m)).

Definition Contains (m : Mempool) (id : Hash) : bool :=
  existsb (λ e, bool_decide (tx_TxID (e_Tx e) = id)) (pending m).

Definition Remove (m : Mempool) (ids : list Hash) : Mempool :=
  if bool_decide (ids = []) then m
  else with_pending m (filter (λ e, tx_TxID (e_Tx e) ∉ ids) (pending m)).

(** * Traces *)

(** Every call that changes the pool, stamped with the clock it reads. *)
Inductive op :=
| OSubmit (t : ShieldedTx)
| ODrain (max : Z)
| ODrainBytes (maxCount maxBytes : Z)
| OReinsert (t : ShieldedTx)
| ORemove (ids : list Hash).

Section traces.
Context (json_marshal : ShieldedTx → result bytes).

Definition apply_op (m : Mempool) (o : op) (now : Time) : Mempool :=
  match o with
  | OSubmit t => match Submit m t now with Ok m' => m' | Err _ => m end
  | ODrain max => (DrainBatch m max now).2
  | ODrainBytes c b => (DrainBatchBytes json_marshal m c b now).2
  | OReinsert t => match Reinsert m t now with Ok m' => m' | Err _ => m end
  | ORemove ids => Remove m ids
  end.

Definition run (m : Mempool) (ops : list (op * Time)) : Mempool :=
  foldl (λ m o, apply_op m o.1 o.2) m ops.
End traces.
End Mempool.

(** * Lemmas *)

Section mempool_lemmas.
Import Mempool.
Context (json_marshal : ShieldedTx → result bytes).
Implicit Types (m : Mempool) (o : op).

Lemma Submit_Ok m t now m' :
  Submit m t now = Ok m' →
  m' = push m t now ∧ Z.of_nat (length (pending m)) < maxSize m.
Proof.
  unfold Submit. intros H. repeat case_match; simplify_eq; bools; auto with lia.
Qed.

Lemma Reinsert_Ok m t now m' :
  Reinsert m t now = Ok m' →
  m' = push m t now ∧ Z.of_nat (length (pending m)) < maxSize m.
Proof. unfold Reinsert. intros H. case_match; simplify_eq; bools; auto with lia. Qed.

Lemma apply_op_MaxSize m o now : MaxSize (apply_op json_marshal m o now) = MaxSize m.
Proof.
  destruct o; cbn; try done.
  - destruct (Submit m t now) eqn:E; [|done]. by apply Submit_Ok in E as [-> _].
  - destruct (Reinsert m t now) eqn:E; [|done]. by apply Reinsert_Ok in E as [-> _].
  - unfold Remove. by case_match.
Qed.

Lemma apply_op_bounded m o now :
  Len m ≤ maxSize m → Len (apply_op json_marshal m o now) ≤ maxSize m.
Proof.
  unfold Len. intros Hb. destruct o; cbn.
  - destruct (Submit m t now) eqn:E; [|done]. apply Submit_Ok in E as [-> ?].
    cbn. rewrite length_app. cbn. lia.
  - rewrite length_drop. lia.
  - rewrite length_drop. lia.
  - destruct (Reinsert m t now) eqn:E; [|done]. apply Reinsert_Ok in E as [-> ?].
    cbn. rewrite length_app. cbn. lia.
  - unfold Remove. case_match; [done|]. cbn.
    pose proof (length_filter (λ e, tx_TxID (e_Tx e) ∉ ids) (pending m)). lia.
Qed.

Lemma run_bounded m ops : Len m ≤ maxSize m → Len (run json_marshal m ops) ≤ maxSize (run json_marshal m ops).
Proof.
  revert m. induction ops as [|[o u] ops IH]; intros m Hb; [done|].
  cbn. apply IH. pose proof (apply_op_bounded m o u Hb). unfold maxSize in *. by rewrite apply_op_MaxSize.
Qed.

(** A record in the window survives every call, possibly refreshed. *)
Lemma apply_op_seen m o now id t0 :
  t0 ≤ now < t0 + seenTTL →
  (∃ t, seen m !! id = Some t ∧ t0 ≤ t ≤ now) →
  ∃ t, seen (apply_op json_marshal m o now) !! id = Some t ∧ t0 ≤ t ≤ now.
Proof.
  intros Hw (t & Ht & Hr).
  assert (Hpush : ∀ x, ∃ t, seen (push m x now) !! id = Some t ∧ t0 ≤ t ≤ now).
  { intros x. cbn. destruct (decide (tx_TxID x = id)) as [<-|].
    - exists now. rewrite lookup_insert_eq. auto with lia.
    - exists t. by rewrite lookup_insert_ne. }
  assert (Hsweep : ∃ t, seen (sweepSeenLocked m now) !! id = Some t ∧ t0 ≤ t ≤ now).
  { exists t. split; [|done]. cbn. apply map_lookup_filter_Some. split; [done|]. cbn.
    unfold time_sub, seenTTL, TxTTL, Second, MinInt64, MaxInt64 in *. lia. }
  destruct o; cbn -[push]; eauto.
  - destruct (Submit m t1 now) eqn:E; [|eauto]. by apply Submit_Ok in E as [-> _].
  - destruct (Reinsert m t1 now) eqn:E; [|eauto]. by apply Reinsert_Ok in E as [-> _].
  - unfold Remove. case_match; eauto.
Qed.

(** The times of a trace, non-decreasing from [t] and before [last]. *)
Fixpoint clock_between (t last : Time) (ops : list (op * Time)) : Prop :=
  match ops with
  | [] => t ≤ last
  | (_, u) :: ops => t ≤ u ∧ clock_between u last ops
  end.

Lemma clock_between_le t last ops : clock_between t last ops → t ≤ last.
Proof.
  revert t. induction ops as [|[o u] ops IH]; intros t; cbn; [done|].
  intros [? ?%IH]. lia.
Qed.

Lemma run_seen m ops id t0 u last :
  last < t0 + seenTTL → t0 ≤ u → clock_between u last ops →
  (∃ t, seen m !! id = Some t ∧ t0 ≤ t ≤ u) →
  ∃ t, seen (run json_marshal m ops) !! id = Some t ∧ t0 ≤ t ≤ last.
Proof.
  revert m u. induction ops as [|[o v] ops IH]; intros m u Hl Hu Hc Hs; cbn in *.
  { destruct Hs as (t & ? & ?). exists t. split; [done|lia]. }
  destruct Hc as [Huv Hc]. pose proof (clock_between_le _ _ _ Hc).
  apply (IH _ v); [done|lia|done|]. apply apply_op_seen; [lia|].
  destruct Hs as (t & ? & ?). exists t. split; [done|lia].
Qed.

Definition size_of (e : Entry) : Z := match jsonSize json_marshal (e_Tx e) with Ok s => s | Err _ => 0 end.
Definition total_size (l : list Entry) : Z := foldr (λ e acc, size_of e + acc) 0 l.

Lemma size_of_nonneg e : 0 ≤ size_of e.
Proof.
  unfold size_of. case_match eqn:E; [|done]. unfold jsonSize in E. ok_inv. lia.
Qed.

Lemma total_size_cons e l : total_size (e :: l) = size_of e + total_size l.
Proof. done. Qed.

Definition first_size (n : Z) (entries : list Entry) : Z :=
  if decide (n = 0) then total_size (take 1 entries) else 0.

Lemma first_size_nonneg n entries : 0 ≤ first_size n entries.
Proof.
  unfold first_size. case_decide; [|done]. destruct entries as [|e l]; cbn -[size_of]; [done|].
  rewrite take_0. pose proof (size_of_nonneg e). cbn -[size_of]. lia.
Qed.

(** What the counting loop promises of the [k] entries it takes. *)
Record drained entries limit maxBytes n total (k : nat) : Prop := {
  dr_len : (k ≤ length entries)%nat;
  dr_limit : n ≤ limit → n + Z.of_nat k ≤ limit;
  dr_bytes : 0 < maxBytes →
    total + total_size (take k entries) ≤ Z.max maxBytes (total + first_size n entries);
  dr_first : entries ≠ [] → n < limit → n = 0 → (0 < k)%nat;
  dr_max : ∀ e, entries !! k = Some e → n + Z.of_nat k < limit →
    0 < maxBytes ∧ maxBytes < total + total_size (take k entries) + size_of e }.

Lemma drained_stop entries limit maxBytes n total :
  (∀ e, head entries = Some e → n < limit →
     0 < n ∧ 0 < maxBytes ∧ maxBytes < total + size_of e) →
  drained entries limit maxBytes n total 0.
Proof.
  intros Hstop. pose proof (first_size_nonneg n entries).
  assert (H0 : total_size (take 0 entries) = 0) by by rewrite take_0.
  split; try lia.
  - destruct entries as [|e l]; [done|]. specialize (Hstop e eq_refl). lia.
  - intros e He ?. rewrite <-head_lookup in He. specialize (Hstop e He). lia.
Qed.

Lemma drained_step e entries limit maxBytes n total k :
  0 ≤ n → n < limit →
  (0 < maxBytes → 0 < n → total + size_of e ≤ Z.max maxBytes total) →
  drained entries limit maxBytes (n + 1) (total + size_of e) k →
  drained (e :: entries) limit maxBytes n total (S k).
Proof.
  intros Hn Hl Hfit [H1 H2 H3 H4 H5].
  assert (Hf : first_size (n + 1) entries = 0) by (unfold first_size; case_decide; [lia|done]).
  rewrite Hf in H3. split.
  - cbn. lia.
  - lia.
  - intros Hb. specialize (H3 Hb). unfold first_size.
    rewrite firstn_cons, total_size_cons, firstn_cons, take_0, total_size_cons.
    case_decide; cbn [total_size foldr]; lia.
  - lia.
  - intros e' He' ?. specialize (H5 e' He' ltac:(lia)).
    rewrite firstn_cons, total_size_cons. lia.
Qed.

Lemma drain_loop_spec entries limit maxBytes n total :
  0 ≤ n →
  ∃ k : nat, drain_loop json_marshal entries limit maxBytes n total = n + Z.of_nat k ∧
    drained entries limit maxBytes n total k.
Proof.
  revert n total. induction entries as [|e entries IH]; intros n total Hn.
  { exists 0%nat. cbn. split; [lia|]. by apply drained_stop. }
  cbn [drain_loop]. case_match eqn:El; bools; cycle 1.
  { exists 0%nat. split; [lia|]. apply drained_stop. intros. lia. }
  pose proof (size_of_nonneg e) as Hs. unfold size_of in Hs.
  assert (Hsz : size_of e = match jsonSize json_marshal (e_Tx e) with Ok s => s | Err _ => 0 end) by done.
  destruct (jsonSize json_marshal (e_Tx e)) as [size|err] eqn:Es.
  - case_match eqn:Eb; bools.
    { exists 0%nat. split; [lia|]. apply drained_stop. cbn. intros e' [= <-] ?. rewrite Hsz. lia. }
    destruct (IH (n + 1) (total + size)) as (k & -> & Hk); [lia|].
    exists (S k). split; [lia|]. apply drained_step; rewrite ?Hsz; [lia|lia|lia|done].
  - destruct (IH (n + 1) total) as (k & -> & Hk); [lia|].
    exists (S k). split; [lia|]. apply drained_step; rewrite ?Hsz, ?Z.add_0_r; [lia|lia|lia|done].
Qed.
End mempool_lemmas.

(** * Properties *)

Module MempoolSpec.
Import Mempool.


(** The byte-bounded batcher. A drain splits the pool into a prefix and the
    rest, losing, duplicating and reordering nothing. It takes at least one entry
    when any is pending and at most [maxCount]; the batch fits in [maxBytes]
    unless its first entry alone does not; and it is maximal: when it stops short
    of the count limit, the next entry would not have fitted. *)
Theorem DrainBatchBytes_correct json_marshal m maxCount maxBytes now :
  let '(batch, m') := DrainBatchBytes json_marshal m maxCount maxBytes now in
  batch ++ pending m' = pending m ∧
  (pending m ≠ [] → batch ≠ []) ∧
  (0 < maxCount → Z.of_nat (length batch) ≤ maxCount) ∧
  (0 < maxBytes → total_size json_marshal batch ≤
     Z.max maxBytes (total_size json_marshal (take 1 batch))) ∧
  (∀ e, head (pending m') = Some e →
     (0 < maxCount ∧ Z.of_nat (length batch) = maxCount) ∨
     (0 < maxBytes ∧ maxBytes < total_size json_marshal batch + size_of json_marshal e)).
Proof.
  unfold DrainBatchBytes. cbn [pending sweepSeenLocked with_pending].
  set (limit := if _ && _ then maxCount else _).
  assert (Hlim : pending m ≠ [] → 0 < limit).
  { intros Hne. unfold limit. destruct (pending m); [done|]. case_match; bools; cbn; lia. }
  assert (Hlen : limit ≤ Z.of_nat (length (pending m)) ∧ (0 < maxCount → limit ≤ maxCount) ∧
    (limit = maxCount ∧ 0 < maxCount ∨ limit = Z.of_nat (length (pending m)))).
  { unfold limit. case_match; bools; lia. }
  destruct (drain_loop_spec json_marshal (pending m) limit maxBytes 0 0)
    as (k & -> & [Hk Hkl Hby Hpos Hmax]); [done|].
  rewrite Z.add_0_l in *. rewrite Nat2Z.id, take_drop, length_take.
  assert (Hk0 : 0 ≤ limit).
  { destruct (pending m) eqn:E; [cbn in Hlen; lia|]. specialize (Hlim ltac:(done)). lia. }
  split; [done|]. split; [|split; [lia|split]].
  - intros Hne E. specialize (Hpos Hne (Hlim Hne) eq_refl).
    apply (f_equal length) in E. rewrite length_take in E. cbn in E.
    destruct (pending m); [done|]. cbn in E. lia.
  - intros Hb. specialize (Hby Hb). unfold first_size in Hby.
    rewrite decide_True, !Z.add_0_l in Hby by done.
    rewrite take_take. destruct (decide (k = 0%nat)) as [->|]; [|by rewrite Nat.min_l by lia].
    rewrite take_0. cbn. lia.
  - intros e He. rewrite head_lookup, lookup_drop, Nat.add_0_r in He.
    destruct (decide (Z.of_nat k < limit)); [right|left].
    + specialize (Hmax e He ltac:(lia)). lia.
    + apply lookup_lt_Some in He. lia.
Qed.
End MempoolSpec.
