(* ===== verification/Outage.v ===== *)
(** pkg/consensus/outage.go: the outage controller, the node-local state machine that
    pauses live admission, backlogs transactions and drains them in megabatches. *)
From S2P Require Import Prelude Words Decimal Hashing Types.
From Stdlib Require Import SpecFloat.

Definition MegabatchMultiplier : Z := 10.
Definition backlogSeenTTL : Duration := 10 * Minute.
Definition ErrDuplicateBacklogTx : string :=
  "consensus: duplicate transaction already in the outage backlog".

(** A [float64] is a 53-bit binary float. *)
Definition float64_of_int (n : Z) : spec_float := binary_normalize 53 1024 n 0 false.
Definition float64_half : spec_float := S754_finite false (2 ^ 52) (-53).

Record OutageThresholds := {
  MissingHeartbeatFraction : spec_float; BacklogClearThreshold : Z }.
Definition DefaultOutageThresholds : OutageThresholds :=
  {| MissingHeartbeatFraction := float64_half; BacklogClearThreshold := 0 |}.

Module Outage.
Record OutageController := {
  thresholds : OutageThresholds; flag : bool; backlog : list ShieldedTx;
  cleanCycles : Z; seen : gmap Hash Time }.

Definition NewOutageController (t : OutageThresholds) : OutageController :=
  {| thresholds := t; flag := false; backlog := []; cleanCycles := 0; seen := ∅ |}.

Definition with_backlog (o : OutageController) (b : list ShieldedTx) : OutageController :=
  {| thresholds := thresholds o; flag := flag o; backlog := b;
     cleanCycles := cleanCycles o; seen := seen o |}.
Definition with_seen (o : OutageController) (s : gmap Hash Time) : OutageController :=
  {| thresholds := thresholds o; flag := flag o; backlog := backlog o;
     cleanCycles := cleanCycles o; seen := s |}.
Definition with_flag (o : OutageController) (f : bool) (c : Z) : OutageController :=
  {| thresholds := thresholds o; flag := f; backlog := backlog o;
     cleanCycles := c; seen := seen o |}.

Definition DetectOutage (o : OutageController) (lastKnownOnline missing : Z) : bool :=
  if lastKnownOnline <=? 0 then false
  else SFltb (MissingHeartbeatFraction (thresholds o))
         (SFdiv 53 1024 (float64_of_int missing) (float64_of_int lastKnownOnline)).

Definition DeclareOutage (o : OutageController) : OutageController := with_flag o true 0.
Definition Active (o : OutageController) : bool := flag o.

Definition sweepSeenLocked (o : OutageController) (now : Time) : OutageController :=
  with_seen o (filter (λ p, ¬ backlogSeenTTL ≤ time_sub now p.2) (seen o)).

(** The sweep is kept even when the transaction is refused. *)
Definition Enqueue (o : OutageController) (t : ShieldedTx) (now : Time)
    : option string * OutageController :=
  let o := sweepSeenLocked o now in
  let dup := match seen o !! tx_TxID t with
             | Some seenAt => time_sub now seenAt <? backlogSeenTTL | None => false end in
  if dup then (Some ErrDuplicateBacklogTx, o)
  else (None, with_backlog (with_seen o (<[tx_TxID t := now]> (seen o))) (backlog o ++ [t])).

Definition Reinsert (o : OutageController) (t : ShieldedTx) : OutageController :=
  with_backlog o (backlog o ++ [t]).

Definition Remove (o : OutageController) (ids : list Hash) : OutageController :=
  if bool_decide (ids = []) then o
  else with_backlog o (filter (λ t, tx_TxID t ∉ ids) (backlog o)).

Definition BacklogDepth (o : OutageController) : Z := Z.of_nat (length (backlog o)).

Definition BuildMegabatch (o : OutageController) (normalBatchSize : Z)
    : list ShieldedTx * OutageController :=
  let max := i64 (normalBatchSize * MegabatchMultiplier) in
  if (max <=? 0) || (BacklogDepth o =? 0) then ([], o)
  else
    let n := BacklogDepth o in
    let n := if max <? n then max else n in
    (take (Z.to_nat n) (backlog o), with_backlog o (drop (Z.to_nat n) (backlog o))).

Definition RecordCleanDualTrackCycle (o : OutageController) : OutageController :=
  with_flag o (flag o) (i64 (cleanCycles o + 1)).

Definition MaybeClear (o : OutageController) : bool * OutageController :=
  if negb (flag o) then (false, o)
  else if BacklogClearThreshold (thresholds o) <? BacklogDepth o then (false, o)
  else if cleanCycles o <? 1 then (false, o)
  else (true, with_flag o false (cleanCycles o)).

(** * The controller as a state machine *)

Inductive event :=
| EDeclare
| EEnqueue (t : ShieldedTx) (now : Time)
| EReinsert (t : ShieldedTx)
| ERemove (ids : list Hash)
| EBuildMegabatch (normalBatchSize : Z)
| ECleanCycle
| EMaybeClear.

Inductive step : OutageController → event → OutageController → Prop :=
| SDeclare o : step o EDeclare (DeclareOutage o)
| SEnqueue o t now : step o (EEnqueue t now) (Enqueue o t now).2
| SReinsert o t : step o (EReinsert t) (Reinsert o t)
| SRemove o ids : step o (ERemove ids) (Remove o ids)
| SBuild o n : step o (EBuildMegabatch n) (BuildMegabatch o n).2
| SClean o : step o ECleanCycle (RecordCleanDualTrackCycle o)
| SMaybeClear o : step o EMaybeClear (MaybeClear o).2.

(** The states reached from a fresh controller, with the events so far, the latest
    one first. *)
Inductive reachable (t : OutageThresholds) : list event → OutageController → Prop :=
| reach_init : reachable t [] (NewOutageController t)
| reach_step h o e o' : reachable t h o → step o e o' → reachable t (e :: h) o'.

(** Clean cycles recorded since the outage was last declared. *)
Fixpoint clean_since_declare (h : list event) : Z :=
  match h with
  | [] => 0
  | EDeclare :: _ => 0
  | ECleanCycle :: h => clean_since_declare h + 1
  | _ :: h => clean_since_declare h
  end.
End Outage.

(** * Lemmas *)

Section outage_lemmas.
Import Outage.

Lemma clean_since_declare_bounds h : 0 ≤ clean_since_declare h ≤ Z.of_nat (length h).
Proof. induction h as [|[] h IH]; cbn; lia. Qed.

Lemma BuildMegabatch_conserves o n :
  (BuildMegabatch o n).1 ++ backlog (BuildMegabatch o n).2 = backlog o.
Proof. unfold BuildMegabatch. case_match; [done|]. cbn. apply take_drop. Qed.

Lemma step_frame o e o' :
  step o e o' →
  thresholds o' = thresholds o ∧
  (e ≠ EDeclare → e ≠ ECleanCycle → cleanCycles o' = cleanCycles o) ∧
  (flag o = true → flag o' = false → e = EMaybeClear ∧ (MaybeClear o).1 = true).
Proof.
  destruct 1; cbn; repeat split; try done; try congruence.
  all: unfold Enqueue, Remove, BuildMegabatch, MaybeClear in *.
  all: repeat case_match; cbn in *; try done; try congruence.
Qed.

Lemma reachable_cleanCycles t h o :
  Z.of_nat (length h) < 2 ^ 63 → reachable t h o →
  thresholds o = t ∧ cleanCycles o = clean_since_declare h.
Proof.
  intros Hl Hr. induction Hr as [|h o e o' Hr IH Hs]; [done|]. cbn in Hl.
  destruct IH as [IH1 IH2]; [lia|].
  destruct (step_frame _ _ _ Hs) as (Ht & Hc & _). split; [congruence|].
  destruct e; cbn; try (rewrite Hc, IH2; done).
  - by inversion Hs.
  - inversion Hs; subst. cbn. rewrite IH2.
    pose proof (clean_since_declare_bounds h). by rewrite i64_id by lia.
Qed.
End outage_lemmas.

(** * Properties *)

Module OutageSpec.
Import Outage.

(** An outage ends only when it is over. In any history, the step that lowers
    the flag is a clear request made with the backlog at or below its threshold and
    with at least one clean dual-track cycle recorded since the outage was last
    declared; and such a request does lower it. *)
Theorem outage_clears_correctly t h o e o' :
  Z.of_nat (length h) < 2 ^ 63 → reachable t h o → step o e o' → flag o = true →
  (flag o' = false ↔
    e = EMaybeClear ∧ BacklogDepth o ≤ BacklogClearThreshold t ∧ 1 ≤ clean_since_declare h).
Proof.
  intros Hl Hr Hs Hf. destruct (reachable_cleanCycles t h o Hl Hr) as [Ht Hc].
  destruct (step_frame _ _ _ Hs) as (_ & _ & Hclear).
  assert (HM : MaybeClear o =
    if BacklogClearThreshold t <? BacklogDepth o then (false, o)
    else if clean_since_declare h <? 1 then (false, o)
    else (true, with_flag o false (cleanCycles o))).
  { unfold MaybeClear. by rewrite Hf, Ht, Hc. }
  split.
  - intros Hf'. destruct (Hclear Hf Hf') as [-> Hm]. rewrite HM in Hm.
    repeat case_match; try done. bools. auto with lia.
  - intros (-> & Hb & Hk). inversion Hs; subst. rewrite HM.
    rewrite (proj2 (Z.ltb_ge _ _)) by lia. by rewrite (proj2 (Z.ltb_ge _ _)) by lia.
Qed.

Lemma outage_clears_correctly_witness :
  let o := RecordCleanDualTrackCycle (DeclareOutage (NewOutageController DefaultOutageThresholds)) in
  flag (MaybeClear o).2 = false ↔
    EMaybeClear = EMaybeClear ∧ BacklogDepth o ≤ BacklogClearThreshold DefaultOutageThresholds ∧
    1 ≤ clean_since_declare [ECleanCycle; EDeclare].
Proof.
  intros o. apply (outage_clears_correctly DefaultOutageThresholds [ECleanCycle; EDeclare] o).
  - reflexivity.
  - apply (reach_step _ _ (DeclareOutage (NewOutageController DefaultOutageThresholds))); [|constructor].
    apply (reach_step _ _ (NewOutageController DefaultOutageThresholds)); constructor.
  - constructor.
  - reflexivity.
Defined.

(** Recovery loses and reorders nothing. A megabatch is the longest prefix of the
    backlog of at most ten times the normal batch size, the rest stays queued in
    order, and repeating the drain with a positive size empties the backlog after
    as many rounds as it holds transactions. *)
Theorem BuildMegabatch_drains o n :
  1 ≤ n < 2 ^ 58 → Z.of_nat (length (backlog o)) < 2 ^ 62 →
  let batch := (BuildMegabatch o n).1 in
  batch ++ backlog (BuildMegabatch o n).2 = backlog o ∧
  Z.of_nat (length batch) = Z.min (MegabatchMultiplier * n) (BacklogDepth o) ∧
  backlog (Nat.iter (length (backlog o)) (λ o, (BuildMegabatch o n).2) o) = [].
Proof.
  intros Hn Hl. assert (Hlen : ∀ o, Z.of_nat (length (BuildMegabatch o n).1) =
                              Z.min (MegabatchMultiplier * n) (BacklogDepth o)).
  { intros o'. unfold BuildMegabatch, MegabatchMultiplier, BacklogDepth. rewrite i64_id by lia.
    case_match; bools; cbn [fst length]; [lia|]. rewrite length_take.
    case_match; bools; lia. }
  split; [apply BuildMegabatch_conserves|]. split; [apply Hlen|].
  remember (length (backlog o)) as k eqn:Ek. clear Hl.
  assert (Hk : (length (backlog o) ≤ k)%nat) by lia. clear Ek. revert o Hk.
  induction k as [|k IH]; intros o Hk. { by apply length_zero_iff_nil; cbn; lia. }
  rewrite Nat.iter_succ_r. apply IH.
  specialize (Hlen o). pose proof (BuildMegabatch_conserves o n) as Hc.
  apply (f_equal length) in Hc. rewrite length_app in Hc.
  unfold MegabatchMultiplier, BacklogDepth in Hlen. lia.
Qed.

Lemma BuildMegabatch_drains_witness :
  let o := Reinsert (NewOutageController DefaultOutageThresholds) (zero_tx [1] TxTransfer) in
  let batch := (BuildMegabatch o 3).1 in
  batch ++ backlog (BuildMegabatch o 3).2 = backlog o ∧
  Z.of_nat (length batch) = Z.min (MegabatchMultiplier * 3) (BacklogDepth o) ∧
  backlog (Nat.iter (length (backlog o)) (λ o, (BuildMegabatch o 3).2) o) = [].
Proof.
  intros o. apply (BuildMegabatch_drains o 3); [lia|]. reflexivity.
Defined.

(** The detection rule on every online count up to 60: more than half missing. *)
Example DetectOutage_default :
  forallb (λ online, forallb (λ missing,
    Bool.eqb (DetectOutage (NewOutageController DefaultOutageThresholds) online missing)
             (online <? 2 * missing)) (seqZ 0 (online + 1))) (seqZ 1 60) = true.
Proof. vm_compute. reflexivity. Qed.
End OutageSpec.
