(* ===== verification/Governance.v ===== *)
(** pkg/governance and pkg/vault: the protocol parameters and how a passed vote
    changes one, the tally of a proposal's ballots, and the fee treasury. *)
From S2P Require Import Prelude Words Decimal Hashing Types.
Import Decimal (lit).

Module Governance.
Record Params := {
  BatchInterval : Duration; StageTimeout : Duration; HeartbeatInterval : Duration;
  CooldownDuration : Duration; SentinelThreshold : Z;
  AdaptiveWidthAt200 : Z; AdaptiveWidthAt300 : Z;
  DepositATRMultiple : Decimal; WithdrawATRMultiple : Decimal; BankFeeRate : Decimal;
  BankDailyCapUSD : Decimal; CycleSurchargeAfter : Z; CycleSurchargeRate : Decimal;
  DepositLock : Duration; SlippageMin : Decimal; SlippageMax : Decimal;
  InflationMin : Decimal; InflationMax : Decimal;
  VaultEpochBonusShare : Decimal; VaultBurnShare : Decimal;
  VaultAuditShare : Decimal; VaultRemainderShare : Decimal;
  KYCPromptThresholdUSD : Decimal; SilentTxSpikePercent : Decimal;
  SilentTxHoldDuration : Duration; SilentTxVaultFee : Decimal;
  ContainerHybridSplit : Decimal; RefundCap : Decimal; DualSignEnabled : bool }.

Definition Default : Params := {|
  BatchInterval := Second; StageTimeout := 4 * Second; HeartbeatInterval := 10 * Second;
  CooldownDuration := Hour; SentinelThreshold := 10;
  AdaptiveWidthAt200 := 2; AdaptiveWidthAt300 := 3;
  DepositATRMultiple := lit 25 10; WithdrawATRMultiple := lit 15 10;
  BankFeeRate := lit 1 1000; BankDailyCapUSD := Decimal.FromInt 100000;
  CycleSurchargeAfter := 3; CycleSurchargeRate := lit 1 100; DepositLock := 24 * Hour;
  SlippageMin := lit 2 1000; SlippageMax := lit 5 1000;
  InflationMin := lit 2 100; InflationMax := lit 5 100;
  VaultEpochBonusShare := lit 20 100; VaultBurnShare := lit 10 100;
  VaultAuditShare := lit 10 100; VaultRemainderShare := lit 60 100;
  KYCPromptThresholdUSD := Decimal.FromInt 10000; SilentTxSpikePercent := lit 20 100;
  SilentTxHoldDuration := 7 * 24 * Hour; SilentTxVaultFee := lit 10 100;
  ContainerHybridSplit := lit 50 100; RefundCap := lit 1 1; DualSignEnabled := true |}.

Definition ParamKeys : gset string := {[
  "DepositATRMultiple"; "WithdrawATRMultiple"; "BankFeeRate"; "RefundCap";
  "CycleSurchargeRate"; "VaultEpochBonusShare"; "VaultBurnShare"; "VaultAuditShare";
  "VaultRemainderShare"; "SilentTxSpikePercent" ]}%string.

(** The [switch] of [ApplyParamChange]; a key it does not list changes nothing. *)
Definition set_param (p : Params) (key : string) (v : Decimal) : Params :=
  if bool_decide (key = "DepositATRMultiple") then p <| DepositATRMultiple := v |>
  else if bool_decide (key = "WithdrawATRMultiple") then p <| WithdrawATRMultiple := v |>
  else if bool_decide (key = "BankFeeRate") then p <| BankFeeRate := v |>
  else if bool_decide (key = "RefundCap") then p <| RefundCap := v |>
  else if bool_decide (key = "CycleSurchargeRate") then p <| CycleSurchargeRate := v |>
  else if bool_decide (key = "VaultEpochBonusShare") then p <| VaultEpochBonusShare := v |>
  else if bool_decide (key = "VaultBurnShare") then p <| VaultBurnShare := v |>
  else if bool_decide (key = "VaultAuditShare") then p <| VaultAuditShare := v |>
  else if bool_decide (key = "VaultRemainderShare") then p <| VaultRemainderShare := v |>
  else if bool_decide (key = "SilentTxSpikePercent") then p <| SilentTxSpikePercent := v |>
  else p.

Definition ApplyParamChange `{BigRat} (p : Params) (key rawValue : string) : result Params :=
  if negb (bool_decide (key ∈ ParamKeys)) then Err "governance: unknown or unsupported param key"
  else match FromString rawValue with
       | Err _ => Err "governance: invalid value for param"
       | Ok v => Ok (set_param p key v)
       end.

Definition IsVaultShareKey (key : string) : bool :=
  bool_decide (key ∈ ["VaultEpochBonusShare"; "VaultBurnShare"; "VaultAuditShare";
                      "VaultRemainderShare"]%string).

(** * Votes *)

Definition MinTurnout : Decimal := lit 20 100.

Inductive ProposalKind :=
| ProposalParamChange | ProposalSlashNFT | ProposalUnlockNFTTransfer
| ProposalContainerAsset | ProposalUpgradeUnwind.

Record Ballot := { bl_Voter : Hash; bl_Approve : bool }.
Record TallyResult := { tr_Approve : Z; tr_Reject : Z; tr_Turnout : Decimal; tr_Passed : bool }.

Fixpoint count_ballots (seen : gset Hash) (ballots : list Ballot) (approve reject : Z) : Z * Z :=
  match ballots with
  | [] => (approve, reject)
  | b :: ballots =>
      if bool_decide (bl_Voter b ∈ seen) then count_ballots seen ballots approve reject
      else
        let seen := {[bl_Voter b]} ∪ seen in
        if bl_Approve b then count_ballots seen ballots (approve + 1) reject
        else count_ballots seen ballots approve (reject + 1)
  end.

Definition Tally (ballots : list Ballot) (eligibleNFTs : Z) (minTurnout : Decimal) : TallyResult :=
  let '(approve, reject) := count_ballots ∅ ballots 0 0 in
  let cast := approve + reject in
  let turnout := if 0 <? eligibleNFTs
                 then (Decimal.FromInt cast / Decimal.FromInt eligibleNFTs)%Qc
                 else Decimal.Zero in
  let passed := reject <? approve in
  let passed := if (0 <? Decimal.Sign minTurnout) && (Decimal.Cmp turnout minTurnout <? 0)
                then false else passed in
  {| tr_Approve := approve; tr_Reject := reject; tr_Turnout := turnout; tr_Passed := passed |}.

(** * Specification *)

(** The value of a votable parameter. *)
Definition get_param (p : Params) (key : string) : option Decimal :=
  if decide (key = "DepositATRMultiple") then Some (DepositATRMultiple p)
  else if decide (key = "WithdrawATRMultiple") then Some (WithdrawATRMultiple p)
  else if decide (key = "BankFeeRate") then Some (BankFeeRate p)
  else if decide (key = "RefundCap") then Some (RefundCap p)
  else if decide (key = "CycleSurchargeRate") then Some (CycleSurchargeRate p)
  else if decide (key = "VaultEpochBonusShare") then Some (VaultEpochBonusShare p)
  else if decide (key = "VaultBurnShare") then Some (VaultBurnShare p)
  else if decide (key = "VaultAuditShare") then Some (VaultAuditShare p)
  else if decide (key = "VaultRemainderShare") then Some (VaultRemainderShare p)
  else if decide (key = "SilentTxSpikePercent") then Some (SilentTxSpikePercent p)
  else None.

(** The parameters no vote can set. *)
Definition fixed_params (p : Params) :=
  (BatchInterval p, StageTimeout p, HeartbeatInterval p, CooldownDuration p, SentinelThreshold p,
   AdaptiveWidthAt200 p, AdaptiveWidthAt300 p, BankDailyCapUSD p, CycleSurchargeAfter p,
   DepositLock p, SlippageMin p, SlippageMax p, InflationMin p, InflationMax p,
   KYCPromptThresholdUSD p, SilentTxHoldDuration p, SilentTxVaultFee p,
   ContainerHybridSplit p, DualSignEnabled p).
End Governance.

Module Vault.
Record Splits := { EpochBonus : Decimal; Burn : Decimal; Audit : Decimal; Remainder : Decimal }.

Definition DefaultSplits : Splits :=
  {| EpochBonus := lit 20 100; Burn := lit 10 100; Audit := lit 10 100; Remainder := lit 60 100 |}.

Definition SplitsFromParams (p : Governance.Params) : Splits :=
  {| EpochBonus := Governance.VaultEpochBonusShare p; Burn := Governance.VaultBurnShare p;
     Audit := Governance.VaultAuditShare p; Remainder := Governance.VaultRemainderShare p |}.

Record Vault := {
  vt_Splits : Splits; EpochBonusPool : Decimal; BurnedTotal : Decimal; AuditPool : Decimal;
  RemainderPool : Decimal; BankYieldBuybackPool : Decimal; BankYieldAirdropPool : Decimal }.

Definition New (splits : Splits) : Vault :=
  {| vt_Splits := splits; EpochBonusPool := Decimal.Zero; BurnedTotal := Decimal.Zero;
     AuditPool := Decimal.Zero; RemainderPool := Decimal.Zero;
     BankYieldBuybackPool := Decimal.Zero; BankYieldAirdropPool := Decimal.Zero |}.

Definition CollectFee (v : Vault) (amount : Decimal) : Vault :=
  v <| EpochBonusPool := Decimal.Add (EpochBonusPool v) (Decimal.Mul amount (EpochBonus (vt_Splits v))) |>
    <| AuditPool := Decimal.Add (AuditPool v) (Decimal.Mul amount (Audit (vt_Splits v))) |>
    <| RemainderPool := Decimal.Add (RemainderPool v) (Decimal.Mul amount (Remainder (vt_Splits v))) |>
    <| BurnedTotal := Decimal.Add (BurnedTotal v) (Decimal.Mul amount (Burn (vt_Splits v))) |>.

Definition CollectBankYield (v : Vault) (amount : Decimal) : Vault :=
  let half := (amount / Decimal.FromInt 2)%Qc in
  v <| BankYieldBuybackPool := Decimal.Add (BankYieldBuybackPool v) half |>
    <| BankYieldAirdropPool := Decimal.Add (BankYieldAirdropPool v) (Decimal.Sub amount half) |>.

Definition DrawEpochBonusPool (v : Vault) (amount : Decimal) : Decimal * Vault :=
  let draw := Decimal.Min amount (EpochBonusPool v) in
  (draw, v <| EpochBonusPool := Decimal.Sub (EpochBonusPool v) draw |>).

Definition MultiTaskBonusMultiplier (validateOn mintOn : bool) : Decimal :=
  if validateOn && mintOn then lit 120 100
  else if xorb validateOn mintOn then lit 90 100 else lit 1 1.

Definition EpochBonusPayout (baseBonus tpWeight : Decimal) (validateOn mintOn : bool) : Decimal :=
  Decimal.Mul (Decimal.Mul baseBonus (MultiTaskBonusMultiplier validateOn mintOn)) tpWeight.

(** Everything the treasury has taken in and not paid out. *)
Definition total (v : Vault) : Decimal :=
  (EpochBonusPool v + BurnedTotal v + AuditPool v + RemainderPool v +
   BankYieldBuybackPool v + BankYieldAirdropPool v)%Qc.
Definition split_sum (s : Splits) : Decimal := (EpochBonus s + Burn s + Audit s + Remainder s)%Qc.
End Vault.

(** * Lemmas *)

Section governance_lemmas.
Import Governance.

(** The distinct voters of a list of ballots, and those whose first ballot approves. *)
Definition voters (bs : list Ballot) : gset Hash := list_to_set (bl_Voter <$> bs).
Fixpoint first_choices (seen : gset Hash) (bs : list Ballot) : list Ballot :=
  match bs with
  | [] => []
  | b :: bs => if bool_decide (bl_Voter b ∈ seen) then first_choices seen bs
               else b :: first_choices ({[bl_Voter b]} ∪ seen) bs
  end.
Definition approving (bs : list Ballot) : Z := Z.of_nat (length (filter (λ b, bl_Approve b = true) bs)).

Lemma count_ballots_spec seen bs a r :
  count_ballots seen bs a r =
    (a + approving (first_choices seen bs),
     r + (Z.of_nat (length (first_choices seen bs)) - approving (first_choices seen bs))).
Proof.
  unfold approving. revert seen a r. induction bs as [|b bs IH]; intros seen a r; cbn [count_ballots first_choices].
  { cbn. f_equal; lia. }
  case_bool_decide; [by rewrite IH|]. rewrite filter_cons.
  destruct (bl_Approve b) eqn:E; rewrite IH.
  - rewrite decide_True by done. cbn [length]. f_equal; lia.
  - rewrite decide_False by congruence. cbn [length]. f_equal; lia.
Qed.

Lemma first_choices_size seen bs :
  length (first_choices seen bs) = size (voters bs ∖ seen).
Proof.
  unfold voters. revert seen. induction bs as [|b bs IH]; intros seen.
  { cbn. symmetry. apply size_empty_iff. set_solver. }
  cbn [first_choices fmap list_fmap list_to_set]. case_bool_decide as Hb.
  - rewrite IH. f_equal. set_solver.
  - cbn [length]. rewrite IH. symmetry. by apply size_insert_unseen.
Qed.

Lemma first_choices_NoDup seen bs :
  NoDup (bl_Voter <$> bs) → voters bs ## seen → first_choices seen bs = bs.
Proof.
  unfold voters. revert seen. induction bs as [|b bs IH]; intros seen Hnd Hs; [done|].
  cbn in *. apply NoDup_cons in Hnd as [Hb Hnd].
  rewrite bool_decide_false by set_solver. f_equal. apply IH; [done|].
  intros x Hx. rewrite elem_of_list_to_set in Hx. set_solver.
Qed.

(** When voters are distinct the result does not depend on the order of the ballots. *)
Lemma Tally_perm bs bs' eligible m :
  NoDup (bl_Voter <$> bs) → bs ≡ₚ bs' → Tally bs' eligible m = Tally bs eligible m.
Proof.
  intros Hnd Hp. unfold Tally. rewrite !count_ballots_spec, !first_choices_size, !difference_empty_L.
  assert (Hv : voters bs' = voters bs).
  { unfold voters. apply leibniz_equiv. by rewrite Hp. }
  assert (Hf : approving (first_choices ∅ bs') = approving (first_choices ∅ bs)).
  { rewrite !first_choices_NoDup; [|done|apply disjoint_empty_r|by rewrite <-Hp|apply disjoint_empty_r].
    unfold approving. by rewrite Hp. }
  by rewrite Hv, Hf.
Qed.

Lemma approving_le bs : 0 ≤ approving bs ≤ Z.of_nat (length bs).
Proof. unfold approving. pose proof (length_filter (λ b, bl_Approve b = true) bs). lia. Qed.

Lemma turnout_below cast eligible m :
  0 < eligible →
  Decimal.Cmp (Decimal.FromInt cast / Decimal.FromInt eligible)%Qc m < 0 ↔
  (Decimal.FromInt cast < m * Decimal.FromInt eligible)%Qc.
Proof.
  intros He. rewrite Cmp_lt.
  assert (He' : (0 < Decimal.FromInt eligible)%Qc).
  { change 0%Qc with (Decimal.FromInt 0). by apply FromInt_lt. }
  assert (Hn : Decimal.FromInt eligible ≠ 0%Qc) by (intros E; rewrite E in He'; by apply Qclt_not_eq in He').
  pose proof (Div_mul (Decimal.FromInt cast) (Decimal.FromInt eligible) Hn) as Hd.
  set (q := (Decimal.FromInt cast / Decimal.FromInt eligible)%Qc) in *.
  rewrite <-Hd. split; intros Hlt.
  - by apply Qcmult_lt_compat_r.
  - apply Qcnot_le_lt. intros Hle. apply (Qcmult_le_compat_r _ _ (Decimal.FromInt eligible)) in Hle.
    + by apply Qcle_not_lt in Hle.
    + by apply Qclt_le_weak.
Qed.

(** With a positive turnout floor a count passes exactly when approvals outnumber
    rejections and the ballots cast reach the floor. *)
Lemma Tally_passed bs eligible m :
  (0 < m)%Qc →
  let r := Tally bs eligible m in
  tr_Passed r = true ↔ 0 < eligible ∧ tr_Reject r < tr_Approve r ∧
    (m * Decimal.FromInt eligible <= Decimal.FromInt (tr_Approve r + tr_Reject r))%Qc.
Proof.
  intros Hm r. unfold r, Tally. destruct (count_ballots ∅ bs 0 0) as [a b].
  cbn [tr_Approve tr_Reject tr_Passed].
  rewrite (proj2 (Z.ltb_lt 0 (Decimal.Sign m))) by by apply Sign_pos. cbn [andb].
  destruct (Z.ltb_spec 0 eligible) as [He|He].
  - pose proof (turnout_below (a + b) eligible m He) as Hb. rewrite Qcle_ngt, <-Hb.
    case_match eqn:Ec; rewrite ?Z.ltb_lt, ?Z.ltb_ge in Ec; rewrite ?Z.ltb_lt; naive_solver lia.
  - rewrite (proj2 (Z.ltb_lt (Decimal.Cmp _ _) 0)); [naive_solver lia|]. by apply Cmp_lt.
Qed.
End governance_lemmas.

Section vault_lemmas.
Import Vault.

Lemma CollectFee_total v amount :
  total (CollectFee v amount) = (total v + amount * split_sum (vt_Splits v))%Qc ∧
  vt_Splits (CollectFee v amount) = vt_Splits v.
Proof.
  split; [|done]. destruct v as [[]]. unfold total, split_sum, CollectFee, Decimal.Add, Decimal.Mul. cbn -[Qcplus Qcmult Qcminus Qcdiv]. ring.
Qed.
End vault_lemmas.

(** * Properties *)

Module GovernanceSpec.
Import Governance.

(** Counting a proposal. Each voter counts once, by the first ballot cast: the
    approvals and rejections are those of the first choices and add up to the
    number of distinct voters. With a positive turnout floor and eligible voters a
    proposal passes exactly when approvals outnumber rejections and the cast
    ballots reach the floor; with no eligible voter it never passes. When voters
    are distinct the result does not depend on the order of the ballots. *)
Theorem Tally_correct bs eligible m :
  (0 < m)%Qc →
  let r := Tally bs eligible m in
  let fc := first_choices ∅ bs in
  tr_Approve r = approving fc ∧
  tr_Approve r + tr_Reject r = Z.of_nat (size (voters bs)) ∧
  (tr_Passed r = true ↔ 0 < eligible ∧ tr_Reject r < tr_Approve r ∧
     (m * Decimal.FromInt eligible <= Decimal.FromInt (Z.of_nat (size (voters bs))))%Qc) ∧
  (∀ bs', NoDup (bl_Voter <$> bs) → bs ≡ₚ bs' → Tally bs' eligible m = r).
Proof.
  intros Hm r fc. pose proof (Tally_passed bs eligible m Hm) as Hp. fold r in Hp. cbv zeta in Hp.
  assert (Ha : tr_Approve r = approving fc) by (unfold r, Tally; by rewrite count_ballots_spec).
  assert (Hs : tr_Approve r + tr_Reject r = Z.of_nat (size (voters bs))).
  { unfold r, Tally. rewrite count_ballots_spec, !first_choices_size, difference_empty_L.
    cbn [tr_Approve tr_Reject]. lia. }
  split; [done|]. split; [done|]. split; [by rewrite <-Hs|].
  intros bs' Hnd HP. by apply Tally_perm.
Qed.

Lemma Tally_correct_witness :
  let bs := [{| bl_Voter := [1]; bl_Approve := true |}; {| bl_Voter := [1]; bl_Approve := false |};
             {| bl_Voter := [2]; bl_Approve := true |}] in
  let r := Tally bs 10 MinTurnout in
  let fc := first_choices ∅ bs in
  tr_Approve r = approving fc ∧
  tr_Approve r + tr_Reject r = Z.of_nat (size (voters bs)) ∧
  (tr_Passed r = true ↔ 0 < 10 ∧ tr_Reject r < tr_Approve r ∧
     (MinTurnout * Decimal.FromInt 10 <= Decimal.FromInt (Z.of_nat (size (voters bs))))%Qc) ∧
  (∀ bs', NoDup (bl_Voter <$> bs) → bs ≡ₚ bs' → Tally bs' 10 MinTurnout = r).
Proof. intros bs. apply (Tally_correct bs 10 MinTurnout). reflexivity. Defined.

(** A passed parameter change does exactly what it names. An unknown key or an
    unparsable value is refused and changes nothing; otherwise the named parameter
    takes the parsed value, and every other parameter, votable or not, is left as
    it was. *)
Theorem ApplyParamChange_correct `{BigRat} p key raw :
  (∀ p', ApplyParamChange p key raw = Ok p' →
     key ∈ ParamKeys ∧ get_param p' key = SetString raw ∧ is_Some (SetString raw) ∧
     (∀ k, k ≠ key → get_param p' k = get_param p k) ∧ fixed_params p' = fixed_params p) ∧
  (is_ok (ApplyParamChange p key raw) = bool_decide (key ∈ ParamKeys ∧ is_Some (SetString raw))).
Proof.
  unfold ApplyParamChange, FromString. case_bool_decide as Hk; cbn [negb]; cycle 1.
  { split; [done|]. by rewrite bool_decide_false by naive_solver. }
  destruct (SetString raw) as [v|]; cycle 1.
  { split; [done|]. rewrite bool_decide_false; [done|]. intros [_ [? ?]]; done. }
  split; [|by rewrite bool_decide_true by eauto].
  intros p' [= <-]. split; [done|].
  unfold ParamKeys in Hk. rewrite !elem_of_union, !elem_of_singleton in Hk.
  assert (Hset : get_param (set_param p key v) key = Some v ∧
    (∀ k, k ≠ key → get_param (set_param p key v) k = get_param p k) ∧
    fixed_params (set_param p key v) = fixed_params p); [|naive_solver].
  repeat match goal with H : _ ∨ _ |- _ => destruct H as [H|H] end; subst key;
    (split; [reflexivity|]; split; [|reflexivity]);
    intros k Hne; unfold get_param; repeat (case_decide; [subst; solve [done|reflexivity]|]);
    reflexivity.
Qed.
End GovernanceSpec.

Module VaultSpec.
Import Vault.

(** The treasury conserves value. Over any sequence of fees the pools grow by
    exactly the fees collected whenever the four shares sum to one, as the genesis
    shares do; conversely if one non-zero fee is fully allocated, they sum to one.
    Bank yield is split with nothing lost, and a draw on the bonus pool pays what
    leaves the pool, never more than asked for nor more than it holds. *)
Theorem Vault_conserves v fees y amount :
  (split_sum (vt_Splits v) = 1%Qc →
     total (foldl CollectFee v fees) = (total v + foldr Qcplus 0 fees)%Qc) ∧
  (∀ fee, fee ≠ 0%Qc → total (CollectFee v fee) = (total v + fee)%Qc →
     split_sum (vt_Splits v) = 1%Qc) ∧
  split_sum DefaultSplits = 1%Qc ∧
  SplitsFromParams Governance.Default = DefaultSplits ∧
  total (CollectBankYield v y) = (total v + y)%Qc ∧
  (let '(draw, v') := DrawEpochBonusPool v amount in
   total v = (total v' + draw)%Qc ∧ (draw <= amount)%Qc ∧ (draw <= EpochBonusPool v)%Qc).
Proof.
  split; [|split; [|split; [|split; [|split]]]].
  - revert v. induction fees as [|fee fees IH]; intros v Hs; cbn [foldl foldr]; [ring|].
    destruct (CollectFee_total v fee) as [Ht Hv]. rewrite IH by by rewrite Hv.
    rewrite Ht, Hs. ring.
  - intros fee Hf E. destruct (CollectFee_total v fee) as [Ht _]. rewrite Ht in E.
    set (S := split_sum (vt_Splits v)) in *.
    assert (H0 : (fee * (S + - (1))%Qc = 0)%Qc).
    { transitivity ((total v + fee * S) - (total v + fee))%Qc; [ring|]. rewrite E. ring. }
    apply (Qcmult_integral_l _ _ Hf) in H0.
    transitivity ((S + - (1)) + 1)%Qc; [ring|]. rewrite H0. ring.
  - by apply Qc_is_canon.
  - done.
  - unfold total, CollectBankYield, Decimal.Add, Decimal.Sub. destruct v; cbn -[Qcplus Qcmult Qcminus Qcdiv]. ring.
  - unfold DrawEpochBonusPool. split; [|split; [apply Min_le_l|apply Min_le_r]].
    unfold total, Decimal.Sub. destruct v; cbn -[Qcplus Qcmult Qcminus Qcdiv]. ring.
Qed.
End VaultSpec.

(** * Findings *)

(** A vote on one share changes it alone, so the shares no longer sum to one and the
    treasury then books more than it collects: 110 for every 100. *)
Theorem share_vote_breaks_conservation `{BigRat} :
  SetString "1/5" = Some (lit 1 5) →
  ∃ p, Governance.ApplyParamChange Governance.Default "VaultBurnShare" "1/5" = Ok p ∧
    Vault.total (Vault.CollectFee (Vault.New (Vault.SplitsFromParams p)) (Decimal.FromInt 100)) =
    Decimal.FromInt 110.
Proof.
  intros Hs. eexists. unfold Governance.ApplyParamChange, FromString. rewrite Hs.
  split; [reflexivity|]. by apply Qc_is_canon.
Qed.
