(* ===== verification/Bank.v ===== *)
(** pkg/bank and pkg/oracle: the deposit and withdrawal arithmetic of the Bank, the
    on-chain deposit check that gates it, the flow-correlation counter, and the price
    oracle's quorum. All amounts are exact rationals, as in the code. *)
From S2P Require Import Prelude Words Decimal Hashing Types.
Import Decimal (lit).

Module Bank.
Definition DepositATRMultiple : Decimal := lit 25 10.
Definition WithdrawATRMultiple : Decimal := lit 15 10.
Definition EntryFeeRate : Decimal := lit 1 1000.
Definition ExitFeeRate : Decimal := lit 1 1000.
Definition CycleSurchargeRate : Decimal := lit 1 100.
Definition RefundCapDefault : Decimal := lit 1 1.
Definition SlippageMin : Decimal := lit 2 1000.
Definition SlippageMax : Decimal := lit 5 1000.
Definition DepositLockDuration : Duration := 24 * Hour.
Definition DailyCapUSD : Z := 100000.
Definition CycleSurchargeThreshold : Z := 3.
Definition DefaultMinConfirmations : Z := 6.

Definition ErrBufferExceedsGross : string := "bank: volatility buffer exceeds gross deposit value".
Definition ErrDailyCapExceeded : string := "bank: daily Bank cap exceeded for this wallet".
Definition ErrHoldStillLocked : string := "bank: hold is still within its 24-hour lock".
Definition ErrHoldNotOpen : string := "bank: hold is not open for withdrawal".
Definition ErrDepositVerificationFailed : string := "bank: deposit verification failed".
Definition ErrDepositNotConfirmed : string :=
  "bank: deposit transaction does not have enough confirmations yet".
Definition ErrDepositAmountMismatch : string :=
  "bank: claimed deposit amount exceeds what is actually confirmed on-chain".
Definition ErrInvalidPrice : string := "bank: invalid SFG/USD price".

Record DepositObservation := { ob_ConfirmedAmount : Decimal; ob_Confirmations : Z }.

(** The [DepositWatcher] interface. *)
Definition DepositWatcher : Type := string → string → string → result DepositObservation.

Record DepositParams := {
  dp_Owner : Address; dp_Asset : string; dp_ExternalAmount : Decimal; dp_PriceUSD : Decimal;
  dp_ATRUSD : Decimal; dp_SFGUSDPrice : Decimal; dp_Now : Z; dp_DailyUsedUSD : Decimal;
  dp_DailyCapUSD : Decimal; dp_CycleCount30d : Z; dp_CustodyAddress : string;
  dp_TxID : string; dp_Watcher : option DepositWatcher; dp_MinConfirmations : Z }.

(** The watcher gate at the head of [Deposit]. *)
Definition check_watcher (p : DepositParams) : result unit :=
  match dp_Watcher p with
  | None => Ok tt
  | Some watcher =>
      let minConf := if dp_MinConfirmations p <=? 0 then DefaultMinConfirmations
                     else dp_MinConfirmations p in
      match watcher (dp_Asset p) (dp_CustodyAddress p) (dp_TxID p) with
      | Err _ => Err ErrDepositVerificationFailed
      | Ok obs =>
          if ob_Confirmations obs <? minConf then Err ErrDepositNotConfirmed
          else if Decimal.Cmp (ob_ConfirmedAmount obs) (dp_ExternalAmount p) <? 0
          then Err ErrDepositAmountMismatch
          else Ok tt
      end
  end.

Section bank.
Context `{Sha256}.

Definition Deposit (p : DepositParams) : result BankHold :=
  _ ← check_watcher p;
  let grossUSD := Decimal.Mul (dp_ExternalAmount p) (dp_PriceUSD p) in
  let cap := if Decimal.Sign (dp_DailyCapUSD p) =? 0 then Decimal.FromInt DailyCapUSD
             else dp_DailyCapUSD p in
  if 0 <? Decimal.Cmp (Decimal.Add (dp_DailyUsedUSD p) grossUSD) cap then Err ErrDailyCapExceeded
  else
  let buffer := Decimal.Mul DepositATRMultiple (dp_ATRUSD p) in
  if 0 <=? Decimal.Cmp buffer grossUSD then Err ErrBufferExceedsGross
  else
  let net := Decimal.Sub grossUSD buffer in
  let feeRate := if CycleSurchargeThreshold <? dp_CycleCount30d p
                 then Decimal.Add EntryFeeRate CycleSurchargeRate else EntryFeeRate in
  let entryFee := Decimal.Mul net feeRate in
  if Decimal.Sign (dp_SFGUSDPrice p) <=? 0 then Err ErrInvalidPrice
  else
  sfg ← Decimal.Div (Decimal.Sub net entryFee) (dp_SFGUSDPrice p);
  let sfg := if Decimal.Sign sfg <? 0 then Decimal.Zero else sfg in
  let holdID := SumHash [dp_Owner p; string_bytes (dp_Asset p);
                         string_bytes (Decimal.int_string (dp_Now p))] in
  Ok {| bh_HoldID := holdID; bh_Owner := dp_Owner p; bh_ExternalAsset := dp_Asset p;
        bh_ExternalAmount := dp_ExternalAmount p; bh_EntryPriceUSD := dp_PriceUSD p;
        bh_EntryATR := dp_ATRUSD p; bh_EntryBuffer := buffer; bh_EntryFee := entryFee;
        bh_SFGIssued := Decimal.Uint64 sfg; bh_OpenedAt := dp_Now p;
        bh_DailySnapshots := [{| ap_Timestamp := dp_Now p; ap_ATRUSD := dp_ATRUSD p |}];
        bh_Status := HoldLocked24h; bh_CycleCount30d := dp_CycleCount30d p |}.

(** * Flow correlation *)

Definition IPFingerprint (ip : string) (daySalt : bytes) : Hash :=
  SumHash [string_bytes ip; daySalt].

Definition Record_flow (counts : gmap Hash Z) (ip : string) (daySalt : bytes)
    : (Hash * Z) * gmap Hash Z :=
  let fp := IPFingerprint ip daySalt in
  let n := default 0 (counts !! fp) + 1 in
  ((fp, n), <[fp := n]> counts).

Definition IsCorrelated (counts : gmap Hash Z) (fp : Hash) (threshold : Z) : bool :=
  threshold <? default 0 (counts !! fp).
End bank.

Definition AverageATR (hold : BankHold) : Decimal :=
  match bh_DailySnapshots hold with
  | [] => bh_EntryATR hold
  | snaps => (foldl (λ sum s, Decimal.Add sum (ap_ATRUSD s)) Decimal.Zero snaps
              / Decimal.FromInt (Z.of_nat (length snaps)))%Qc
  end.

Record WithdrawParams := {
  wp_Hold : BankHold; wp_PriceNowUSD : Decimal; wp_SlippageRate : Decimal;
  wp_RefundCap : Decimal; wp_GasFeeSFG : Decimal; wp_Now : Z }.
Record WithdrawResult := { wr_Retention : Decimal; wr_RefundSFG : Decimal; wr_RepaySFG : Decimal }.

Definition Withdraw (p : WithdrawParams) : result WithdrawResult :=
  let hold := wp_Hold p in
  if negb (bool_decide (bh_Status hold = HoldLocked24h)) &&
     negb (bool_decide (bh_Status hold = HoldOpen)) then Err ErrHoldNotOpen
  else if i64 (wp_Now p - bh_OpenedAt hold) <? Z.quot DepositLockDuration Millisecond
  then Err ErrHoldStillLocked
  else
  let retention := Decimal.Mul WithdrawATRMultiple (AverageATR hold) in
  let refund := Decimal.Max0 (Decimal.Sub (bh_EntryBuffer hold) retention) in
  let refundCap := if Decimal.Sign (wp_RefundCap p) =? 0 then RefundCapDefault
                   else wp_RefundCap p in
  let capAmount := Decimal.Mul (bh_EntryBuffer hold) refundCap in
  let refund := Decimal.Min refund capAmount in
  let baseSFG := Decimal.FromInt (i64 (bh_SFGIssued hold)) in
  asymmetry ←
    (if (0 <? Decimal.Sign (wp_PriceNowUSD p)) && (0 <? Decimal.Sign (bh_EntryPriceUSD hold)) &&
        (Decimal.Cmp (wp_PriceNowUSD p) (bh_EntryPriceUSD hold) <? 0)
     then Decimal.Div (bh_EntryPriceUSD hold) (wp_PriceNowUSD p)
     else Ok (lit 1 1));
  let repay := Decimal.Mul baseSFG asymmetry in
  let slippage := if Decimal.Sign (wp_SlippageRate p) =? 0 then SlippageMax
                  else wp_SlippageRate p in
  let repay := Decimal.Add repay (Decimal.Mul repay slippage) in
  let exitFeeRate := if CycleSurchargeThreshold <? bh_CycleCount30d hold
                     then Decimal.Add ExitFeeRate CycleSurchargeRate else ExitFeeRate in
  let repay := Decimal.Add repay (Decimal.Mul repay exitFeeRate) in
  let repay := Decimal.Add repay (wp_GasFeeSFG p) in
  Ok {| wr_Retention := retention; wr_RefundSFG := refund; wr_RepaySFG := repay |}.

Definition RecordDailySnapshot (hold : BankHold) (atrUSD : Decimal) (now : Z) : BankHold :=
  hold <| bh_DailySnapshots ::= λ l, l ++ [{| ap_Timestamp := now; ap_ATRUSD := atrUSD |}] |>.

(** * The Esplora watcher *)

Record esploraVout := { ev_ScriptPubKeyAddress : string; ev_Value : Z }.
Record esploraTx := {
  et_TxID : string; et_Vout : list esploraVout; et_Confirmed : bool; et_BlockHeight : Z }.

(** The block explorer the watcher queries over HTTP. *)
Class Esplora := {
  fetch_tx : string → result esploraTx;
  fetch_tip : result Z }.

Definition satsPerBTC : positive := 100000000.
Definition satsToBTC (sats : Z) : Decimal := Q2Qc (i64 sats # satsPerBTC).

Definition paid_sats (tx : esploraTx) (custodyAddress : string) : Z :=
  foldl (λ sats out, if bool_decide (ev_ScriptPubKeyAddress out = custodyAddress)
                     then u64 (sats + ev_Value out) else sats) 0 (et_Vout tx).

Definition VerifyDeposit `{Esplora} : DepositWatcher := λ asset custodyAddress txID,
  _ ← require (bool_decide (asset = AssetBTC)) "bank: EsploraDepositWatcher only supports BTC";
  _ ← require (negb (bool_decide (custodyAddress = EmptyString) || bool_decide (txID = EmptyString)))
        "bank: custodyAddress and txID are required";
  tx ← fetch_tx txID;
  let sats := paid_sats tx custodyAddress in
  confirmations ←
    (if et_Confirmed tx then
       tip ← fetch_tip;
       let c := i64 (i64 (tip - et_BlockHeight tx) + 1) in
       Ok (if c <? 0 then 0 else c)
     else Ok 0);
  Ok {| ob_ConfirmedAmount := satsToBTC sats; ob_Confirmations := confirmations |}.
End Bank.

Module Oracle.
Record Quote := { qt_PriceUSD : Decimal; qt_ATRUSD : Decimal; qt_Timestamp : Z }.
Definition Source : Type := string → result Quote.

Definition ErrDisagreement : string := "oracle: sources disagree beyond the allowed bound".

Record Quorum := { sources : list Source; maxDisagreement : Decimal; lastGood : gmap string Quote }.
Definition NewQuorum (maxDisagreement : Decimal) (sources : list Source) : Quorum :=
  {| sources := sources; maxDisagreement := maxDisagreement; lastGood := ∅ |}.

Definition zero_quote : Quote :=
  {| qt_PriceUSD := Decimal.Zero; qt_ATRUSD := Decimal.Zero; qt_Timestamp := 0 |}.

Definition withinBound (vals : list Decimal) (bound : Decimal) : bool :=
  match vals with
  | [] | [_] => true
  | v0 :: rest =>
      let lo := foldl (λ lo v, if Decimal.Cmp v lo <? 0 then v else lo) v0 rest in
      let hi := foldl (λ hi v, if 0 <? Decimal.Cmp v hi then v else hi) v0 rest in
      if Decimal.Sign lo <=? 0 then Decimal.Sign hi =? 0
      else Decimal.Cmp (Decimal.Sub hi lo / lo)%Qc bound <=? 0
  end.

(** The inner loop of the insertion sort: [prefix] is the sorted part, its last
    element first, and [v] moves down past every greater element. *)
Fixpoint bubble (v : Decimal) (prefix : list Decimal) : list Decimal :=
  match prefix with
  | [] => [v]
  | x :: rest => if Decimal.Cmp v x <? 0 then x :: bubble v rest else v :: x :: rest
  end.

Definition sort_decimals (vals : list Decimal) : list Decimal :=
  reverse (foldl (λ prefix v, bubble v prefix) [] vals).

Definition median (vals : list Decimal) : Decimal :=
  let sorted := sort_decimals vals in
  let n := length sorted in
  if Nat.odd n then nth (n / 2) sorted Decimal.Zero
  else (Decimal.Add (nth (n / 2 - 1) sorted Decimal.Zero) (nth (n / 2) sorted Decimal.Zero)
        / Decimal.FromInt 2)%Qc.

(** The polling loop: prices, ATRs and the latest quote. *)
Fixpoint poll (srcs : list Source) (asset : string) (prices atrs : list Decimal) (latest : Quote)
    : result (list Decimal * list Decimal * Quote) :=
  match srcs with
  | [] => Ok (prices, atrs, latest)
  | s :: srcs =>
      match s asset with
      | Err _ => Err "oracle: source failed"
      | Ok quote =>
          poll srcs asset (prices ++ [qt_PriceUSD quote]) (atrs ++ [qt_ATRUSD quote])
            (if qt_Timestamp latest <=? qt_Timestamp quote then quote else latest)
      end
  end.

Definition quote (q : Quorum) (asset : string) : result Quote * Quorum :=
  match sources q with
  | [] => (Err "oracle: no sources configured", q)
  | srcs =>
      match poll srcs asset [] [] zero_quote with
      | Err e => (Err e, q)
      | Ok (prices, atrs, latest) =>
          if negb (withinBound prices (maxDisagreement q)) ||
             negb (withinBound atrs (maxDisagreement q)) then (Err ErrDisagreement, q)
          else
            let result := {| qt_PriceUSD := median prices; qt_ATRUSD := median atrs;
                             qt_Timestamp := qt_Timestamp latest |} in
            (Ok result, q <| lastGood ::= <[asset := result]> |>)
      end
  end.

Definition LastGood (q : Quorum) (asset : string) : option Quote := lastGood q !! asset.
End Oracle.

(** * Lemmas: the Bank *)

Section bank_lemmas.
Import Bank.
Local Open Scope Qc_scope.

Lemma check_watcher_Ok p u :
  check_watcher p = Ok u →
  ∀ w, dp_Watcher p = Some w → ∃ obs,
    w (dp_Asset p) (dp_CustodyAddress p) (dp_TxID p) = Ok obs ∧
    ((if dp_MinConfirmations p <=? 0 then DefaultMinConfirmations else dp_MinConfirmations p)
       <= ob_Confirmations obs)%Z ∧
    dp_ExternalAmount p <= ob_ConfirmedAmount obs.
Proof.
  unfold check_watcher. intros E w Hw. rewrite Hw in E.
  destruct (w _ _ _) as [obs|]; [|done]. exists obs.
  destruct (Z.ltb_spec (ob_Confirmations obs) (if dp_MinConfirmations p <=? 0 then DefaultMinConfirmations else dp_MinConfirmations p)); [done|].
  destruct (Z.ltb_spec (Decimal.Cmp (ob_ConfirmedAmount obs) (dp_ExternalAmount p)) 0) as [|Hc]; [done|].
  by apply Cmp_ge in Hc.
Qed.

Lemma FromInt_pos n : (0 < n)%Z → 0 < Decimal.FromInt n.
Proof. intros. change (Q2Qc 0) with (Decimal.FromInt 0). by apply FromInt_lt. Qed.

Lemma Qc_pos_nonzero (x : Qc) : 0 < x → x ≠ 0.
Proof. intros Hx ->. by apply Qclt_not_eq in Hx. Qed.

Lemma Qcmult_le_pos_r (x y z : Qc) : 0 <= z → x <= y → x * z <= y * z.
Proof. intros Hz Hxy. by apply Qcmult_le_compat_r. Qed.

Lemma Qcmult_nonneg (x y : Qc) : 0 <= x → 0 <= y → 0 <= x * y.
Proof.
  intros Hx Hy. replace 0 with (0 * y) by ring. by apply Qcmult_le_pos_r.
Qed.

(** Issuing whole units of a positive price from a positive value. *)
Lemma issue_floor value price s :
  0 <= value → 0 < price → value < Decimal.FromInt (2 ^ 64) * price →
  Decimal.Div value price = Ok s →
  Decimal.FromInt (Decimal.Uint64 s) * price <= value ∧
  value < Decimal.FromInt (Decimal.Uint64 s) * price + price ∧ 0 <= s.
Proof.
  intros Hv Hp Hlim E. pose proof (Qc_pos_nonzero _ Hp) as Hne.
  rewrite Div_Ok in E by done. injection E as <-.
  pose proof (Div_mul value price Hne) as Hd. set (s := value / price) in *.
  assert (Hs : 0 <= s).
  { apply Qcnot_lt_le. intros Hlt. apply (Qcmult_lt_compat_r _ _ price Hp) in Hlt.
    rewrite Hd, Qcmult_0_l in Hlt. by apply Qclt_not_le in Hlt. }
  assert (Hs' : s < Decimal.FromInt (2 ^ 64)).
  { apply Qcnot_le_lt. intros Hle. apply (Qcmult_le_pos_r _ _ price) in Hle; [|by apply Qclt_le_weak].
    rewrite Hd in Hle. by apply Qcle_not_lt in Hle. }
  destruct (Uint64_floor s Hs Hs') as [Hlo Hhi].
  split; [|split]; [| |done].
  - rewrite <-Hd. apply Qcmult_le_pos_r; [by apply Qclt_le_weak|done].
  - rewrite <-Hd. replace (Decimal.FromInt (Decimal.Uint64 s) * price + price)
      with ((Decimal.FromInt (Decimal.Uint64 s) + 1) * price) by ring.
    by apply Qcmult_lt_compat_r.
Qed.

Definition fee_rate (base : Decimal) (cycles : Z) : Decimal :=
  if (CycleSurchargeThreshold <? cycles)%Z then base + CycleSurchargeRate else base.

Lemma fee_rate_bounds cycles : 0 <= fee_rate EntryFeeRate cycles ∧ fee_rate EntryFeeRate cycles <= 1.
Proof. unfold fee_rate. case_match; split; vm_compute; discriminate. Qed.

Lemma fee_rate_exit cycles : 0 <= fee_rate ExitFeeRate cycles.
Proof. unfold fee_rate. case_match; vm_compute; discriminate. Qed.

(** The asymmetry factor is at least one and restores the entry price. *)
Lemma asymmetry_factor (now entry : Qc) :
  ∃ a, (if (0 <? Decimal.Sign now)%Z && (0 <? Decimal.Sign entry)%Z && (Decimal.Cmp now entry <? 0)%Z
        then Decimal.Div entry now else Ok (lit 1 1)) = Ok a ∧ 1 <= a ∧
    (0 < now → now < entry → a * now = entry).
Proof.
  destruct (Z.ltb_spec 0 (Decimal.Sign now)) as [Hn|Hn]; cbn [andb]; cycle 1.
  { exists (lit 1 1). split; [done|]. split; [vm_compute; discriminate|].
    intros Hp. apply Sign_pos in Hp. lia. }
  apply Sign_pos in Hn.
  destruct (Z.ltb_spec 0 (Decimal.Sign entry)) as [He|He]; cbn [andb]; cycle 1.
  { exists (lit 1 1). split; [done|]. split; [vm_compute; discriminate|].
    intros Hp Hlt. pose proof (Qclt_trans _ _ _ Hp Hlt) as Hpos. apply Sign_pos in Hpos. lia. }
  destruct (Z.ltb_spec (Decimal.Cmp now entry) 0) as [Hc|Hc]; cycle 1.
  { exists (lit 1 1). split; [done|]. split; [vm_compute; discriminate|].
    intros Hp Hlt. apply Cmp_lt in Hlt. lia. }
  apply Cmp_lt in Hc. pose proof (Qc_pos_nonzero _ Hn) as Hne.
  exists (entry / now). rewrite Div_Ok by done. split; [done|].
  pose proof (Div_mul entry now Hne) as Hd. split; [|done].
  apply Qcnot_lt_le. intros Hlt. apply (Qcmult_lt_compat_r _ _ now Hn) in Hlt.
  rewrite Hd, Qcmult_1_l in Hlt. pose proof (Qclt_trans _ _ _ Hlt Hc) as Hx.
  by apply Qclt_not_eq in Hx.
Qed.

Lemma repay_bound (issued a slip fee gas : Qc) :
  0 <= issued → 1 <= a → 0 <= slip → 0 <= fee → 0 <= gas →
  issued * a <= issued * a + issued * a * slip + (issued * a + issued * a * slip) * fee + gas ∧
  issued <= issued * a.
Proof.
  intros Hi Ha Hs Hf Hg.
  assert (Hia : issued <= issued * a).
  { rewrite (Qcmult_comm issued a). rewrite <-(Qcmult_1_l issued) at 1.
    by apply Qcmult_le_pos_r. }
  pose proof (Qcle_trans _ _ _ Hi Hia) as H0.
  pose proof (Qcmult_nonneg _ _ H0 Hs) as H1.
  assert (H2 : 0 <= (issued * a + issued * a * slip) * fee).
  { apply Qcmult_nonneg; [|done]. set (x := issued * a) in *. set (y := x * slip) in *.
    clear -H0 H1. qclra. }
  split; [|done]. set (x := issued * a) in *. set (y := x * slip) in *.
  set (z := (x + y) * fee) in *. clear -H1 H2 Hg. qclra.
Qed.
End bank_lemmas.

(** * Properties *)

Module BankSpec.
Import Bank.
Local Open Scope Qc_scope.

Definition gross (p : DepositParams) : Qc := dp_ExternalAmount p * dp_PriceUSD p.
Definition cap_of (p : DepositParams) : Qc :=
  if (Decimal.Sign (dp_DailyCapUSD p) =? 0)%Z then Decimal.FromInt DailyCapUSD else dp_DailyCapUSD p.

(** A deposit is fully accounted for. An accepted deposit was covered on chain
    by a sufficiently confirmed payment whenever a watcher is set, kept the wallet
    under its daily cap, and splits its gross value into buffer, fee and issued
    tokens exactly, up to less than one token: nothing is issued beyond the value
    left after buffer and fee. The hold starts locked with one ATR snapshot. *)
Theorem Deposit_accounts `{Sha256} p hold :
  Deposit p = Ok hold → gross p < Decimal.FromInt (2 ^ 64) * dp_SFGUSDPrice p →
  0 <= dp_ATRUSD p →
  let spent := bh_EntryBuffer hold + bh_EntryFee hold
               + Decimal.FromInt (bh_SFGIssued hold) * dp_SFGUSDPrice p in
  spent <= gross p ∧ gross p < spent + dp_SFGUSDPrice p ∧
  bh_EntryBuffer hold = DepositATRMultiple * dp_ATRUSD p ∧
  bh_EntryFee hold = (gross p - bh_EntryBuffer hold) * fee_rate EntryFeeRate (dp_CycleCount30d p) ∧
  dp_DailyUsedUSD p + gross p <= cap_of p ∧
  bh_Status hold = HoldLocked24h ∧ length (bh_DailySnapshots hold) = 1%nat ∧
  (∀ w, dp_Watcher p = Some w → ∃ obs,
     w (dp_Asset p) (dp_CustodyAddress p) (dp_TxID p) = Ok obs ∧
     dp_ExternalAmount p <= ob_ConfirmedAmount obs).
Proof.
  unfold Deposit. intros E Hlim Hatr. apply bind_Ok in E as (u & Hw & E).
  fold (gross p) in E. fold (cap_of p) in E.
  unfold Decimal.Mul, Decimal.Add, Decimal.Sub in E. fold (gross p) in E.
  destruct (Z.ltb_spec 0 (Decimal.Cmp (dp_DailyUsedUSD p + gross p) (cap_of p))) as [|Hcap]; [done|].
  apply Cmp_le in Hcap.
  set (buffer := DepositATRMultiple * dp_ATRUSD p) in *.
  destruct (Z.leb_spec 0 (Decimal.Cmp buffer (gross p))) as [|Hbuf]; [done|].
  apply Cmp_lt in Hbuf.
  fold (fee_rate EntryFeeRate (dp_CycleCount30d p)) in E.
  destruct (fee_rate_bounds (dp_CycleCount30d p)) as [Hr0 Hr1].
  set (rate := fee_rate EntryFeeRate (dp_CycleCount30d p)) in *.
  destruct (Z.leb_spec (Decimal.Sign (dp_SFGUSDPrice p)) 0) as [|Hp]; [done|].
  apply Sign_pos in Hp. apply bind_Ok in E as (s & Hs & E).
  assert (Hb0 : 0 <= buffer) by (apply Qcmult_nonneg; [vm_compute; discriminate|done]).
  assert (Hn0 : 0 <= gross p - buffer) by (clear -Hbuf; clearbody buffer; qclra).
  assert (Hf0 : 0 <= (gross p - buffer) * rate) by by apply Qcmult_nonneg.
  assert (Hv : 0 <= gross p - buffer - (gross p - buffer) * rate).
  { replace (gross p - buffer - (gross p - buffer) * rate)
      with ((gross p - buffer) * (1 - rate)) by ring.
    apply Qcmult_nonneg; [done|]. clear -Hr1. qclra. }
  assert (Hlt : gross p - buffer - (gross p - buffer) * rate < Decimal.FromInt (2 ^ 64) * dp_SFGUSDPrice p).
  { eapply Qcle_lt_trans; [|exact Hlim]. set (fee := (gross p - buffer) * rate) in *.
    clear -Hb0 Hf0. qclra. }
  destruct (issue_floor _ _ _ Hv Hp Hlt Hs) as (Hlo & Hhi & Hs0).
  destruct (Z.ltb_spec (Decimal.Sign s) 0) as [Hneg|_].
  { apply Sign_neg in Hneg. by apply Qcle_not_lt in Hs0. }
  injection E as <-. cbn [bh_EntryBuffer bh_EntryFee bh_SFGIssued bh_Status bh_DailySnapshots].
  set (fee := (gross p - buffer) * rate) in *.
  set (issued := Decimal.FromInt (Decimal.Uint64 s) * dp_SFGUSDPrice p) in *.
  split; [clear -Hlo; qclra|]. split; [clear -Hhi; qclra|].
  repeat split; try done.
  intros w Hsome. destruct (check_watcher_Ok p u Hw w Hsome) as (obs & ? & _ & ?). eauto.
Qed.

Definition sample_deposit (watcher : option DepositWatcher) : DepositParams :=
  {| dp_Owner := [1%Z]; dp_Asset := AssetBTC; dp_ExternalAmount := lit 2 1; dp_PriceUSD := lit 100 1;
     dp_ATRUSD := lit 4 1; dp_SFGUSDPrice := lit 3 1; dp_Now := 7%Z; dp_DailyUsedUSD := lit 0 1;
     dp_DailyCapUSD := lit 0 1; dp_CycleCount30d := 0%Z; dp_CustodyAddress := "addr";
     dp_TxID := "tx"; dp_Watcher := watcher; dp_MinConfirmations := 0%Z |}.
Definition sample_watcher : DepositWatcher := λ _ _ _,
  Ok {| ob_ConfirmedAmount := lit 5 2; ob_Confirmations := 6%Z |}.
#[local] Instance sample_sha : Sha256 := λ b, b.
Definition sample_hold : BankHold :=
  match Deposit (sample_deposit (Some sample_watcher)) with
  | Ok h => h
  | Err _ => {| bh_HoldID := []; bh_Owner := []; bh_ExternalAsset := EmptyString;
                bh_ExternalAmount := 0; bh_EntryPriceUSD := 0; bh_EntryATR := 0;
                bh_EntryBuffer := 0; bh_EntryFee := 0; bh_SFGIssued := 0%Z; bh_OpenedAt := 0%Z;
                bh_DailySnapshots := []; bh_Status := HoldOpen; bh_CycleCount30d := 0%Z |}
  end.

Lemma Deposit_accounts_witness :
  let p := sample_deposit (Some sample_watcher) in
  let hold := sample_hold in
  let spent := bh_EntryBuffer hold + bh_EntryFee hold
               + Decimal.FromInt (bh_SFGIssued hold) * dp_SFGUSDPrice p in
  bh_SFGIssued hold = 63%Z ∧
  spent <= gross p ∧ gross p < spent + dp_SFGUSDPrice p ∧
  bh_EntryBuffer hold = DepositATRMultiple * dp_ATRUSD p ∧
  bh_EntryFee hold = (gross p - bh_EntryBuffer hold) * fee_rate EntryFeeRate (dp_CycleCount30d p) ∧
  dp_DailyUsedUSD p + gross p <= cap_of p ∧
  bh_Status hold = HoldLocked24h ∧ length (bh_DailySnapshots hold) = 1%nat ∧
  (∀ w, dp_Watcher p = Some w → ∃ obs,
     w (dp_Asset p) (dp_CustodyAddress p) (dp_TxID p) = Ok obs ∧
     dp_ExternalAmount p <= ob_ConfirmedAmount obs).
Proof.
  intros p hold. split; [vm_compute; reflexivity|].
  apply (Deposit_accounts p hold).
  - vm_compute. reflexivity.
  - vm_compute. reflexivity.
  - vm_compute. discriminate.
Defined.

Definition refund_cap (p : WithdrawParams) : Qc :=
  if (Decimal.Sign (wp_RefundCap p) =? 0)%Z then RefundCapDefault else wp_RefundCap p.
Definition slippage (p : WithdrawParams) : Qc :=
  if (Decimal.Sign (wp_SlippageRate p) =? 0)%Z then SlippageMax else wp_SlippageRate p.
Definition lock_elapsed (p : WithdrawParams) : Prop :=
  (Z.quot DepositLockDuration Millisecond <= i64 (wp_Now p - bh_OpenedAt (wp_Hold p)))%Z.

(** Closing a hold. Withdrawal succeeds exactly when the hold is locked or open
    and its 24 hours have passed. The refund lies between zero and the capped share
    of the entry buffer and never exceeds what retention leaves of it; the repayment
    is at least the tokens issued, and when the asset fell since entry it is worth
    at least as much at today's price as the issued tokens were at entry, so the
    Bank is not left short. *)
Theorem Withdraw_correct p :
  (is_ok (Withdraw p) = true ↔
     (bh_Status (wp_Hold p) = HoldLocked24h ∨ bh_Status (wp_Hold p) = HoldOpen) ∧ lock_elapsed p) ∧
  (∀ r, Withdraw p = Ok r →
     0 <= bh_EntryBuffer (wp_Hold p) → 0 <= refund_cap p → 0 <= slippage p → 0 <= wp_GasFeeSFG p →
     (0 <= bh_SFGIssued (wp_Hold p) < 2 ^ 63)%Z →
     let issued := Decimal.FromInt (bh_SFGIssued (wp_Hold p)) in
     0 <= wr_RefundSFG r ∧ wr_RefundSFG r <= bh_EntryBuffer (wp_Hold p) * refund_cap p ∧
     wr_RefundSFG r <= Decimal.Max0 (bh_EntryBuffer (wp_Hold p) - wr_Retention r) ∧
     issued <= wr_RepaySFG r ∧
     (0 < wp_PriceNowUSD p → wp_PriceNowUSD p < bh_EntryPriceUSD (wp_Hold p) →
      issued * bh_EntryPriceUSD (wp_Hold p) <= wr_RepaySFG r * wp_PriceNowUSD p)).
Proof.
  unfold Withdraw. fold (refund_cap p) (slippage p).
  set (hold := wp_Hold p).
  unfold Decimal.Mul, Decimal.Sub, Decimal.Add.
  fold (fee_rate ExitFeeRate (bh_CycleCount30d hold)).
  set (asym := if _ && _ then _ else Ok (lit 1 1)).
  assert (Hasym : ∃ a, asym = Ok a ∧ 1 <= a ∧
    (0 < wp_PriceNowUSD p → wp_PriceNowUSD p < bh_EntryPriceUSD hold →
     a * wp_PriceNowUSD p = bh_EntryPriceUSD hold)).
  { apply asymmetry_factor. }
  destruct Hasym as (a & -> & Ha & Hprice).
  pose proof (fee_rate_exit (bh_CycleCount30d hold)) as Hfee.
  split.
  - destruct (bh_Status hold); cbn; unfold lock_elapsed; fold hold;
      destruct (Z.ltb_spec (i64 (wp_Now p - bh_OpenedAt hold)) (Z.quot DepositLockDuration Millisecond));
      cbn; naive_solver lia.
  - intros r E. repeat case_match; try done. cbn in E. injection E as <-.
    intros Hbuf Hcap Hslip Hgas Hiss. cbn [wr_RefundSFG wr_Retention wr_RepaySFG].
    rewrite i64_id by lia. set (issued := Decimal.FromInt (bh_SFGIssued hold)).
    assert (Hi0 : 0 <= issued). { change (Q2Qc 0) with (Decimal.FromInt 0). apply FromInt_le. lia. }
    destruct (repay_bound issued a (slippage p) _ (wp_GasFeeSFG p) Hi0 Ha Hslip Hfee Hgas) as [Hrep Hia].
    split; [|split; [|split; [|split]]].
    + destruct (Min_cases (Decimal.Max0 (bh_EntryBuffer hold - WithdrawATRMultiple * AverageATR hold))
        (bh_EntryBuffer hold * refund_cap p)) as [->| ->]; [apply Max0_nonneg|by apply Qcmult_nonneg].
    + apply Min_le_r.
    + apply Min_le_l.
    + exact (Qcle_trans _ _ _ Hia Hrep).
    + intros Hp Hlt. rewrite <-(Hprice Hp Hlt), Qcmult_assoc.
      apply Qcmult_le_pos_r; [by apply Qclt_le_weak|done].
Qed.

Definition sample_withdraw : WithdrawParams :=
  {| wp_Hold := sample_hold; wp_PriceNowUSD := lit 50 1; wp_SlippageRate := lit 0 1;
     wp_RefundCap := lit 8 10; wp_GasFeeSFG := lit 1 1; wp_Now := 86400007%Z |}.
Definition withdraw_result (r : result WithdrawResult) : WithdrawResult :=
  match r with Ok r => r | Err _ => {| wr_Retention := 0; wr_RefundSFG := 0; wr_RepaySFG := 0 |} end.

Lemma Withdraw_correct_witness :
  let p := sample_withdraw in
  let r := withdraw_result (Withdraw p) in
  is_ok (Withdraw p) = true ∧
  wr_RefundSFG r <= bh_EntryBuffer (wp_Hold p) * refund_cap p ∧
  Decimal.FromInt (bh_SFGIssued (wp_Hold p)) * bh_EntryPriceUSD (wp_Hold p)
    <= wr_RepaySFG r * wp_PriceNowUSD p.
Proof.
  intros p r.
  assert (E : Withdraw p = Ok r) by (vm_compute; reflexivity).
  assert (A1 : 0 <= bh_EntryBuffer (wp_Hold p)) by (vm_compute; discriminate).
  assert (A2 : 0 <= refund_cap p) by (vm_compute; discriminate).
  assert (A3 : 0 <= slippage p) by (vm_compute; discriminate).
  assert (A4 : 0 <= wp_GasFeeSFG p) by (vm_compute; discriminate).
  assert (A5 : (0 <= bh_SFGIssued (wp_Hold p) < 2 ^ 63)%Z)
    by (vm_compute; split; [discriminate|reflexivity]).
  assert (A6 : 0 < wp_PriceNowUSD p) by (vm_compute; reflexivity).
  assert (A7 : wp_PriceNowUSD p < bh_EntryPriceUSD (wp_Hold p)) by (vm_compute; reflexivity).
  destruct (proj2 (Withdraw_correct p) r E A1 A2 A3 A4 A5) as (_ & Hcap & _ & _ & Hshort).
  split; [rewrite E; reflexivity|]. split; [exact Hcap|]. exact (Hshort A6 A7).
Defined.
End BankSpec.

(** * Lemmas: the oracle *)

Section oracle_lemmas.
Import Oracle.
Local Open Scope Qc_scope.
Implicit Types (l : list Decimal) (v x : Decimal).

Lemma bubble_perm v l : bubble v l ≡ₚ v :: l.
Proof.
  induction l as [|x l IH]; cbn; [done|]. case_match; [|done].
  rewrite IH. apply Permutation_swap.
Qed.

Lemma sort_decimals_perm l : sort_decimals l ≡ₚ l.
Proof.
  unfold sort_decimals. rewrite reverse_Permutation.
  assert (H : ∀ p, foldl (λ prefix v, bubble v prefix) p l ≡ₚ l ++ p).
  { induction l as [|v l IH]; intros p; cbn [foldl]; [done|].
    rewrite IH, bubble_perm. symmetry. apply Permutation_middle. }
  by rewrite H, app_nil_r.
Qed.

(** The prefix of the insertion sort is kept in descending order. *)
Definition desc := Sorted (λ x y : Qc, y <= x).

Lemma bubble_desc v l : desc l → desc (bubble v l).
Proof.
  unfold desc. induction 1 as [|x l Hs IH Hd]; cbn; [by repeat constructor|].
  destruct (Z.ltb_spec (Decimal.Cmp v x) 0) as [Hc|Hc].
  - apply Cmp_lt in Hc. constructor; [done|].
    destruct l as [|y l]; cbn; [constructor; by apply Qclt_le_weak|].
    case_match; constructor; [by inversion Hd|by apply Qclt_le_weak].
  - apply Cmp_ge in Hc. constructor; [by constructor|]. by constructor.
Qed.

Lemma sort_decimals_sorted l : Sorted Qcle (sort_decimals l).
Proof.
  unfold sort_decimals.
  assert (H : ∀ p, desc p → desc (foldl (λ prefix v, bubble v prefix) p l)).
  { induction l as [|v l IH]; intros p Hp; cbn [foldl]; [done|]. by apply IH, bubble_desc. }
  apply (Sorted_reverse (λ x y : Qc, y <= x)), H. constructor.
Qed.

(** The median lies between bounds that hold of every value. *)
Lemma median_between l lo hi :
  l ≠ [] → Forall (λ v, lo <= v ∧ v <= hi) l → lo <= median l ∧ median l <= hi.
Proof.
  intros Hne HF. unfold median. pose proof (sort_decimals_perm l) as Hp.
  rewrite <-Hp in HF. set (s := sort_decimals l) in *. clearbody s.
  assert (Hl : (0 < length s)%nat).
  { rewrite (Permutation_length Hp). destruct l; [done|cbn; lia]. }
  assert (Hnth : ∀ i, (i < length s)%nat → lo <= nth i s Decimal.Zero ∧ nth i s Decimal.Zero <= hi).
  { intros i Hi. rewrite Forall_forall in HF. apply HF.
    apply list_elem_of_In, nth_In. done. }
  pose proof (Nat.div_lt (length s) 2 ltac:(lia) ltac:(lia)).
  case_match; [by apply Hnth|].
  destruct (Hnth (length s / 2)%nat) as [H1 H2]; [lia|].
  destruct (Hnth (length s / 2 - 1)%nat) as [H3 H4]; [lia|].
  generalize dependent (nth (length s / 2 - 1) s Decimal.Zero).
  generalize dependent (nth (length s / 2) s Decimal.Zero). intros b Hb1 Hb2 a Ha1 Ha2.
  assert (Hd : Decimal.Add a b / Decimal.FromInt 2 * Decimal.FromInt 2 = Decimal.Add a b).
  { by apply Div_mul. }
  generalize dependent (Decimal.Add a b / Decimal.FromInt 2). intros m Hd.
  change (Decimal.FromInt 2) with (1 + 1) in Hd. unfold Decimal.Add in Hd.
  clear -Ha1 Ha2 Hb1 Hb2 Hd. split; qclra.
Qed.

Lemma fold_min l x :
  let lo := foldl (λ lo v, if (Decimal.Cmp v lo <? 0)%Z then v else lo) x l in
  lo <= x ∧ Forall (λ v, lo <= v) l.
Proof.
  revert x. induction l as [|v l IH]; intros x; cbn; [split; [apply Qcle_refl|constructor]|].
  destruct (Z.ltb_spec (Decimal.Cmp v x) 0) as [Hc|Hc];
    [apply Cmp_lt in Hc|apply Cmp_ge in Hc]; destruct (IH (if (Decimal.Cmp v x <? 0)%Z then v else x)) as [H1 H2].
  - rewrite (proj2 (Z.ltb_lt _ _)) in H1, H2 by by apply Cmp_lt.
    split; [|by constructor]. eapply Qcle_trans; [exact H1|by apply Qclt_le_weak].
  - rewrite (proj2 (Z.ltb_ge _ _)) in H1, H2 by by apply Cmp_ge.
    split; [done|]. constructor; [by eapply Qcle_trans|done].
Qed.

Lemma fold_max l x :
  let hi := foldl (λ hi v, if (0 <? Decimal.Cmp v hi)%Z then v else hi) x l in
  x <= hi ∧ Forall (λ v, v <= hi) l.
Proof.
  revert x. induction l as [|v l IH]; intros x; cbn; [split; [apply Qcle_refl|constructor]|].
  destruct (Z.ltb_spec 0 (Decimal.Cmp v x)) as [Hc|Hc];
    [apply Cmp_gt in Hc|apply Cmp_le in Hc]; destruct (IH (if (0 <? Decimal.Cmp v x)%Z then v else x)) as [H1 H2].
  - rewrite (proj2 (Z.ltb_lt _ _)) in H1, H2 by by apply Cmp_gt.
    split; [|by constructor]. eapply Qcle_trans; [|exact H1]. by apply Qclt_le_weak.
  - rewrite (proj2 (Z.ltb_ge _ _)) in H1, H2 by by apply Cmp_le.
    split; [done|]. constructor; [by eapply Qcle_trans|done].
Qed.

(** Within the bound: some range holds every value and is as narrow as required. *)
Lemma withinBound_range l bound :
  l ≠ [] → 0 <= bound → withinBound l bound = true → Forall (λ v, 0 < v) l →
  ∃ lo hi, Forall (λ v, lo <= v ∧ v <= hi) l ∧ 0 < lo ∧ hi <= lo * (1 + bound).
Proof.
  intros Hne Hb Hw Hpos. destruct l as [|v0 rest]; [done|].
  destruct (fold_min rest v0) as [Hl1 Hl2]. destruct (fold_max rest v0) as [Hh1 Hh2].
  apply Forall_cons in Hpos as [Hv0 Hpos].
  destruct rest as [|v1 rest].
  { exists v0, v0. split; [|split; [done|]].
    - repeat constructor; apply Qcle_refl.
    - rewrite <-(Qcmult_1_r v0) at 1. rewrite !(Qcmult_comm v0).
      apply Qcmult_le_pos_r; [by apply Qclt_le_weak|]. clear -Hb. qclra. }
  unfold withinBound in Hw. set (rest' := v1 :: rest) in *.
  set (lo := foldl (λ lo v, if (Decimal.Cmp v lo <? 0)%Z then v else lo) v0 rest') in *.
  set (hi := foldl (λ hi v, if (0 <? Decimal.Cmp v hi)%Z then v else hi) v0 rest') in *.
  exists lo, hi. split.
  { constructor; [done|]. rewrite Forall_forall in Hl2, Hh2 |- *. auto. }
  destruct (Z.leb_spec (Decimal.Sign lo) 0) as [Hs|Hs].
  { apply Z.eqb_eq, Sign_zero in Hw. exfalso. rewrite Hw in Hh1. by apply Qcle_not_lt in Hh1. }
  apply Sign_pos in Hs. split; [done|].
  apply Z.leb_le, Cmp_le in Hw. apply (Qcmult_le_pos_r _ _ lo) in Hw; [|by apply Qclt_le_weak].
  rewrite Div_mul in Hw by by apply Qc_pos_nonzero. unfold Decimal.Sub in Hw.
  rewrite Qcmult_plus_distr_r, Qcmult_1_r, (Qcmult_comm lo bound).
  set (x := bound * lo) in *. clear -Hw. qclra.
Qed.

Lemma poll_Ok srcs asset ps as_ latest ps' as' latest' :
  poll srcs asset ps as_ latest = Ok (ps', as', latest') →
  ∃ qs, Forall2 (λ s q, s asset = Ok q) srcs qs ∧
    ps' = ps ++ (qt_PriceUSD <$> qs) ∧ as' = as_ ++ (qt_ATRUSD <$> qs).
Proof.
  revert ps as_ latest. induction srcs as [|s srcs IH]; intros ps as_ latest; cbn [poll].
  { intros [= -> -> ->]. exists []. rewrite !app_nil_r. by repeat constructor. }
  destruct (s asset) as [q|] eqn:Eq; [|done]. intros (qs & H2 & -> & ->)%IH.
  exists (q :: qs). rewrite <-!app_assoc. split; [by constructor|done].
Qed.

(** A median within a bounded range is within the bound of every value. *)
Lemma median_close l bound :
  l ≠ [] → 0 <= bound → withinBound l bound = true → Forall (λ v, 0 < v) l →
  Forall (λ v, median l <= v * (1 + bound) ∧ v <= median l * (1 + bound)) l.
Proof.
  intros Hne Hb Hw Hpos.
  destruct (withinBound_range l bound Hne Hb Hw Hpos) as (lo & hi & HF & Hlo & Hhi).
  destruct (median_between l lo hi Hne HF) as [Hm1 Hm2].
  assert (H1 : 0 <= 1 + bound) by (clear -Hb; qclra).
  rewrite Forall_forall in HF |- *. intros v Hv. destruct (HF v Hv) as [Hv1 Hv2]. split.
  - eapply Qcle_trans; [exact Hm2|]. eapply Qcle_trans; [exact Hhi|]. by apply Qcmult_le_pos_r.
  - eapply Qcle_trans; [exact Hv2|]. eapply Qcle_trans; [exact Hhi|]. by apply Qcmult_le_pos_r.
Qed.
End oracle_lemmas.

(** * Properties of the oracle *)

Module OracleSpec.
Import Oracle.
Local Open Scope Qc_scope.

(** The oracle's quorum. When a quote is returned every source answered, and the
    returned price and ATR are each within the disagreement bound of what every
    single source reported; it becomes the asset's last-good quote and no other
    asset's changes. When no quote is returned the last-good quotes are untouched,
    so open holds keep their price during a freeze. *)
Theorem quote_correct q asset :
  0 <= maxDisagreement q →
  (∀ s r, s ∈ sources q → s asset = Ok r → 0 < qt_PriceUSD r ∧ 0 < qt_ATRUSD r) →
  match quote q asset with
  | (Ok r, q') =>
      (∀ s, s ∈ sources q → ∃ qs, s asset = Ok qs ∧
         qt_PriceUSD r <= qt_PriceUSD qs * (1 + maxDisagreement q) ∧
         qt_PriceUSD qs <= qt_PriceUSD r * (1 + maxDisagreement q) ∧
         qt_ATRUSD r <= qt_ATRUSD qs * (1 + maxDisagreement q) ∧
         qt_ATRUSD qs <= qt_ATRUSD r * (1 + maxDisagreement q)) ∧
      LastGood q' asset = Some r ∧ (∀ a, a ≠ asset → LastGood q' a = LastGood q a)
  | (Err _, q') => q' = q
  end.
Proof.
  intros Hb Hpos. unfold quote. destruct (sources q) as [|s0 srcs] eqn:Es; [done|].
  destruct (poll (s0 :: srcs) asset [] [] zero_quote) as [[[ps as_] latest]|] eqn:Ep; [|done].
  apply poll_Ok in Ep as (qs & H2 & -> & ->). cbn [app].
  destruct (withinBound (qt_PriceUSD <$> qs) (maxDisagreement q)) eqn:Ew1; [|done].
  destruct (withinBound (qt_ATRUSD <$> qs) (maxDisagreement q)) eqn:Ew2; [|done]. cbn [negb orb].
  assert (Hne : qs ≠ []) by (intros ->; inversion H2).
  assert (Hps : Forall (λ r, 0 < qt_PriceUSD r ∧ 0 < qt_ATRUSD r) qs).
  { apply Forall_forall. intros r Hr. apply list_elem_of_lookup_1 in Hr as [i Hi].
    destruct (Forall2_lookup_r _ _ _ _ _ H2 Hi) as (s & Hs & Hsr).
    apply (Hpos s r); [by eapply list_elem_of_lookup_2|done]. }
  pose proof (median_close (qt_PriceUSD <$> qs) (maxDisagreement q)) as Hp.
  pose proof (median_close (qt_ATRUSD <$> qs) (maxDisagreement q)) as Ha.
  rewrite !Forall_fmap in Hp, Ha.
  assert (Hp' := Hp ltac:(by destruct qs) Hb Ew1 ltac:(by eapply Forall_impl; [exact Hps|naive_solver])).
  assert (Ha' := Ha ltac:(by destruct qs) Hb Ew2 ltac:(by eapply Forall_impl; [exact Hps|naive_solver])).
  split; [|split].
  - intros s Hs. apply list_elem_of_lookup_1 in Hs as [i Hi].
    destruct (Forall2_lookup_l _ _ _ _ _ H2 Hi) as (r & Hr & Hsr).
    exists r. rewrite Forall_lookup in Hp', Ha'.
    destruct (Hp' _ _ Hr), (Ha' _ _ Hr). done.
  - unfold LastGood. cbn. apply lookup_insert_eq.
  - intros a Hne'. unfold LastGood. cbn. by apply lookup_insert_ne.
Qed.

Definition sample_quorum : Quorum :=
  NewQuorum (lit 2 100)
    [λ _, Ok {| qt_PriceUSD := lit 100 1; qt_ATRUSD := lit 4 1; qt_Timestamp := 5%Z |};
     λ _, Ok {| qt_PriceUSD := lit 101 1; qt_ATRUSD := lit 4 1; qt_Timestamp := 6%Z |}].

Lemma quote_correct_witness :
  is_ok (quote sample_quorum AssetBTC).1 = true ∧
  match quote sample_quorum AssetBTC with
  | (Ok r, q') =>
      (∀ s, s ∈ sources sample_quorum → ∃ qs, s AssetBTC = Ok qs ∧
         qt_PriceUSD r <= qt_PriceUSD qs * (1 + maxDisagreement sample_quorum) ∧
         qt_PriceUSD qs <= qt_PriceUSD r * (1 + maxDisagreement sample_quorum) ∧
         qt_ATRUSD r <= qt_ATRUSD qs * (1 + maxDisagreement sample_quorum) ∧
         qt_ATRUSD qs <= qt_ATRUSD r * (1 + maxDisagreement sample_quorum)) ∧
      LastGood q' AssetBTC = Some r ∧ (∀ a, a ≠ AssetBTC → LastGood q' a = LastGood sample_quorum a)
  | (Err _, q') => q' = sample_quorum
  end.
Proof.
  split; [vm_compute; reflexivity|]. apply quote_correct.
  - vm_compute. discriminate.
  - intros s r Hs. unfold sample_quorum, NewQuorum in Hs. cbn [sources] in Hs.
    apply elem_of_cons in Hs as [->|Hs]; [intros [= <-]; split; reflexivity|].
    apply elem_of_cons in Hs as [->|Hs]; [intros [= <-]; split; reflexivity|].
    by apply elem_of_nil in Hs.
Defined.
End OracleSpec.

(** * Findings *)

(** A refund cap voted down to zero is read as unset and refunds everything. *)
Theorem zero_refund_cap_refunds_all p :
  Bank.wp_RefundCap p = Decimal.Zero → BankSpec.refund_cap p = 1%Qc.
Proof. unfold BankSpec.refund_cap. intros ->. by apply Qc_is_canon. Qed.
