(* ===== verification/Merkle.v ===== *)
(** pkg/state/merkle.go: the append-only SHA-256 Merkle tree whose root is a block's
    state root, its inclusion proofs and their verification. *)
From S2P Require Import Prelude Words Decimal Hashing.

Record MerkleTree := { mt_leaves : list Hash }.
Definition NewMerkleTree : MerkleTree := {| mt_leaves := [] |}.

Record MerkleProof := {
  mp_LeafIndex : Z; mp_Siblings : list Hash; mp_SiblingOnRight : list bool }.

Section merkle.
Context `{Sha256}.

Definition Append (m : MerkleTree) (leaf : Hash) : Z * MerkleTree :=
  (Z.of_nat (length (mt_leaves m)), {| mt_leaves := mt_leaves m ++ [leaf] |}).

Definition tree_len (m : MerkleTree) : Z := Z.of_nat (length (mt_leaves m)).

Definition TruncateTo (m : MerkleTree) (n : Z) : MerkleTree :=
  let n := if n <? 0 then 0 else n in
  let n := if tree_len m <? n then tree_len m else n in
  {| mt_leaves := take (Z.to_nat n) (mt_leaves m) |}.

(** Duplicates the last node of a level of odd size. *)
Definition pad_level (level : list Hash) : list Hash :=
  if Nat.odd (length level) then level ++ [List.last level hash_zero] else level.

(** Hashes the nodes of an even level two by two. *)
Fixpoint hash_pairs (level : list Hash) : list Hash :=
  match level with
  | a :: b :: level => SumHash [a; b] :: hash_pairs level
  | _ => []
  end.

Definition next_level (level : list Hash) : list Hash := hash_pairs (pad_level level).

(** The loop of [computeRoot]; a level of [n] nodes needs fewer than [n] rounds. *)
Fixpoint root_loop (fuel : nat) (level : list Hash) : option Hash :=
  match fuel with
  | O => None
  | S fuel =>
      if (1 <? length level)%nat then root_loop fuel (next_level level)
      else Some (nth 0 level hash_zero)
  end.

Definition computeRoot (leaves : list Hash) : Hash :=
  match leaves with
  | [] => hash_zero
  | _ => default hash_zero (root_loop (length leaves) leaves)
  end.

Definition Root (m : MerkleTree) : Hash := computeRoot (mt_leaves m).

(** One turn of the loop of [Proof]: the sibling of [idx] in the padded level. *)
Definition sibling (level : list Hash) (idx : nat) : Hash * bool :=
  if Nat.even idx then (nth (idx + 1) (pad_level level) hash_zero, true)
  else (nth (idx - 1) (pad_level level) hash_zero, false).

Fixpoint proof_loop (fuel : nat) (level : list Hash) (idx : nat) : option (list (Hash * bool)) :=
  match fuel with
  | O => None
  | S fuel =>
      if (1 <? length level)%nat then
        path ← proof_loop fuel (next_level level) (idx / 2);
        Some (sibling level idx :: path)
      else Some []
  end.

Definition Proof_of (m : MerkleTree) (index : Z) : option MerkleProof :=
  if (index <? 0) || (tree_len m <=? index) then None
  else
    path ← proof_loop (length (mt_leaves m)) (mt_leaves m) (Z.to_nat index);
    Some {| mp_LeafIndex := index; mp_Siblings := path.*1; mp_SiblingOnRight := path.*2 |}.

(** The loop of [VerifyMerkleProof]; a proof whose direction list is too short makes
    the code panic, kept here as [None]. *)
Fixpoint climb (cur : Hash) (siblings : list Hash) (onRight : list bool) : option Hash :=
  match siblings, onRight with
  | [], _ => Some cur
  | _ :: _, [] => None
  | sib :: siblings, isRight :: onRight =>
      climb (if isRight then SumHash [cur; sib] else SumHash [sib; cur]) siblings onRight
  end.

Definition VerifyMerkleProof (leaf : Hash) (proof : MerkleProof) (root : Hash) : option bool :=
  cur ← climb leaf (mp_Siblings proof) (mp_SiblingOnRight proof);
  Some (bool_decide (cur = root)).
End merkle.

(** * Lemmas *)

Section merkle_lemmas.
Context `{Sha256}.
Implicit Types (l k : list Hash).

Lemma hash_pairs_length l : length (hash_pairs l) = (length l / 2)%nat.
Proof.
  induction l as [|x|a b l IH] using list_pair_ind; [done|done|].
  cbn [hash_pairs length]. rewrite IH.
  change (S (S (length l))) with (2 + length l)%nat.
  replace (2 + length l)%nat with (1 * 2 + length l)%nat by lia.
  by rewrite Nat.div_add_l by lia.
Qed.

Lemma pad_level_even l : Nat.even (length (pad_level l)) = true.
Proof.
  unfold pad_level. rewrite <-Nat.negb_even. destruct (Nat.even (length l)) eqn:E; cbn; [done|].
  rewrite length_app. cbn. by rewrite Nat.add_1_r, Nat.even_succ, <-Nat.negb_even, E.
Qed.

Lemma pad_level_length l :
  (length l ≤ length (pad_level l) ∧ length (pad_level l) = 2 * ((length l + 1) / 2))%nat.
Proof.
  unfold pad_level.
  pose proof (Nat.div_mod (length l + 1) 2 ltac:(lia)). pose proof (Nat.mod_upper_bound (length l + 1) 2 ltac:(lia)).
  destruct (Nat.odd (length l)) eqn:E.
  - rewrite length_app. cbn [length]. apply odd_half in E as [k Hk].
    rewrite Hk in *. replace (2 * k + 1 + 1)%nat with ((k + 1) * 2)%nat by lia.
    rewrite Nat.div_mul by lia. lia.
  - rewrite <-Nat.negb_even in E. apply negb_false_iff, even_half in E as [k Hk].
    rewrite Hk in *. rewrite (Nat.mul_comm 2 k), Nat.div_add_l by lia.
    change (1 / 2)%nat with 0%nat. lia.
Qed.

Lemma next_level_length l : length (next_level l) = ((length l + 1) / 2)%nat.
Proof.
  unfold next_level. rewrite hash_pairs_length.
  pose proof (pad_level_length l) as [_ ->]. by rewrite Nat.mul_comm, Nat.div_mul by lia.
Qed.

Lemma next_level_shrinks l :
  (1 < length l)%nat → (0 < length (next_level l) < length l)%nat.
Proof.
  intros Hl. rewrite next_level_length. split.
  - apply Nat.div_str_pos. lia.
  - apply Nat.Div0.div_lt_upper_bound. lia.
Qed.

Lemma nth_hash_pairs l i :
  (2 * i + 1 < length l)%nat →
  nth i (hash_pairs l) hash_zero = SumHash [nth (2 * i) l hash_zero; nth (2 * i + 1) l hash_zero].
Proof.
  revert i. induction l as [|x|a b l IH] using list_pair_ind; cbn [length]; intros i Hi; [lia|lia|].
  destruct i as [|i]; [done|]. cbn [hash_pairs nth]. rewrite IH by lia.
  replace (2 * S i)%nat with (S (S (2 * i))) by lia.
  by replace (S (S (2 * i)) + 1)%nat with (S (S (2 * i + 1))) by lia.
Qed.

Lemma nth_pad_level l i : (i < length l)%nat → nth i (pad_level l) hash_zero = nth i l hash_zero.
Proof. intros. unfold pad_level. case_match; [by apply app_nth1|done]. Qed.

(** Climbing one level from node [idx] with its sibling reaches its parent. *)
Lemma sibling_parent l idx :
  (idx < length l)%nat →
  (if (sibling l idx).2 then SumHash [nth idx l hash_zero; (sibling l idx).1]
   else SumHash [(sibling l idx).1; nth idx l hash_zero]) =
  nth (idx / 2) (next_level l) hash_zero.
Proof.
  intros Hi. pose proof (pad_level_length l) as [Hge Hp].
  unfold next_level, sibling. rewrite <-(nth_pad_level l idx) by done.
  generalize dependent ((length l + 1) / 2)%nat. intros q Hp.
  destruct (Nat.even idx) eqn:E; cbn [fst snd].
  - apply even_half in E as [k ->]. replace (2 * k / 2)%nat with k by (rewrite (Nat.mul_comm 2 k), Nat.div_mul; lia).
    by rewrite nth_hash_pairs by lia.
  - assert (E' : Nat.odd idx = true) by by rewrite <-Nat.negb_even, E.
    apply odd_half in E' as [k ->]. 
    replace ((2 * k + 1) / 2)%nat with k by (rewrite (Nat.mul_comm 2 k), Nat.div_add_l, Nat.add_0_r; lia).
    rewrite nth_hash_pairs by lia. by replace (2 * k + 1 - 1)%nat with (2 * k)%nat by lia.
Qed.

(** Both loops return, and the path climbs from the leaf to the root. *)
Lemma proof_loop_climbs fuel l idx :
  (0 < length l ≤ fuel)%nat → (idx < length l)%nat →
  ∃ path root, proof_loop fuel l idx = Some path ∧ root_loop fuel l = Some root ∧
    climb (nth idx l hash_zero) path.*1 path.*2 = Some root.
Proof.
  revert l idx. induction fuel as [|fuel IH]; intros l idx Hf Hi; [lia|]. cbn [proof_loop root_loop].
  destruct (Nat.ltb_spec 1 (length l)) as [Hl|Hl].
  - pose proof (next_level_shrinks l Hl).
    destruct (IH (next_level l) (idx / 2)%nat) as (path & root & -> & -> & Hc); [lia| |].
    { rewrite next_level_length. apply Nat.Div0.div_lt_upper_bound.
      pose proof (Nat.div_mod (length l + 1) 2 ltac:(lia)). pose proof (Nat.mod_upper_bound (length l + 1) 2 ltac:(lia)). lia. }
    exists (sibling l idx :: path), root. split; [done|]. split; [done|].
    cbn [fmap list_fmap climb]. by rewrite sibling_parent.
  - exists [], (nth 0 l hash_zero). split; [done|]. split; [done|].
    by replace idx with 0%nat by lia.
Qed.

Lemma root_loop_total fuel l :
  (0 < length l ≤ fuel)%nat → is_Some (root_loop fuel l).
Proof.
  intros Hf. destruct (proof_loop_climbs fuel l 0 Hf) as (? & root & _ & -> & _); [lia|]. eauto.
Qed.

Context `{!Sha256Length}.
Notation digest h := (length h = 32%nat).

Lemma SumHash_digest ps : digest (SumHash ps).
Proof. apply sha256_length. Qed.

Lemma hash_pairs_digests l : Forall (λ h : Hash, digest h) (hash_pairs l).
Proof. induction l using list_pair_ind; constructor; [apply SumHash_digest|done]. Qed.

Lemma pad_level_digests l : Forall (λ h : Hash, digest h) l → Forall (λ h : Hash, digest h) (pad_level l).
Proof.
  intros Hl. unfold pad_level. case_match; [|done]. apply Forall_app. split; [done|].
  constructor; [|done]. destruct l using rev_ind; [done|]. rewrite last_last.
  by apply Forall_app in Hl as [_ [??]%Forall_cons].
Qed.

Lemma hash_pairs_inj l k :
  length l = length k → Nat.even (length l) = true →
  Forall (λ h : Hash, digest h) l → Forall (λ h : Hash, digest h) k →
  hash_pairs l = hash_pairs k → l = k ∨ collision.
Proof.
  revert k. induction l as [|x|a b l IH] using list_pair_ind; intros k Hlen He Hl Hk E.
  - left. by destruct k.
  - done.
  - destruct k as [|c [|d k]]; [done|done|]. cbn [hash_pairs] in E. apply (inj2 cons) in E as [E1 E2].
    apply Forall_cons in Hl as [? Hl]. apply Forall_cons in Hl as [? Hl].
    apply Forall_cons in Hk as [? Hk]. apply Forall_cons in Hk as [? Hk].
    apply SumHash_pair_inj in E1 as [[-> ->]|]; [|by right|by repeat constructor].
    destruct (IH k) as [->|]; [cbn in Hlen; lia|done..|by left|by right].
Qed.

Lemma pad_level_inj l k : length l = length k → pad_level l = pad_level k → l = k.
Proof.
  intros Hlen. unfold pad_level. rewrite Hlen. case_match; [|done].
  intros E. by apply app_inj_1 in E as [-> _].
Qed.

Lemma root_loop_inj fuel l k root :
  length l = length k → (0 < length l ≤ fuel)%nat →
  Forall (λ h : Hash, digest h) l → Forall (λ h : Hash, digest h) k →
  root_loop fuel l = Some root → root_loop fuel k = Some root → l = k ∨ collision.
Proof.
  revert l k. induction fuel as [|fuel IH]; intros l k Hlen Hf Hl Hk El Ek; [lia|].
  cbn [root_loop] in *. rewrite <-Hlen in Ek.
  destruct (Nat.ltb_spec 1 (length l)) as [H1|H1].
  - pose proof (next_level_shrinks l H1).
    destruct (IH (next_level l) (next_level k)) as [E|]; [|lia|..|by right]; try done.
    + by rewrite !next_level_length, Hlen.
    + apply hash_pairs_digests.
    + apply hash_pairs_digests.
    + apply hash_pairs_inj in E as [E|]; [|by right|..].
      * left. by apply pad_level_inj.
      * pose proof (pad_level_length l) as [_ ->]. pose proof (pad_level_length k) as [_ ->]. by rewrite Hlen.
      * apply pad_level_even.
      * by apply pad_level_digests.
      * by apply pad_level_digests.
  - left. destruct l as [|a [|]], k as [|b [|]]; cbn in *; try lia; try done. congruence.
Qed.

(** Two climbs along the same directions to one root start from one leaf. *)
Lemma climb_inj dirs sibs sibs' leaf leaf' root :
  length sibs = length sibs' → digest leaf → digest leaf' →
  Forall (λ h : Hash, digest h) sibs → Forall (λ h : Hash, digest h) sibs' →
  climb leaf sibs dirs = Some root → climb leaf' sibs' dirs = Some root →
  leaf = leaf' ∨ collision.
Proof.
  revert sibs sibs' leaf leaf'. induction dirs as [|isRight dirs IH];
    intros [|s sibs] [|s' sibs'] leaf leaf' Hlen Hl Hl' Hs Hs' E E'; try done; cbn in E, E'.
  - left. congruence.
  - left. congruence.
  - apply Forall_cons in Hs as [? Hs]. apply Forall_cons in Hs' as [? Hs'].
    destruct (IH sibs sibs' (if isRight then SumHash [leaf; s] else SumHash [s; leaf])
                (if isRight then SumHash [leaf'; s'] else SumHash [s'; leaf'])) as [E2|];
      [by injection Hlen|by case_match; apply SumHash_digest..|done|done|done|done| |by right].
    destruct isRight; apply SumHash_pair_inj in E2 as [[? ?]|]; auto; by repeat constructor.
Qed.
End merkle_lemmas.

(** * Properties *)

Module MerkleSpec.
Section props.
Context `{Sha256}.

(** Appending a list of leaves. *)
Definition append_all (m : MerkleTree) (leaves : list Hash) : MerkleTree :=
  foldl (λ m leaf, (Append m leaf).2) m leaves.

Lemma append_all_leaves m leaves : mt_leaves (append_all m leaves) = mt_leaves m ++ leaves.
Proof.
  revert m. induction leaves as [|leaf leaves IH]; intros m; cbn; [by rewrite app_nil_r|].
  rewrite IH. cbn. by rewrite <-app_assoc.
Qed.
End props.

(** Inclusion proofs are complete and appends roll back. For every leaf of the
    tree a proof is produced (its loop ends), it verifies against the tree's root,
    an index outside the tree is refused, and truncating to the old length undoes
    any appends: same leaves, same root. *)
Theorem merkle_proofs_complete `{Sha256} m index leaves :
  (is_Some (Proof_of m index) ↔ 0 ≤ index < tree_len m) ∧
  (∀ proof leaf, Proof_of m index = Some proof → mt_leaves m !! Z.to_nat index = Some leaf →
     VerifyMerkleProof leaf proof (Root m) = Some true) ∧
  TruncateTo (append_all m leaves) (tree_len m) = m.
Proof.
  assert (Hin : 0 ≤ index < tree_len m →
    ∃ path root, proof_loop (length (mt_leaves m)) (mt_leaves m) (Z.to_nat index) = Some path ∧
      root_loop (length (mt_leaves m)) (mt_leaves m) = Some root ∧
      climb (nth (Z.to_nat index) (mt_leaves m) hash_zero) path.*1 path.*2 = Some root).
  { unfold tree_len. intros. apply proof_loop_climbs; lia. }
  unfold Proof_of. split; [|split].
  - case_match eqn:E; bools; [split; [by intros [? ?]|lia]|].
    destruct Hin as (path & root & -> & _ & _); [lia|]. cbn. split; [lia|eauto].
  - intros proof leaf. case_match eqn:E; bools; [done|].
    destruct Hin as (path & root & -> & Hr & Hc); [lia|]. cbn. intros [= <-] Hl.
    unfold VerifyMerkleProof. cbn [mp_Siblings mp_SiblingOnRight].
    rewrite <-(nth_lookup_Some _ _ hash_zero _ Hl), Hc. cbn.
    assert (HR : Root m = root); [|by rewrite HR, bool_decide_true].
    unfold Root, computeRoot. rewrite Hr.
    destruct (mt_leaves m); [by apply lookup_lt_Some in Hl; cbn in Hl; lia|done].
  - unfold TruncateTo, tree_len. rewrite append_all_leaves, length_app.
    rewrite (proj2 (Z.ltb_ge _ 0)), (proj2 (Z.ltb_ge _ (Z.of_nat _))) by lia.
    rewrite Nat2Z.id, take_app_length. by destruct m.
Qed.

Lemma merkle_proofs_complete_witness :
  let H := (λ b : bytes, b) : Sha256 in
  let m := {| mt_leaves := [[1]; [2]; [3]] |} in
  let proof := default {| mp_LeafIndex := 0; mp_Siblings := []; mp_SiblingOnRight := [] |}
                 (Proof_of m 2) in
  VerifyMerkleProof [3] proof (Root m) = Some true.
Proof.
  intros H m proof. apply (proj1 (proj2 (merkle_proofs_complete m 2 []))); reflexivity.
Defined.

(** The root commits to the leaves. Two trees of the same number of leaves with
    the same root have the same leaves, and a proof for one position (its
    directions) cannot verify two leaves against one root: otherwise a SHA-256
    collision exists. *)
Theorem merkle_binding `{Sha256} `{!Sha256Length} m m' leaf leaf' proof proof' root :
  Forall (λ h : Hash, length h = 32%nat) (leaf :: leaf' :: mt_leaves m ++ mt_leaves m') →
  Forall (λ h : Hash, length h = 32%nat) (mp_Siblings proof ++ mp_Siblings proof') →
  (tree_len m = tree_len m' → Root m = Root m' → m = m' ∨ collision) ∧
  (mp_SiblingOnRight proof = mp_SiblingOnRight proof' →
   length (mp_Siblings proof) = length (mp_Siblings proof') →
   VerifyMerkleProof leaf proof root = Some true →
   VerifyMerkleProof leaf' proof' root = Some true → leaf = leaf' ∨ collision).
Proof.
  intros HF HP. apply Forall_app in HP as [HP HP'].
  apply Forall_cons in HF as [Hl HF]. apply Forall_cons in HF as [Hl' HF].
  apply Forall_app in HF as [Hm Hm']. split.
  - destruct m as [l], m' as [k]. unfold tree_len, Root, computeRoot. cbn in *. intros Hlen E.
    destruct l as [|a l], k as [|b k]; [by left|done|done|].
    destruct (root_loop_total (length (a :: l)) (a :: l)) as [r Hr]; [cbn; lia|].
    destruct (root_loop_total (length (b :: k)) (b :: k)) as [r' Hr']; [cbn; lia|].
    rewrite Hr, Hr' in E. cbn in E. subst r'.
    apply Nat2Z.inj in Hlen. rewrite <-Hlen in Hr'.
    destruct (root_loop_inj (length (a :: l)) (a :: l) (b :: k) r) as [->|];
      [done|cbn; lia|done|done|done|done|by left|by right].
  - intros Hd Hlen V V'. unfold VerifyMerkleProof in V, V'. rewrite <-Hd in V'.
    destruct (climb leaf _ _) as [c|] eqn:Ec; [|done].
    destruct (climb leaf' _ _) as [c'|] eqn:Ec'; [|done]. cbn in V, V'.
    injection V as V. injection V' as V'. apply bool_decide_eq_true in V, V'. subst.
    by eapply (climb_inj (mp_SiblingOnRight proof)).
Qed.

Lemma merkle_binding_witness :
  let H := (λ _ : bytes, replicate 32 7) : Sha256 in
  let HL := (λ _, eq_refl) : Sha256Length in
  let m := {| mt_leaves := [replicate 32 1; replicate 32 2] |} in
  let proof := {| mp_LeafIndex := 0; mp_Siblings := [replicate 32 2]; mp_SiblingOnRight := [true] |} in
  VerifyMerkleProof (replicate 32 1) proof (Root m) = Some true ∧
  (replicate 32 1 = replicate 32 1 ∨ collision).
Proof.
  intros H HL m proof. split; [reflexivity|].
  refine (proj2 (merkle_binding m m (replicate 32 1) (replicate 32 1) proof proof (Root m) _ _) _ _ _ _);
    try reflexivity.
  - repeat constructor.
  - repeat constructor.
Defined.
End MerkleSpec.

(** * Findings *)

(** The duplication of the last node makes two different trees share a root: the
    tree of [a; b; c] and the tree of [a; b; c; c]. *)
Theorem duplicate_leaf_same_root `{Sha256} a b c :
  Root {| mt_leaves := [a; b; c] |} = Root {| mt_leaves := [a; b; c; c] |}.
Proof. reflexivity. Qed.
