(* ===== verification/Field.v ===== *)
(** gnark-crypto as the node uses it: field elements with their byte codec, the MiMC
    hash, and pkg/zk/bridge.go's conversions. The library is a parameter, a typeclass
    with its documented laws; [FrModel] is one concrete model of them, on which the
    development's witnesses run. *)
From S2P Require Import Prelude Words Decimal Hashing.

(** fr.Element of gnark-crypto's bn254 package. *)
Class Fr := {
  FieldElement : Type;
  fe_eq_dec :: EqDecision FieldElement;
  fe_countable :: Countable FieldElement;
  SetBytes : bytes → FieldElement;
  Bytes : FieldElement → bytes;
  SetUint64 : Z → FieldElement }.

(** The order of the BN254 scalar field. *)
Definition fr_modulus : Z :=
  21888242871839275222246405745257275088548364400416034343698204186575808495617.

(** The documented codec: [Bytes] is the canonical 32-byte big-endian form, and
    [SetBytes] reads big-endian bytes and reduces them modulo the field order. *)
Class FrLaws `{Fr} : Prop := {
  SetBytes_Bytes : ∀ e, SetBytes (Bytes e) = e;
  Bytes_length : ∀ e, length (Bytes e) = 32%nat;
  Bytes_canonical : ∀ e, is_bytes (Bytes e) ∧ be_value (Bytes e) < fr_modulus;
  SetBytes_mod : ∀ b b', be_value b mod fr_modulus = be_value b' mod fr_modulus →
    SetBytes b = SetBytes b';
  SetUint64_inj : ∀ v w, 0 ≤ v < 2 ^ 64 → 0 ≤ w < 2 ^ 64 → SetUint64 v = SetUint64 w → v = w }.

(** gnark-crypto's MIMC_BN254 as a [hash.Hash]: the digest of the bytes written. *)
Class MiMC := mimc_sum : bytes → bytes.

(** Its digest is the canonical 32-byte form of a field element. *)
Class MiMCLaws `{Fr, MiMC} : Prop :=
  mimc_canonical : ∀ b, Bytes (SetBytes (mimc_sum b)) = mimc_sum b.

Section bridge.
Context `{Fr}.

Definition ToBytes32 (e : FieldElement) : bytes := Bytes e.
Definition FieldElementFromBytes32 (b : Hash) : FieldElement := SetBytes b.
End bridge.

(** * A concrete model *)

Module FrModel.
(** Field elements as canonical integers. *)
Definition elem : Type := dsig (λ z : Z, 0 ≤ z < fr_modulus).

(** Reduction modulo the order, of a number most often reduced already. *)
Definition reduce (z : Z) : Z := if (0 <=? z) && (z <? fr_modulus) then z else z mod fr_modulus.

Lemma reduce_mod z : reduce z = z mod fr_modulus.
Proof.
  unfold reduce. destruct (Z.leb_spec 0 z), (Z.ltb_spec z fr_modulus); try done.
  symmetry. by apply Z.mod_small.
Qed.

Program Definition of_Z (z : Z) : elem := dexist (reduce z) _.
Next Obligation. cbn. rewrite reduce_mod. apply Z.mod_pos_bound. done. Qed.

(** [n] big-endian bytes. *)
Fixpoint be_enc (n : nat) (v : Z) : bytes :=
  match n with
  | O => []
  | S n => be_enc n (Z.shiftr v 8) ++ [Z.land v 255]
  end.

Lemma shiftr_8 v : Z.shiftr v 8 = v / 256.
Proof. by rewrite Z.shiftr_div_pow2. Qed.
Lemma land_255 v : Z.land v 255 = v mod 256.
Proof. by apply (Z.land_ones v 8). Qed.

Lemma be_enc_length n v : length (be_enc n v) = n.
Proof. revert v. induction n as [|n IH]; intros v; cbn; [done|]. rewrite length_app, IH. cbn. lia. Qed.

Lemma be_enc_bytes n v : is_bytes (be_enc n v).
Proof.
  revert v. induction n as [|n IH]; intros v; cbn; [constructor|].
  apply Forall_app. split; [apply IH|]. constructor; [|done]. rewrite land_255. by apply Z.mod_pos_bound.
Qed.

Lemma be_value_snoc b x : be_value (b ++ [x]) = be_value b * 256 + x.
Proof. unfold be_value. rewrite foldl_snoc. lia. Qed.

Lemma be_value_enc n v : 0 ≤ v < 256 ^ Z.of_nat n → be_value (be_enc n v) = v.
Proof.
  revert v. induction n as [|n IH]; intros v Hv; [cbn in *; lia|].
  cbn [be_enc]. rewrite be_value_snoc, shiftr_8, land_255, IH.
  - rewrite Z.mul_comm. symmetry. by apply Z.div_mod.
  - rewrite Nat2Z.inj_succ, Z.pow_succ_r in Hv by lia. split; [apply Z.div_pos; lia|].
    apply Z.div_lt_upper_bound; lia.
Qed.

#[export] Instance fr : Fr := {
  FieldElement := elem;
  SetBytes b := of_Z (be_value b);
  Bytes e := be_enc 32 (`e);
  SetUint64 v := of_Z v }.

Lemma elem_range (e : elem) : 0 ≤ `e < fr_modulus.
Proof. exact (proj2_dsig e). Qed.

Lemma val_Bytes (e : elem) : be_value (Bytes (Fr:=fr) e) = `e.
Proof.
  pose proof (elem_range e). apply be_value_enc.
  assert (fr_modulus < 256 ^ Z.of_nat 32) by done. lia.
Qed.

Lemma of_Z_val z : ` (of_Z z) = z mod fr_modulus.
Proof. apply reduce_mod. Qed.

#[export] Instance fr_laws : FrLaws.
Proof.
  split.
  - intros e. apply dsig_eq. etrans; [apply (of_Z_val (be_value (Bytes (Fr:=fr) e)))|].
    rewrite val_Bytes. apply Z.mod_small, elem_range.
  - intros e. apply be_enc_length.
  - intros e. split; [apply be_enc_bytes|]. rewrite val_Bytes. apply elem_range.
  - intros b b' E. apply dsig_eq. change (reduce (be_value b) = reduce (be_value b')).
    by rewrite !reduce_mod.
  - intros v w Hv Hw E. pose proof (f_equal (λ e : elem, `e) E) as E'.
    change (reduce v = reduce w) in E'. rewrite !reduce_mod in E'.
    assert (2 ^ 64 < fr_modulus) by done. by rewrite !Z.mod_small in E' by lia.
Qed.

(** A toy hash: a small checksum of the bytes written, as a field element. *)
Definition checksum (b : bytes) : Z := foldl (λ acc x, Z.land (31 * acc + x) 65535) 7 b.
Definition mimc : MiMC := λ b, Bytes (Fr:=fr) (of_Z (checksum b)).

#[export] Instance mimc_laws : MiMCLaws (H0 := mimc).
Proof.
  intros b. change (Bytes (SetBytes (Bytes (of_Z (checksum b)))) = Bytes (of_Z (checksum b))).
  by rewrite SetBytes_Bytes.
Qed.
End FrModel.
