(* ===== verification/ZkTree.v ===== *)
(** pkg/zk/tree.go and roots.go: the MiMC note-commitment tree the circuits prove
    membership in, computed sparsely over a conceptual 2^32-leaf tree, and the history
    of its roots. *)
From S2P Require Import Prelude Words Decimal Hashing Field.

Definition MerkleDepth : nat := 32.
Definition TreeSize : Z := Z.shiftl 1 (Z.of_nat MerkleDepth).
Definition ErrTreeFull : string := "zk: commitment tree is full for this MerkleDepth".

(** * The tree *)

Module ZkTree.
Record Tree := { leaves : list bytes; used : Z }.
Definition NewTree : Tree := {| leaves := []; used := 0 |}.

(** [to32] copies into a zeroed 32-byte array. *)
Definition to32 (b : bytes) : bytes := take 32 b ++ replicate (32 - length b) 0.

Section hashing.
Context `{MiMC}.

Definition leafHash (data : bytes) : bytes := to32 (mimc_sum data).
Definition nodeHash (a b : bytes) : bytes := to32 (mimc_sum (a ++ b)).

(** [computeZeroHashes]. *)
Fixpoint zeroHashes (k : nat) : bytes :=
  match k with
  | O => leafHash (replicate 32 0)
  | S k => let z := zeroHashes k in nodeHash z z
  end.

(** One level of [fold]: the parents of the active nodes at [depth]. *)
Definition fold_level (depth : nat) (level : list bytes) : list bytes :=
  (λ i, nodeHash (nth (2 * i) level [])
          (if (2 * i + 1 <? length level)%nat then nth (2 * i + 1) level [] else zeroHashes depth))
    <$> seq 0 ((length level + 1) / 2).

(** The sibling of node [track] at [depth]. *)
Definition fold_sibling (depth : nat) (level : list bytes) (track : nat) : bytes :=
  if Nat.even track then
    if (track + 1 <? length level)%nat then nth (track + 1) level [] else zeroHashes depth
  else nth (track - 1) level [].

(** The loop of [fold] from [depth] for [rounds] levels; the siblings are those of
    [track], which [Root] ignores. *)
Fixpoint fold_loop (rounds depth : nat) (level : list bytes) (track : nat)
    : list bytes * list bytes :=
  match rounds with
  | O => (level, [])
  | S rounds =>
      let sib := fold_sibling depth level track in
      let '(top, sibs) := fold_loop rounds (S depth) (fold_level depth level) (track / 2) in
      (top, sib :: sibs)
  end.

Definition fold (t : Tree) (track : nat) : bytes * list bytes :=
  let '(top, sibs) := fold_loop MerkleDepth 0 (leafHash <$> leaves t) track in
  (nth 0 top [], sibs).
End hashing.

Section tree.
Context `{Fr, MiMC}.

Definition Insert (t : Tree) (commitment : FieldElement) : result (Z * Tree) :=
  if TreeSize <=? used t then Err ErrTreeFull
  else Ok (used t, {| leaves := leaves t ++ [Bytes commitment]; used := used t + 1 |}).

Definition Remaining (t : Tree) : Z := TreeSize - used t.

Definition AdvanceUsedForTest (t : Tree) (n : Z) : result Tree :=
  if (n <? 0) || (TreeSize <? used t + n) then Err "zk: cannot advance used"
  else Ok (t <| used ::= λ u, u + n |>).

(** [Root] never fails. *)
Definition Root (t : Tree) : FieldElement :=
  match leaves t with
  | [] => SetBytes (zeroHashes MerkleDepth)
  | _ => SetBytes (fold t 0).1
  end.

Record Proof := { pf_Root : FieldElement; pf_Path : list FieldElement; pf_Index : Z }.

Definition Prove (t : Tree) (index : Z) : result Proof :=
  if (index <? 0) || (Z.of_nat (length (leaves t)) <=? index) then Err "zk: index out of range"
  else
    let '(root, sibs) := fold t (Z.to_nat index) in
    Ok {| pf_Root := SetBytes root;
          pf_Path := SetBytes (nth (Z.to_nat index) (leaves t) []) :: (SetBytes <$> sibs);
          pf_Index := index |}.
End tree.
End ZkTree.

(** * Root history *)

Module RootHistory.
Section roots.
Context `{Fr}.
Record RootHistory := { roots : gset FieldElement }.
Definition NewRootHistory (initialRoot : FieldElement) : RootHistory := {| roots := {[initialRoot]} |}.
Definition Record_root (h : RootHistory) (root : FieldElement) : RootHistory :=
  {| roots := {[root]} ∪ roots h |}.
Definition Contains (h : RootHistory) (root : FieldElement) : bool := bool_decide (root ∈ roots h).
End roots.
End RootHistory.

(** * Specification *)

Section dense.
Context `{MiMC}.

(** Node [i] of level [d] of the full, zero-padded tree over [leaves]. *)
Fixpoint dense_node (leaves : list bytes) (d i : nat) : bytes :=
  match d with
  | O => ZkTree.leafHash (nth i leaves (replicate 32 0))
  | S d => ZkTree.nodeHash (dense_node leaves d (2 * i)) (dense_node leaves d (2 * i + 1))
  end.

(** Recomputing the root from a node and its siblings, bottom-up. *)
Fixpoint climb_path (cur : bytes) (sibs : list bytes) (i : nat) : bytes :=
  match sibs with
  | [] => cur
  | s :: sibs =>
      climb_path (if Nat.even i then ZkTree.nodeHash cur s else ZkTree.nodeHash s cur) sibs (i / 2)
  end.

Definition mimc_collision : Prop := ∃ x y : bytes, x ≠ y ∧ mimc_sum x = mimc_sum y.
End dense.

(** * Lemmas *)

Section zktree_lemmas.
Import ZkTree.
Context `{MiMC}.
Implicit Types (level : list bytes).

(** A level holds the first nodes of the dense tree; the others are zero subtrees. *)
Definition represents (ls : list bytes) (d : nat) level : Prop :=
  (∀ i, (i < length level)%nat → nth i level [] = dense_node ls d i) ∧
  (∀ i, (length level ≤ i)%nat → dense_node ls d i = zeroHashes d).

Lemma represents_leaves ls : represents ls 0 (leafHash <$> ls).
Proof.
  split; intros i Hi; rewrite length_fmap in Hi; cbn.
  - rewrite (nth_indep _ [] (leafHash (replicate 32 0))) by by rewrite length_fmap.
    apply (map_nth leafHash).
  - by rewrite nth_overflow.
Qed.

Lemma fold_level_length d level : length (fold_level d level) = ((length level + 1) / 2)%nat.
Proof. unfold fold_level. by rewrite length_fmap, length_seq. Qed.

Lemma half_bounds n : (n ≤ 2 * ((n + 1) / 2) ≤ n + 1)%nat.
Proof.
  pose proof (Nat.div_mod (n + 1) 2 ltac:(lia)).
  pose proof (Nat.mod_upper_bound (n + 1) 2 ltac:(lia)). lia.
Qed.

Lemma represents_next ls d level : represents ls d level → represents ls (S d) (fold_level d level).
Proof.
  intros [Hin Hout]. pose proof (half_bounds (length level)) as Hh.
  split; intros i Hi; rewrite fold_level_length in Hi; cbn [dense_node zeroHashes].
  - unfold fold_level. set (f := λ i : nat, nodeHash _ _).
    rewrite (nth_indep _ [] (f 0%nat)) by by rewrite length_fmap, length_seq.
    change (f <$> seq 0 ((length level + 1) / 2)) with (map f (seq 0 ((length level + 1) / 2))).
    rewrite (map_nth f), seq_nth by done. unfold f. cbn [Nat.add].
    rewrite Hin by lia. f_equal.
    destruct (Nat.ltb_spec (2 * i + 1) (length level)); [by apply Hin|by rewrite Hout by lia].
  - by rewrite !Hout by lia.
Qed.

(** The sibling found is the neighbour of the tracked node in the dense tree. *)
Lemma fold_sibling_dense ls d level i :
  represents ls d level → (i < length level)%nat →
  fold_sibling d level i = dense_node ls d (if Nat.even i then i + 1 else i - 1).
Proof.
  intros [Hin Hout] Hi. unfold fold_sibling. destruct (Nat.even i) eqn:E; [|apply Hin; lia].
  destruct (Nat.ltb_spec (i + 1) (length level)); [by apply Hin|by rewrite Hout by lia].
Qed.

Lemma half_lt i n : (i < n → i / 2 < (n + 1) / 2)%nat.
Proof.
  intros. pose proof (half_bounds n). pose proof (half_bounds i).
  apply Nat.Div0.div_lt_upper_bound. lia.
Qed.

Lemma dense_parent ls d i :
  (if Nat.even i then nodeHash (dense_node ls d i) (dense_node ls d (i + 1))
   else nodeHash (dense_node ls d (i - 1)) (dense_node ls d i)) = dense_node ls (S d) (i / 2).
Proof.
  destruct (Nat.even i) eqn:E.
  - apply even_half in E as [k ->].
    replace (2 * k / 2)%nat with k by (rewrite (Nat.mul_comm 2 k), Nat.div_mul; lia). done.
  - assert (E' : Nat.odd i = true) by by rewrite <-Nat.negb_even, E.
    apply odd_half in E' as [k ->].
    replace ((2 * k + 1) / 2)%nat with k by (rewrite (Nat.mul_comm 2 k), Nat.div_add_l, Nat.add_0_r; lia).
    by replace (2 * k + 1 - 1)%nat with (2 * k)%nat by lia.
Qed.

(** The loop computes the dense tree's top, and the siblings climb to it. *)
Lemma fold_loop_spec ls rounds d level i :
  represents ls d level → (i < length level)%nat →
  nth 0 (fold_loop rounds d level i).1 [] = dense_node ls (d + rounds) 0 ∧
  length (fold_loop rounds d level i).2 = rounds ∧
  climb_path (dense_node ls d i) (fold_loop rounds d level i).2 i =
    dense_node ls (d + rounds) (i / 2 ^ rounds).
Proof.
  revert d level i. induction rounds as [|rounds IH]; intros d level i Hr Hi; cbn [fold_loop].
  { rewrite Nat.add_0_r, Nat.pow_0_r, Nat.div_1_r. destruct Hr as [Hin _].
    split; [apply Hin; lia|done]. }
  destruct (IH (S d) (fold_level d level) (i / 2)%nat) as (H1 & H2 & H3).
  { by apply represents_next. }
  { rewrite fold_level_length. by apply half_lt. }
  destruct (fold_loop rounds (S d) _ _) as [top sibs]. cbn [fst snd] in *.
  rewrite Nat.add_succ_r. cbn [length climb_path]. split; [done|]. split; [by rewrite H2|].
  rewrite (fold_sibling_dense ls) by done.
  assert (Hstep : (if Nat.even i
     then nodeHash (dense_node ls d i) (dense_node ls d (if Nat.even i then i + 1 else i - 1)%nat)
     else nodeHash (dense_node ls d (if Nat.even i then i + 1 else i - 1)%nat) (dense_node ls d i))
     = dense_node ls (S d) (i / 2)).
  { rewrite <-dense_parent. by destruct (Nat.even i). }
  rewrite Hstep. rewrite Nat.pow_succ_r', <-Nat.Div0.div_div. exact H3.
Qed.

Lemma dense_empty d i : dense_node [] d i = zeroHashes d.
Proof. revert i. induction d as [|d IH]; intros i; cbn; [by destruct i|]. by rewrite !IH. Qed.

Lemma fold_spec t i :
  (i < length (leaves t))%nat →
  (fold t i).1 = dense_node (leaves t) MerkleDepth 0 ∧ length (fold t i).2 = MerkleDepth ∧
  climb_path (dense_node (leaves t) 0 i) (fold t i).2 i =
    dense_node (leaves t) MerkleDepth (i / 2 ^ MerkleDepth).
Proof.
  intros Hi. unfold fold.
  pose proof (fold_loop_spec (leaves t) MerkleDepth 0 (leafHash <$> leaves t) i
    (represents_leaves _) ltac:(by rewrite length_fmap)) as Hf.
  rewrite Nat.add_0_l in Hf. destruct (fold_loop MerkleDepth 0 _ i) as [top sibs]. exact Hf.
Qed.

Lemma to32_id b : length b = 32%nat → to32 b = b.
Proof. intros Hb. unfold to32. rewrite take_ge, Hb by lia. by rewrite app_nil_r. Qed.

Lemma to32_length b : length (to32 b) = 32%nat.
Proof. unfold to32. rewrite length_app, length_take, length_replicate. lia. Qed.
End zktree_lemmas.

(** An index of the tree is below 2^MerkleDepth. *)
Lemma index_in_depth (i : nat) : Z.of_nat i < TreeSize → (i < 2 ^ MerkleDepth)%nat.
Proof.
  unfold TreeSize. rewrite Z.shiftl_1_l. intros Hi. apply Nat2Z.inj_lt.
  rewrite Nat2Z.inj_pow. exact Hi.
Qed.

Section zktree_canonical.
Import ZkTree.
Context `{FR : Fr, FL : !FrLaws, MM : MiMC, ML : !MiMCLaws}.

(** Canonical 32-byte forms are unchanged by reading them as field elements. *)
Definition canonical (b : bytes) : Prop := Bytes (SetBytes b) = b.

Lemma canonical_length b : canonical b → length b = 32%nat.
Proof. intros <-. apply Bytes_length. Qed.

Lemma mimc_length b : length (mimc_sum b) = 32%nat.
Proof. apply canonical_length, mimc_canonical. Qed.

Lemma leafHash_eq b : leafHash b = mimc_sum b.
Proof. apply to32_id, mimc_length. Qed.

Lemma nodeHash_eq a b : nodeHash a b = mimc_sum (a ++ b).
Proof. apply to32_id, mimc_length. Qed.

Lemma dense_canonical ls d i : canonical (dense_node ls d i).
Proof.
  unfold canonical. destruct d; cbn; rewrite ?leafHash_eq, ?nodeHash_eq; apply mimc_canonical.
Qed.

Lemma fold_loop_canonical ls rounds d level i :
  represents ls d level → (i < length level)%nat →
  Forall canonical (fold_loop rounds d level i).2.
Proof.
  revert d level i. induction rounds as [|rounds IH]; intros d level i Hr Hi; cbn [fold_loop]; [constructor|].
  specialize (IH (S d) (fold_level d level) (i / 2)%nat).
  destruct (fold_loop rounds (S d) _ _) as [top sibs]. cbn [snd] in *. constructor.
  - rewrite (fold_sibling_dense ls) by done. apply dense_canonical.
  - apply IH; [by apply represents_next|]. rewrite fold_level_length. by apply half_lt.
Qed.

Lemma fold_canonical t i :
  (i < length (leaves t))%nat → Forall canonical (fold t i).2.
Proof.
  intros Hi. unfold fold.
  pose proof (fold_loop_canonical (leaves t) MerkleDepth 0 (leafHash <$> leaves t) i
    (represents_leaves _) ltac:(by rewrite length_fmap)) as Hf.
  destruct (fold_loop MerkleDepth 0 _ i) as [top sibs]. exact Hf.
Qed.

Lemma Root_dense t : Root t = SetBytes (dense_node (leaves t) MerkleDepth 0).
Proof.
  unfold Root. destruct (leaves t) as [|l ls] eqn:E; [by rewrite dense_empty|].
  assert (Hi : (0 < length (leaves t))%nat) by (rewrite E; apply Nat.lt_0_succ).
  destruct (fold_spec t 0 Hi) as (H1 & _ & _). by rewrite H1, E.
Qed.

(** What a produced proof contains, for a tree within its capacity. *)
Lemma Prove_spec t index p :
  Prove t index = Ok p → Z.of_nat (length (leaves t)) ≤ TreeSize →
  ∃ (i : nat) leaf sibs, index = Z.of_nat i ∧ leaves t !! i = Some leaf ∧
    Z.of_nat i < TreeSize ∧
    p = {| pf_Root := Root t; pf_Path := SetBytes leaf :: (SetBytes <$> sibs); pf_Index := index |} ∧
    length sibs = MerkleDepth ∧ Forall canonical sibs ∧
    climb_path (leafHash leaf) sibs i = dense_node (leaves t) MerkleDepth 0.
Proof.
  unfold Prove. intros E Hcap. case_match eqn:Eb; [done|].
  apply orb_false_iff in Eb as [Hlo%Z.ltb_ge Hhi%Z.leb_gt].
  set (i := Z.to_nat index) in *. assert (Hidx : index = Z.of_nat i) by (unfold i; lia).
  assert (Hi : (i < length (leaves t))%nat) by lia.
  destruct (fold_spec t i Hi) as (H1 & H2 & H3). pose proof (fold_canonical t i Hi) as Hc.
  destruct (lookup_lt_is_Some_2 (leaves t) i Hi) as [leaf Hleaf].
  destruct (fold t i) as [root sibs]. cbn [fst snd] in *. injection E as <-.
  exists i, leaf, sibs. rewrite Root_dense, <-H1.
  rewrite !(nth_lookup_Some _ _ _ _ Hleaf).
  assert (Hin : Z.of_nat i < TreeSize) by lia.
  repeat split; try done. cbn [dense_node] in H3. rewrite (nth_lookup_Some _ _ _ _ Hleaf) in H3.
  rewrite H3, Nat.div_small by by apply index_in_depth. done.
Qed.
End zktree_canonical.

Section zktree_binding.
Import ZkTree.
Context `{MiMC} (mimc_length : ∀ b, length (mimc_sum b) = 32%nat).

Lemma nodeHash_inj a b c d :
  length a = length c → nodeHash a b = nodeHash c d → (a = c ∧ b = d) ∨ mimc_collision.
Proof.
  intros Hl E. unfold nodeHash in E. rewrite !to32_id in E by done.
  destruct (decide (a ++ b = c ++ d)) as [Ea|Hne].
  - left. by apply app_inj_1 in Ea.
  - right. by exists (a ++ b), (c ++ d).
Qed.

Lemma climb_path_inj sibs sibs' cur cur' i :
  length sibs = length sibs' → Forall (λ b : bytes, length b = 32%nat) (cur :: cur' :: sibs ++ sibs') →
  climb_path cur sibs i = climb_path cur' sibs' i → cur = cur' ∨ mimc_collision.
Proof.
  revert sibs' cur cur' i. induction sibs as [|s sibs IH]; intros [|s' sibs'] cur cur' i Hl HF E;
    try done; cbn in E; [by left|].
  apply Forall_cons in HF as [Hc HF]. apply Forall_cons in HF as [Hc' HF].
  cbn in HF. apply Forall_cons in HF as [Hs HF]. apply Forall_app in HF as [HF1 HF2].
  apply Forall_cons in HF2 as [Hs' HF2].
  apply IH in E as [E|]; [|by right|by injection Hl|].
  - destruct (Nat.even i); apply nodeHash_inj in E as [[? ?]|]; auto; congruence.
  - repeat (apply Forall_cons; split; [case_match; apply to32_length|]). by apply Forall_app.
Qed.
End zktree_binding.

(** * Properties *)

Module ZkTreeSpec.
Import ZkTree.

(** C34: the sparse tree is the dense one. The root computed from the stored leaves
    alone equals the root of the full zero-padded tree of depth 32, for the empty
    tree too. An inserted commitment takes the next free slot and leaves every
    other slot's leaf unchanged; a full tree refuses and is unchanged; and for every
    stored leaf, and only those, a proof is produced whose 32 siblings climb from
    that leaf to the tree's root. *)
Theorem sparse_tree_correct `{FR : Fr, FL : !FrLaws, MM : MiMC, ML : !MiMCLaws} t commitment index :
  Z.of_nat (length (leaves t)) ≤ used t ≤ TreeSize →
  Root t = SetBytes (dense_node (leaves t) MerkleDepth 0) ∧
  (∀ idx t', Insert t commitment = Ok (idx, t') →
     idx = used t ∧ used t' = used t + 1 ∧ Remaining t' = Remaining t - 1 ∧
     leaves t' = leaves t ++ [Bytes commitment] ∧ used t' ≤ TreeSize) ∧
  (is_ok (Insert t commitment) = true ↔ 0 < Remaining t) ∧
  (is_ok (Prove t index) = true ↔ 0 ≤ index < Z.of_nat (length (leaves t))) ∧
  (∀ p, Prove t index = Ok p → ∃ leaf sibs,
     leaves t !! Z.to_nat index = Some leaf ∧ length sibs = MerkleDepth ∧
     pf_Path p = SetBytes leaf :: (SetBytes <$> sibs) ∧ pf_Root p = Root t ∧
     SetBytes (climb_path (leafHash leaf) sibs (Z.to_nat index)) = Root t).
Proof.
  intros Hcap. split; [apply Root_dense|]. unfold Insert, Remaining.
  split; [|split; [|split]].
  - intros idx t' E. case_match eqn:Eb; [done|]. apply Z.leb_gt in Eb.
    injection E as <- <-. cbn [used leaves]. repeat split; lia.
  - destruct (Z.leb_spec TreeSize (used t)); cbn [is_ok]; split; intros; try done; lia.
  - unfold Prove. case_match eqn:Eb; bools; cbn [is_ok]; [split; [done|lia]|].
    destruct (fold t (Z.to_nat index)). cbn [is_ok]. split; [lia|done].
  - intros p Hp. destruct (Prove_spec t index p Hp) as (i & leaf & sibs & -> & Hl & _ & -> & Hs & _ & Hc); [lia|].
    rewrite Nat2Z.id. exists leaf, sibs. rewrite Hc, Root_dense. auto.
Qed.

Lemma sparse_tree_correct_witness :
  let FR := FrModel.fr in
  let MM := FrModel.mimc in
  let t := {| leaves := [Bytes (Fr:=FrModel.fr) (FrModel.of_Z 5)]; used := 1 |} in
  Root t = SetBytes (dense_node (leaves t) MerkleDepth 0) ∧ 0 < Remaining t ∧
  is_ok (Prove t 0) = true ∧ is_ok (Prove t 1) = false.
Proof.
  intros FR MM t.
  destruct (sparse_tree_correct (FR := FrModel.fr) (FL := FrModel.fr_laws) (ML := FrModel.mimc_laws)
    t (FrModel.of_Z 6) 0) as (H1 & _ & _ & H4 & _).
  { vm_compute. split; discriminate. }
  split; [exact H1|]. split; [reflexivity|]. split; [|reflexivity].
  apply H4. split; [discriminate|reflexivity].
Defined.

(** A path binds its leaf. Two leaf digests that climb, from the same index
    along paths of one length, to the same node are equal, unless MiMC collides: a
    root cannot be opened to two different leaves at one position. *)
Theorem tree_path_binding `{MM : MiMC} sibs sibs' leaf leaf' i :
  (∀ b, length (mimc_sum b) = 32%nat) → length sibs = length sibs' →
  Forall (λ b : bytes, length b = 32%nat) (sibs ++ sibs') →
  climb_path (leafHash leaf) sibs i = climb_path (leafHash leaf') sibs' i →
  leaf = leaf' ∨ mimc_collision.
Proof.
  intros Hm Hl HF E. apply climb_path_inj in E as [E|]; [|by right|done|done|].
  - unfold leafHash in E. rewrite !to32_id in E by done.
    destruct (decide (leaf = leaf')); [by left|]. right. by exists leaf, leaf'.
  - repeat (apply Forall_cons; split; [apply to32_length|]). done.
Qed.

Lemma tree_path_binding_witness :
  let MM := (λ _ : bytes, replicate 32 0) : MiMC in
  [5] = [5] ∨ mimc_collision.
Proof.
  intros MM. apply (tree_path_binding [replicate 32 1] [replicate 32 1] [5] [5] 0).
  - intros b. reflexivity.
  - reflexivity.
  - repeat constructor.
  - reflexivity.
Defined.
End ZkTreeSpec.
