(* ===== verification/Circuit.v ===== *)
(** pkg/zk circuits and witnesses: the five Groth16 circuits as the constraints their
    [Define] methods emit, the off-circuit secrets, and the assignments an honest
    prover builds from them.

    gnark's frontend (field addition, range checks, equality, the in-circuit MiMC and
    the Merkle gadget) is a parameter, [Frontend]; what the circuits rely on is the
    documented behaviour stated by [FrontendLaws]. *)
From S2P Require Import Prelude Words Decimal Hashing Types Field ZkTree.

(** gnark-crypto's MiMC over field elements ([SumElements]). *)
Class MimcField `{Fr} := mimcHash : list FieldElement → FieldElement.

Class Frontend `{Fr} := {
  VAdd : FieldElement → FieldElement → FieldElement;
  ToBinary : FieldElement → Z → Prop;
  AssertIsEqual : FieldElement → FieldElement → Prop;
  HSum : list FieldElement → FieldElement;
  VerifyProof : FieldElement → list FieldElement → FieldElement → Prop }.

(** The canonical integer of a field element. *)
Definition fe_val `{Fr} (e : FieldElement) : Z := be_value (Bytes e).

(** The Merkle path climbed on field elements. *)
Fixpoint climb_field `{Fr, MimcField} (cur : FieldElement) (sibs : list FieldElement) (i : nat)
    : FieldElement :=
  match sibs with
  | [] => cur
  | s :: sibs => climb_field (if Nat.even i then mimcHash [cur; s] else mimcHash [s; cur]) sibs (i / 2)
  end.

Class FrontendLaws `{Fr, MiMC, !MimcField, !Frontend} : Prop := {
  SetUint64_val : ∀ v, 0 ≤ v < 2 ^ 64 → fe_val (SetUint64 v) = v;
  fe_val_inj : ∀ x y, fe_val x = fe_val y → x = y;
  VAdd_val : ∀ x y, fe_val (VAdd x y) = (fe_val x + fe_val y) mod fr_modulus;
  ToBinary_spec : ∀ x n, 0 ≤ n ≤ 253 → ToBinary x n ↔ fe_val x < 2 ^ n;
  AssertIsEqual_spec : ∀ x y, AssertIsEqual x y ↔ x = y;
  HSum_mimcHash : ∀ l, HSum l = mimcHash l;
  mimcHash_bytes : ∀ l, mimcHash l = SetBytes (mimc_sum (concat (Bytes <$> l)));
  VerifyProof_spec : ∀ root leaf sibs idx,
    VerifyProof root (leaf :: sibs) idx ↔
    ∃ i : nat, idx = SetUint64 (Z.of_nat i) ∧ Z.of_nat i < 2 ^ Z.of_nat (length sibs) ∧
      climb_field (mimcHash [leaf]) sibs i = root }.

Definition NumInputs : nat := 2.
Definition NumOutputs : nat := 2.
Definition valueBits : Z := 64.
Definition epochBits : Z := 32.

(** * Secrets (witness.go) *)

Section witness.
Context `{Fr, !MimcField}.

Definition ValueElement (v : Z) : FieldElement := SetUint64 v.

Record NoteSecret := { ns_Value : Z; ns_OwnerSK : FieldElement; ns_Rho : FieldElement }.
Definition NoteSecret_OwnerPK (n : NoteSecret) : FieldElement := mimcHash [ns_OwnerSK n].
Definition NoteSecret_Commitment (n : NoteSecret) : FieldElement :=
  mimcHash [ValueElement (ns_Value n); NoteSecret_OwnerPK n; ns_Rho n].
Definition NoteSecret_Nullifier (n : NoteSecret) : FieldElement :=
  mimcHash [ns_Rho n; ns_OwnerSK n].

Record StakeSecret := {
  ss_Principal : Z; ss_StartEpoch : Z; ss_OwnerSK : FieldElement; ss_Rho : FieldElement }.
Definition StakeSecret_OwnerPK (s : StakeSecret) : FieldElement := mimcHash [ss_OwnerSK s].
Definition StakeSecret_Commitment (s : StakeSecret) : FieldElement :=
  mimcHash [ValueElement (ss_Principal s); ValueElement (ss_StartEpoch s);
            StakeSecret_OwnerPK s; ss_Rho s].
Definition StakeSecret_Nullifier (s : StakeSecret) : FieldElement :=
  mimcHash [ss_Rho s; ss_OwnerSK s].

Definition VoterCommitment (voterSK : FieldElement) : FieldElement := mimcHash [voterSK].

Definition voterSKDomain : bytes := string_bytes "shadowforge-vote-eligibility-voter-sk-v1".
Definition DeriveVoterSK `{Sha256} (secretKeyBytes : bytes) : FieldElement :=
  FieldElementFromBytes32 (sha256 (voterSKDomain ++ secretKeyBytes)).
End witness.

(** * Circuits *)

Section circuits.
Context `{Fr, !Frontend}.
Notation F := FieldElement.

Definition zero_var : F := SetUint64 0.
Definition at_ (l : list F) (i : nat) : F := nth i l zero_var.

Record TransferCircuit := {
  tc_MerkleRoot : F; tc_Nullifiers : list F; tc_OutCommits : list F; tc_Fee : F;
  tc_InValue : list F; tc_InOwnerSK : list F; tc_InRho : list F; tc_InLeafIndex : list F;
  tc_InPath : list (list F);
  tc_OutValue : list F; tc_OutOwnerPK : list F; tc_OutRho : list F }.

(** The constraints of the input loop at index [i]. *)
Definition transfer_input (c : TransferCircuit) (i : nat) : Prop :=
  ToBinary (at_ (tc_InValue c) i) valueBits ∧
  let ownerPK := HSum [at_ (tc_InOwnerSK c) i] in
  let commitment := HSum [at_ (tc_InValue c) i; ownerPK; at_ (tc_InRho c) i] in
  let path := nth i (tc_InPath c) [] in
  AssertIsEqual commitment (at_ path 0) ∧
  VerifyProof (tc_MerkleRoot c) path (at_ (tc_InLeafIndex c) i) ∧
  AssertIsEqual (HSum [at_ (tc_InRho c) i; at_ (tc_InOwnerSK c) i]) (at_ (tc_Nullifiers c) i).

Definition transfer_output (c : TransferCircuit) (j : nat) : Prop :=
  ToBinary (at_ (tc_OutValue c) j) valueBits ∧
  AssertIsEqual (HSum [at_ (tc_OutValue c) j; at_ (tc_OutOwnerPK c) j; at_ (tc_OutRho c) j])
    (at_ (tc_OutCommits c) j).

Definition sum_vars (l : list F) (n : nat) : F :=
  foldl (λ acc i, VAdd acc (at_ l i)) zero_var (seq 0 n).

Definition Define (c : TransferCircuit) : Prop :=
  ToBinary (tc_Fee c) valueBits ∧
  Forall (transfer_input c) (seq 0 NumInputs) ∧
  Forall (transfer_output c) (seq 0 NumOutputs) ∧
  AssertIsEqual (sum_vars (tc_InValue c) NumInputs)
    (VAdd (sum_vars (tc_OutValue c) NumOutputs) (tc_Fee c)).

Record MintCircuit := { mc_Amount : F; mc_OutCommit : F; mc_OwnerPK : F; mc_Rho : F }.
Definition DefineMint (c : MintCircuit) : Prop :=
  ToBinary (mc_Amount c) valueBits ∧
  AssertIsEqual (HSum [mc_Amount c; mc_OwnerPK c; mc_Rho c]) (mc_OutCommit c).

Record StakeCircuit := {
  sc_Principal : F; sc_StartEpoch : F; sc_PositionCommit : F; sc_OwnerPK : F; sc_Rho : F }.
Definition DefineStake (c : StakeCircuit) : Prop :=
  ToBinary (sc_Principal c) valueBits ∧ ToBinary (sc_StartEpoch c) epochBits ∧
  AssertIsEqual (HSum [sc_Principal c; sc_StartEpoch c; sc_OwnerPK c; sc_Rho c]) (sc_PositionCommit c).

Record UnstakeCircuit := {
  uc_MerkleRoot : F; uc_Nullifier : F; uc_Principal : F; uc_StartEpoch : F;
  uc_FinalAmount : F; uc_OutCommit : F;
  uc_OwnerSK : F; uc_Rho : F; uc_LeafIndex : F; uc_Path : list F;
  uc_OutOwnerPK : F; uc_OutRho : F }.
Definition DefineUnstake (c : UnstakeCircuit) : Prop :=
  ToBinary (uc_Principal c) valueBits ∧ ToBinary (uc_StartEpoch c) epochBits ∧
  ToBinary (uc_FinalAmount c) valueBits ∧
  let ownerPK := HSum [uc_OwnerSK c] in
  let positionCommit := HSum [uc_Principal c; uc_StartEpoch c; ownerPK; uc_Rho c] in
  AssertIsEqual positionCommit (at_ (uc_Path c) 0) ∧
  VerifyProof (uc_MerkleRoot c) (uc_Path c) (uc_LeafIndex c) ∧
  AssertIsEqual (HSum [uc_Rho c; uc_OwnerSK c]) (uc_Nullifier c) ∧
  AssertIsEqual (HSum [uc_FinalAmount c; uc_OutOwnerPK c; uc_OutRho c]) (uc_OutCommit c).

Record EligibilityCircuit := {
  ec_MerkleRoot : F; ec_Nullifier : F; ec_ProposalScope : F;
  ec_VoterSK : F; ec_LeafIndex : F; ec_Path : list F }.
Definition DefineEligibility (c : EligibilityCircuit) : Prop :=
  let commitment := HSum [ec_VoterSK c] in
  AssertIsEqual commitment (at_ (ec_Path c) 0) ∧
  VerifyProof (ec_MerkleRoot c) (ec_Path c) (ec_LeafIndex c) ∧
  AssertIsEqual (HSum [ec_VoterSK c; ec_ProposalScope c]) (ec_Nullifier c).
End circuits.

(** * Assignments (prove.go and its siblings) *)

Section assignments.
Context `{Fr, MiMC, !MimcField}.

Record TransferInput := {
  ti_MerkleRoot : FieldElement; ti_Fee : Z; ti_InSecrets : list NoteSecret;
  ti_InProofs : list ZkTree.Proof; ti_OutSecrets : list NoteSecret }.

Definition Nullifiers (inp : TransferInput) : list FieldElement :=
  NoteSecret_Nullifier <$> ti_InSecrets inp.
Definition OutCommitments (inp : TransferInput) : list FieldElement :=
  NoteSecret_Commitment <$> ti_OutSecrets inp.

Record TransferPublic := {
  tp_MerkleRoot : FieldElement; tp_Nullifiers : list FieldElement;
  tp_OutCommits : list FieldElement; tp_Fee : Z }.
Definition Public (inp : TransferInput) : TransferPublic :=
  {| tp_MerkleRoot := ti_MerkleRoot inp; tp_Nullifiers := Nullifiers inp;
     tp_OutCommits := OutCommitments inp; tp_Fee := ti_Fee inp |}.

Definition buildAssignment (inp : TransferInput) : result TransferCircuit :=
  if negb (bool_decide (length (ti_InSecrets inp) = NumInputs)) ||
     negb (bool_decide (length (ti_InProofs inp) = NumInputs))
  then Err "zk: expected input notes"
  else if negb (bool_decide (length (ti_OutSecrets inp) = NumOutputs))
  then Err "zk: expected output notes"
  else Ok {|
    tc_MerkleRoot := ti_MerkleRoot inp; tc_Fee := ValueElement (ti_Fee inp);
    tc_Nullifiers := NoteSecret_Nullifier <$> ti_InSecrets inp;
    tc_InValue := (λ s, ValueElement (ns_Value s)) <$> ti_InSecrets inp;
    tc_InOwnerSK := ns_OwnerSK <$> ti_InSecrets inp;
    tc_InRho := ns_Rho <$> ti_InSecrets inp;
    tc_InLeafIndex := (λ p, ValueElement (u64 (ZkTree.pf_Index p))) <$> ti_InProofs inp;
    tc_InPath := ZkTree.pf_Path <$> ti_InProofs inp;
    tc_OutCommits := NoteSecret_Commitment <$> ti_OutSecrets inp;
    tc_OutValue := (λ s, ValueElement (ns_Value s)) <$> ti_OutSecrets inp;
    tc_OutOwnerPK := NoteSecret_OwnerPK <$> ti_OutSecrets inp;
    tc_OutRho := ns_Rho <$> ti_OutSecrets inp |}.

Definition buildMintAssignment (secret : NoteSecret) : MintCircuit :=
  {| mc_Amount := ValueElement (ns_Value secret); mc_OutCommit := NoteSecret_Commitment secret;
     mc_OwnerPK := NoteSecret_OwnerPK secret; mc_Rho := ns_Rho secret |}.

Definition buildStakeAssignment (secret : StakeSecret) : StakeCircuit :=
  {| sc_Principal := ValueElement (ss_Principal secret);
     sc_StartEpoch := ValueElement (ss_StartEpoch secret);
     sc_PositionCommit := StakeSecret_Commitment secret;
     sc_OwnerPK := StakeSecret_OwnerPK secret; sc_Rho := ss_Rho secret |}.

Record UnstakeInput := {
  ui_MerkleRoot : FieldElement; ui_Position : StakeSecret; ui_Proof : ZkTree.Proof;
  ui_Out : NoteSecret }.

Definition buildUnstakeAssignment (inp : UnstakeInput) : UnstakeCircuit :=
  {| uc_MerkleRoot := ui_MerkleRoot inp; uc_Nullifier := StakeSecret_Nullifier (ui_Position inp);
     uc_Principal := ValueElement (ss_Principal (ui_Position inp));
     uc_StartEpoch := ValueElement (ss_StartEpoch (ui_Position inp));
     uc_FinalAmount := ValueElement (ns_Value (ui_Out inp));
     uc_OutCommit := NoteSecret_Commitment (ui_Out inp);
     uc_OwnerSK := ss_OwnerSK (ui_Position inp); uc_Rho := ss_Rho (ui_Position inp);
     uc_LeafIndex := ValueElement (u64 (ZkTree.pf_Index (ui_Proof inp)));
     uc_Path := ZkTree.pf_Path (ui_Proof inp);
     uc_OutOwnerPK := NoteSecret_OwnerPK (ui_Out inp); uc_OutRho := ns_Rho (ui_Out inp) |}.

Record EligibilityInput := {
  ei_MerkleRoot : FieldElement; ei_ProposalScope : FieldElement; ei_VoterSK : FieldElement;
  ei_Proof : ZkTree.Proof }.

Definition buildEligibilityAssignment (inp : EligibilityInput) : EligibilityCircuit :=
  {| ec_MerkleRoot := ei_MerkleRoot inp;
     ec_Nullifier := mimcHash [ei_VoterSK inp; ei_ProposalScope inp];
     ec_ProposalScope := ei_ProposalScope inp; ec_VoterSK := ei_VoterSK inp;
     ec_LeafIndex := ValueElement (u64 (ZkTree.pf_Index (ei_Proof inp)));
     ec_Path := ZkTree.pf_Path (ei_Proof inp) |}.
End assignments.

(** * Lemmas *)

Section circuit_lemmas.
Context `{FR : Fr, MM : MiMC, MF : !MimcField, FE : !Frontend, FLaws : !FrLaws, !MiMCLaws, L : !FrontendLaws}.
Notation F := FieldElement.

(** These two lists of field elements are a collision of MiMC. *)
Definition collides (l k : list F) : Prop := l ≠ k ∧ mimcHash l = mimcHash k.

Lemma mimcHash_inj (l k : list F) : mimcHash l = mimcHash k → l = k ∨ collides l k.
Proof. intros E. destruct (decide (l = k)) as [|Hne]; [by left|by right]. Qed.

(** The opening of the note an input of a transfer spends, and of a staked position. *)
Definition note_opening (c : TransferCircuit) (i : nat) : list F :=
  [at_ (tc_InValue c) i; mimcHash [at_ (tc_InOwnerSK c) i]; at_ (tc_InRho c) i].
Definition position_opening (u : UnstakeCircuit) : list F :=
  [uc_Principal u; uc_StartEpoch u; mimcHash [uc_OwnerSK u]; uc_Rho u].

Lemma fe_val_range (e : F) : 0 ≤ fe_val e < fr_modulus.
Proof.
  unfold fe_val. destruct (Bytes_canonical e) as [Hb Hlt]. split; [|done].
  unfold be_value. assert (Hacc : ∀ acc, 0 ≤ acc → 0 ≤ foldl (λ acc x, 256 * acc + x) acc (Bytes e)).
  { revert Hb. generalize (Bytes e) as b. induction 1 as [|x b Hx _ IH]; intros acc Ha; cbn; [done|].
    apply IH. lia. }
  by apply Hacc.
Qed.

Lemma range_check x n : 0 ≤ n ≤ 253 → ToBinary x n → 0 ≤ fe_val x < 2 ^ n.
Proof. intros Hn Hx. apply ToBinary_spec in Hx; [|done]. pose proof (fe_val_range x). lia. Qed.

Lemma sum_small x y a b :
  fe_val x = a → fe_val y = b → 0 ≤ a → 0 ≤ b → a + b < fr_modulus → fe_val (VAdd x y) = a + b.
Proof. intros <- <- ???. rewrite VAdd_val. apply Z.mod_small. lia. Qed.

Lemma zero_var_val : fe_val zero_var = 0.
Proof. by apply SetUint64_val. Qed.

(** The two-term sums of the circuit, on range-checked terms. *)
Lemma sum_vars_2 (l : list F) :
  fe_val (at_ l 0) < 2 ^ 64 → fe_val (at_ l 1) < 2 ^ 64 →
  fe_val (sum_vars l 2) = fe_val (at_ l 0) + fe_val (at_ l 1).
Proof.
  intros H0 H1. pose proof (fe_val_range (at_ l 0)). pose proof (fe_val_range (at_ l 1)).
  cbn. assert (E : fe_val (VAdd zero_var (at_ l 0)) = fe_val (at_ l 0)).
  { rewrite (sum_small _ _ 0 (fe_val (at_ l 0))) by (done || lia || apply zero_var_val). lia. }
  rewrite (sum_small _ _ (fe_val (at_ l 0)) (fe_val (at_ l 1))); [done|done|done|lia|lia|].
  unfold fr_modulus. lia.
Qed.

(** A spent note: its opening, its place in the tree and its nullifier. *)
Record opens (root nullifier : F) (n : NoteSecret) : Prop := {
  op_value : 0 ≤ ns_Value n < 2 ^ 64;
  op_member : ∃ (sibs : list F) (i : nat), Z.of_nat i < 2 ^ Z.of_nat (length sibs) ∧
    climb_field (mimcHash [NoteSecret_Commitment n]) sibs i = root;
  op_nullifier : NoteSecret_Nullifier n = nullifier }.

Lemma verify_member root path idx commitment :
  AssertIsEqual commitment (at_ path 0) → VerifyProof root path idx → path ≠ [] →
  ∃ (sibs : list F) (i : nat), Z.of_nat i < 2 ^ Z.of_nat (length sibs) ∧
    climb_field (mimcHash [commitment]) sibs i = root.
Proof.
  intros He Hv Hne. apply AssertIsEqual_spec in He. subst commitment.
  destruct path as [|leaf sibs]; [done|]. apply VerifyProof_spec in Hv as (i & _ & Hi & Hc).
  by exists sibs, i.
Qed.

Lemma transfer_input_opens c i :
  transfer_input c i → nth i (tc_InPath c) [] ≠ [] →
  opens (tc_MerkleRoot c) (at_ (tc_Nullifiers c) i)
    {| ns_Value := fe_val (at_ (tc_InValue c) i); ns_OwnerSK := at_ (tc_InOwnerSK c) i;
       ns_Rho := at_ (tc_InRho c) i |}.
Proof.
  intros (Hr & Hc & Hv & Hn) Hne. assert (Hrange := range_check _ valueBits ltac:(done) Hr).
  rewrite !HSum_mimcHash in *. split; cbn [ns_Value].
  - exact Hrange.
  - unfold NoteSecret_Commitment, NoteSecret_OwnerPK, ValueElement. cbn [ns_Value ns_OwnerSK ns_Rho].
    assert (E : SetUint64 (fe_val (at_ (tc_InValue c) i)) = at_ (tc_InValue c) i).
    { apply fe_val_inj. by apply SetUint64_val. }
    rewrite E. by eapply verify_member.
  - by apply AssertIsEqual_spec in Hn.
Qed.
End circuit_lemmas.

(** Every satisfying transfer balances as integers. *)
Lemma transfer_balance `{FR : Fr, MM : MiMC, MF : !MimcField, FE : !Frontend, FLaws : !FrLaws, L : !FrontendLaws} c :
  Define c →
  fe_val (at_ (tc_InValue c) 0) + fe_val (at_ (tc_InValue c) 1) =
  fe_val (at_ (tc_OutValue c) 0) + fe_val (at_ (tc_OutValue c) 1) + fe_val (tc_Fee c).
Proof.
  intros (Hfee & Hin & Hout & Heq).
  apply (range_check _ valueBits ltac:(done)) in Hfee.
  unfold NumInputs, NumOutputs in *. cbn [seq] in Hin, Hout.
  apply Forall_cons in Hin as [[Hi0 _] [[Hi1 _] _]%Forall_cons].
  apply Forall_cons in Hout as [[Ho0 _] [[Ho1 _] _]%Forall_cons].
  apply (range_check _ valueBits ltac:(done)) in Hi0, Hi1, Ho0, Ho1.
  unfold valueBits in *. apply AssertIsEqual_spec in Heq.
  apply (f_equal fe_val) in Heq. rewrite sum_vars_2 in Heq by lia.
  erewrite sum_small in Heq; [|apply sum_vars_2; lia|done|lia|lia|unfold fr_modulus; lia].
  lia.
Qed.

(** A satisfying transfer, opened. *)
Lemma transfer_openings `{FR : Fr, MM : MiMC, MF : !MimcField, FE : !Frontend,
    FLaws : !FrLaws, L : !FrontendLaws} c :
  Define c → Forall (λ i, nth i (tc_InPath c) [] ≠ []) (seq 0 NumInputs) →
  ∃ n0 n1 o0 o1 : Z, ∃ s0 s1 : NoteSecret,
    opens (tc_MerkleRoot c) (at_ (tc_Nullifiers c) 0) s0 ∧ ns_Value s0 = n0 ∧
    opens (tc_MerkleRoot c) (at_ (tc_Nullifiers c) 1) s1 ∧ ns_Value s1 = n1 ∧
    at_ (tc_OutCommits c) 0 = mimcHash [ValueElement o0; at_ (tc_OutOwnerPK c) 0; at_ (tc_OutRho c) 0] ∧
    at_ (tc_OutCommits c) 1 = mimcHash [ValueElement o1; at_ (tc_OutOwnerPK c) 1; at_ (tc_OutRho c) 1] ∧
    0 ≤ o0 < 2 ^ 64 ∧ 0 ≤ o1 < 2 ^ 64 ∧ n0 + n1 = o0 + o1 + fe_val (tc_Fee c).
Proof.
  intros Hd Hp. pose proof (transfer_balance c Hd) as Hbal.
  destruct Hd as (_ & Hin & Hout & _). unfold NumInputs, NumOutputs in *. cbn [seq] in *.
  apply Forall_cons in Hin as [Hi0 [Hi1 _]%Forall_cons].
  apply Forall_cons in Hout as [[Ho0 Hc0] [[Ho1 Hc1] _]%Forall_cons].
  apply Forall_cons in Hp as [Hp0 [Hp1 _]%Forall_cons].
  apply transfer_input_opens in Hi0, Hi1; [|done..].
  apply (range_check _ valueBits ltac:(done)) in Ho0, Ho1.
  apply AssertIsEqual_spec in Hc0, Hc1. rewrite HSum_mimcHash in Hc0, Hc1.
  assert (EV : ∀ x, 0 ≤ fe_val x < 2 ^ 64 → ValueElement (fe_val x) = x).
  { intros x Hx. apply fe_val_inj. by apply SetUint64_val. }
  eexists _, _, (fe_val (at_ (tc_OutValue c) 0)), (fe_val (at_ (tc_OutValue c) 1)), _, _.
  split; [exact Hi0|]. split; [done|]. split; [exact Hi1|]. split; [done|].
  rewrite !EV by done. cbn [ns_Value]. auto.
Qed.

(** * Lemmas: the honest prover *)

Lemma buildAssignment_fields `{Fr, !MimcField} inp c :
  buildAssignment inp = Ok c →
  tc_Fee c = ValueElement (ti_Fee inp) ∧ tc_InPath c = ZkTree.pf_Path <$> ti_InProofs inp.
Proof. unfold buildAssignment. intros E. repeat case_match; try done. by injection E as <-. Qed.

Section honest.
Context `{FR : Fr, MM : MiMC, MF : !MimcField, FE : !Frontend, FLaws : !FrLaws, ML : !MiMCLaws, L : !FrontendLaws}.

Lemma nodeHash_field a b :
  canonical a → canonical b →
  SetBytes (ZkTree.nodeHash a b) = mimcHash [SetBytes a; SetBytes b].
Proof.
  intros Ha Hb. rewrite mimcHash_bytes, nodeHash_eq. cbn. by rewrite app_nil_r, Ha, Hb.
Qed.

Lemma climb_bytes_field cur sibs i :
  canonical cur → Forall canonical sibs →
  climb_field (SetBytes cur) (SetBytes <$> sibs) i = SetBytes (climb_path cur sibs i).
Proof.
  intros Hc Hs. revert cur i Hc. induction Hs as [|s sibs Hs _ IH]; intros cur i Hc; cbn; [done|].
  assert (Hn : ∀ a b, canonical (ZkTree.nodeHash a b)).
  { intros a b. unfold canonical. rewrite nodeHash_eq. apply mimc_canonical. }
  rewrite <-IH by (case_match; apply Hn). f_equal. case_match; by rewrite nodeHash_field.
Qed.

(** A proof the tree produces for a commitment satisfies the Merkle gadget. *)
Lemma Prove_verifies t index p (commitment : FieldElement) :
  ZkTree.Prove t index = Ok p → Z.of_nat (length (ZkTree.leaves t)) ≤ TreeSize →
  ZkTree.leaves t !! Z.to_nat index = Some (Bytes commitment) →
  at_ (ZkTree.pf_Path p) 0 = commitment ∧
  VerifyProof (ZkTree.Root t) (ZkTree.pf_Path p) (ValueElement (u64 (ZkTree.pf_Index p))).
Proof.
  intros E Hcap Hleaf.
  destruct (Prove_spec t index p E Hcap) as (i & leaf & sibs & -> & Hl & Hi & -> & Hs & Hc & Hclimb).
  rewrite Nat2Z.id, Hl in Hleaf. injection Hleaf as ->. cbn [ZkTree.pf_Path ZkTree.pf_Index].
  rewrite SetBytes_Bytes. split; [done|].
  assert (Hi64 : 0 ≤ Z.of_nat i < 2 ^ 64) by (change TreeSize with (2 ^ 32) in Hi; lia).
  rewrite u64_id by done. apply VerifyProof_spec. exists i. split; [done|]. split.
  { rewrite length_fmap, Hs. unfold TreeSize in Hi. by rewrite Z.shiftl_1_l in Hi. }
  rewrite Root_dense, <-Hclimb.
  assert (El : SetBytes (ZkTree.leafHash (Bytes commitment)) = mimcHash [commitment]).
  { rewrite mimcHash_bytes, leafHash_eq. cbn. by rewrite app_nil_r. }
  rewrite <-El. apply climb_bytes_field; [|done].
  unfold canonical. rewrite leafHash_eq. apply mimc_canonical.
Qed.

Lemma value_in_range v : 0 ≤ v < 2 ^ 64 → ToBinary (ValueElement v) valueBits.
Proof. intros Hv. apply ToBinary_spec; [done|]. unfold ValueElement, valueBits. rewrite SetUint64_val by done. lia. Qed.

Lemma honest_satisfies t s0 s1 o0 o1 fee i0 i1 p0 p1 :
  Z.of_nat (length (ZkTree.leaves t)) ≤ TreeSize →
  ZkTree.leaves t !! Z.to_nat i0 = Some (Bytes (NoteSecret_Commitment s0)) →
  ZkTree.leaves t !! Z.to_nat i1 = Some (Bytes (NoteSecret_Commitment s1)) →
  ZkTree.Prove t i0 = Ok p0 → ZkTree.Prove t i1 = Ok p1 →
  Forall (λ v, 0 ≤ v < 2 ^ 64) [ns_Value s0; ns_Value s1; ns_Value o0; ns_Value o1; fee] →
  ns_Value s0 + ns_Value s1 = ns_Value o0 + ns_Value o1 + fee →
  ∃ c, buildAssignment {| ti_MerkleRoot := ZkTree.Root t; ti_Fee := fee; ti_InSecrets := [s0; s1];
                          ti_InProofs := [p0; p1]; ti_OutSecrets := [o0; o1] |} = Ok c ∧
       Define c.
Proof.
  intros Hcap Hl0 Hl1 Hp0 Hp1 HF Hsum.
  repeat match goal with H : Forall _ (_ :: _) |- _ => apply Forall_cons in H as [? H] end.
  destruct (Prove_verifies t i0 p0 _ Hp0 Hcap Hl0) as [E0 V0].
  destruct (Prove_verifies t i1 p1 _ Hp1 Hcap Hl1) as [E1 V1].
  eexists. split; [reflexivity|].
  assert (HV : ∀ v, 0 ≤ v < 2 ^ 64 → fe_val (ValueElement v) = v) by (intros; by apply SetUint64_val).
  split; [by apply value_in_range|]. split; [|split].
  - repeat constructor; cbn [at_ nth tc_InValue tc_InOwnerSK tc_InRho tc_InPath tc_InLeafIndex
      tc_Nullifiers tc_MerkleRoot fmap list_fmap ti_InSecrets ti_InProofs];
      first [by apply value_in_range | done | apply AssertIsEqual_spec];
      rewrite ?HSum_mimcHash; symmetry; first [exact E0 | exact E1 | reflexivity].
  - repeat constructor; cbn [at_ nth tc_OutValue tc_OutOwnerPK tc_OutRho tc_OutCommits fmap list_fmap
      ti_OutSecrets];
      first [by apply value_in_range | apply AssertIsEqual_spec; by rewrite HSum_mimcHash].
  - apply AssertIsEqual_spec, fe_val_inj. cbn [tc_InValue tc_OutValue tc_Fee ti_InSecrets ti_OutSecrets ti_Fee].
    set (f := λ s, ValueElement (ns_Value s)).
    assert (HI : ∀ a b, 0 ≤ ns_Value a < 2 ^ 64 → 0 ≤ ns_Value b < 2 ^ 64 →
      fe_val (sum_vars (f <$> [a; b]) 2) = ns_Value a + ns_Value b).
    { intros a b Ha Hb. pose proof (HV _ Ha). pose proof (HV _ Hb).
      rewrite sum_vars_2; cbn [fmap list_fmap at_ nth]; unfold f; lia. }
    unfold NumInputs, NumOutputs. rewrite HI by done.
    rewrite (sum_small _ _ (ns_Value o0 + ns_Value o1) fee);
      [lia|by apply HI|by apply HV|lia|lia|unfold fr_modulus; lia].
Qed.
End honest.

(** * A concrete frontend *)

Module FrontendModel.
Import FrModel.
#[export] Existing Instance mimc.
#[export] Instance mimc_field : MimcField (H := fr) :=
  λ l, SetBytes (mimc_sum (concat (Bytes <$> l))).
#[export] Instance frontend : Frontend (H := fr) := {
  VAdd x y := of_Z (proj1_sig (x : elem) + proj1_sig (y : elem));
  ToBinary x n := fe_val (H := fr) x < 2 ^ n;
  AssertIsEqual x y := x = y;
  HSum l := mimcHash l;
  VerifyProof root path idx := match path with
    | [] => False
    | leaf :: sibs => ∃ i : nat, idx = SetUint64 (Z.of_nat i) ∧
        Z.of_nat i < 2 ^ Z.of_nat (length sibs) ∧ climb_field (mimcHash [leaf]) sibs i = root
    end }.

Lemma fe_val_elem (e : elem) : fe_val (H := fr) e = proj1_sig e.
Proof. apply val_Bytes. Qed.

#[export] Instance frontend_laws : FrontendLaws.
Proof.
  split.
  - intros v Hv. rewrite fe_val_elem. change (reduce v = v). rewrite reduce_mod. apply Z.mod_small.
    assert (2 ^ 64 < fr_modulus) by done. lia.
  - intros x y E. rewrite !fe_val_elem in E. by apply dsig_eq.
  - intros x y. rewrite !fe_val_elem. apply reduce_mod.
  - done.
  - done.
  - done.
  - done.
  - done.
Qed.

Definition note (v : Z) : NoteSecret := {| ns_Value := v; ns_OwnerSK := of_Z 11; ns_Rho := of_Z (12 + v) |}.
Definition tree : ZkTree.Tree :=
  {| ZkTree.leaves := [Bytes (NoteSecret_Commitment (note 7)); Bytes (NoteSecret_Commitment (note 5))];
     ZkTree.used := 2 |}.
Definition no_proof : ZkTree.Proof := {| ZkTree.pf_Root := of_Z 0; ZkTree.pf_Path := []; ZkTree.pf_Index := 0 |}.
Definition proof (i : Z) : ZkTree.Proof :=
  match ZkTree.Prove tree i with Ok p => p | Err _ => no_proof end.
Definition input : TransferInput :=
  {| ti_MerkleRoot := ZkTree.Root tree; ti_Fee := 2; ti_InSecrets := [note 7; note 5];
     ti_InProofs := [proof 0; proof 1]; ti_OutSecrets := [note 4; note 6] |}.

Lemma proof_path i : is_ok (ZkTree.Prove tree i) = true → ZkTree.pf_Path (proof i) ≠ [].
Proof.
  unfold proof, ZkTree.Prove. case_match; [done|]. by destruct (ZkTree.fold _ _).
Qed.

Lemma proof_ok i : is_ok (ZkTree.Prove tree i) = true → ZkTree.Prove tree i = Ok (proof i).
Proof. unfold proof. by destruct (ZkTree.Prove tree i). Qed.
End FrontendModel.

(** * Properties *)

Module CircuitSpec.
(** C9: a shielded transfer creates no value. Any assignment satisfying the transfer
    circuit spends two notes whose openings the prover knows, each a member of the
    tree with the public root and each revealing its own nullifier, and the values
    spent equal, as integers and not merely modulo the field order, the values
    created plus the fee, every one of them below 2^64. *)
Theorem transfer_conserves `{FR : Fr, MM : MiMC, MF : !MimcField, FE : !Frontend,
    FLaws : !FrLaws, L : !FrontendLaws} c :
  Define c → Forall (λ i, nth i (tc_InPath c) [] ≠ []) (seq 0 NumInputs) →
  ∃ n0 n1 o0 o1 : Z, ∃ s0 s1 : NoteSecret,
    opens (tc_MerkleRoot c) (at_ (tc_Nullifiers c) 0) s0 ∧ ns_Value s0 = n0 ∧
    opens (tc_MerkleRoot c) (at_ (tc_Nullifiers c) 1) s1 ∧ ns_Value s1 = n1 ∧
    at_ (tc_OutCommits c) 0 = mimcHash [ValueElement o0; at_ (tc_OutOwnerPK c) 0; at_ (tc_OutRho c) 0] ∧
    at_ (tc_OutCommits c) 1 = mimcHash [ValueElement o1; at_ (tc_OutOwnerPK c) 1; at_ (tc_OutRho c) 1] ∧
    0 ≤ o0 < 2 ^ 64 ∧ 0 ≤ o1 < 2 ^ 64 ∧ n0 + n1 = o0 + o1 + fe_val (tc_Fee c).
Proof. exact (transfer_openings c). Qed.

(** C32: the honest prover succeeds. For two notes stored in a tree within its
    capacity, with the proofs the tree produces for them, and any values in range
    that balance with the fee, the assignment built from them satisfies the transfer
    circuit; so the off-circuit hashes and the sparse tree compute exactly what the
    circuit checks. *)
Theorem transfer_complete `{FR : Fr, MM : MiMC, MF : !MimcField, FE : !Frontend,
    FLaws : !FrLaws, ML : !MiMCLaws, L : !FrontendLaws} t s0 s1 o0 o1 fee i0 i1 p0 p1 :
  Z.of_nat (length (ZkTree.leaves t)) ≤ TreeSize →
  ZkTree.leaves t !! Z.to_nat i0 = Some (Bytes (NoteSecret_Commitment s0)) →
  ZkTree.leaves t !! Z.to_nat i1 = Some (Bytes (NoteSecret_Commitment s1)) →
  ZkTree.Prove t i0 = Ok p0 → ZkTree.Prove t i1 = Ok p1 →
  Forall (λ v, 0 ≤ v < 2 ^ 64) [ns_Value s0; ns_Value s1; ns_Value o0; ns_Value o1; fee] →
  ns_Value s0 + ns_Value s1 = ns_Value o0 + ns_Value o1 + fee →
  ∃ c, buildAssignment {| ti_MerkleRoot := ZkTree.Root t; ti_Fee := fee; ti_InSecrets := [s0; s1];
                          ti_InProofs := [p0; p1]; ti_OutSecrets := [o0; o1] |} = Ok c ∧
       Define c.
Proof. exact (honest_satisfies t s0 s1 o0 o1 fee i0 i1 p0 p1). Qed.

(** C33: a note has one nullifier. If two satisfying spends, of notes by a transfer or
    of staked positions by an unstake, open the same leaf of the tree, they reveal
    the same nullifier; and two eligibility proofs opening the same voter leaf for
    the same proposal reveal the same nullifier. Otherwise their own openings, or the
    keys in them, are a collision of MiMC. This is what makes rejecting a repeated
    nullifier prevent double spends and votes. *)
Theorem nullifier_unique `{FR : Fr, MM : MiMC, MF : !MimcField, FE : !Frontend,
    FLaws : !FrLaws, L : !FrontendLaws} :
  (∀ c c' i j, transfer_input c i → transfer_input c' j →
     at_ (nth i (tc_InPath c) []) 0 = at_ (nth j (tc_InPath c') []) 0 →
     at_ (tc_Nullifiers c) i = at_ (tc_Nullifiers c') j ∨
     collides (note_opening c i) (note_opening c' j) ∨
     collides [at_ (tc_InOwnerSK c) i] [at_ (tc_InOwnerSK c') j]) ∧
  (∀ u u', DefineUnstake u → DefineUnstake u' → at_ (uc_Path u) 0 = at_ (uc_Path u') 0 →
     (uc_Nullifier u = uc_Nullifier u' ∧ uc_Principal u = uc_Principal u' ∧
      uc_StartEpoch u = uc_StartEpoch u') ∨
     collides (position_opening u) (position_opening u') ∨ collides [uc_OwnerSK u] [uc_OwnerSK u']) ∧
  (∀ e e', DefineEligibility e → DefineEligibility e' → ec_ProposalScope e = ec_ProposalScope e' →
     at_ (ec_Path e) 0 = at_ (ec_Path e') 0 →
     ec_Nullifier e = ec_Nullifier e' ∨ collides [ec_VoterSK e] [ec_VoterSK e']).
Proof.
  split; [|split].
  - intros c c' i j (_ & Hc & _ & Hn) (_ & Hc' & _ & Hn') E.
    rewrite !HSum_mimcHash in *. apply AssertIsEqual_spec in Hc, Hc', Hn, Hn'.
    rewrite <-Hc, <-Hc' in E. apply mimcHash_inj in E as [E|]; [|by auto].
    injection E as _ Epk Erho. apply mimcHash_inj in Epk as [Esk|]; [|by auto].
    injection Esk as Esk. left. by rewrite <-Hn, <-Hn', Erho, Esk.
  - intros u u' (_ & _ & _ & Hc & _ & Hn & _) (_ & _ & _ & Hc' & _ & Hn' & _) E.
    rewrite !HSum_mimcHash in *. apply AssertIsEqual_spec in Hc, Hc', Hn, Hn'.
    rewrite <-Hc, <-Hc' in E. apply mimcHash_inj in E as [E|]; [|by auto].
    injection E as Ep Ese Epk Erho. apply mimcHash_inj in Epk as [Esk|]; [|by auto].
    injection Esk as Esk. left. by rewrite <-Hn, <-Hn', Erho, Esk.
  - intros e e' (Hc & _ & Hn) (Hc' & _ & Hn') Es E.
    rewrite !HSum_mimcHash in *. apply AssertIsEqual_spec in Hc, Hc', Hn, Hn'.
    rewrite <-Hc, <-Hc' in E. apply mimcHash_inj in E as [E|]; [|by auto].
    injection E as Esk. left. by rewrite <-Hn, <-Hn', Esk, Es.
Qed.
End CircuitSpec.

(** The properties on the concrete frontend: notes worth 7 and 5 become 4 and 6, with
    a fee of 2. *)
Module CircuitWitness.
Import FrModel FrontendModel.

Lemma transfer_conserves_witness :
  ∃ c : TransferCircuit (H := FrModel.fr), Define c ∧ fe_val (tc_Fee c) = 2 ∧
  ∃ n0 n1 o0 o1 : Z, ∃ s0 s1 : NoteSecret,
    opens (tc_MerkleRoot c) (at_ (tc_Nullifiers c) 0) s0 ∧ ns_Value s0 = n0 ∧
    opens (tc_MerkleRoot c) (at_ (tc_Nullifiers c) 1) s1 ∧ ns_Value s1 = n1 ∧
    at_ (tc_OutCommits c) 0 = mimcHash [ValueElement o0; at_ (tc_OutOwnerPK c) 0; at_ (tc_OutRho c) 0] ∧
    at_ (tc_OutCommits c) 1 = mimcHash [ValueElement o1; at_ (tc_OutOwnerPK c) 1; at_ (tc_OutRho c) 1] ∧
    0 ≤ o0 < 2 ^ 64 ∧ 0 ≤ o1 < 2 ^ 64 ∧ n0 + n1 = o0 + o1 + fe_val (tc_Fee c).
Proof.
  destruct (honest_satisfies tree (note 7) (note 5)
    (note 4) (note 6) 2 0 1 (proof 0) (proof 1))
    as (c & Hb & Hd).
  1: vm_compute; discriminate.
  1,2: reflexivity.
  1,2: apply proof_ok; vm_compute; reflexivity.
  1: repeat constructor; vm_compute; first [discriminate | reflexivity].
  1: reflexivity.
  exists c. split; [exact Hd|]. apply buildAssignment_fields in Hb as [Hf Hp].
  split; [rewrite Hf; reflexivity|].
  apply (CircuitSpec.transfer_conserves _ Hd). rewrite Hp. repeat constructor; apply proof_path; vm_compute; reflexivity.
Defined.

Lemma transfer_complete_witness :
  ∃ c, buildAssignment input = Ok c ∧ Define c.
Proof.
  unfold input. apply (CircuitSpec.transfer_complete tree (note 7) (note 5)
    (note 4) (note 6) 2 0 1 (proof 0) (proof 1)).
  1: vm_compute; discriminate.
  1,2: reflexivity.
  1,2: apply proof_ok; vm_compute; reflexivity.
  1: repeat constructor; vm_compute; first [discriminate | reflexivity].
  1: reflexivity.
Defined.

Lemma nullifier_unique_witness :
  let sk := of_Z 3 in
  let leaf := mimcHash [sk] in
  let e := {| ec_MerkleRoot := mimcHash [leaf]; ec_Nullifier := mimcHash [sk; of_Z 9];
              ec_ProposalScope := of_Z 9; ec_VoterSK := sk; ec_LeafIndex := SetUint64 0;
              ec_Path := [leaf] |} in
  DefineEligibility e ∧ (ec_Nullifier e = ec_Nullifier e ∨ collides [ec_VoterSK e] [ec_VoterSK e]).
Proof.
  intros sk leaf e.
  assert (He : DefineEligibility e).
  { split; [reflexivity|]. split; [|reflexivity]. exists 0%nat. repeat split. }
  split; [exact He|].
  exact (proj2 (proj2 CircuitSpec.nullifier_unique) e e He He eq_refl eq_refl).
Defined.
End CircuitWitness.
