(* ===== verification/Groth.v ===== *)
(** pkg/zk/bridge.go and the verifier halves of prove.go and its siblings: what a node
    checks when it accepts a proof. Groth16 itself (gnark's backend) is a parameter; a
    verifying key is [sound] for a circuit when the proofs it accepts come with a
    satisfying assignment, Groth16's documented soundness. *)
From S2P Require Import Prelude Words Decimal Hashing Types Field ZkTree Circuit.

(** gnark's groth16 backend: proof decoding and verification of a public witness, the
    public variables in the order of the circuit's fields. *)
Class Groth16 `{Fr} := {
  GProof : Type; VerifyingKey : Type;
  proof_ReadFrom : bytes → option GProof;
  groth16_Verify : VerifyingKey → GProof → list FieldElement → bool }.

Section verifiers.
Context `{Fr, !Groth16}.

Record UnstakePublic := {
  up_MerkleRoot : FieldElement; up_Nullifier : FieldElement; up_Principal : Z;
  up_StartEpoch : Z; up_FinalAmount : Z; up_OutCommit : FieldElement }.
Record MintPublic := { mp_Amount : Z; mp_OutCommit : FieldElement }.
Record StakePublic := { sp_Principal : Z; sp_StartEpoch : Z; sp_PositionCommit : FieldElement }.
Record EligibilityPublic := {
  ep_MerkleRoot : FieldElement; ep_Nullifier : FieldElement; ep_ProposalScope : FieldElement }.

Definition ProofFromBytes (data : bytes) : result GProof :=
  match proof_ReadFrom data with Some p => Ok p | None => Err "zk: deserialize proof" end.

Definition PublicWitnessFromPublic (pub : TransferPublic) : result (list FieldElement) :=
  if negb (bool_decide (length (tp_Nullifiers pub) = NumInputs)) then Err "zk: expected nullifiers"
  else if negb (bool_decide (length (tp_OutCommits pub) = NumOutputs))
  then Err "zk: expected output commitments"
  else Ok (tp_MerkleRoot pub :: tp_Nullifiers pub ++ tp_OutCommits pub ++ [ValueElement (tp_Fee pub)]).

Definition UnstakePublicWitnessFromPublic (pub : UnstakePublic) : list FieldElement :=
  [up_MerkleRoot pub; up_Nullifier pub; ValueElement (up_Principal pub);
   ValueElement (up_StartEpoch pub); ValueElement (up_FinalAmount pub); up_OutCommit pub].
Definition MintPublicWitnessFromPublic (pub : MintPublic) : list FieldElement :=
  [ValueElement (mp_Amount pub); mp_OutCommit pub].
Definition StakePublicWitnessFromPublic (pub : StakePublic) : list FieldElement :=
  [ValueElement (sp_Principal pub); ValueElement (sp_StartEpoch pub); sp_PositionCommit pub].
Definition EligibilityPublicWitnessFromPublic (pub : EligibilityPublic) : list FieldElement :=
  [ep_MerkleRoot pub; ep_Nullifier pub; ep_ProposalScope pub].

(** [System.Verify] and its siblings: the key of the system's circuit. *)
Definition Verify (vk : VerifyingKey) (proof : GProof) (publicWitness : list FieldElement)
    : result unit :=
  if groth16_Verify vk proof publicWitness then Ok tt else Err "zk: verify".

Definition VerifyPublicProofBytes (vk : VerifyingKey) (proofBytes : bytes) (pub : TransferPublic)
    : result unit :=
  proof ← ProofFromBytes proofBytes;
  pubWitness ← PublicWitnessFromPublic pub;
  Verify vk proof pubWitness.
Definition VerifyUnstakeProofBytes (vk : VerifyingKey) (proofBytes : bytes) (pub : UnstakePublic)
    : result unit :=
  proof ← ProofFromBytes proofBytes; Verify vk proof (UnstakePublicWitnessFromPublic pub).
Definition VerifyMintProofBytes (vk : VerifyingKey) (proofBytes : bytes) (pub : MintPublic)
    : result unit :=
  proof ← ProofFromBytes proofBytes; Verify vk proof (MintPublicWitnessFromPublic pub).
Definition VerifyStakeProofBytes (vk : VerifyingKey) (proofBytes : bytes) (pub : StakePublic)
    : result unit :=
  proof ← ProofFromBytes proofBytes; Verify vk proof (StakePublicWitnessFromPublic pub).
Definition VerifyEligibilityProofBytes (vk : VerifyingKey) (proofBytes : bytes)
    (pub : EligibilityPublic) : result unit :=
  proof ← ProofFromBytes proofBytes; Verify vk proof (EligibilityPublicWitnessFromPublic pub).
End verifiers.

(** * Soundness of a verifying key *)

Section soundness.
Context `{Fr, !Frontend, !Groth16}.

(** The public part of an assignment, in the order of the circuit's fields. *)
Definition transfer_public (c : TransferCircuit) : list FieldElement :=
  tc_MerkleRoot c :: tc_Nullifiers c ++ tc_OutCommits c ++ [tc_Fee c].
(** The array sizes the circuit's type fixes. *)
Definition transfer_shape (c : TransferCircuit) : Prop :=
  length (tc_Nullifiers c) = NumInputs ∧ length (tc_OutCommits c) = NumOutputs ∧
  Forall (λ i, nth i (tc_InPath c) [] ≠ []) (seq 0 NumInputs).
Definition unstake_public (c : UnstakeCircuit) : list FieldElement :=
  [uc_MerkleRoot c; uc_Nullifier c; uc_Principal c; uc_StartEpoch c; uc_FinalAmount c; uc_OutCommit c].

Definition sound_transfer (vk : VerifyingKey) : Prop :=
  ∀ p w, groth16_Verify vk p w = true →
    ∃ c, Define c ∧ transfer_shape c ∧ transfer_public c = w.
Definition sound_unstake (vk : VerifyingKey) : Prop :=
  ∀ p w, groth16_Verify vk p w = true →
    ∃ c, DefineUnstake c ∧ uc_Path c ≠ [] ∧ unstake_public c = w.
End soundness.

Section groth_lemmas.
Context `{FR : Fr, MM : MiMC, MF : !MimcField, FE : !Frontend, GR : !Groth16,
          FLaws : !FrLaws, L : !FrontendLaws}.

(** What a verified transfer proof establishes about its public inputs. *)
Record balanced (root n0 n1 c0 c1 : FieldElement) (fee : Z) : Prop := {
  bl_notes : ∃ s0 s1 : NoteSecret, ∃ o0 o1 : Z, ∃ pk0 pk1 rho0 rho1 : FieldElement,
    opens root n0 s0 ∧ opens root n1 s1 ∧
    c0 = mimcHash [ValueElement o0; pk0; rho0] ∧ c1 = mimcHash [ValueElement o1; pk1; rho1] ∧
    0 ≤ o0 < 2 ^ 64 ∧ 0 ≤ o1 < 2 ^ 64 ∧ ns_Value s0 + ns_Value s1 = o0 + o1 + fee }.

(** Two spent notes that sit under different commitments of the tree, unless their own
    openings, or the keys in them, are a collision of MiMC. *)
Definition two_notes (s0 s1 : NoteSecret) : Prop :=
  NoteSecret_Commitment s0 ≠ NoteSecret_Commitment s1 ∨
  collides [ValueElement (ns_Value s0); NoteSecret_OwnerPK s0; ns_Rho s0]
           [ValueElement (ns_Value s1); NoteSecret_OwnerPK s1; ns_Rho s1] ∨
  collides [ns_OwnerSK s0] [ns_OwnerSK s1].

(** Different nullifiers, as field elements, open different notes. *)
Lemma opens_two_notes root n0 n1 s0 s1 :
  opens root n0 s0 → opens root n1 s1 → n0 ≠ n1 → two_notes s0 s1.
Proof.
  intros [_ _ <-] [_ _ <-] Hne. unfold two_notes.
  destruct (decide (NoteSecret_Commitment s0 = NoteSecret_Commitment s1)) as [E|]; [|by left]. right.
  unfold NoteSecret_Commitment in E. apply mimcHash_inj in E as [E|]; [|by left]. injection E as _ Epk Erho.
  unfold NoteSecret_OwnerPK in Epk. apply mimcHash_inj in Epk as [Esk|]; [|by right]. injection Esk as Esk.
  exfalso. apply Hne. unfold NoteSecret_Nullifier. by rewrite Erho, Esk.
Qed.

Lemma verified_balanced vk proof pub :
  sound_transfer vk → 0 ≤ tp_Fee pub < 2 ^ 64 →
  VerifyPublicProofBytes vk proof pub = Ok tt →
  ∃ n0 n1 c0 c1, tp_Nullifiers pub = [n0; n1] ∧ tp_OutCommits pub = [c0; c1] ∧
    balanced (tp_MerkleRoot pub) n0 n1 c0 c1 (tp_Fee pub).
Proof.
  intros Hs Hf E. unfold VerifyPublicProofBytes in E. apply bind_Ok in E as (p & _ & E).
  apply bind_Ok in E as (w & Hw & E). unfold Verify in E. case_match eqn:Hv; [|done].
  unfold PublicWitnessFromPublic in Hw.
  case_bool_decide as H1; [|done]. case_bool_decide as H2; [|done]. injection Hw as <-.
  apply Hs in Hv as (c & Hd & (S1 & S2 & S3) & Ew). unfold transfer_public in Ew.
  destruct (transfer_openings c Hd S3) as (n0 & n1 & o0 & o1 & s0 & s1 & A0 & B0 & A1 & B1 & C0 & C1 & R0 & R1 & Sum).
  unfold NumInputs, NumOutputs in *.
  destruct (tp_Nullifiers pub) as [|x0 [|x1 [|]]], (tp_OutCommits pub) as [|y0 [|y1 [|]]],
    (tc_Nullifiers c) as [|u0 [|u1 [|]]], (tc_OutCommits c) as [|v0 [|v1 [|]]]; try discriminate.
  cbn in Ew, A0, A1, C0, C1. injection Ew as Er E0 E1 E2 E3 Efee.
  exists x0, x1, y0, y1. split; [done|]. split; [done|]. split.
  exists s0, s1, o0, o1, (at_ (tc_OutOwnerPK c) 0), (at_ (tc_OutOwnerPK c) 1),
    (at_ (tc_OutRho c) 0), (at_ (tc_OutRho c) 1).
  rewrite <-Er, <-E0, <-E1, <-E2, <-E3.
  rewrite Efee in Sum. unfold ValueElement in Sum. rewrite SetUint64_val in Sum by done.
  split_and!; try done; lia.
Qed.
End groth_lemmas.

(** * A concrete backend *)

(** Over the concrete frontend: a proof is accepted when its public inputs are those of
    one of two assignments that satisfy the circuit, an ordinary transfer of notes
    worth 7 and 5, and one that spends the note worth 7 as both of its inputs. The key
    [AnyKey] accepts every proof. *)
Module GrothModel.
Import FrModel FrontendModel.

Definition double_input : TransferInput :=
  {| ti_MerkleRoot := ZkTree.Root tree; ti_Fee := 2; ti_InSecrets := [note 7; note 7];
     ti_InProofs := [proof 0; proof 0]; ti_OutSecrets := [note 4; note 8] |}.

Inductive Key := TransferKey | AnyKey.
Definition public_of (inp : TransferInput) : list elem :=
  match buildAssignment inp with Ok c => transfer_public c | Err _ => [] end.
#[export] Instance groth : Groth16 (H := fr) := {
  GProof := unit; VerifyingKey := Key;
  proof_ReadFrom b := match b with [] => None | _ => Some tt end;
  groth16_Verify vk _ w :=
    match vk with
    | AnyKey => true
    | TransferKey => bool_decide (w = public_of input) || bool_decide (w = public_of double_input)
    end }.

Lemma sample_satisfies inp s0 s1 o0 o1 i0 i1 :
  inp = {| ti_MerkleRoot := ZkTree.Root tree; ti_Fee := 2; ti_InSecrets := [s0; s1];
           ti_InProofs := [proof i0; proof i1]; ti_OutSecrets := [o0; o1] |} →
  is_ok (ZkTree.Prove tree i0) = true → is_ok (ZkTree.Prove tree i1) = true →
  ZkTree.leaves tree !! Z.to_nat i0 = Some (Bytes (NoteSecret_Commitment s0)) →
  ZkTree.leaves tree !! Z.to_nat i1 = Some (Bytes (NoteSecret_Commitment s1)) →
  Forall (λ v, 0 ≤ v < 2 ^ 64) [ns_Value s0; ns_Value s1; ns_Value o0; ns_Value o1; 2] →
  ns_Value s0 + ns_Value s1 = ns_Value o0 + ns_Value o1 + 2 →
  ∃ c, Define c ∧ transfer_shape c ∧ transfer_public c = public_of inp.
Proof.
  intros -> H0 H1 L0 L1 HF Hsum.
  destruct (honest_satisfies tree s0 s1 o0 o1 2 i0 i1 (proof i0) (proof i1)) as (c & Hb & Hd);
    [vm_compute; discriminate|done|done|by apply proof_ok..|done|done|].
  exists c. split; [done|]. unfold public_of. rewrite Hb. split; [|done].
  apply buildAssignment_fields in Hb as E. destruct E as [_ Ep].
  unfold buildAssignment in Hb. cbn [ti_InSecrets ti_InProofs ti_OutSecrets length] in Hb.
  injection Hb as <-. split; [done|]. split; [done|].
  repeat constructor; cbn; by apply proof_path.
Qed.

Lemma sound : sound_transfer TransferKey.
Proof.
  intros p w [E|E]%orb_true_iff; apply bool_decide_eq_true in E; subst w.
  - apply (sample_satisfies input (note 7) (note 5) (note 4) (note 6) 0 1);
      try reflexivity; repeat constructor; vm_compute; discriminate || reflexivity.
  - apply (sample_satisfies double_input (note 7) (note 7) (note 4) (note 8) 0 0);
      try reflexivity; repeat constructor; vm_compute; discriminate || reflexivity.
Qed.
End GrothModel.
