(* ===== verification/NFT.v ===== *)
(** pkg/nft, pkg/container and the signature checks of pkg/crypto: the lifecycle of
    the soulbound validator NFT (attested mint, governed transfer, traits, slashing),
    and the enterprise container's sync window. CRYSTALS-Dilithium (circl's mode3) and
    ed25519 are parameters. *)
From S2P Require Import Prelude Words Decimal Hashing Types.
Import Decimal (lit).

(** * Signatures *)

(** circl's mode3 and crypto/ed25519: verification over fixed-size keys. *)
Class Mode3 := {
  mode3_PublicKeySize : Z; mode3_SignatureSize : Z;
  mode3_Verify : bytes → bytes → bytes → bool }.
Class Ed25519 := {
  ed25519_PublicKeySize : Z; ed25519_SignatureSize : Z;
  ed25519_Verify : bytes → bytes → bytes → bool }.

(** Signing with a packed private key; ed25519's signature is deterministic. *)
Class Mode3Signer := {
  mode3_PrivateKeySize : Z; mode3_SignTo : bytes → bytes → bytes }.
Class Ed25519Signer := {
  ed25519_PrivateKeySize : Z; ed25519_Sign : bytes → bytes → bytes }.

Definition len (b : bytes) : Z := Z.of_nat (length b).

Definition DilithiumVerify `{Mode3} (pk msg sig : bytes) : result bool :=
  if negb (len pk =? mode3_PublicKeySize) then Err "crypto: public key must be bytes"
  else if negb (len sig =? mode3_SignatureSize) then Err "crypto: signature has the wrong length"
  else Ok (mode3_Verify pk msg sig).

Definition ClassicalVerify `{Ed25519} (pk msg sig : bytes) : result bool :=
  if negb (len pk =? ed25519_PublicKeySize) then Err "crypto: classical public key must be bytes"
  else if negb (len sig =? ed25519_SignatureSize) then Err "crypto: classical signature must be bytes"
  else Ok (ed25519_Verify pk msg sig).

Definition DilithiumSign `{Mode3Signer} (sk msg : bytes) : result bytes :=
  if negb (len sk =? mode3_PrivateKeySize) then Err "crypto: private key must be bytes"
  else Ok (mode3_SignTo sk msg).

Definition ClassicalSign `{Ed25519Signer} (sk msg : bytes) : result bytes :=
  if negb (len sk =? ed25519_PrivateKeySize) then Err "crypto: classical private key must be bytes"
  else Ok (ed25519_Sign sk msg).

(** * The NFT lifecycle *)

Module NFT.
Definition ErrAlreadyMinted : string := "nft: wallet already holds a soulbound NFT (one per wallet)".
Definition ErrProofOfHumanityRequired : string :=
  "nft: proof-of-humanity / CAPTCHA challenge not passed".
Definition ErrTransferDisabled : string :=
  "nft: soulbound transfer is disabled until governance unlocks it".
Definition ErrNFTSlashed : string := "nft: NFT is slashed and cannot act as a validator".
Definition ErrAttestationMismatch : string :=
  "nft: proof-of-humanity attestation does not match this mint (owner/nonce mismatch)".
Definition ErrUntrustedAttestor : string :=
  "nft: proof-of-humanity attestation signed by an untrusted attestor".
Definition ErrAttestationExpired : string := "nft: proof-of-humanity attestation has expired".

Definition PoHAttestationTTL : Duration := 15 * Minute.

Record PoHAttestation := {
  at_Owner : Address; at_Nonce : Z; at_IssuedAtMs : Z; at_Attestor : bytes; at_Sig : bytes }.

Record MintParams := {
  mp_Owner : Address; mp_AlreadyHasNFT : bool; mp_Attestation : PoHAttestation;
  mp_TrustedAttestors : list bytes; mp_MintedAt : Z; mp_Now : Time; mp_Nonce : Z }.

Section mint.
Context `{Sha256, Mode3}.

Definition poHAttestationMessage (owner : Address) (nonce issuedAtMs : Z) : Hash :=
  SumHash [owner; le64 nonce; le64 (u64 issuedAtMs)].

Definition verify (att : PoHAttestation) (owner : Address) (nonce : Z) (now : Time)
    (trustedAttestors : list bytes) : result unit :=
  if negb (bool_decide (at_Owner att = owner)) || negb (at_Nonce att =? nonce)
  then Err ErrAttestationMismatch
  else if negb (existsb (λ a, bool_decide (a = at_Attestor att)) trustedAttestors)
  then Err ErrUntrustedAttestor
  else
    let msg := poHAttestationMessage (at_Owner att) (at_Nonce att) (at_IssuedAtMs att) in
    match DilithiumVerify (at_Attestor att) msg (at_Sig att) with
    | Err _ => Err ErrProofOfHumanityRequired
    | Ok ok =>
        if negb ok then Err ErrProofOfHumanityRequired
        else
          let age := time_sub now (time_of_milli (at_IssuedAtMs att)) in
          if (age <? 0) || (PoHAttestationTTL <? age) then Err ErrAttestationExpired
          else Ok tt
    end.

(** The attestor's side: what its signature binds is what [verify] checks. *)
Definition SignPoHAttestation `{Mode3Signer} (attestorPK attestorSK : bytes) (owner : Address)
    (nonce issuedAtMs : Z) : result PoHAttestation :=
  let msg := poHAttestationMessage owner nonce issuedAtMs in
  match DilithiumSign attestorSK msg with
  | Err _ => Err "nft: sign proof-of-humanity attestation"
  | Ok sig => Ok {| at_Owner := owner; at_Nonce := nonce; at_IssuedAtMs := issuedAtMs;
                    at_Attestor := attestorPK; at_Sig := sig |}
  end.

Definition mint_id (owner : Address) (nonce : Z) : NFTID := SumHash [owner; le64 nonce].

Definition Mint (p : MintParams) : result ValidatorNFT :=
  if mp_AlreadyHasNFT p then Err ErrAlreadyMinted
  else
    _ ← verify (mp_Attestation p) (mp_Owner p) (mp_Nonce p) (mp_Now p) (mp_TrustedAttestors p);
    Ok {| nft_ID := mint_id (mp_Owner p) (mp_Nonce p); nft_Owner := mp_Owner p;
          nft_MintedAt := mp_MintedAt p; nft_Traits := ∅; nft_TP := 0; nft_Slashed := false |}.
End mint.

Definition CanTransfer (nft : ValidatorNFT) : bool :=
  bool_decide (nft_Traits nft !! "transferable" = Some "true").

Definition UnlockTransfer (nft : ValidatorNFT) : ValidatorNFT :=
  nft <| nft_Traits ::= <["transferable" := "true"]> |>.

Record TransferParams := {
  tfp_NFT : ValidatorNFT; tfp_NewOwner : Address; tfp_NewOwnerAlreadyHasNFT : bool }.

Definition TransferOwnership (p : TransferParams) : result ValidatorNFT :=
  if nft_Slashed (tfp_NFT p) then Err ErrNFTSlashed
  else if negb (CanTransfer (tfp_NFT p)) then Err ErrTransferDisabled
  else if tfp_NewOwnerAlreadyHasNFT p then Err ErrAlreadyMinted
  else
    let updated := tfp_NFT p in
    Ok (updated <| nft_Owner := tfp_NewOwner p |>).

Definition TPPerSuccessfulStage : Z := 1.
Definition TPPerUptimeSlice : Z := 1.
Definition TPGreenEnergyBonus : Z := 1.

Definition AwardStageSuccess (nft : ValidatorNFT) : ValidatorNFT :=
  nft <| nft_TP ::= λ tp, u64 (tp + TPPerSuccessfulStage) |>.

Definition AwardUptimeSlice (nft : ValidatorNFT) (greenEnergyVerified : bool) : ValidatorNFT :=
  let nft := nft <| nft_TP ::= λ tp, u64 (tp + TPPerUptimeSlice) |> in
  if greenEnergyVerified then nft <| nft_TP ::= λ tp, u64 (tp + TPGreenEnergyBonus) |> else nft.

Definition ApplyTraitUpdate `{BigRat} (nft : ValidatorNFT) (key op : string) (value : Decimal)
    : result ValidatorNFT :=
  if bool_decide (op = "=") then Ok (nft <| nft_Traits ::= <[key := Decimal.RatString value]> |>)
  else if bool_decide (op = "+=") || bool_decide (op = "-=") then
    cur ← match nft_Traits nft !! key with
          | None => Ok Decimal.Zero
          | Some s => match FromString s with
                      | Ok parsed => Ok parsed
                      | Err _ => Err "nft: existing trait is not numeric"
                      end
          end;
    let cur := if bool_decide (op = "+=") then Decimal.Add cur value else Decimal.Sub cur value in
    Ok (nft <| nft_Traits ::= <[key := Decimal.RatString cur]> |>)
  else Err "nft: unknown trait op".

Inductive SlashAction := SlashFreeze | SlashBurn.
#[export] Instance SlashAction_eq_dec : EqDecision SlashAction.
Proof. solve_decision. Defined.

Definition ApplySlash (nft : ValidatorNFT) (action : SlashAction) : ValidatorNFT :=
  let nft := nft <| nft_Slashed := true |> in
  if bool_decide (action = SlashBurn) then nft <| nft_TP := 0 |> else nft.
End NFT.

(** * Enterprise containers *)

Module Container.
Record Config := {
  cf_ID : string; Departments : list string; ValidatorsBase : Z; ValidatorsPerDept : Z;
  HybridSplitPercent : Decimal; SyncTPSThreshold : Z; SyncInterval : Duration }.

Definition DefaultConfig (id : string) (departments : list string) : Config :=
  {| cf_ID := id; Departments := departments; ValidatorsBase := 20; ValidatorsPerDept := 2;
     HybridSplitPercent := lit 50 100; SyncTPSThreshold := 1000; SyncInterval := 5 * Minute |}.

Definition RequiredValidators (cfg : Config) : Z :=
  ValidatorsBase cfg + ValidatorsPerDept cfg * Z.of_nat (length (Departments cfg)).

Definition HybridSplitCounts (cfg : Config) : Z * Z :=
  let total := RequiredValidators cfg in
  let public := Decimal.Uint64 (Decimal.Mul (Decimal.FromInt total) (HybridSplitPercent cfg)) in
  (total - public, public).

Record Subspace := {
  sb_cfg : Config; localTxSince : Z; lastSyncAt : Time; internalMode : bool;
  whitelist : gset string }.

Definition NewSubspace (cfg : Config) (now : Time) : Subspace :=
  {| sb_cfg := cfg; localTxSince := 0; lastSyncAt := now; internalMode := false; whitelist := ∅ |}.

Definition RecordLocalTx (s : Subspace) : Subspace := s <| localTxSince ::= λ n, n + 1 |>.
Definition ShouldSync (s : Subspace) (now : Time) (currentTPS : Z) : bool :=
  (SyncTPSThreshold (sb_cfg s) <? currentTPS) ||
  (SyncInterval (sb_cfg s) <=? time_sub now (lastSyncAt s)).
Definition MarkSynced (s : Subspace) (now : Time) : Subspace :=
  s <| localTxSince := 0 |> <| lastSyncAt := now |>.
Definition EnterInternalMode (s : Subspace) : Subspace := s <| internalMode := true |>.
Definition ExitInternalMode (s : Subspace) : Subspace := s <| internalMode := false |>.
Definition Whitelist (s : Subspace) (name : string) : Subspace :=
  s <| whitelist ::= λ w, {[name]} ∪ w |>.
Definition IsWhitelisted (s : Subspace) (name : string) : bool := bool_decide (name ∈ whitelist s).

Definition ShadowVerify (containerOutput duplicateOutput : Hash) : bool :=
  bool_decide (containerOutput = duplicateOutput).
End Container.

(** * Lemmas *)

Section nft_lemmas.
Import NFT.
Context `{Sha256, Mode3}.

Lemma existsb_elem `{EqDecision A} (x : A) l : existsb (λ a, bool_decide (a = x)) l = true ↔ x ∈ l.
Proof.
  rewrite existsb_exists. split.
  - intros (y & Hy & ->%bool_decide_eq_true). by apply list_elem_of_In.
  - intros. exists x. split; [by apply list_elem_of_In|by apply bool_decide_eq_true].
Qed.

(** The valid attestation of an owner and nonce. *)
Record attested (att : PoHAttestation) (owner : Address) (nonce : Z) (now : Time)
    (trusted : list bytes) : Prop := {
  ad_owner : at_Owner att = owner; ad_nonce : at_Nonce att = nonce;
  ad_trusted : at_Attestor att ∈ trusted;
  ad_sig : DilithiumVerify (at_Attestor att)
             (poHAttestationMessage owner nonce (at_IssuedAtMs att)) (at_Sig att) = Ok true;
  ad_fresh : 0 ≤ now - time_of_milli (at_IssuedAtMs att) ≤ PoHAttestationTTL }.

Lemma verify_attested att owner nonce now trusted :
  verify att owner nonce now trusted = Ok tt ↔ attested att owner nonce now trusted.
Proof.
  unfold verify. split.
  - destruct (bool_decide_reflect (at_Owner att = owner)) as [Ho|]; [|done].
    destruct (Z.eqb_spec (at_Nonce att) nonce) as [Hn|]; [|done]. cbn [negb orb].
    destruct (existsb _ _) eqn:Ht; [|done]. apply existsb_elem in Ht. cbn [negb].
    destruct (DilithiumVerify _ _ _) as [[]|] eqn:Hv; [|done..]. cbn [negb].
    case_match eqn:Ha; [done|]. intros _. unfold PoHAttestationTTL in *. bools.
    split; [done..|by rewrite <-Ho, <-Hn|].
    unfold time_sub, PoHAttestationTTL, Minute, Second, MinInt64, MaxInt64 in *. lia.
  - intros [-> -> Ht Hv Hf]. rewrite bool_decide_true, Z.eqb_refl by done. cbn [negb orb].
    apply existsb_elem in Ht. rewrite Ht, Hv. cbn [negb].
    replace (_ || _) with false; [done|]. symmetry. bools.
    unfold time_sub, PoHAttestationTTL, Minute, Second, MinInt64, MaxInt64 in *. lia.
Qed.
End nft_lemmas.

(** * Concrete primitives for the witnesses *)

Module CryptoModel.
(** A stand-in hash, the identity on bytes, and a signature scheme that accepts the
    signature made of the message's length. *)
Definition sha : Sha256 := λ b, b.
Definition mode3 : Mode3 :=
  {| mode3_PublicKeySize := 1; mode3_SignatureSize := 1;
     mode3_Verify pk msg sig := bool_decide (sig = [len msg mod 256]) |}.
Definition ed25519 : Ed25519 :=
  {| ed25519_PublicKeySize := 1; ed25519_SignatureSize := 1;
     ed25519_Verify pk msg sig := bool_decide (sig = [len msg mod 256]) |}.
Definition alice : Address := replicate 32 1.
Definition bob : Address := replicate 32 2.
(** A mint by [alice], attested by the key [[7]] one minute before. *)
Definition mint (owner : Address) (nonce : Z) : NFT.MintParams :=
  {| NFT.mp_Owner := owner; NFT.mp_AlreadyHasNFT := false;
     NFT.mp_Attestation := {| NFT.at_Owner := owner; NFT.at_Nonce := nonce; NFT.at_IssuedAtMs := 0;
                              NFT.at_Attestor := [7]; NFT.at_Sig := [72] |};
     NFT.mp_TrustedAttestors := [[6]; [7]]; NFT.mp_MintedAt := 3; NFT.mp_Now := Minute;
     NFT.mp_Nonce := nonce |}.
End CryptoModel.

(** * Properties *)

Module NFTSpec.
Import NFT.

(** An NFT is minted exactly for a wallet that holds none and presents a fresh
    attestation, signed by a trusted attestor over this owner and this nonce; the
    minted record belongs to that owner with no Trust Points and no trait. No
    attestation serves two mints: if it is accepted for two (owner, nonce) pairs
    they are the same pair. *)
Theorem mint_attested `{Sha256, Mode3} p :
  (∀ nft, Mint p = Ok nft ↔
     mp_AlreadyHasNFT p = false ∧
     attested (mp_Attestation p) (mp_Owner p) (mp_Nonce p) (mp_Now p) (mp_TrustedAttestors p) ∧
     nft = {| nft_ID := mint_id (mp_Owner p) (mp_Nonce p); nft_Owner := mp_Owner p;
              nft_MintedAt := mp_MintedAt p; nft_Traits := ∅; nft_TP := 0; nft_Slashed := false |}) ∧
  (∀ q, mp_Attestation q = mp_Attestation p → is_ok (Mint p) = true → is_ok (Mint q) = true →
     mp_Owner q = mp_Owner p ∧ mp_Nonce q = mp_Nonce p).
Proof.
  assert (Hm : ∀ p nft, Mint p = Ok nft ↔
     mp_AlreadyHasNFT p = false ∧
     attested (mp_Attestation p) (mp_Owner p) (mp_Nonce p) (mp_Now p) (mp_TrustedAttestors p) ∧
     nft = {| nft_ID := mint_id (mp_Owner p) (mp_Nonce p); nft_Owner := mp_Owner p;
              nft_MintedAt := mp_MintedAt p; nft_Traits := ∅; nft_TP := 0; nft_Slashed := false |}).
  { clear. intros p nft. unfold Mint. destruct (mp_AlreadyHasNFT p); [naive_solver|].
    rewrite bind_Ok. setoid_rewrite <-verify_attested. split.
    - intros ([] & Hv & [= <-]). done.
    - intros (_ & Hv & ->). by exists tt. }
  split; [exact (Hm p)|]. intros q Eq.
  destruct (Mint p) as [n|] eqn:Ep; [|done]. destruct (Mint q) as [n'|] eqn:Eq'; [|done].
  apply Hm in Ep as (_ & [Ho Hn _ _ _] & _), Eq' as (_ & [Ho' Hn' _ _ _] & _).
  rewrite Eq in *. split; congruence.
Qed.

(** Soulbinding is lifted by governance only. A freshly minted NFT cannot
    change hands; once unlocked it moves to any wallet without an NFT, and only its
    owner field changes; a slashed one moves no more, whatever its traits, and
    keeps its Trust Points exactly when it was frozen rather than burnt. *)
Theorem soulbound_lifecycle `{Sha256, Mode3} p nft :
  Mint p = Ok nft →
  (∀ o b, TransferOwnership {| tfp_NFT := nft; tfp_NewOwner := o; tfp_NewOwnerAlreadyHasNFT := b |}
          = Err ErrTransferDisabled) ∧
  (∀ o b, TransferOwnership
            {| tfp_NFT := UnlockTransfer nft; tfp_NewOwner := o; tfp_NewOwnerAlreadyHasNFT := b |}
          = if b then Err ErrAlreadyMinted
            else Ok {| nft_ID := nft_ID nft; nft_Owner := o; nft_MintedAt := nft_MintedAt nft;
                       nft_Traits := {["transferable" := "true"]}; nft_TP := nft_TP nft;
                       nft_Slashed := false |}) ∧
  (∀ rec a o b, TransferOwnership
            {| tfp_NFT := ApplySlash rec a; tfp_NewOwner := o; tfp_NewOwnerAlreadyHasNFT := b |}
          = Err ErrNFTSlashed ∧
     nft_TP (ApplySlash rec a) = if bool_decide (a = SlashFreeze) then nft_TP rec else 0).
Proof.
  unfold Mint. intros E. destruct (mp_AlreadyHasNFT p); [done|]. ok_inv.
  split; [|split].
  - intros o b. unfold TransferOwnership, CanTransfer. cbn. by rewrite lookup_empty.
  - intros o b. unfold TransferOwnership, CanTransfer, UnlockTransfer. cbn.
    rewrite lookup_insert, decide_True by done. cbn. by destruct b.
  - intros rec a o b. unfold TransferOwnership, ApplySlash. by destruct a.
Qed.

Lemma soulbound_lifecycle_witness :
  let S := CryptoModel.sha in let M := CryptoModel.mode3 in
  is_ok (Mint (CryptoModel.mint CryptoModel.alice 5)) = true ∧
  ∀ nft, Mint (CryptoModel.mint CryptoModel.alice 5) = Ok nft →
    TransferOwnership {| tfp_NFT := nft; tfp_NewOwner := CryptoModel.bob;
                         tfp_NewOwnerAlreadyHasNFT := false |} = Err ErrTransferDisabled.
Proof.
  intros S M. split; [vm_compute; reflexivity|]. intros nft Hm.
  exact (proj1 (soulbound_lifecycle _ nft Hm) _ _).
Defined.
End NFTSpec.
