(* ===== verification/Silent.v ===== *)
(** pkg/silent: the per-wallet transaction-rate monitor behind the spike hold: the
    trailing one-minute window, the baseline locked in after ten minutes, and the
    seven-day hold. The Poisson pad generator only draws random waits and is not
    modelled. *)
From S2P Require Import Prelude Words Decimal Hashing Types.
Import Decimal (lit).

Module Silent.
Definition SpikeThreshold : Decimal := lit 20 100.
Definition HoldDuration : Duration := 7 * 24 * Hour.
Definition VaultFeeRate : Decimal := lit 10 100.
Definition windowSize : Duration := Minute.
Definition baselineEstablishPeriod : Duration := 10 * Minute.

Record walletStats := {
  baselinePerMinute : Decimal; recentTimestamps : list Time; whitelisted : bool;
  firstSeen : Time; totalCount : Z; holdUntil : Time }.
Definition zero_stats : walletStats :=
  {| baselinePerMinute := Decimal.Zero; recentTimestamps := []; whitelisted := false;
     firstSeen := zero_time; totalCount := 0; holdUntil := zero_time |}.

(** [RateMonitor]: the map of wallets. *)
Abbreviation RateMonitor := (gmap Address walletStats).
Definition NewRateMonitor : RateMonitor := ∅.

(** [stats] creates the entry it does not find. *)
Definition stats (m : RateMonitor) (w : Address) : walletStats := default zero_stats (m !! w).
Definition touch (m : RateMonitor) (w : Address) : RateMonitor := <[w := stats m w]> m.

Definition SetBaseline (m : RateMonitor) (w : Address) (perMinute : Decimal) : RateMonitor :=
  let s := stats m w in <[w := s <| baselinePerMinute := perMinute |>]> m.
Definition Whitelist (m : RateMonitor) (w : Address) : RateMonitor :=
  let s := stats m w in <[w := s <| whitelisted := true |>]> m.

Fixpoint pruneOlderThan (ts : list Time) (cutoff : Time) : list Time :=
  match ts with
  | t :: ts' => if t <? cutoff then pruneOlderThan ts' cutoff else ts
  | [] => []
  end.

(** The body of [RecordTx] on one wallet's statistics. *)
Definition record_stats (s : walletStats) (now : Time) : walletStats :=
  let s := if time_is_zero (firstSeen s) then s <| firstSeen := now |> else s in
  let s := s <| totalCount ::= λ n, i64 (n + 1) |>
             <| recentTimestamps ::= λ ts, pruneOlderThan (ts ++ [now]) (time_add now (- windowSize)) |> in
  if Decimal.Sign (baselinePerMinute s) <=? 0 then
    let elapsed := time_sub now (firstSeen s) in
    if baselineEstablishPeriod <=? elapsed then
      let minutes := Decimal.FromInt (Z.quot elapsed Minute) in
      if 0 <? Decimal.Sign minutes then
        match Decimal.Div (Decimal.FromInt (totalCount s)) minutes with
        | Ok b => s <| baselinePerMinute := b |>
        | Err _ => s
        end
      else s
    else s
  else s.
Definition RecordTx (m : RateMonitor) (w : Address) (now : Time) : RateMonitor :=
  <[w := record_stats (stats m w) now]> m.

Definition IsHeld (m : RateMonitor) (w : Address) (now : Time) : bool * RateMonitor :=
  (now <? holdUntil (stats m w), touch m w).
Definition PlaceHold (m : RateMonitor) (w : Address) (until : Time) : RateMonitor :=
  let s := stats m w in <[w := s <| holdUntil := until |>]> m.

Definition CurrentRatePerMinute (m : RateMonitor) (w : Address) (now : Time)
    : Decimal * RateMonitor :=
  let s := stats m w in
  let s := s <| recentTimestamps ::= λ ts, pruneOlderThan ts (time_add now (- windowSize)) |> in
  (Decimal.FromInt (Z.of_nat (length (recentTimestamps s))), <[w := s]> m).

Definition IsSpiking (m : RateMonitor) (w : Address) (now : Time) : bool * RateMonitor :=
  let s := stats m w in
  let m := touch m w in
  if whitelisted s || (Decimal.Sign (baselinePerMinute s) <=? 0) then (false, m)
  else
    let '(current, m) := CurrentRatePerMinute m w now in
    let limit := Decimal.Mul (baselinePerMinute s) (Decimal.Add (Decimal.FromInt 1) SpikeThreshold) in
    (0 <? Decimal.Cmp current limit, m).

Record SpikeAction := { HoldUntil : Time; VaultFee : Decimal }.
Definition EvaluateSpike (m : RateMonitor) (w : Address) (now : Time)
    : option SpikeAction * RateMonitor :=
  let '(spiking, m) := IsSpiking m w now in
  (if spiking then Some {| HoldUntil := time_add now HoldDuration; VaultFee := VaultFeeRate |}
   else None, m).

(** Every call that changes the monitor. *)
Inductive op :=
| ORecord (w : Address) (now : Time)
| OWhitelist (w : Address)
| OSetBaseline (w : Address) (perMinute : Decimal)
| OPlaceHold (w : Address) (until : Time)
| OIsHeld (w : Address) (now : Time)
| ORate (w : Address) (now : Time)
| OEvaluate (w : Address) (now : Time).
#[export] Instance op_eq_dec : EqDecision op.
Proof. solve_decision. Defined.
Definition apply_op (m : RateMonitor) (o : op) : RateMonitor :=
  match o with
  | ORecord w now => RecordTx m w now
  | OWhitelist w => Whitelist m w
  | OSetBaseline w b => SetBaseline m w b
  | OPlaceHold w until => PlaceHold m w until
  | OIsHeld w now => (IsHeld m w now).2
  | ORate w now => (CurrentRatePerMinute m w now).2
  | OEvaluate w now => (EvaluateSpike m w now).2
  end.

(** The transactions of wallet [w] among the operations, and a clock that never
    runs backwards from [last]. *)
Definition recorded (w : Address) (ops : list op) : list Time :=
  omap (λ o, match o with ORecord w' t => if decide (w' = w) then Some t else None | _ => None end) ops.
Definition op_time (o : op) : option Time :=
  match o with ORecord _ t | OIsHeld _ t | ORate _ t | OEvaluate _ t => Some t | _ => None end.
Fixpoint clocked (last : Time) (ops : list op) : Prop :=
  match ops with
  | [] => True
  | o :: ops => last ≤ default last (op_time o) ∧ clocked (default last (op_time o)) ops
  end.
Fixpoint clock (last : Time) (ops : list op) : Time :=
  match ops with [] => last | o :: ops => clock (default last (op_time o)) ops end.
End Silent.

(** * Lemmas *)

Section silent_lemmas.
Import Silent.
Implicit Types (m : RateMonitor) (w : Address) (t now : Time) (ts : list Time).

Lemma prune_filter ts cutoff :
  Sorted Z.le ts → pruneOlderThan ts cutoff = filter (λ t, cutoff ≤ t) ts.
Proof.
  intros Hs%Sorted_StronglySorted; [|intros ???; lia].
  induction Hs as [|t ts Hs IH Ht]; [done|]. cbn [pruneOlderThan].
  destruct (Z.ltb_spec t cutoff) as [Hlt|Hge].
  - rewrite IH. by rewrite filter_cons_False by lia.
  - symmetry. apply (filter_idem (λ t, cutoff ≤ t)). constructor; [done|].
    eapply Forall_impl; [exact Ht|]. intros u Hu. cbv beta in Hu. lia.
Qed.

Lemma filter_filter_le ts a b :
  a ≤ b → filter (λ t, b ≤ t) (filter (λ t, a ≤ t) ts) = filter (λ t, b ≤ t) ts.
Proof.
  intros Hab. rewrite list_filter_filter. apply list_filter_iff. intros t. lia.
Qed.

Lemma record_stats_recent s now :
  recentTimestamps (record_stats s now) =
  pruneOlderThan (recentTimestamps s ++ [now]) (time_add now (- windowSize)).
Proof. unfold record_stats. by repeat case_match. Qed.

Lemma stats_insert m w w' s : stats (<[w := s]> m) w' = if decide (w = w') then s else stats m w'.
Proof. unfold stats. rewrite lookup_insert. by case_decide. Qed.

Lemma filter_sorted ts cut : Sorted Z.le ts → Sorted Z.le (filter (λ t, cut ≤ t) ts).
Proof.
  intros Hs%Sorted_StronglySorted; [|intros ???; lia]. apply StronglySorted_Sorted.
  induction Hs as [|t ts Hs IH Ht]; [constructor|].
  rewrite filter_cons. case_decide; [|done]. constructor; [done|]. by apply Forall_filter_sub.
Qed.

(** Pruning a filtered history at a later cut filters it there. *)
Lemma prune_window ts cut now :
  Sorted Z.le ts → cut ≤ now - windowSize →
  pruneOlderThan (filter (λ t, cut ≤ t) ts) (time_add now (- windowSize)) =
  filter (λ t, now - windowSize ≤ t) ts.
Proof.
  intros Hs Hc. rewrite prune_filter by by apply filter_sorted.
  unfold time_add. rewrite filter_filter_le by lia. done.
Qed.

Lemma evaluate_recent m w w' now :
  recentTimestamps (stats ((EvaluateSpike m w' now).2) w) =
    if decide (w' = w ∧ negb (whitelisted (stats m w') ||
                              (Decimal.Sign (baselinePerMinute (stats m w')) <=? 0)) = true)
    then pruneOlderThan (recentTimestamps (stats m w)) (time_add now (- windowSize))
    else recentTimestamps (stats m w).
Proof.
  unfold EvaluateSpike, IsSpiking, CurrentRatePerMinute, touch.
  destruct (whitelisted (stats m w') || _); cbn.
  - rewrite decide_False by naive_solver. rewrite stats_insert. by case_decide; subst.
  - rewrite !stats_insert. destruct (decide (w' = w)) as [->|].
    + rewrite !decide_True by done. done.
    + rewrite !decide_False by naive_solver. done.
Qed.

(** What the monitor keeps of the wallet's recorded history [hist] at time [last]. *)
Record window m w (hist : list Time) (last : Time) : Prop := {
  wd_sorted : Sorted Z.le (hist ++ [last]);
  wd_recent : ∃ cut, cut ≤ last - windowSize ∧
    recentTimestamps (stats m w) = filter (λ t, cut ≤ t) hist }.

Lemma sorted_later (ts : list Time) (last t : Time) : Sorted Z.le (ts ++ [last]) → last ≤ t → Sorted Z.le (ts ++ [t]).
Proof.
  induction ts as [|x ts IH]; cbn; [repeat constructor|].
  intros Hs Hl. inversion Hs as [|? ? Hs' Hd]; subst. constructor; [by apply IH|].
  destruct ts; cbn in *; inversion Hd; subst; constructor; lia.
Qed.

Lemma sorted_again (ts : list Time) (t : Time) : Sorted Z.le (ts ++ [t]) → Sorted Z.le (ts ++ [t; t]).
Proof.
  induction ts as [|x ts IH]; cbn; [repeat constructor; lia|].
  intros Hs. inversion Hs as [|? ? Hs' Hd]; subst. constructor; [by apply IH|].
  destruct ts; cbn in *; inversion Hd; subst; constructor; lia.
Qed.

Lemma sorted_init (ts : list Time) (t : Time) : Sorted Z.le (ts ++ [t]) → Sorted Z.le ts.
Proof.
  induction ts as [|x ts IH]; cbn; [constructor|].
  intros Hs. inversion Hs as [|? ? Hs' Hd]; subst. constructor; [by apply IH|].
  destruct ts; cbn in *; inversion Hd; subst; by constructor.
Qed.

(** A call that leaves the window alone, and one that prunes it now. *)
Lemma window_keep m m' w hist last t :
  window m w hist last → last ≤ t →
  recentTimestamps (stats m' w) = recentTimestamps (stats m w) → window m' w hist t.
Proof.
  intros [Hs (cut & Hc & Hr)] Ht E. split; [by eapply sorted_later|].
  exists cut. split; [lia|]. by rewrite E.
Qed.

Lemma window_prune m m' w hist last t :
  window m w hist last → last ≤ t →
  recentTimestamps (stats m' w) =
    pruneOlderThan (recentTimestamps (stats m w)) (time_add t (- windowSize)) →
  window m' w hist t.
Proof.
  intros [Hs (cut & Hc & Hr)] Ht E. pose proof (sorted_later _ _ _ Hs Ht) as Hs'.
  split; [done|]. exists (t - windowSize). split; [lia|].
  rewrite E, Hr. apply prune_window; [by eapply sorted_init|lia].
Qed.

Lemma window_record m w hist last t :
  window m w hist last → last ≤ t → window (RecordTx m w t) w (hist ++ [t]) t.
Proof.
  intros [Hs (cut & Hc & Hr)] Ht. pose proof (sorted_later _ _ _ Hs Ht) as Hs'.
  split; [rewrite <-app_assoc; by apply sorted_again|]. exists (t - windowSize). split; [lia|].
  unfold RecordTx. rewrite stats_insert, decide_True, record_stats_recent, Hr by done.
  rewrite <-(prune_window (hist ++ [t]) cut t) by (done || lia). rewrite filter_app.
  by rewrite (filter_cons_True _ t) by (unfold windowSize, Minute, Second in *; lia).
Qed.

Lemma window_step m w hist last o :
  window m w hist last → last ≤ default last (op_time o) →
  window (apply_op m o) w (hist ++ recorded w [o]) (default last (op_time o)).
Proof.
  intros Hw Ht.
  destruct o as [w' t|w'|w' b|w' u|w' t|w' t|w' t]; cbn [apply_op op_time default] in *.
  - unfold recorded. cbn. case_decide as Hd; cbn; [subst; by eapply window_record|].
    rewrite app_nil_r. eapply window_keep; [done..|].
    unfold RecordTx. by rewrite stats_insert, decide_False.
  - rewrite app_nil_r. eapply window_keep; [done..|]. unfold Whitelist.
    rewrite stats_insert. by case_decide; subst.
  - rewrite app_nil_r. eapply window_keep; [done..|]. unfold SetBaseline.
    rewrite stats_insert. by case_decide; subst.
  - rewrite app_nil_r. eapply window_keep; [done..|]. unfold PlaceHold.
    rewrite stats_insert. by case_decide; subst.
  - rewrite app_nil_r. eapply window_keep; [done..|]. cbn. unfold touch.
    rewrite stats_insert. by case_decide; subst.
  - rewrite app_nil_r. cbn [CurrentRatePerMinute snd]. destruct (decide (w' = w)) as [->|Hne].
    + eapply window_prune; [done..|]. by rewrite stats_insert, decide_True.
    + eapply window_keep; [done..|]. by rewrite stats_insert, decide_False.
  - rewrite app_nil_r. pose proof (evaluate_recent m w w' t) as E. case_decide.
    + by eapply window_prune.
    + by eapply window_keep.
Qed.

Lemma window_run ops m w hist last :
  window m w hist last → clocked last ops →
  window (foldl apply_op m ops) w (hist ++ recorded w ops) (clock last ops).
Proof.
  revert m hist last. induction ops as [|o ops IH]; intros m hist last Hw Hc.
  - by rewrite app_nil_r.
  - destruct Hc as [Ho Hc]. cbn [foldl clock].
    change (recorded w (o :: ops)) with (recorded w ([o] ++ ops)).
    unfold recorded. rewrite omap_app, (assoc_L (++)). apply IH; [|done].
    by apply window_step.
Qed.
End silent_lemmas.

Section whitelist_lemmas.
Import Silent.

Lemma record_stats_whitelisted s now : whitelisted (record_stats s now) = whitelisted s.
Proof. unfold record_stats. by repeat case_match. Qed.

Lemma evaluate_stats m w w' now :
  whitelisted (stats ((EvaluateSpike m w' now).2) w) = whitelisted (stats m w) ∧
  baselinePerMinute (stats ((EvaluateSpike m w' now).2) w) = baselinePerMinute (stats m w).
Proof.
  unfold EvaluateSpike, IsSpiking, CurrentRatePerMinute, touch.
  destruct (whitelisted (stats m w') || _); cbn; rewrite !stats_insert;
    repeat case_decide; by subst.
Qed.

(** A wallet is whitelisted iff it was, or the operation whitelists it. *)
Lemma whitelisted_step m w o :
  whitelisted (stats (apply_op m o) w) =
  whitelisted (stats m w) || bool_decide (o = OWhitelist w).
Proof.
  destruct o as [w' t|w'|w' b|w' u|w' t|w' t|w' t]; cbn [apply_op];
    try (rewrite bool_decide_false by done; rewrite orb_false_r).
  - unfold RecordTx. rewrite stats_insert. case_decide; [|done]. subst. apply record_stats_whitelisted.
  - unfold Whitelist. rewrite stats_insert. case_decide; [subst|].
    + by rewrite bool_decide_true, orb_true_r.
    + rewrite bool_decide_false by congruence. by rewrite orb_false_r.
  - unfold SetBaseline. rewrite stats_insert. by case_decide; subst.
  - unfold PlaceHold. rewrite stats_insert. by case_decide; subst.
  - cbn. unfold touch. rewrite stats_insert. by case_decide; subst.
  - cbn. rewrite stats_insert. by case_decide; subst.
  - apply evaluate_stats.
Qed.

Lemma whitelisted_run ops m w :
  whitelisted (stats (foldl apply_op m ops) w) = true ↔
  whitelisted (stats m w) = true ∨ OWhitelist w ∈ ops.
Proof.
  revert m. induction ops as [|o ops IH]; intros m; cbn.
  - split; [by left|]. intros [?|Hn]; [done|]. by apply elem_of_nil in Hn.
  - rewrite IH, whitelisted_step, orb_true_iff, bool_decide_eq_true, elem_of_cons. naive_solver.
Qed.
End whitelist_lemmas.

(** * Properties *)

Module SilentSpec.
Import Silent.
Local Open Scope Qc_scope.

(** The number of transactions of [w] among [ops] in the minute before [now]. *)
Definition rate (w : Address) (ops : list op) (now : Time) : Decimal :=
  Decimal.FromInt (Z.of_nat (length (filter (λ t, (now - Minute ≤ t)%Z) (recorded w ops)))).

(** The spike monitor measures what it claims. After any sequence of calls under
    a clock that does not run backwards, the reported rate is the number of the
    wallet's recorded transactions in the last minute, however often the window was
    pruned on the way; a wallet is flagged, for a seven-day hold and a ten percent
    fee, exactly when it was never whitelisted, has a baseline, and exceeds it by
    more than twenty percent. *)
Theorem spike_detection_exact ops last w now :
  clocked last ops → (clock last ops ≤ now)%Z →
  let m := foldl apply_op NewRateMonitor ops in
  (CurrentRatePerMinute m w now).1 = rate w ops now ∧
  (∀ a, (EvaluateSpike m w now).1 = Some a ↔
     OWhitelist w ∉ ops ∧ 0 < baselinePerMinute (stats m w) ∧
     baselinePerMinute (stats m w) * (1 + SpikeThreshold) < rate w ops now ∧
     a = {| HoldUntil := now + HoldDuration; VaultFee := VaultFeeRate |}).
Proof.
  intros Hc Hn m.
  assert (Hw : window m w (recorded w ops) now).
  { assert (H0 : window NewRateMonitor w [] last).
    { split; [by repeat constructor|]. by exists (last - windowSize)%Z. }
    pose proof (window_run ops _ w [] last H0 Hc) as Hr. by eapply window_keep. }
  assert (Hrate : (CurrentRatePerMinute m w now).1 = rate w ops now).
  { destruct Hw as [Hs (cut & Hcut & Hr)]. unfold CurrentRatePerMinute, rate. cbn.
    rewrite Hr, prune_window by (done || by eapply sorted_init). done. }
  split; [exact Hrate|]. intros a.
  pose proof (whitelisted_run ops NewRateMonitor w) as Hwl. fold m in Hwl.
  assert (Hst : stats NewRateMonitor w = zero_stats) by done. rewrite Hst in Hwl. cbn in Hwl.
  unfold EvaluateSpike, IsSpiking.
  assert (Htouch : (CurrentRatePerMinute (touch m w) w now).1 = rate w ops now).
  { rewrite <-Hrate. unfold CurrentRatePerMinute, touch. cbn. by rewrite stats_insert, decide_True. }
  destruct (CurrentRatePerMinute (touch m w) w now) as [r m'] eqn:Er. cbn in Htouch. subst r.
  destruct (whitelisted (stats m w)); cbn [orb fst].
  { split; [done|]. intros (Hno & _). destruct (proj1 Hwl eq_refl) as [?|?]; [discriminate|contradiction]. }
  destruct (Z.leb_spec (Decimal.Sign (baselinePerMinute (stats m w))) 0) as [Hb|Hb]; cbn [fst].
  { split; [done|]. intros (_ & Hp & _). apply Sign_pos in Hp. lia. }
  apply Sign_pos in Hb. change (Decimal.Add (Decimal.FromInt 1) SpikeThreshold) with (1 + SpikeThreshold).
  unfold Decimal.Mul, time_add.
  destruct (Z.ltb_spec 0 (Decimal.Cmp (rate w ops now) (baselinePerMinute (stats m w) * (1 + SpikeThreshold))))
    as [Hg|Hg]; cbn [fst].
  - apply Cmp_gt in Hg. split; [intros [= <-]|by intros (_ & _ & _ & ->)].
    split; [|split; [exact Hb|split; [exact Hg|reflexivity]]].
    intros Hin. pose proof (proj2 Hwl (or_intror Hin)). discriminate.
  - split; [done|]. intros (_ & _ & Hlt & _). apply Cmp_gt in Hlt. lia.
Qed.

Lemma spike_detection_exact_witness :
  let w := replicate 32 1%Z in
  let ops := [OSetBaseline w (Decimal.FromInt 1%Z); ORecord w 0%Z; ORecord w Minute;
              ORecord w (Minute + Second)] in
  let m := foldl apply_op NewRateMonitor ops in
  let now := (Minute + Second)%Z in
  is_Some ((EvaluateSpike m w now).1) ∧ (CurrentRatePerMinute m w now).1 = rate w ops now.
Proof.
  intros w ops m now. split; [vm_compute; eexists; reflexivity|].
  refine (proj1 (spike_detection_exact ops 0%Z w now _ _)).
  - cbn. unfold Minute, Second. lia.
  - cbn. unfold now, Minute, Second. lia.
Defined.
End SilentSpec.
