(* ===== verification/Store.v ===== *)
(** pkg/state/store.go and txn.go: the rows of the node's key-value store. [Rows] is
    the typed content the pipeline works on; [Keyed] is the code's own implementation,
    which lays every row out under a prefixed key of one Badger transaction. Badger is
    a parameter, a typeclass with its documented laws. JSON values are kept as the Go
    values they encode, and faults of the storage engine itself are not modelled. *)
From S2P Require Import Prelude Words Decimal Hashing Types.

(** [ProposalRecord]. *)
Record ProposalRecord := {
  pr_ProposalID : string; pr_Epoch : Z;
  pr_Commitments : gmap Hash Hash; pr_Reveals : gmap Hash bool;
  pr_ParamKey : string; pr_NewValue : string;
  pr_MintAmount : Z; pr_MintOutCommit : Hash; pr_MintApplied : bool;
  pr_MintStaked : bool; pr_StakePositionCommit : Hash;
  pr_SlashTargetNFT : NFTID; pr_SlashBurn : bool; pr_SlashApplied : bool;
  pr_UnlockTransferTarget : NFTID; pr_UnlockTransferApplied : bool;
  pr_ContainerAssetTarget : string; pr_ContainerAssetApplied : bool;
  pr_UnwindDualSign : bool; pr_UnwindDualSignApplied : bool;
  pr_Tallied : bool; pr_Approve : Z; pr_Reject : Z; pr_Passed : bool; pr_Applied : bool }.

(** Badger iterates keys in byte order. *)
Definition string_le (a b : string) : Prop := bytes_le (string_bytes a) (string_bytes b).
#[export] Instance string_le_dec a b : Decision (string_le a b).
Proof. unfold string_le. apply _. Defined.

(** * The typed rows *)

Module Rows.
Record Rows := {
  nullifiers : gset Hash; nfts : gmap NFTID ValidatorNFT; owners : gmap Address NFTID;
  holds : gmap Hash BankHold; proposals : gmap string ProposalRecord;
  containers : gmap string Hash; assets : gset string }.

Definition empty : Rows :=
  {| nullifiers := ∅; nfts := ∅; owners := ∅; holds := ∅; proposals := ∅;
     containers := ∅; assets := ∅ |}.

Definition MarkNullifierSpent (n : Hash) (r : Rows) : result Rows :=
  if bool_decide (n ∈ nullifiers r)
  then Err "state: nullifier already spent (double-spend rejected)"
  else Ok (r <| nullifiers ::= λ s, {[n]} ∪ s |>).
Definition IsNullifierSpent (n : Hash) (r : Rows) : bool := bool_decide (n ∈ nullifiers r).

Definition PutNFT (nft : ValidatorNFT) (r : Rows) : Rows :=
  r <| nfts ::= <[nft_ID nft := nft]> |> <| owners ::= <[nft_Owner nft := nft_ID nft]> |>.
Definition DeleteNFT (nft : ValidatorNFT) (r : Rows) : Rows :=
  r <| nfts ::= delete (nft_ID nft) |> <| owners ::= delete (nft_Owner nft) |>.
Definition TransferNFTOwner (oldOwner : Address) (nft : ValidatorNFT) (r : Rows) : Rows :=
  PutNFT nft (r <| owners ::= delete oldOwner |>).
Definition GetNFT (id : NFTID) (r : Rows) : option ValidatorNFT := nfts r !! id.
Definition GetNFTByOwner (owner : Address) (r : Rows) : option ValidatorNFT :=
  id ← owners r !! owner; nfts r !! id.
Definition CountNFTs (r : Rows) : Z := Z.of_nat (size (nfts r)).

Definition PutHold (hold : BankHold) (r : Rows) : Rows :=
  r <| holds ::= <[bh_HoldID hold := hold]> |>.
Definition GetHold (id : Hash) (r : Rows) : option BankHold := holds r !! id.

Definition PutProposal (p : ProposalRecord) (r : Rows) : Rows :=
  r <| proposals ::= <[pr_ProposalID p := p]> |>.
Definition GetProposal (id : string) (r : Rows) : option ProposalRecord := proposals r !! id.
Definition proposal_ids (r : Rows) : list string :=
  merge_sort string_le (elements (dom (proposals r))).
Definition ListProposals (r : Rows) : list ProposalRecord :=
  omap (λ id, proposals r !! id) (proposal_ids r).

Definition PutContainerRoot (containerID : string) (root : Hash) (r : Rows) : Rows :=
  r <| containers ::= <[containerID := root]> |>.
Definition GetContainerRoot (containerID : string) (r : Rows) : option Hash :=
  containers r !! containerID.
Definition PutAuthorizedAsset (asset : string) (r : Rows) : Rows :=
  r <| assets ::= λ s, {[asset]} ∪ s |>.
Definition IsAssetAuthorized (asset : string) (r : Rows) : bool := bool_decide (asset ∈ assets r).
End Rows.
Export Rows (Rows).

(** The rows of pkg/chain, which only the Store's auto-committing methods write. *)
Module ChainRows.
Record ChainRows := { blocks : gmap Z Block; head : option Z; txindex : gmap Hash Z }.
Definition empty : ChainRows := {| blocks := ∅; head := None; txindex := ∅ |}.
Definition PutBlock (b : Block) (c : ChainRows) : ChainRows :=
  c <| blocks ::= <[b_Height b := b]> |>.
Definition GetBlock (height : Z) (c : ChainRows) : option Block := blocks c !! height.
Definition SetHead (height : Z) (c : ChainRows) : ChainRows := c <| head := Some height |>.
Definition GetHead (c : ChainRows) : option Z := head c.
Definition IndexTx (txid : Hash) (height : Z) (c : ChainRows) : ChainRows :=
  c <| txindex ::= <[txid := height]> |>.
Definition GetTxHeight (txid : Hash) (c : ChainRows) : option Z := txindex c !! txid.
End ChainRows.
Export ChainRows (ChainRows).

(** * The key-value implementation *)

(** What a key holds: the Go value its JSON encodes, a marker byte, or 8 bytes. *)
Inductive Value :=
| VMark
| VNFT (nft : ValidatorNFT)
| VNFTID (id : NFTID)
| VHold (hold : BankHold)
| VProposal (p : ProposalRecord)
| VHash (h : Hash)
| VBlock (b : Block)
| VBytes (b : bytes).

(** Badger: databases, transactions, and the documented behaviour of its calls. The
    views are ghosts, used by the laws only. *)
Class Badger := {
  DB : Type; BTxn : Type;
  NewTransaction : DB → BTxn;
  txn_get : BTxn → bytes → option Value;
  txn_set : BTxn → bytes → Value → BTxn;
  txn_delete : BTxn → bytes → BTxn;
  txn_iterate : BTxn → bytes → list bytes;
  txn_commit : BTxn → DB → DB;
  db_view : DB → gmap bytes Value;
  txn_view : BTxn → gmap bytes Value;
  txn_written : BTxn → gset bytes }.

(** The keys of a store that start with a prefix, in byte order. *)
Definition keys_with (prefix : bytes) (m : gmap bytes Value) : list bytes :=
  sort_bytes (filter (λ k, prefix `prefix_of` k) (elements (dom m))).

Class BadgerLaws `{Badger} : Prop := {
  view_new : ∀ db, txn_view (NewTransaction db) = db_view db;
  written_new : ∀ db, txn_written (NewTransaction db) = ∅;
  get_view : ∀ t k, txn_get t k = txn_view t !! k;
  view_set : ∀ t k v, txn_view (txn_set t k v) = <[k := v]> (txn_view t);
  written_set : ∀ t k v, txn_written (txn_set t k v) = {[k]} ∪ txn_written t;
  view_delete : ∀ t k, txn_view (txn_delete t k) = delete k (txn_view t);
  written_delete : ∀ t k, txn_written (txn_delete t k) = {[k]} ∪ txn_written t;
  iterate_view : ∀ t p, txn_iterate t p = keys_with p (txn_view t);
  view_commit : ∀ t db k, db_view (txn_commit t db) !! k =
    if decide (k ∈ txn_written t) then txn_view t !! k else db_view db !! k }.

Module Keyed.
Definition prefixNullifier : bytes := string_bytes "null:".
Definition prefixNFT : bytes := string_bytes "nft:".
Definition prefixNFTByOwner : bytes := string_bytes "nft_owner:".
Definition prefixHold : bytes := string_bytes "hold:".
Definition prefixProposal : bytes := string_bytes "prop:".
Definition prefixContainer : bytes := string_bytes "container:".
Definition prefixBlock : bytes := string_bytes "block:".
Definition prefixTxIndex : bytes := string_bytes "tx:".
Definition keyHead : bytes := string_bytes "head".
Definition prefixAuthorizedAsset : bytes := string_bytes "asset_auth:".

Definition withPrefix (prefix : bytes) (id : string) : bytes := prefix ++ string_bytes id.
Definition blockKey (height : Z) : bytes := prefixBlock ++ be64 height.

(** [Hash.String] and friends. *)
Definition nullKey (n : Hash) : bytes := withPrefix prefixNullifier (hex_encode n).
Definition nftKey (id : NFTID) : bytes := withPrefix prefixNFT (hex_encode id).
Definition ownerKey (o : Address) : bytes := withPrefix prefixNFTByOwner (hex_encode o).
Definition holdKey (id : Hash) : bytes := withPrefix prefixHold (hex_encode id).
Definition proposalKey (id : string) : bytes := withPrefix prefixProposal id.
Definition containerKey (id : string) : bytes := withPrefix prefixContainer id.
Definition assetKey (id : string) : bytes := withPrefix prefixAuthorizedAsset id.
Definition txKey (txid : Hash) : bytes := withPrefix prefixTxIndex (hex_encode txid).

Definition ErrUnmarshal : string := "json: cannot unmarshal".

Section keyed.
Context `{Badger}.
Implicit Type t : BTxn.

Definition getJSON {A} (as_row : Value → option A) (t : BTxn) (key : bytes) : result (option A) :=
  match txn_get t key with
  | None => Ok None
  | Some v => match as_row v with Some a => Ok (Some a) | None => Err ErrUnmarshal end
  end.

Definition as_nft v := match v with VNFT n => Some n | _ => None end.
Definition as_id v := match v with VNFTID i => Some i | _ => None end.
Definition as_hold v := match v with VHold h => Some h | _ => None end.
Definition as_proposal v := match v with VProposal p => Some p | _ => None end.
Definition as_hash v := match v with VHash h => Some h | _ => None end.
Definition as_block v := match v with VBlock b => Some b | _ => None end.
Definition as_height v := match v with
  | VBytes b => if bool_decide (length b = 8%nat) then Some (be_value b) else None
  | _ => None end.

Definition markNullifierSpent (n : Hash) (t : BTxn) : result BTxn :=
  match txn_get t (nullKey n) with
  | Some _ => Err "state: nullifier already spent (double-spend rejected)"
  | None => Ok (txn_set t (nullKey n) VMark)
  end.
Definition isNullifierSpent (n : Hash) (t : BTxn) : bool :=
  match txn_get t (nullKey n) with Some _ => true | None => false end.

Definition putNFT (nft : ValidatorNFT) (t : BTxn) : BTxn :=
  let t := txn_set t (nftKey (nft_ID nft)) (VNFT nft) in
  txn_set t (ownerKey (nft_Owner nft)) (VNFTID (nft_ID nft)).
Definition getNFT (id : NFTID) (t : BTxn) : result (option ValidatorNFT) :=
  getJSON as_nft t (nftKey id).
Definition getNFTByOwner (owner : Address) (t : BTxn) : result (option ValidatorNFT) :=
  found ← getJSON as_id t (ownerKey owner);
  match found with None => Ok None | Some id => getNFT id t end.
Definition deleteNFT (nft : ValidatorNFT) (t : BTxn) : BTxn :=
  txn_delete (txn_delete t (nftKey (nft_ID nft))) (ownerKey (nft_Owner nft)).
Definition transferNFTOwner (oldOwner : Address) (nft : ValidatorNFT) (t : BTxn) : BTxn :=
  putNFT nft (txn_delete t (ownerKey oldOwner)).
Definition countPrefix (prefix : bytes) (t : BTxn) : Z := Z.of_nat (length (txn_iterate t prefix)).
Definition countNFTs (t : BTxn) : Z := countPrefix prefixNFT t.

Definition putHold (h : BankHold) (t : BTxn) : BTxn := txn_set t (holdKey (bh_HoldID h)) (VHold h).
Definition getHold (id : Hash) (t : BTxn) : result (option BankHold) := getJSON as_hold t (holdKey id).
Definition putProposal (p : ProposalRecord) (t : BTxn) : BTxn :=
  txn_set t (proposalKey (pr_ProposalID p)) (VProposal p).
Definition getProposal (id : string) (t : BTxn) : result (option ProposalRecord) :=
  getJSON as_proposal t (proposalKey id).

(** The iteration of [listProposals]: every key under the prefix is unmarshalled. *)
Fixpoint read_proposals (t : BTxn) (keys : list bytes) : result (list ProposalRecord) :=
  match keys with
  | [] => Ok []
  | k :: keys =>
      match (v ← txn_get t k; as_proposal v) with
      | None => Err ErrUnmarshal
      | Some p => ps ← read_proposals t keys; Ok (p :: ps)
      end
  end.
Definition listProposals (t : BTxn) : result (list ProposalRecord) :=
  read_proposals t (txn_iterate t prefixProposal).

Definition putContainerRoot (id : string) (root : Hash) (t : BTxn) : BTxn :=
  txn_set t (containerKey id) (VHash root).
Definition getContainerRoot (id : string) (t : BTxn) : result (option Hash) :=
  getJSON as_hash t (containerKey id).
Definition putAuthorizedAsset (asset : string) (t : BTxn) : BTxn := txn_set t (assetKey asset) VMark.
Definition isAssetAuthorized (asset : string) (t : BTxn) : bool :=
  match txn_get t (assetKey asset) with Some _ => true | None => false end.

Definition putBlock (b : Block) (t : BTxn) : BTxn := txn_set t (blockKey (b_Height b)) (VBlock b).
Definition getBlock (height : Z) (t : BTxn) : result (option Block) :=
  getJSON as_block t (blockKey height).
Definition setHead (height : Z) (t : BTxn) : BTxn := txn_set t keyHead (VBytes (be64 height)).
Definition getHead (t : BTxn) : result (option Z) := getJSON as_height t keyHead.
Definition indexTx (txid : Hash) (height : Z) (t : BTxn) : BTxn :=
  txn_set t (txKey txid) (VBytes (be64 height)).
Definition getTxHeight (txid : Hash) (t : BTxn) : result (option Z) := getJSON as_height t (txKey txid).

(** The Store's methods run one operation in a transaction of its own:
    [db.Update] and [db.View]. *)
Definition Update (f : BTxn → result BTxn) (db : DB) : result DB :=
  t ← f (NewTransaction db); Ok (txn_commit t db).
Definition View {A} (f : BTxn → A) (db : DB) : A := f (NewTransaction db).
Definition BeginTxn (db : DB) : BTxn := NewTransaction db.
Definition Commit (t : BTxn) (db : DB) : DB := txn_commit t db.
End keyed.
End Keyed.

(** * Specification: the key layout represents the typed rows *)

(** The rows of the store, each with the key the code files it under. *)
Inductive row_key :=
| KNull (n : Hash) | KNFT (id : NFTID) | KOwner (o : Address) | KHold (id : Hash)
| KProposal (id : string) | KContainer (id : string) | KAsset (a : string)
| KBlock (height : Z) | KHead | KTx (txid : Hash).

Definition enc (k : row_key) : bytes :=
  match k with
  | KNull n => Keyed.nullKey n | KNFT id => Keyed.nftKey id | KOwner o => Keyed.ownerKey o
  | KHold id => Keyed.holdKey id | KProposal id => Keyed.proposalKey id
  | KContainer id => Keyed.containerKey id | KAsset a => Keyed.assetKey a
  | KBlock h => Keyed.blockKey h | KHead => Keyed.keyHead | KTx txid => Keyed.txKey txid
  end.

Definition is_height (h : Z) : Prop := 0 ≤ h < 2 ^ 64.

(** What Go's types guarantee of an identifier: it is made of bytes. *)
Definition key_wf (k : row_key) : Prop :=
  match k with
  | KNull b | KNFT b | KOwner b | KHold b | KTx b => is_bytes b
  | KBlock h => is_height h
  | _ => True
  end.

Definition lookup_row (r : Rows) (c : ChainRows) (k : row_key) : option Value :=
  match k with
  | KNull n => if bool_decide (n ∈ Rows.nullifiers r) then Some VMark else None
  | KNFT id => VNFT <$> Rows.nfts r !! id
  | KOwner o => VNFTID <$> Rows.owners r !! o
  | KHold id => VHold <$> Rows.holds r !! id
  | KProposal id => VProposal <$> Rows.proposals r !! id
  | KContainer id => VHash <$> Rows.containers r !! id
  | KAsset a => if bool_decide (a ∈ Rows.assets r) then Some VMark else None
  | KBlock h => VBlock <$> ChainRows.blocks c !! h
  | KHead => (λ h, VBytes (be64 h)) <$> ChainRows.head c
  | KTx txid => (λ h, VBytes (be64 h)) <$> ChainRows.txindex c !! txid
  end.

(** The well-formedness of the values themselves. *)
Definition value_wf (v : Value) : Prop :=
  match v with
  | VNFTID id => is_bytes id
  | _ => True
  end.
Definition heights_ok (c : ChainRows) : Prop :=
  (∀ h, ChainRows.head c = Some h → is_height h) ∧
  (∀ txid h, ChainRows.txindex c !! txid = Some h → is_height h).

Record rep (m : gmap bytes Value) (r : Rows) (c : ChainRows) : Prop := {
  rep_row : ∀ k, key_wf k → m !! enc k = lookup_row r c k;
  rep_keys : ∀ key, is_Some (m !! key) → ∃ k, key_wf k ∧ key = enc k;
  rep_wf : ∀ k v, lookup_row r c k = Some v → key_wf k ∧ value_wf v;
  rep_heights : heights_ok c }.

(** The writes of the Accessor interface. *)
Inductive write :=
| WNull (n : Hash) | WPutNFT (nft : ValidatorNFT) | WDeleteNFT (nft : ValidatorNFT)
| WTransferNFT (oldOwner : Address) (nft : ValidatorNFT) | WHold (h : BankHold)
| WProposal (p : ProposalRecord) | WContainer (id : string) (root : Hash) | WAsset (a : string).

Definition write_wf (w : write) : Prop :=
  match w with
  | WNull n => is_bytes n
  | WPutNFT nft | WDeleteNFT nft => is_bytes (nft_ID nft) ∧ is_bytes (nft_Owner nft)
  | WTransferNFT o nft => is_bytes o ∧ is_bytes (nft_ID nft) ∧ is_bytes (nft_Owner nft)
  | WHold h => is_bytes (bh_HoldID h)
  | _ => True
  end.

Definition write_rows (w : write) (r : Rows) : result Rows :=
  match w with
  | WNull n => Rows.MarkNullifierSpent n r
  | WPutNFT nft => Ok (Rows.PutNFT nft r)
  | WDeleteNFT nft => Ok (Rows.DeleteNFT nft r)
  | WTransferNFT o nft => Ok (Rows.TransferNFTOwner o nft r)
  | WHold h => Ok (Rows.PutHold h r)
  | WProposal p => Ok (Rows.PutProposal p r)
  | WContainer id root => Ok (Rows.PutContainerRoot id root r)
  | WAsset a => Ok (Rows.PutAuthorizedAsset a r)
  end.

Definition write_txn `{Badger} (w : write) (t : BTxn) : result BTxn :=
  match w with
  | WNull n => Keyed.markNullifierSpent n t
  | WPutNFT nft => Ok (Keyed.putNFT nft t)
  | WDeleteNFT nft => Ok (Keyed.deleteNFT nft t)
  | WTransferNFT o nft => Ok (Keyed.transferNFTOwner o nft t)
  | WHold h => Ok (Keyed.putHold h t)
  | WProposal p => Ok (Keyed.putProposal p t)
  | WContainer id root => Ok (Keyed.putContainerRoot id root t)
  | WAsset a => Ok (Keyed.putAuthorizedAsset a t)
  end.

(** The calls of pkg/chain on the Store. *)
Inductive chain_write := CBlock (b : Block) | CHead (height : Z) | CTx (txid : Hash) (height : Z).
Definition chain_write_wf (w : chain_write) : Prop :=
  match w with
  | CBlock b => is_height (b_Height b)
  | CHead h => is_height h
  | CTx txid h => is_bytes txid ∧ is_height h
  end.
Definition chain_write_rows (w : chain_write) (c : ChainRows) : ChainRows :=
  match w with
  | CBlock b => ChainRows.PutBlock b c
  | CHead h => ChainRows.SetHead h c
  | CTx txid h => ChainRows.IndexTx txid h c
  end.
Definition chain_write_txn `{Badger} (w : chain_write) (t : BTxn) : BTxn :=
  match w with
  | CBlock b => Keyed.putBlock b t
  | CHead h => Keyed.setHead h t
  | CTx txid h => Keyed.indexTx txid h t
  end.

(** A sequence of writes, stopped by the first error. *)
Fixpoint run_writes {S} (step : write → S → result S) (ws : list write) (s : S) : result S :=
  match ws with
  | [] => Ok s
  | w :: ws => s ← step w s; run_writes step ws s
  end.

(** * Lemmas *)

Section keys.
Import Keyed.

Lemma string_bytes_inj s s' : string_bytes s = string_bytes s' → s = s'.
Proof.
  revert s'. induction s as [|a s IH]; intros [|a' s']; cbn; try done.
  intros [E ->%IH]%(inj2 cons). apply Nat2Z.inj in E. f_equal.
  by rewrite <-(Ascii.ascii_nat_embedding a), E, Ascii.ascii_nat_embedding.
Qed.

Lemma withPrefix_inj p s s' : withPrefix p s = withPrefix p s' → s = s'.
Proof. intros E%app_inv_head. by apply string_bytes_inj. Qed.

Ltac key_cases E :=
  unfold enc, nullKey, nftKey, ownerKey, holdKey, proposalKey, containerKey, assetKey,
    blockKey, txKey, withPrefix, prefixNullifier, prefixNFT, prefixNFTByOwner, prefixHold,
    prefixProposal, prefixContainer, prefixBlock, prefixTxIndex, keyHead,
    prefixAuthorizedAsset in E;
  cbn in E; discriminate E.

(** No two rows share a key, and different prefixes never meet. *)
Lemma enc_inj k k' : key_wf k → key_wf k' → enc k = enc k' → k = k'.
Proof.
  intros Hk Hk' E. destruct k, k'; try (key_cases E); try done; cbn [key_wf enc] in *; f_equal.
  - apply withPrefix_inj in E. by apply hex_encode_inj.
  - apply withPrefix_inj in E. by apply hex_encode_inj.
  - apply withPrefix_inj in E. by apply hex_encode_inj.
  - apply withPrefix_inj in E. by apply hex_encode_inj.
  - by apply withPrefix_inj in E.
  - by apply withPrefix_inj in E.
  - by apply withPrefix_inj in E.
  - apply app_inv_head in E. by apply be64_inj.
  - apply withPrefix_inj in E. by apply hex_encode_inj.
Qed.

Lemma enc_nft_prefix k : prefixNFT `prefix_of` enc k → ∃ id, k = KNFT id.
Proof. intros [x E]. destruct k; try (key_cases E). by eexists. Qed.

Lemma enc_proposal_prefix k : prefixProposal `prefix_of` enc k → ∃ id, k = KProposal id.
Proof. intros [x E]. destruct k; try (key_cases E). by eexists. Qed.
End keys.

Section representation.
Implicit Types (m : gmap bytes Value) (r : Rows) (c : ChainRows) (k : row_key).

#[local] Instance row_key_eq_dec : EqDecision row_key.
Proof. solve_decision. Defined.

Lemma rep_insert m r c k v r' c' :
  rep m r c → key_wf k → value_wf v → lookup_row r' c' k = Some v →
  (∀ k', k' ≠ k → lookup_row r' c' k' = lookup_row r c k') → (heights_ok c → heights_ok c') →
  rep (<[enc k := v]> m) r' c'.
Proof.
  intros [Hr Hk Hw Hh] Hwk Hwv Hv Hne Hh'. split; [| | |by auto].
  - intros k' Hk'. destruct (decide (k' = k)) as [->|Hd].
    + by rewrite lookup_insert, decide_True.
    + rewrite lookup_insert_ne by (intros E; by apply enc_inj in E). by rewrite Hne, Hr.
  - intros key Hs. destruct (decide (key = enc k)) as [->|Hd]; [by exists k|].
    rewrite lookup_insert_ne in Hs by done. by apply Hk.
  - intros k' v' E. destruct (decide (k' = k)) as [->|Hd]; [|rewrite Hne in E by done; by eapply Hw].
    rewrite Hv in E. by injection E as <-.
Qed.

Lemma rep_delete m r c k r' c' :
  rep m r c → key_wf k → lookup_row r' c' k = None →
  (∀ k', k' ≠ k → lookup_row r' c' k' = lookup_row r c k') → (heights_ok c → heights_ok c') →
  rep (delete (enc k) m) r' c'.
Proof.
  intros [Hr Hk Hw Hh] Hwk Hv Hne Hh'. split; [| | |by auto].
  - intros k' Hk'. destruct (decide (k' = k)) as [->|Hd].
    + by rewrite lookup_delete, decide_True.
    + rewrite lookup_delete_ne by (intros E; by apply enc_inj in E). by rewrite Hne, Hr.
  - intros key Hs. apply Hk. destruct Hs as [v Hs].
    apply lookup_delete_Some in Hs as [_ Hs]. by exists v.
  - intros k' v' E. destruct (decide (k' = k)) as [->|Hd]; [congruence|].
    rewrite Hne in E by done. by eapply Hw.
Qed.

(** One row changed: the value at its key, and nothing elsewhere. *)
Ltac row_frame :=
  intros k' Hk'; destruct k'; cbn; try done;
  first [ rewrite lookup_insert_ne by congruence; done
        | rewrite lookup_delete_ne by congruence; done
        | case_bool_decide; case_bool_decide; set_solver ].

Lemma rep_mark_null m r c n :
  rep m r c → is_bytes n →
  rep (<[enc (KNull n) := VMark]> m) (r <| Rows.nullifiers ::= λ s, {[n]} ∪ s |>) c.
Proof.
  intros Hr Hn. eapply rep_insert; [done..| | |done].
  - cbn. rewrite bool_decide_true by set_solver. done.
  - row_frame.
Qed.

Lemma rep_mark_asset m r c a :
  rep m r c →
  rep (<[enc (KAsset a) := VMark]> m) (r <| Rows.assets ::= λ s, {[a]} ∪ s |>) c.
Proof.
  intros Hr. eapply rep_insert; [done..| | |done].
  - cbn. rewrite bool_decide_true by set_solver. done.
  - row_frame.
Qed.

Lemma rep_put_nft m r c nft :
  rep m r c → is_bytes (nft_ID nft) →
  rep (<[enc (KNFT (nft_ID nft)) := VNFT nft]> m) (r <| Rows.nfts ::= <[nft_ID nft := nft]> |>) c.
Proof.
  intros Hr Hn. eapply rep_insert; [done..| | |done].
  - cbn. by rewrite lookup_insert, decide_True.
  - row_frame.
Qed.

Lemma rep_put_owner m r c o id :
  rep m r c → is_bytes o → is_bytes id →
  rep (<[enc (KOwner o) := VNFTID id]> m) (r <| Rows.owners ::= <[o := id]> |>) c.
Proof.
  intros Hr Ho Hi. eapply rep_insert; [done..| | |done].
  - cbn. by rewrite lookup_insert, decide_True.
  - row_frame.
Qed.

Lemma rep_del_nft m r c id :
  rep m r c → is_bytes id →
  rep (delete (enc (KNFT id)) m) (r <| Rows.nfts ::= delete id |>) c.
Proof.
  intros Hr Hn. eapply rep_delete; [done..| | |done].
  - cbn. by rewrite lookup_delete, decide_True.
  - row_frame.
Qed.

Lemma rep_del_owner m r c o :
  rep m r c → is_bytes o →
  rep (delete (enc (KOwner o)) m) (r <| Rows.owners ::= delete o |>) c.
Proof.
  intros Hr Hn. eapply rep_delete; [done..| | |done].
  - cbn. by rewrite lookup_delete, decide_True.
  - row_frame.
Qed.

Lemma rep_put_hold m r c h :
  rep m r c → is_bytes (bh_HoldID h) →
  rep (<[enc (KHold (bh_HoldID h)) := VHold h]> m) (Rows.PutHold h r) c.
Proof.
  intros Hr Hn. eapply rep_insert; [done..| | |done].
  - cbn. by rewrite lookup_insert, decide_True.
  - row_frame.
Qed.

Lemma rep_put_proposal m r c p :
  rep m r c →
  rep (<[enc (KProposal (pr_ProposalID p)) := VProposal p]> m) (Rows.PutProposal p r) c.
Proof.
  intros Hr. eapply rep_insert; [done..| | |done].
  - cbn. by rewrite lookup_insert, decide_True.
  - row_frame.
Qed.

Lemma rep_put_container m r c id root :
  rep m r c →
  rep (<[enc (KContainer id) := VHash root]> m) (Rows.PutContainerRoot id root r) c.
Proof.
  intros Hr. eapply rep_insert; [done..| | |done].
  - cbn. by rewrite lookup_insert, decide_True.
  - row_frame.
Qed.

Lemma rep_put_block m r c b :
  rep m r c → is_height (b_Height b) →
  rep (<[enc (KBlock (b_Height b)) := VBlock b]> m) r (ChainRows.PutBlock b c).
Proof.
  intros Hr Hb. eapply rep_insert; [done..| | |done].
  - cbn. by rewrite lookup_insert, decide_True.
  - row_frame.
Qed.

Lemma rep_set_head m r c h :
  rep m r c → is_height h →
  rep (<[enc KHead := VBytes (be64 h)]> m) r (ChainRows.SetHead h c).
Proof.
  intros Hr Hh. eapply rep_insert; [done..|row_frame|].
  intros [H1 H2]. split; [by intros ? [= <-]|done].
Qed.

Lemma rep_index_tx m r c txid h :
  rep m r c → is_bytes txid → is_height h →
  rep (<[enc (KTx txid) := VBytes (be64 h)]> m) r (ChainRows.IndexTx txid h c).
Proof.
  intros Hr Ht Hh. eapply rep_insert; [done..| | |].
  - cbn. by rewrite lookup_insert, decide_True.
  - row_frame.
  - intros [H1 H2]. split; [done|]. intros tx h'. cbn. rewrite lookup_insert.
    case_decide; [by intros [= <-]|apply H2].
Qed.
End representation.

Section transactions.
Context `{BL : BadgerLaws}.
Implicit Types (t : BTxn) (r : Rows) (c : ChainRows).

(** The keys the Accessor's writes can touch. *)
Definition accessor_key (k : row_key) : Prop :=
  match k with KBlock _ | KHead | KTx _ => False | _ => True end.

(** A transaction on [db] that has written accessor rows only. *)
Record on_db (db : DB) t : Prop := {
  od_written : ∀ key, key ∈ txn_written t → ∃ k, accessor_key k ∧ key_wf k ∧ key = enc k;
  od_rest : ∀ key, key ∉ txn_written t → txn_view t !! key = db_view db !! key }.

Lemma on_db_new db : on_db db (NewTransaction db).
Proof. split; intros key; rewrite ?written_new, ?view_new; [set_solver|done]. Qed.

Lemma on_db_set db t k v : on_db db t → accessor_key k → key_wf k → on_db db (txn_set t (enc k) v).
Proof.
  intros [Hw Hr] Hk Hwk. split; intros key; rewrite written_set.
  - intros [->%elem_of_singleton|Hin]%elem_of_union; [by exists k|by apply Hw].
  - intros Hn. rewrite view_set, lookup_insert_ne by set_solver. apply Hr. set_solver.
Qed.

Lemma on_db_delete db t k : on_db db t → accessor_key k → key_wf k → on_db db (txn_delete t (enc k)).
Proof.
  intros [Hw Hr] Hk Hwk. split; intros key; rewrite written_delete.
  - intros [->%elem_of_singleton|Hin]%elem_of_union; [by exists k|by apply Hw].
  - intros Hn. rewrite view_delete, lookup_delete_ne by set_solver. apply Hr. set_solver.
Qed.

(** The representation of one transaction, through its view. *)
Definition holds_rows (db : DB) t r c : Prop := on_db db t ∧ rep (txn_view t) r c.

Lemma holds_set db t r c k v r' :
  holds_rows db t r c → accessor_key k → key_wf k → rep (<[enc k := v]> (txn_view t)) r' c →
  holds_rows db (txn_set t (enc k) v) r' c.
Proof. intros [Ho _] Hk Hw Hr. split; [by apply on_db_set|]. by rewrite view_set. Qed.

Lemma holds_delete db t r c k r' :
  holds_rows db t r c → accessor_key k → key_wf k → rep (delete (enc k) (txn_view t)) r' c →
  holds_rows db (txn_delete t (enc k)) r' c.
Proof. intros [Ho _] Hk Hw Hr. split; [by apply on_db_delete|]. by rewrite view_delete. Qed.

Lemma holds_put_nft db t r c nft :
  holds_rows db t r c → is_bytes (nft_ID nft) → is_bytes (nft_Owner nft) →
  holds_rows db (Keyed.putNFT nft t) (Rows.PutNFT nft r) c.
Proof.
  intros Hh Hi Ho.
  assert (H1 : holds_rows db (txn_set t (enc (KNFT (nft_ID nft))) (VNFT nft))
                 (r <| Rows.nfts ::= <[nft_ID nft := nft]> |>) c).
  { eapply holds_set; [done..|]. apply rep_put_nft; [apply Hh|done]. }
  eapply (holds_set _ _ _ _ (KOwner (nft_Owner nft))); [exact H1|done..|].
  eapply (rep_put_owner _ _ _ (nft_Owner nft) (nft_ID nft)); [apply H1|done..].
Qed.

Lemma holds_del_owner db t r c o :
  holds_rows db t r c → is_bytes o →
  holds_rows db (txn_delete t (Keyed.ownerKey o)) (r <| Rows.owners ::= delete o |>) c.
Proof.
  intros Hh Ho. eapply (holds_delete _ _ _ _ (KOwner o)); [done..|]. apply rep_del_owner; [apply Hh|done].
Qed.

(** Each write acts on the transaction as it does on the rows. *)
Lemma write_refines db t r c w :
  holds_rows db t r c → write_wf w →
  match write_txn w t, write_rows w r with
  | Ok t', Ok r' => holds_rows db t' r' c
  | Err _, Err _ => True
  | _, _ => False
  end.
Proof.
  intros Hh Hw. pose proof Hh as [_ Hrep]. destruct w as [n|nft|nft|o nft|h|p|id root|a]; cbn in Hw.
  - cbn. unfold Keyed.markNullifierSpent, Rows.MarkNullifierSpent.
    rewrite get_view. change (Keyed.nullKey n) with (enc (KNull n)).
    rewrite (rep_row _ _ _ Hrep) by done. cbn [lookup_row].
    case_bool_decide; [done|]. eapply (holds_set _ _ _ _ (KNull n)); [done..|]. by apply rep_mark_null.
  - destruct Hw. by apply holds_put_nft.
  - destruct Hw as [Hi Ho]. cbn. apply (holds_del_owner db _ (r <| Rows.nfts ::= delete (nft_ID nft) |>) c); [|done].
    eapply (holds_delete _ _ _ _ (KNFT (nft_ID nft))); [done..|]. by apply rep_del_nft.
  - destruct Hw as (Ho & Hi & Ho'). cbn. apply holds_put_nft; [|done..]. by apply holds_del_owner.
  - cbn. eapply (holds_set _ _ _ _ (KHold _)); [done..|]. by apply rep_put_hold.
  - cbn. eapply (holds_set _ _ _ _ (KProposal _)); [done..|]. by apply rep_put_proposal.
  - cbn. eapply (holds_set _ _ _ _ (KContainer _)); [done..|]. by apply rep_put_container.
  - cbn. eapply (holds_set _ _ _ _ (KAsset _)); [done..|]. by apply rep_mark_asset.
Qed.

Lemma writes_refine db ws t r c :
  holds_rows db t r c → Forall write_wf ws →
  match run_writes write_txn ws t, run_writes write_rows ws r with
  | Ok t', Ok r' => holds_rows db t' r' c
  | Err _, Err _ => True
  | _, _ => False
  end.
Proof.
  intros Hh Hf. revert t r Hh. induction Hf as [|w ws Hw _ IH]; intros t r Hh; cbn [run_writes]; [done|].
  pose proof (write_refines db t r c w Hh Hw) as H1.
  destruct (write_txn w t) as [t'|], (write_rows w r) as [r'|]; try done. by apply IH.
Qed.

(** The calls of pkg/chain, each in its own transaction. *)
Lemma chain_write_refines db r c w :
  rep (db_view db) r c → chain_write_wf w → ∃ db',
    Keyed.Update (λ t, Ok (chain_write_txn w t)) db = Ok db' ∧
    rep (db_view db') r (chain_write_rows w c).
Proof.
  intros Hrep Hw. eexists. split; [reflexivity|].
  assert (Hset : ∀ k v c', rep (<[enc k := v]> (db_view db)) r c' →
    rep (db_view (txn_commit (txn_set (NewTransaction db) (enc k) v) db)) r c').
  { intros k v c' Hr. replace (db_view _) with (<[enc k := v]> (db_view db)); [done|].
    apply map_eq. intros key. rewrite view_commit, written_set, written_new, view_set, view_new.
    destruct (decide (key = enc k)) as [->|Hne].
    - rewrite decide_True by set_solver. done.
    - rewrite decide_False by set_solver. by rewrite lookup_insert_ne. }
  destruct w as [b|h|txid h]; cbn in Hw.
  - apply (Hset (KBlock (b_Height b))). by apply rep_put_block.
  - apply (Hset KHead). by apply rep_set_head.
  - destruct Hw. apply (Hset (KTx txid)). by apply rep_index_tx.
Qed.

Lemma lookup_chain_row r r' c k : ¬ accessor_key k → lookup_row r c k = lookup_row r' c k.
Proof. by destruct k. Qed.
Lemma lookup_accessor_row r c c' k : accessor_key k → lookup_row r c k = lookup_row r c' k.
Proof. by destruct k. Qed.
Lemma accessor_key_cases k : accessor_key k ∨ ¬ accessor_key k.
Proof. destruct k; cbn; auto. Qed.

(** Committing over a database whose chain rows have moved on. *)
Lemma commit_rep db t r0 r c db' c' :
  rep (db_view db) r0 c → holds_rows db t r c → rep (db_view db') r0 c' →
  rep (db_view (txn_commit t db')) r c'.
Proof.
  intros Hdb [[Hwr Hrest] Hrep] Hdb'.
  assert (Hrow : ∀ k, key_wf k → db_view (txn_commit t db') !! enc k = lookup_row r c' k).
  { intros k Hk. rewrite view_commit. case_decide as Hd.
    - destruct (Hwr _ Hd) as (k' & Ha & Hk' & E). apply enc_inj in E as <-; [|done..].
      rewrite (rep_row _ _ _ Hrep) by done. by apply lookup_accessor_row.
    - rewrite (rep_row _ _ _ Hdb') by done. destruct (accessor_key_cases k) as [Ha|Hc].
      + pose proof (Hrest _ Hd) as E.
        rewrite (rep_row _ _ _ Hrep), (rep_row _ _ _ Hdb) in E by done.
        rewrite (lookup_accessor_row r0 c' c), (lookup_accessor_row r c' c) by done. done.
      + by apply lookup_chain_row. }
  split; [done| | |by apply (rep_heights _ _ _ Hdb')].
  - intros key Hs. rewrite view_commit in Hs. case_decide as Hd.
    + destruct (Hwr _ Hd) as (k & _ & Hk & ->). by exists k.
    + by apply (rep_keys _ _ _ Hdb').
  - intros k v E. destruct (accessor_key_cases k) as [Ha|Hc].
    + apply (rep_wf _ _ _ Hrep). by rewrite (lookup_accessor_row r c c').
    + apply (rep_wf _ _ _ Hdb'). by rewrite (lookup_chain_row r0 r).
Qed.
End transactions.

(** * Iteration *)

#[export] Instance string_le_total : Total string_le.
Proof. intros a b. apply (total bytes_le). Qed.
#[export] Instance string_le_trans : Transitive string_le.
Proof. intros a b c. unfold string_le. apply (transitivity (R:=bytes_le)). Qed.

Section iteration.
Implicit Types (m : gmap bytes Value) (r : Rows) (c : ChainRows).

Lemma bytes_le_app (p a b : bytes) : bytes_le (p ++ a) (p ++ b) ↔ bytes_le a b.
Proof.
  unfold bytes_le. induction p as [|x p IH]; [done|]. cbn. by rewrite Z.eqb_refl.
Qed.

(** The keys under a family's prefix are the keys of its rows. *)
Lemma keys_family {A} (p : bytes) (f : A → row_key) (X : list A) m r c :
  rep m r c → NoDup X → Inj (=) (=) f →
  (∀ k, p `prefix_of` enc k → ∃ a, k = f a) → (∀ a, p `prefix_of` enc (f a)) →
  (∀ a, a ∈ X ↔ is_Some (lookup_row r c (f a))) →
  keys_with p m ≡ₚ (λ a, enc (f a)) <$> X.
Proof.
  intros Hrep Hnd Hinj Hp1 Hp2 HX. unfold keys_with. rewrite sort_bytes_perm.
  assert (Hwf : ∀ a, a ∈ X → key_wf (f a)).
  { intros a [v Hv]%HX. by apply (rep_wf _ _ _ Hrep) in Hv as [? _]. }
  apply NoDup_Permutation.
  - apply NoDup_filter, NoDup_elements.
  - apply NoDup_fmap_2_strong; [|done]. intros a b Ha Hb E. apply enc_inj in E; [|auto..]. by apply Hinj.
  - intros key. rewrite list_elem_of_filter, elem_of_elements, elem_of_dom, list_elem_of_fmap. split.
    + intros [Hp Hs]. pose proof Hs as (k & Hk & ->)%(rep_keys _ _ _ Hrep).
      apply Hp1 in Hp as [a ->]. exists a. split; [done|]. apply HX.
      by rewrite <-(rep_row _ _ _ Hrep).
    + intros (a & -> & Ha). split; [apply Hp2|]. rewrite (rep_row _ _ _ Hrep) by auto. by apply HX.
Qed.

Lemma keys_nfts m r c :
  rep m r c → keys_with Keyed.prefixNFT m ≡ₚ (λ id, enc (KNFT id)) <$> elements (dom (Rows.nfts r)).
Proof.
  intros Hrep. eapply (keys_family _ KNFT); [done|apply NoDup_elements|by intros ?? [= ->]| | |].
  - apply enc_nft_prefix.
  - intros id. eexists. reflexivity.
  - intros id. cbn. by rewrite elem_of_elements, elem_of_dom, fmap_is_Some.
Qed.

Lemma keys_proposals m r c :
  rep m r c → keys_with Keyed.prefixProposal m = (λ id, enc (KProposal id)) <$> Rows.proposal_ids r.
Proof.
  intros Hrep. apply (Sorted_unique bytes_le).
  - apply sort_bytes_sorted.
  - unfold Rows.proposal_ids.
    assert (Hs : Sorted string_le (merge_sort string_le (elements (dom (Rows.proposals r)))))
      by (apply (Sorted_merge_sort string_le)).
    induction Hs as [|id ids Hs IH Hd]; cbn; constructor; [done|].
    destruct Hd as [|b l Hb]; constructor.
    exact (proj2 (bytes_le_app Keyed.prefixProposal (string_bytes id) (string_bytes b)) Hb).
  - etrans; [|apply fmap_Permutation; symmetry; apply (merge_sort_Permutation string_le)].
    eapply (keys_family _ KProposal); [done|apply NoDup_elements|by intros ?? [= ->]| | |].
    + apply enc_proposal_prefix.
    + intros id. eexists. reflexivity.
    + intros id. cbn. by rewrite elem_of_elements, elem_of_dom, fmap_is_Some.
Qed.
End iteration.

Section reads.
Context `{BL : BadgerLaws}.
Implicit Types (t : BTxn) (r : Rows) (c : ChainRows).

Lemma getJSON_rep {A} (as_row : Value → option A) (mk : A → Value) t r c k o :
  rep (txn_view t) r c → key_wf k → lookup_row r c k = mk <$> o →
  (∀ a, o = Some a → as_row (mk a) = Some a) →
  Keyed.getJSON as_row t (enc k) = Ok o.
Proof.
  intros Hrep Hk E Ha. unfold Keyed.getJSON. rewrite get_view, (rep_row _ _ _ Hrep), E by done.
  destruct o as [a|]; [|done]. cbn. by rewrite Ha.
Qed.

Lemma as_height_be64 h : is_height h → Keyed.as_height (VBytes (be64 h)) = Some h.
Proof.
  intros Hh. unfold Keyed.as_height. rewrite bool_decide_true by done. by rewrite be_value_be64.
Qed.

Lemma present_rep t r c k (b : bool) :
  rep (txn_view t) r c → key_wf k → lookup_row r c k = (if b then Some VMark else None) →
  match txn_get t (enc k) with Some _ => true | None => false end = b.
Proof. intros Hrep Hk E. rewrite get_view, (rep_row _ _ _ Hrep), E by done. by destruct b. Qed.

Lemma getNFT_rep t r c id :
  rep (txn_view t) r c → is_bytes id → Keyed.getNFT id t = Ok (Rows.GetNFT id r).
Proof. intros Hrep Hi. by eapply (getJSON_rep _ VNFT _ _ _ (KNFT id)). Qed.

Lemma getNFTByOwner_rep t r c o :
  rep (txn_view t) r c → is_bytes o → Keyed.getNFTByOwner o t = Ok (Rows.GetNFTByOwner o r).
Proof.
  intros Hrep Ho. unfold Keyed.getNFTByOwner.
  erewrite (getJSON_rep Keyed.as_id VNFTID _ _ _ (KOwner o)) by done. cbn.
  unfold Rows.GetNFTByOwner. destruct (Rows.owners r !! o) as [id|] eqn:E; [|done]. cbn.
  eapply getNFT_rep; [done|].
  by destruct (rep_wf _ _ _ Hrep (KOwner o) (VNFTID id)) as [_ ?]; [cbn; by rewrite E|].
Qed.

Lemma countNFTs_rep t r c : rep (txn_view t) r c → Keyed.countNFTs t = Rows.CountNFTs r.
Proof.
  intros Hrep. unfold Keyed.countNFTs, Keyed.countPrefix, Rows.CountNFTs.
  rewrite iterate_view, (keys_nfts _ _ _ Hrep), length_fmap. f_equal.
  rewrite <-size_dom. done.
Qed.

Lemma read_proposals_rep t r c ids :
  rep (txn_view t) r c → Forall (λ id, is_Some (Rows.proposals r !! id)) ids →
  Keyed.read_proposals t ((λ id, enc (KProposal id)) <$> ids) =
  Ok (omap (λ id, Rows.proposals r !! id) ids).
Proof.
  intros Hrep Hids. induction Hids as [|id ids [p Hp] _ IH]; [done|].
  rewrite fmap_cons. cbn [Keyed.read_proposals]. rewrite get_view, (rep_row _ _ _ Hrep) by done.
  cbn [lookup_row]. rewrite Hp, IH. cbn. by rewrite Hp.
Qed.

Lemma listProposals_rep t r c :
  rep (txn_view t) r c → Keyed.listProposals t = Ok (Rows.ListProposals r).
Proof.
  intros Hrep. unfold Keyed.listProposals. rewrite iterate_view, (keys_proposals _ _ _ Hrep).
  apply (read_proposals_rep t r c); [done|]. apply Forall_forall. intros id Hid.
  unfold Rows.proposal_ids in Hid. rewrite merge_sort_Permutation in Hid.
  by rewrite elem_of_elements, elem_of_dom in Hid.
Qed.

Lemma heights_rep t r c k o :
  rep (txn_view t) r c → key_wf k → lookup_row r c k = (λ h, VBytes (be64 h)) <$> o →
  (∀ h, o = Some h → is_height h) → Keyed.getJSON Keyed.as_height t (enc k) = Ok o.
Proof.
  intros Hrep Hk E Ho. eapply getJSON_rep; [done..|]. intros h Hh. by apply as_height_be64, Ho.
Qed.
End reads.

(** * A concrete Badger *)

(** A database is its content; a transaction is its view and the keys it wrote. *)
Module BadgerModel.
Record txn := { view : gmap bytes Value; written : gset bytes }.
#[export] Instance badger : Badger := {
  DB := gmap bytes Value; BTxn := txn;
  NewTransaction db := {| view := db; written := ∅ |};
  txn_get t k := view t !! k;
  txn_set t k v := {| view := <[k := v]> (view t); written := {[k]} ∪ written t |};
  txn_delete t k := {| view := delete k (view t); written := {[k]} ∪ written t |};
  txn_iterate t p := keys_with p (view t);
  txn_commit t db := merge (λ a b, match a with Some w => w | None => b end)
                       (map_imap (λ k _, Some (view t !! k)) (gset_to_gmap tt (written t))) db;
  db_view db := db; txn_view := view; txn_written := written }.

#[export] Instance laws : BadgerLaws.
Proof.
  split; try done. intros t db k. cbn. rewrite lookup_merge, map_lookup_imap, lookup_gset_to_gmap.
  case_decide as Hk.
  - rewrite option_guard_True by done. done.
  - rewrite option_guard_False by done. cbn. change (DB) with (gmap bytes Value) in db. by destruct (db !! k).
Qed.
End BadgerModel.

(** * Properties *)

Module StoreSpec.
Implicit Types (r : Rows) (c : ChainRows).

(** C31: a block's writes are atomic. Run over a transaction of a store that
    represents rows [r], any sequence of writes succeeds or fails as it does on the
    typed rows, where a nullifier marked twice is refused and deleting or transferring
    an NFT moves its owner entry too. Committed over the same database, or over one
    to which blocks, heads and index entries were added meanwhile, the store
    represents exactly the new rows and the newer chain; and the calls that add those,
    each in a transaction of its own, change their own row only. *)
Theorem txn_atomic `{BadgerLaws} db r c ws :
  rep (db_view db) r c → Forall write_wf ws →
  match run_writes write_txn ws (Keyed.BeginTxn db), run_writes write_rows ws r with
  | Ok t, Ok r' =>
      rep (txn_view t) r' c ∧
      ∀ db' c', rep (db_view db') r c' → rep (db_view (Keyed.Commit t db')) r' c'
  | Err _, Err _ => True
  | _, _ => False
  end ∧
  (∀ w, chain_write_wf w → ∃ db',
     Keyed.Update (λ t, Ok (chain_write_txn w t)) db = Ok db' ∧
     rep (db_view db') r (chain_write_rows w c)).
Proof.
  intros Hrep Hws. split; [|intros w Hw; by apply chain_write_refines].
  assert (Hh : holds_rows db (Keyed.BeginTxn db) r c).
  { split; [apply on_db_new|]. unfold Keyed.BeginTxn. by rewrite view_new. }
  pose proof (writes_refine db ws _ r c Hh Hws) as Hr.
  destruct (run_writes write_txn ws _) as [t|], (run_writes write_rows ws r) as [r'|]; try done.
  split; [apply Hr|]. intros db' c' Hdb'. by apply (commit_rep db t r r' c db' c').
Qed.

Lemma txn_atomic_witness :
  let B := BadgerModel.badger in
  let ws := [WNull [1]; WAsset "BTC"; WContainer "acme" [7]] in
  is_ok (run_writes write_txn ws (Keyed.BeginTxn (∅ : gmap bytes Value))) = true ∧
  match run_writes write_txn ws (Keyed.BeginTxn (∅ : gmap bytes Value)),
        run_writes write_rows ws Rows.empty with
  | Ok t, Ok r' => rep (txn_view t) r' ChainRows.empty
  | _, _ => False
  end.
Proof.
  intros B ws. split; [vm_compute; reflexivity|].
  pose proof (txn_atomic (H:=B) (H0:=BadgerModel.laws) ∅ Rows.empty ChainRows.empty ws) as T.
  assert (H1 : rep (db_view (Badger:=B) ∅) Rows.empty ChainRows.empty).
  { split.
    - intros k _. cbn. rewrite lookup_empty. by destruct k; cbn; rewrite ?lookup_empty.
    - by intros key [v Hv].
    - intros k v. by destruct k; cbn; rewrite ?lookup_empty.
    - split; [done|]. intros txid h. cbn. by rewrite lookup_empty. }
  assert (H2 : Forall write_wf ws) by (repeat constructor; lia).
  exact (proj1 (proj1 (T H1 H2))).
Defined.

(** Every read of the key-value store, inside a transaction or after its commit,
    returns what the typed rows hold: the marks, the NFT of an id or of an owner,
    the number of NFTs, the proposals in byte order of their ids, the blocks, the
    head and the transaction index. *)
Theorem store_reads_rows `{BadgerLaws} t r c :
  rep (txn_view t) r c →
  (∀ n, is_bytes n → Keyed.isNullifierSpent n t = Rows.IsNullifierSpent n r) ∧
  (∀ id, is_bytes id → Keyed.getNFT id t = Ok (Rows.GetNFT id r)) ∧
  (∀ o, is_bytes o → Keyed.getNFTByOwner o t = Ok (Rows.GetNFTByOwner o r)) ∧
  Keyed.countNFTs t = Rows.CountNFTs r ∧
  (∀ id, is_bytes id → Keyed.getHold id t = Ok (Rows.GetHold id r)) ∧
  (∀ id, Keyed.getProposal id t = Ok (Rows.GetProposal id r)) ∧
  Keyed.listProposals t = Ok (Rows.ListProposals r) ∧
  (∀ id, Keyed.getContainerRoot id t = Ok (Rows.GetContainerRoot id r)) ∧
  (∀ a, Keyed.isAssetAuthorized a t = Rows.IsAssetAuthorized a r) ∧
  (∀ h, is_height h → Keyed.getBlock h t = Ok (ChainRows.GetBlock h c)) ∧
  Keyed.getHead t = Ok (ChainRows.GetHead c) ∧
  (∀ txid, is_bytes txid → Keyed.getTxHeight txid t = Ok (ChainRows.GetTxHeight txid c)).
Proof.
  intros Hrep. destruct (rep_heights _ _ _ Hrep) as [Hh1 Hh2]. split_and!.
  - intros n Hn. by eapply (present_rep _ _ _ (KNull n)).
  - intros id Hi. by eapply getNFT_rep.
  - intros o Ho. by eapply getNFTByOwner_rep.
  - by eapply countNFTs_rep.
  - intros id Hi. by eapply (getJSON_rep _ VHold _ _ _ (KHold id)).
  - intros id. by eapply (getJSON_rep _ VProposal _ _ _ (KProposal id)).
  - by eapply listProposals_rep.
  - intros id. by eapply (getJSON_rep _ VHash _ _ _ (KContainer id)).
  - intros a. by eapply (present_rep _ _ _ (KAsset a)).
  - intros h Hh. by eapply (getJSON_rep _ VBlock _ _ _ (KBlock h)).
  - by eapply (heights_rep _ _ _ KHead).
  - intros txid Ht. eapply (heights_rep _ _ _ (KTx txid)); [done..|]. by apply Hh2.
Qed.

Lemma store_reads_rows_witness :
  let B := BadgerModel.badger in
  Keyed.countNFTs (Keyed.BeginTxn (∅ : gmap bytes Value)) = Rows.CountNFTs Rows.empty.
Proof.
  intros B.
  assert (H1 : rep (txn_view (Keyed.BeginTxn (∅ : gmap bytes Value))) Rows.empty ChainRows.empty).
  { split.
    - intros k _. cbn. rewrite lookup_empty. by destruct k; cbn; rewrite ?lookup_empty.
    - by intros key [v Hv].
    - intros k v. by destruct k; cbn; rewrite ?lookup_empty.
    - split; [done|]. intros txid h. cbn. by rewrite lookup_empty. }
  exact (proj1 (proj2 (proj2 (proj2
    (store_reads_rows (H0:=BadgerModel.laws) (Keyed.BeginTxn ∅) Rows.empty ChainRows.empty H1))))).
Defined.
End StoreSpec.
