(* ===== verification/Chain.v ===== *)
(** pkg/chain: the chain head and its one safety gate, [Append], over the block, head
    and transaction-index rows of the store. *)
From S2P Require Import Prelude Words Decimal Hashing Types Committee NFT Store.

Module Chain.
(** [PubKeyLookup]. *)
Abbreviation PubKeyLookup := (NFTID → option bytes).

Record Chain := { ch_store : ChainRows; headHeight : Z; headHash : Hash }.

Definition genesis (genesisTimeMs : Z) : Block :=
  {| b_Height := 0; b_Epoch := 0; b_PrevHash := hash_zero; b_Timestamp := genesisTimeMs;
     b_Batch := []; b_TxRoot := hash_zero; b_StateRoot := hash_zero; b_DARoot := hash_zero;
     b_Proposer := hash_zero; b_ProposerSig := []; b_Votes := []; b_DualTrack := false |}.

Section chain.
Context `{Sha256, Mode3}.

Definition Open (store : ChainRows) (genesisTimeMs : Z) : result Chain :=
  match ChainRows.GetHead store with
  | Some height =>
      match ChainRows.GetBlock height store with
      | None => Err "chain: head height recorded but its block is missing"
      | Some b => Ok {| ch_store := store; headHeight := height; headHash := HashBlock b |}
      end
  | None =>
      let g := genesis genesisTimeMs in
      let store := ChainRows.SetHead 0 (ChainRows.PutBlock g store) in
      Ok {| ch_store := store; headHeight := 0; headHash := HashBlock g |}
  end.

Definition NextHeight (c : Chain) : Z := u64 (headHeight c + 1).

Definition NextBlock (c : Chain) (epoch : Z) (batch : list ShieldedTx)
    (txRoot stateRoot daRoot : Hash) (proposer : NFTID) (timestampMs : Z) : Block :=
  {| b_Height := u64 (headHeight c + 1); b_Epoch := epoch; b_PrevHash := headHash c;
     b_Timestamp := timestampMs; b_Batch := batch; b_TxRoot := txRoot;
     b_StateRoot := stateRoot; b_DARoot := daRoot; b_Proposer := proposer;
     b_ProposerSig := []; b_Votes := []; b_DualTrack := false |}.

(** The test of the vote loop of [Append]. *)
Definition vote_verifies (lookup : PubKeyLookup) (candidate : Hash) (v : Vote) : bool :=
  match lookup (v_Validator v) with
  | None => false
  | Some pk => bool_decide (DilithiumVerify pk candidate (v_Sig v) = Ok true)
  end.

Definition index_batch (height : Z) (batch : list ShieldedTx) (store : ChainRows) : ChainRows :=
  foldl (λ s t, ChainRows.IndexTx (tx_TxID t) height s) store batch.

Definition Append (c : Chain) (b : Block) (committee : list NFTID) (lookup : PubKeyLookup)
    : result Chain :=
  if negb (b_Height b =? u64 (headHeight c + 1)) then Err "chain: block height does not chain onto head"
  else if negb (bool_decide (b_PrevHash b = headHash c))
  then Err "chain: block PrevHash does not match head hash"
  else
    let candidate := HashBlock b in
    let verified := filter (λ v, vote_verifies lookup candidate v = true) (b_Votes b) in
    let '(_, quorum) := TallyVotes committee candidate verified in
    if negb quorum then Err "chain: quorum not met"
    else
      let store := ChainRows.SetHead (b_Height b) (ChainRows.PutBlock b (ch_store c)) in
      Ok {| ch_store := index_batch (b_Height b) (b_Batch b) store;
            headHeight := b_Height b; headHash := candidate |}.

(** A run of append attempts: a refused block leaves the chain as it was. *)
Definition attempt (c : Chain) (a : Block * list NFTID * PubKeyLookup) : Chain :=
  match Append c a.1.1 a.1.2 a.2 with Ok c' => c' | Err _ => c end.
Definition run (c : Chain) (attempts : list (Block * list NFTID * PubKeyLookup)) : Chain :=
  foldl attempt c attempts.
End chain.
End Chain.

(** * Specification *)

Section spec.
Import Chain.
Context `{Sha256, Mode3}.

(** The committee members that endorse a block with a signature that verifies. *)
Definition endorsers (b : Block) (committee : list NFTID) (lookup : PubKeyLookup) : gset NFTID :=
  voters_for (HashBlock b) (filter (λ v, vote_verifies lookup (HashBlock b) v = true) (b_Votes b))
    ∩ list_to_set committee.

(** A validator whose key verifies a signature over a block's hash. *)
Definition signed (lookup : PubKeyLookup) (id : NFTID) (h : Hash) : Prop :=
  ∃ pk sig, lookup id = Some pk ∧ DilithiumVerify pk h sig = Ok true.

(** The stored chain is linked from genesis to its head. *)
Record linked (c : Chain) : Prop := {
  lk_head : ChainRows.GetHead (ch_store c) = Some (headHeight c);
  lk_nonneg : 0 ≤ headHeight c;
  lk_blocks : ∀ h, 0 ≤ h ≤ headHeight c →
    ∃ b, ChainRows.GetBlock h (ch_store c) = Some b ∧ b_Height b = h;
  lk_tip : ∀ b, ChainRows.GetBlock (headHeight c) (ch_store c) = Some b → headHash c = HashBlock b;
  lk_prev : ∀ h b b', 0 ≤ h < headHeight c → ChainRows.GetBlock h (ch_store c) = Some b →
    ChainRows.GetBlock (h + 1) (ch_store c) = Some b' → b_PrevHash b' = HashBlock b;
  lk_index : ∀ txid h, ChainRows.GetTxHeight txid (ch_store c) = Some h →
    ∃ b, 0 ≤ h ≤ headHeight c ∧ ChainRows.GetBlock h (ch_store c) = Some b ∧
      txid ∈ tx_TxID <$> b_Batch b;
  lk_indexed : ∀ h b t, 1 ≤ h ≤ headHeight c → ChainRows.GetBlock h (ch_store c) = Some b →
    t ∈ b_Batch b → is_Some (ChainRows.GetTxHeight (tx_TxID t) (ch_store c)) }.
End spec.

(** * Lemmas *)

Section lemmas.
Import Chain.
Context `{Sha256, Mode3}.

Lemma index_batch_frame height batch s :
  ChainRows.blocks (index_batch height batch s) = ChainRows.blocks s ∧
  ChainRows.head (index_batch height batch s) = ChainRows.head s.
Proof.
  unfold index_batch. revert s. induction batch as [|t batch IH]; intros s; [done|].
  cbn. apply (IH (ChainRows.IndexTx (tx_TxID t) height s)).
Qed.

Lemma index_batch_lookup height batch s txid :
  ChainRows.GetTxHeight txid (index_batch height batch s) =
  if decide (txid ∈ tx_TxID <$> batch) then Some height else ChainRows.GetTxHeight txid s.
Proof.
  unfold index_batch, ChainRows.GetTxHeight. revert s.
  induction batch as [|t batch IH]; intros s; cbn [foldl].
  - rewrite decide_False; [done|]. apply not_elem_of_nil.
  - assert (E : ChainRows.txindex (ChainRows.IndexTx (tx_TxID t) height s) !! txid =
      if decide (tx_TxID t = txid) then Some height else ChainRows.txindex s !! txid)
      by apply lookup_insert.
    rewrite IH, E, fmap_cons. repeat case_decide; try done; set_solver.
Qed.

(** [Append] decides: height, link and a strict majority of verified endorsers. *)
Lemma Append_Ok c b committee lookup c' :
  Append c b committee lookup = Ok c' ↔
  b_Height b = NextHeight c ∧ b_PrevHash b = headHash c ∧
  Z.of_nat (length committee) < 2 * Z.of_nat (size (endorsers b committee lookup)) ∧
  c' = {| ch_store := index_batch (b_Height b) (b_Batch b)
                        (ChainRows.SetHead (b_Height b) (ChainRows.PutBlock b (ch_store c)));
          headHeight := b_Height b; headHash := HashBlock b |}.
Proof.
  unfold Append. destruct (Z.eqb_spec (b_Height b) (u64 (headHeight c + 1))) as [E|]; cbn [negb]; [|naive_solver].
  case_bool_decide as Ep; cbn [negb]; [|naive_solver].
  pose proof (TallyVotes_size committee (HashBlock b)
    (filter (λ v, vote_verifies lookup (HashBlock b) v = true) (b_Votes b))) as Hsz.
  fold (endorsers b committee lookup) in Hsz.
  assert (Hq : (TallyVotes committee (HashBlock b)
    (filter (λ v, vote_verifies lookup (HashBlock b) v = true) (b_Votes b))).2 = true ↔
    Z.of_nat (length committee) < 2 * Z.of_nat (size (endorsers b committee lookup))).
  { unfold TallyVotes, BFTQuorumMet in *. cbn [fst snd] in *. rewrite Hsz.
    assert (length committee = 0%nat → size (endorsers b committee lookup) = 0%nat).
    { intros ->%nil_length_inv. apply size_empty_iff. unfold endorsers. set_solver. }
    case_match eqn:Ec; bools; [|lia]. split; [done|]. intros. lia. }
  destruct (TallyVotes _ _ _) as [n q]. cbn in Hq. destruct q; cbn [negb].
  - split; [intros [= <-]; naive_solver|]. by intros (_ & _ & _ & ->).
  - split; [done|]. intros (_ & _ & Hl & _). by apply Hq in Hl.
Qed.

Lemma endorsers_signed b committee lookup id :
  id ∈ endorsers b committee lookup → id ∈ committee ∧ signed lookup id (HashBlock b).
Proof.
  unfold endorsers, voters_for. rewrite elem_of_intersection, !elem_of_list_to_set, list_elem_of_fmap.
  intros [(v & -> & Hv) Hc]. split; [done|]. rewrite !list_elem_of_filter in Hv.
  destruct Hv as (_ & Hv & _). unfold vote_verifies in Hv.
  destruct (lookup (v_Validator v)) as [pk|] eqn:E; [|done]. apply bool_decide_eq_true in Hv.
  by exists pk, (v_Sig v).
Qed.

Lemma linked_open_genesis t c : Open ChainRows.empty t = Ok c → linked c.
Proof.
  unfold Open. cbn. intros [= <-]. split; cbn; try done.
  - intros h Hh. exists (genesis t). unfold ChainRows.GetBlock. cbn.
    replace h with 0 by lia. rewrite lookup_insert. by rewrite decide_True.
  - intros b. unfold ChainRows.GetBlock. cbn. rewrite lookup_insert, decide_True by done. by intros [= <-].
  - intros h b b' Hh. lia.
  - intros h b tx Hh. lia.
Qed.

Lemma linked_append c b committee lookup c' :
  linked c → headHeight c < 2 ^ 64 - 1 → Append c b committee lookup = Ok c' → linked c'.
Proof.
  intros [L1 L2 L3 L4 L5 L6 L7] Hlt (Eh & Ep & _ & ->)%Append_Ok.
  unfold NextHeight in Eh. rewrite u64_id in Eh by lia.
  destruct (index_batch_frame (b_Height b) (b_Batch b)
    (ChainRows.SetHead (b_Height b) (ChainRows.PutBlock b (ch_store c)))) as [Fb Fh].
  assert (Hget : ∀ h, ChainRows.GetBlock h (index_batch (b_Height b) (b_Batch b)
      (ChainRows.SetHead (b_Height b) (ChainRows.PutBlock b (ch_store c)))) =
    if decide (h = b_Height b) then Some b else ChainRows.GetBlock h (ch_store c)).
  { intros h. unfold ChainRows.GetBlock. rewrite Fb. cbn. rewrite lookup_insert.
    repeat case_decide; congruence. }
  split; cbn [ch_store headHeight headHash].
  - unfold ChainRows.GetHead. by rewrite Fh.
  - lia.
  - intros h Hh. rewrite Hget. case_decide as Hd; [by exists b|]. apply L3. lia.
  - intros b'. rewrite Hget, decide_True by done. by intros [= <-].
  - intros h b1 b2 Hh. rewrite !Hget. rewrite (decide_False (P := h = b_Height b)) by lia.
    intros H1. case_decide as Hd.
    + intros [= <-]. rewrite Ep. apply L4. replace (headHeight c) with h by lia. done.
    + apply L5; [lia|done].
  - intros txid h. rewrite index_batch_lookup. setoid_rewrite Hget. case_decide as Hd.
    + intros [= <-]. exists b. rewrite decide_True by done. split; [lia|done].
    + intros E. destruct (L6 txid h E) as (b1 & Hh & Hb1 & Hin). exists b1.
      rewrite decide_False by lia. split; [lia|done].
  - intros h b1 t Hh. rewrite Hget, index_batch_lookup. case_decide as Hd.
    + intros [= <-] Ht. rewrite decide_True; [by eexists|]. by apply list_elem_of_fmap_2.
    + intros Hb1 Ht. case_decide; [by eexists|]. eapply L7; [|done..]. lia.
Qed.

Lemma run_linked attempts c :
  linked c → headHeight c + Z.of_nat (length attempts) < 2 ^ 64 →
  linked (run c attempts) ∧
  headHeight c ≤ headHeight (run c attempts) ≤ headHeight c + Z.of_nat (length attempts) ∧
  (∀ h, 0 ≤ h ≤ headHeight c →
     ChainRows.GetBlock h (ch_store (run c attempts)) = ChainRows.GetBlock h (ch_store c)).
Proof.
  unfold run. revert c. induction attempts as [|a attempts IH]; intros c Hl Hn; cbn [foldl].
  { split; [done|]. split; [lia|done]. }
  cbn [length] in Hn. unfold attempt at 2 4 6 8. destruct (Append c _ _ _) as [c'|] eqn:E.
  - assert (Hl' : linked c') by (eapply linked_append; [done|lia|done]).
    apply Append_Ok in E as (Eh & _ & _ & ->).
    unfold NextHeight in Eh. pose proof (lk_nonneg _ Hl). rewrite u64_id in Eh by lia.
    destruct (IH _ Hl') as (I1 & I2 & I3); [cbn; lia|]. cbn [headHeight] in *.
    split; [done|]. cbn [length]. split; [split; [lia|]; etrans; [apply I2|lia]|]. intros h Hh. rewrite I3 by lia. cbn [ch_store].
    unfold ChainRows.GetBlock.
    destruct (index_batch_frame (b_Height a.1.1) (b_Batch a.1.1)
      (ChainRows.SetHead (b_Height a.1.1) (ChainRows.PutBlock a.1.1 (ch_store c)))) as [-> _].
    cbn. rewrite lookup_insert_ne; [done|lia].
  - destruct (IH c Hl ltac:(lia)) as (I1 & I2 & I3). cbn [length]. split; [done|]. split; [lia|done].
Qed.
End lemmas.

(** * Properties *)

Module ChainSpec.
Import Chain.

(** The append gate. A block is accepted exactly when its height is the next one,
    its parent is the head, and a strict majority of the committee signed its header
    hash with signatures that verify (outsiders, repeated and unverifiable votes never
    count); it then becomes the head and its transactions are indexed. Two blocks
    accepted on one head by one committee have the same header, unless SHA-256
    collides or some committee member signed two different hashes. *)
Theorem append_gate `{Sha256, Mode3} c b committee lookup :
  (∀ c', Append c b committee lookup = Ok c' ↔
     b_Height b = NextHeight c ∧ b_PrevHash b = headHash c ∧
     Z.of_nat (length committee) < 2 * Z.of_nat (size (endorsers b committee lookup)) ∧
     c' = {| ch_store := index_batch (b_Height b) (b_Batch b)
                           (ChainRows.SetHead (b_Height b) (ChainRows.PutBlock b (ch_store c)));
             headHeight := b_Height b; headHash := HashBlock b |}) ∧
  (∀ id, id ∈ endorsers b committee lookup → id ∈ committee ∧ signed lookup id (HashBlock b)) ∧
  (∀ b2 lookup2, NoDup committee → block_wf b → block_wf b2 →
     is_ok (Append c b committee lookup) = true → is_ok (Append c b2 committee lookup2) = true →
     same_header b b2 ∨ collision ∨
     ∃ id, id ∈ committee ∧ signed lookup id (HashBlock b) ∧ signed lookup2 id (HashBlock b2) ∧
       HashBlock b ≠ HashBlock b2).
Proof.
  split; [intros c'; apply Append_Ok|]. split; [intros id; apply endorsers_signed|].
  intros b2 lookup2 Hnd Hw Hw2 E1 E2.
  destruct (Append c b committee lookup) as [c1|] eqn:A1; [|done].
  destruct (Append c b2 committee lookup2) as [c2|] eqn:A2; [|done].
  apply Append_Ok in A1 as (_ & _ & Q1 & _), A2 as (_ & _ & Q2 & _).
  destruct (decide (HashBlock b = HashBlock b2)) as [E|Hne].
  - unfold HashBlock in E. apply SumHash_inj in E as [E|]; [left|by right; left|..];
      [by apply header_parts_inj|by apply header_parts_slice_ok..].
  - right; right. destruct (decide (endorsers b committee lookup ∩ endorsers b2 committee lookup2 = ∅)) as [Ed|Ed].
    + exfalso.
      assert (Hsz : (size (endorsers b committee lookup ∪ endorsers b2 committee lookup2) ≤
                     size (list_to_set committee : gset NFTID))%nat).
      { apply subseteq_size. unfold endorsers. set_solver. }
      rewrite size_union in Hsz by set_solver. rewrite size_committee in Hsz by done. lia.
    + apply set_choose_L in Ed as [id [Hi1 Hi2]%elem_of_intersection]. exists id.
      apply endorsers_signed in Hi1 as [? ?], Hi2 as [? ?]. done.
Qed.

(** C30: the stored chain is always linked. From genesis, through any sequence of
    append attempts, accepted or refused: every height up to the head has its block,
    each block's PrevHash is its parent's hash, the head hash is the tip's, the index
    points only at blocks that contain the transaction and misses none; blocks once
    committed are never replaced, and reopening the store gives back the same chain. *)
Theorem chain_stays_linked `{Sha256, Mode3} t c0 attempts more :
  Open ChainRows.empty t = Ok c0 → Z.of_nat (length attempts + length more) < 2 ^ 64 - 1 →
  let c := run c0 attempts in
  let c' := run c more in
  linked c' ∧ headHeight c ≤ headHeight c' ∧
  (∀ h, 0 ≤ h ≤ headHeight c →
     ChainRows.GetBlock h (ch_store c') = ChainRows.GetBlock h (ch_store c)) ∧
  (∀ t', Open (ch_store c') t' = Ok c').
Proof.
  intros Ho Hn c c'.
  pose proof (linked_open_genesis t c0 Ho) as L0.
  assert (E0 : headHeight c0 = 0) by (unfold Open in Ho; cbn in Ho; by injection Ho as <-).
  destruct (run_linked attempts c0 L0) as (L1 & Hge & _); [lia|].
  destruct (run_linked more c L1) as (L2 & Hge2 & Hkeep); [subst c; lia|].
  split; [exact L2|]. split; [apply Hge2|]. split; [exact Hkeep|].
  intros t'. unfold Open. fold c' in L2. rewrite (lk_head _ L2).
  destruct (lk_blocks _ L2 (headHeight c')) as (b & Hb & _); [pose proof (lk_nonneg _ L2); lia|].
  rewrite Hb, <-(lk_tip _ L2 b Hb). by destruct c'.
Qed.

(** A block that two of the three members of a committee endorse. *)
Definition sample_lookup : PubKeyLookup := λ id, if decide (length id = 1%nat) then Some [7] else None.
Definition sample_block : Block :=
  let S := CryptoModel.sha in
  let b := {| b_Height := 1; b_Epoch := 0; b_PrevHash := HashBlock (genesis 0); b_Timestamp := 5;
              b_Batch := [zero_tx [9] TxMint]; b_TxRoot := hash_zero; b_StateRoot := hash_zero;
              b_DARoot := hash_zero; b_Proposer := [1]; b_ProposerSig := []; b_Votes := [];
              b_DualTrack := false |} in
  let vote id := {| v_Validator := id; v_StateRoot := HashBlock b;
                    v_Sig := [len (HashBlock b) mod 256] |} in
  b <| b_Votes := [vote [1]; vote [3]; vote [3]; vote [4]] |>.

Lemma chain_stays_linked_witness :
  let S := CryptoModel.sha in let M := CryptoModel.mode3 in
  let c0 := {| ch_store := ChainRows.SetHead 0 (ChainRows.PutBlock (genesis 0) ChainRows.empty);
               headHeight := 0; headHash := HashBlock (genesis 0) |} in
  let c := run c0 [(sample_block, [[1]; [2]; [3]], sample_lookup)] in
  headHeight c = 1 ∧ linked (run c []).
Proof.
  intros S M c0 c. split; [vm_compute; reflexivity|].
  refine (proj1 (chain_stays_linked 0 c0 [(sample_block, [[1]; [2]; [3]], sample_lookup)] [] _ _)).
  - reflexivity.
  - cbn. lia.
Defined.
End ChainSpec.
