(* ===== verification/Pipeline.v ===== *)
(** pkg/tx/pipeline.go: the five-stage validation of a batch over the node's shared
    state. A stage is a [call] over [State]: it mutates what the Go code mutates, in
    the same order, and keeps those mutations when it fails later. *)
From S2P Require Import Prelude Words Decimal Hashing Types Epoch Mempool Governance Bank Merkle.
From S2P Require Import Field ZkTree Circuit Groth NFT Silent Store.
Import Decimal (lit).

Definition DefaultOracleTolerance : Decimal := lit 2 100.

Section pipeline.
Context `{SHA : Sha256, M3 : Mode3, ED : Ed25519, BR : BigRat, FR : Fr, MM : MiMC, GR : !Groth16}.

(** ** State and dependencies *)

(** The mutable part of [Deps], shared with the node, and the reservations of the
    pipeline. A field of pointer type that may be nil is an option. *)
Record State := {
  st_Store : Rows; st_StateTree : MerkleTree;
  st_ZKTree : option ZkTree.Tree; st_ZKRoots : option RootHistory.RootHistory;
  st_Vault : option Vault.Vault; st_Silent : option Silent.RateMonitor;
  st_Oracle : option Oracle.Quorum; st_Governance : option Governance.Params;
  st_EligibilityTree : option ZkTree.Tree; st_EligibilityRoots : option RootHistory.RootHistory;
  st_StakeTree : option ZkTree.Tree; st_StakeRoots : option RootHistory.RootHistory;
  pendingNullifiers : gset Hash }.

(** The rest of [Deps]: the verifying keys of the ZK systems (nil is [None]), the
    block being processed, and the instant [Now] returns, fixed for a block. *)
Record Deps := {
  d_ZK : option VerifyingKey; d_EligibilityZK : option VerifyingKey;
  d_MintZK : option VerifyingKey; d_StakeZK : option VerifyingKey;
  d_UnstakeZK : option VerifyingKey;
  d_OracleTolerance : Decimal; d_Epoch : Z; d_Height : Z;
  d_TrustedPoHAttestors : list bytes; d_Now : Time }.

Context (json_marshal : ShieldedTx → result bytes).
Context (deps : Deps).
Abbreviation run := (call State).

Definition oracleTolerance : Decimal :=
  if Decimal.Sign (d_OracleTolerance deps) <=? 0 then DefaultOracleTolerance
  else d_OracleTolerance deps.

(** ** Nullifier reservations *)

Definition reserveNullifiers (nullifiers : list Hash) : run unit :=
  pending ← gets pendingNullifiers;
  _ ← check (negb (existsb (λ n, bool_decide (n ∈ pending)) nullifiers))
        "nullifier already reserved in this batch (double-spend)";
  store ← gets st_Store;
  check (negb (existsb (λ n, Rows.IsNullifierSpent n store) nullifiers)) "nullifier already spent".

Definition markReserved (nullifiers : list Hash) : run unit :=
  modify (λ s, s <| pendingNullifiers ::= λ p, list_to_set nullifiers ∪ p |>).

Definition txNullifiers (t : ShieldedTx) : list Hash :=
  match tx_Kind t with
  | TxTransfer => match tx_Transfer t with None => [] | Some pub => tpi_Nullifiers pub end
  | TxUnstake => [tx_Nullifier t]
  | _ => []
  end.

(** [release] and [finalize] both drop the transaction's reservations. *)
Definition release (t : ShieldedTx) : run unit :=
  if bool_decide (txNullifiers t = []) then mret tt
  else modify (λ s, s <| pendingNullifiers ::= λ p, p ∖ list_to_set (txNullifiers t) |>).
Definition finalize (t : ShieldedTx) : run unit := release t.

(** ** Stage 1 *)

(** The public inputs Stage 1 hands to the verifier. *)
Definition transfer_public_of (pub : TransferPublicInputs) : TransferPublic :=
  {| tp_MerkleRoot := FieldElementFromBytes32 (tpi_MerkleRoot pub);
     tp_Nullifiers := FieldElementFromBytes32 <$> tpi_Nullifiers pub;
     tp_OutCommits := FieldElementFromBytes32 <$> tpi_OutCommits pub;
     tp_Fee := tpi_FeeAmount pub |}.

Definition stage1Transfer (t : ShieldedTx) : run ShieldedTx :=
  match tx_Transfer t with
  | None => fail "transfer missing public inputs"
  | Some pub =>
      _ ← check (negb (bool_decide (tpi_Nullifiers pub = []))) "transfer missing public inputs";
      _ ← reserveNullifiers (tpi_Nullifiers pub);
      match d_ZK deps with
      | None => fail "no ZK system configured; cannot verify a Transfer proof"
      | Some vk =>
          let rootElem := FieldElementFromBytes32 (tpi_MerkleRoot pub) in
          roots ← gets st_ZKRoots;
          _ ← check (match roots with None => true | Some h => RootHistory.Contains h rootElem end)
                "proof anchored to an unrecognized commitment tree root";
          _ ← check (is_ok (VerifyPublicProofBytes vk (tx_Proof t) (transfer_public_of pub)))
                "zk proof invalid";
          _ ← markReserved (tpi_Nullifiers pub);
          mret (with_stage 1 t)
      end
  end.

Definition unstake_public_of (pub : UnstakePublicInputs) (nullifier outCommit : Hash) : UnstakePublic :=
  {| up_MerkleRoot := FieldElementFromBytes32 (upi_MerkleRoot pub);
     up_Nullifier := FieldElementFromBytes32 nullifier;
     up_Principal := upi_Principal pub; up_StartEpoch := upi_StartEpoch pub;
     up_FinalAmount := upi_FinalAmount pub;
     up_OutCommit := FieldElementFromBytes32 outCommit |}.

Definition stage1Unstake (t : ShieldedTx) : run ShieldedTx :=
  match tx_Unstake t with
  | None => fail "unstake tx missing public inputs"
  | Some pub =>
      match tx_Commitments t with
      | [outCommit] =>
          _ ← reserveNullifiers [tx_Nullifier t];
          match d_UnstakeZK deps with
          | None => fail "no unstake ZK system configured; cannot verify an Unstake proof"
          | Some vk =>
              stakeRoots ← gets st_StakeRoots;
              match stakeRoots with
              | None => fail "no stake root history configured"
              | Some h =>
                  _ ← check (RootHistory.Contains h (FieldElementFromBytes32 (upi_MerkleRoot pub)))
                        "unstake proof anchored to an unrecognized stake-commitment tree root";
                  _ ← check (upi_FinalAmount pub =?
                             FinalAmount (upi_Principal pub) (upi_StartEpoch pub) (d_Epoch deps))
                        "claimed final amount does not match the real yield formula for this epoch";
                  _ ← check (is_ok (VerifyUnstakeProofBytes vk (tx_Proof t)
                                      (unstake_public_of pub (tx_Nullifier t) outCommit)))
                        "unstake proof invalid";
                  _ ← markReserved [tx_Nullifier t];
                  mret (with_stage 1 t)
              end
          end
      | _ => fail "unstake tx must carry exactly one output commitment"
      end
  end.

Definition stage1SenderLeave (t : ShieldedTx) : run ShieldedTx :=
  match tx_Kind t with
  | TxTransfer => stage1Transfer t
  | TxUnstake => stage1Unstake t
  | _ => mret (with_stage 1 t)
  end.

(** ** Stage 2 *)

(** The optional classical co-signature. *)
Definition check_dual_sign (t : ShieldedTx) : run unit :=
  let has_sig := negb (bool_decide (tx_ClassicalSig t = [])) in
  let has_key := negb (bool_decide (tx_ClassicalPubKey t = [])) in
  if has_sig || has_key then
    gov ← gets st_Governance;
    _ ← check (match gov with None => true | Some g => Governance.DualSignEnabled g end)
          "dual-sign has been retired by governance";
    _ ← check (has_sig && has_key)
          "dual-sign requires both a classical signature and a classical public key";
    match ClassicalVerify (tx_ClassicalPubKey t) (tx_TxID t) (tx_ClassicalSig t) with
    | Err _ => fail "classical signature check"
    | Ok ok => check ok "classical signature does not verify against the claimed classical public key"
    end
  else mret tt.

(** Spike detection, run after the signature check. *)
Definition check_rate (t : ShieldedTx) : run unit :=
  silent ← gets st_Silent;
  match silent with
  | None => mret tt
  | Some m =>
      let addr := SumHash [tx_SignerPubKey t] in
      let '(held, m) := Silent.IsHeld m addr (d_Now deps) in
      _ ← modify (λ s, s <| st_Silent := Some m |>);
      _ ← check (negb held) "wallet is under an active spike-response hold";
      let m := Silent.RecordTx m addr (d_Now deps) in
      let '(action, m) := Silent.EvaluateSpike m addr (d_Now deps) in
      match action with
      | None => modify (λ s, s <| st_Silent := Some m |>)
      | Some a =>
          _ ← modify (λ s, s <| st_Silent := Some (Silent.PlaceHold m addr (Silent.HoldUntil a)) |>);
          fail "transaction rate spike detected"
      end
  end.

(** The per-kind well-formedness switch. *)
Definition check_inputs (t : ShieldedTx) : result unit :=
  match tx_Kind t with
  | TxTransfer => require (negb (IsZero (tx_FeeCommit t))) "transfer missing fee commitment"
  | TxBankDeposit | TxBankWithdraw =>
      require (match tx_Bank t with None => false | Some _ => true end) "bank tx missing public inputs"
  | TxVote =>
      match tx_Vote t with
      | None => Err "vote tx missing public inputs"
      | Some pub =>
          match tx_VoteEligibility t with
          | None => Err "vote tx missing real anonymous eligibility proof (VoteEligibility)"
          | Some _ =>
              if vpi_MintAmount pub =? 0 then Ok tt
              else if vpi_MintStaked pub then
                _ ← require (negb (bool_decide (vpi_StakeProof pub = [])))
                      "vote tx claims a staked mint amount but is missing StakeProof";
                require (negb (IsZero (vpi_StakePositionCommit pub)))
                  "vote tx claims a staked mint amount but StakePositionCommit is empty"
              else
                _ ← require (negb (bool_decide (vpi_MintProof pub = [])))
                      "vote tx claims a mint amount but is missing MintProof";
                require (negb (IsZero (vpi_MintOutCommit pub)))
                  "vote tx claims a mint amount but MintOutCommit is empty"
          end
      end
  | TxVoteReveal =>
      match tx_VoteReveal t, tx_VoteEligibility t with
      | None, _ => Err "vote reveal tx missing public inputs"
      | Some _, None => Err "vote reveal tx missing real anonymous eligibility proof (VoteEligibility)"
      | Some _, Some _ => Ok tt
      end
  | TxNFTTrait =>
      require (match tx_Trait t with None => false | Some _ => true end) "NFTTrait tx missing public inputs"
  | TxNFTMint =>
      require (match tx_NFTMint t with None => false | Some _ => true end) "NFTMint tx missing public inputs"
  | TxUnstake =>
      match tx_Unstake t with
      | None => Err "unstake tx missing public inputs"
      | Some _ =>
          _ ← require (negb (bool_decide (tx_Proof t = []))) "unstake tx missing proof";
          require (negb (IsZero (tx_Nullifier t))) "unstake tx missing nullifier"
      end
  | TxNFTTransfer =>
      match tx_NFTTransfer t with
      | None => Err "NFTTransfer tx missing public inputs"
      | Some pub => require (negb (IsZero (ntpi_Target pub))) "NFTTransfer tx missing target NFT"
      end
  | TxMint | TxContainerSync | TxUnknown _ => Ok tt
  end.

Definition stage2TxOffer (t : ShieldedTx) (submittedAt : Time) : run ShieldedTx :=
  _ ← check (match tx_Kind t with TxUnknown _ => false | _ => true end) "unknown tx kind";
  _ ← check (time_is_zero submittedAt || (time_sub (d_Now deps) submittedAt <=? TxTTL))
        "transaction expired";
  _ ← check (match Mempool.jsonSize json_marshal t with Ok size => size <=? MaxTxSize | Err _ => true end)
        "transaction exceeds the serialized size cap";
  _ ← check (bool_decide (tx_TxID t = ComputeTxID (tx_Proof t) (tx_Commitments t) (tx_Nullifier t)))
        "TxID does not match Hash(proof || commitments || nullifier)";
  _ ← check (negb (bool_decide (tx_Sig t = []) || bool_decide (tx_SignerPubKey t = [])))
        "missing signature or signer public key";
  match DilithiumVerify (tx_SignerPubKey t) (tx_TxID t) (tx_Sig t) with
  | Err _ => fail "signature check"
  | Ok ok =>
      _ ← check ok "signature does not verify against the claimed signer key";
      _ ← check_dual_sign t;
      _ ← check_rate t;
      _ ← lift (check_inputs t);
      mret (with_stage 2 t)
  end.

(** ** Stage 3 *)

Definition stage3ReceiverCheck (t : ShieldedTx) : run ShieldedTx :=
  _ ← check (match tx_Kind t with
             | TxTransfer => match tx_Transfer t with
                             | None => false
                             | Some pub => negb (bool_decide (tpi_OutCommits pub = []))
                             end
             | _ => true
             end) "transfer has no receiver note commitments";
  _ ← check (match tx_ContainerID t with Some EmptyString => false | _ => true end) "empty container id";
  mret (with_stage 3 t).

(** ** Stage 4, by kind *)

(** Appending commitments to the state tree. *)
Definition append_state (cs : list Hash) : run unit :=
  modify (λ s, s <| st_StateTree ::= λ m, foldl (λ m c, (Append m c).2) m cs |>).

(** [ZKTree.Insert] of one commitment. *)
Definition insert_zk (c : Hash) : run unit :=
  tree ← gets st_ZKTree;
  match tree with
  | None => mret tt
  | Some tree =>
      match ZkTree.Insert tree (FieldElementFromBytes32 c) with
      | Err _ => fail "insert commitment into canonical tree"
      | Ok (_, tree) => modify (λ s, s <| st_ZKTree := Some tree |>)
      end
  end.
Fixpoint insert_all_zk (cs : list Hash) : run unit :=
  match cs with
  | [] => mret tt
  | c :: cs => _ ← insert_zk c; insert_all_zk cs
  end.

(** [ZKRoots.Record(ZKTree.Root())]. *)
Definition record_zk_root : run unit :=
  modify (λ s, match st_ZKTree s, st_ZKRoots s with
               | Some tree, Some h => s <| st_ZKRoots := Some (RootHistory.Record_root h (ZkTree.Root tree)) |>
               | _, _ => s
               end).

Definition zk_room (n : Z) (tree : option ZkTree.Tree) : bool :=
  match tree with None => true | Some tree => n <=? ZkTree.Remaining tree end.

Definition exec_transfer (pub : TransferPublicInputs) : run unit :=
  tree ← gets st_ZKTree;
  _ ← check (zk_room (Z.of_nat (length (tpi_OutCommits pub))) tree)
        "canonical commitment tree has no room for more output commitments";
  _ ← append_state (tpi_OutCommits pub);
  _ ← insert_all_zk (tpi_OutCommits pub);
  record_zk_root.

Definition withinTolerance (claimed real tol : Decimal) : bool :=
  if Decimal.Sign real <=? 0 then Decimal.Sign claimed =? 0
  else
    let diff := Decimal.Sub claimed real in
    let diff := if Decimal.IsNeg diff then Decimal.Sub Decimal.Zero diff else diff in
    match Decimal.Div diff real with
    | Ok q => Decimal.Cmp q tol <=? 0
    | Err _ => false
    end.

Definition checkOraclePrice (oracle : Oracle.Quorum) (kind : TxKind) (pub : BankPublicInputs)
    : run unit :=
  let '(r, oracle') := Oracle.quote oracle (bpi_Asset pub) in
  _ ← modify (λ s, s <| st_Oracle := Some oracle' |>);
  quote ← match r with
          | Ok q => mret q
          | Err _ =>
              if negb (bool_decide (kind = TxBankWithdraw))
              then fail "oracle unavailable, freezing new deposits"
              else match Oracle.LastGood oracle' (bpi_Asset pub) with
                   | None => fail "oracle unavailable and no last-good snapshot"
                   | Some q => mret q
                   end
          end;
  _ ← check (withinTolerance (bpi_OraclePriceUSD pub) (Oracle.qt_PriceUSD quote) oracleTolerance)
        "claimed price diverges from oracle reading beyond tolerance";
  check (withinTolerance (bpi_ATRUSD pub) (Oracle.qt_ATRUSD quote) oracleTolerance)
    "claimed ATR diverges from oracle reading beyond tolerance".

Definition exec_bank (t : ShieldedTx) (pub : BankPublicInputs) : run unit :=
  store ← gets st_Store;
  _ ← check (bool_decide (bpi_Asset pub = EmptyString) || bool_decide (bpi_Asset pub = AssetSFG) ||
             Rows.IsAssetAuthorized (bpi_Asset pub) store)
        "asset is not authorized by governance for Bank use";
  gov ← gets st_Governance;
  let depositMult := match gov with None => Bank.DepositATRMultiple
                     | Some g => Governance.DepositATRMultiple g end in
  let withdrawMult := match gov with None => Bank.WithdrawATRMultiple
                      | Some g => Governance.WithdrawATRMultiple g end in
  let wantBuffer := if bool_decide (tx_Kind t = TxBankDeposit)
                    then Decimal.Mul depositMult (bpi_ATRUSD pub)
                    else Decimal.Mul withdrawMult (bpi_ATRUSD pub) in
  _ ← check (Decimal.Cmp (bpi_BufferUSD pub) wantBuffer =? 0) "bound buffer does not match";
  oracle ← gets st_Oracle;
  _ ← match oracle with
      | None => mret tt
      | Some q => checkOraclePrice q (tx_Kind t) pub
      end;
  append_state (tx_Commitments t).

Definition exec_trait (t : ShieldedTx) (pub : TraitPublicInputs) : run unit :=
  match tx_Commitments t with
  | [] => fail "NFTTrait tx missing target NFT reference"
  | targetID :: _ =>
      store ← gets st_Store;
      match Rows.GetNFT targetID store with
      | None => fail "no NFT record for trait update target"
      | Some rec =>
          let key := (trpi_Key pub +:+ "_last_delta_commitment")%string in
          let rec := rec <| nft_Traits ::= <[key := hex_encode (trpi_DeltaCommitment pub)]> |> in
          modify (λ s, s <| st_Store ::= Rows.PutNFT rec |>)
      end
  end.

(** [requireEligibleVoterZK]: the nullifier of a verified eligibility proof. *)
Definition requireEligibleVoterZK (proof : option VoteEligibilityProof) (proposalID : string)
    : run Hash :=
  match d_EligibilityZK deps with
  | None => fail "no anonymous eligibility ZK system configured"
  | Some vk =>
      roots ← gets st_EligibilityRoots;
      match roots with
      | None => fail "no eligibility root history configured"
      | Some h =>
          match proof with
          | None => fail "missing voter eligibility proof"
          | Some p =>
              let rootElem := FieldElementFromBytes32 (vep_MerkleRoot p) in
              _ ← check (RootHistory.Contains h rootElem)
                    "eligibility proof anchored to an unrecognized commitment tree root";
              let pub := {| ep_MerkleRoot := rootElem;
                            ep_Nullifier := FieldElementFromBytes32 (vep_Nullifier p);
                            ep_ProposalScope :=
                              FieldElementFromBytes32 (VoteEligibilityScope proposalID) |} in
              _ ← check (is_ok (VerifyEligibilityProofBytes vk (vep_Proof p) pub))
                    "eligibility proof invalid";
              mret (vep_Nullifier p)
          end
      end
  end.

(** The claim a proposal's first vote binds: its mint proof, and the existence of
    what its other effects target. *)
Definition check_mint_claim (pub : VotePublicInputs) : result unit :=
  if vpi_MintAmount pub =? 0 then Ok tt
  else if vpi_MintStaked pub then
    match d_StakeZK deps with
    | None => Err "no stake ZK system configured; cannot verify a real staked epoch-mint claim"
    | Some vk =>
        let stakePub := {| sp_Principal := vpi_MintAmount pub; sp_StartEpoch := d_Epoch deps;
                           sp_PositionCommit := FieldElementFromBytes32 (vpi_StakePositionCommit pub) |} in
        require (is_ok (VerifyStakeProofBytes vk (vpi_StakeProof pub) stakePub)) "stake proof invalid"
    end
  else
    match d_MintZK deps with
    | None => Err "no mint ZK system configured; cannot verify a real epoch-mint claim"
    | Some vk =>
        let mintPub := {| mp_Amount := MintNetAmount (vpi_MintAmount pub);
                          mp_OutCommit := FieldElementFromBytes32 (vpi_MintOutCommit pub) |} in
        require (is_ok (VerifyMintProofBytes vk (vpi_MintProof pub) mintPub)) "mint proof invalid"
    end.

Definition nft_exists (store : Rows) (id : NFTID) : bool :=
  match Rows.GetNFT id store with None => false | Some _ => true end.

Definition check_proposal (s : State) (pub : VotePublicInputs) : result unit :=
  _ ← check_mint_claim pub;
  _ ← require (IsZero (vpi_SlashTargetNFT pub) || nft_exists (st_Store s) (vpi_SlashTargetNFT pub))
        "slash proposal targets a nonexistent NFT";
  _ ← require (IsZero (vpi_UnlockTransferTarget pub) ||
               nft_exists (st_Store s) (vpi_UnlockTransferTarget pub))
        "unlock-transfer proposal targets a nonexistent NFT";
  _ ← when (negb (bool_decide (vpi_ContainerAssetTarget pub = EmptyString)))
        (_ ← require (negb (bool_decide (vpi_ContainerAssetTarget pub = AssetSFG)))
               "container-asset proposal targets the native asset";
         require (negb (Rows.IsAssetAuthorized (vpi_ContainerAssetTarget pub) (st_Store s)))
           "container-asset proposal targets an asset already authorized");
  when (vpi_UnwindDualSign pub)
    (require (match st_Governance s with None => true | Some g => Governance.DualSignEnabled g end)
       "dual-sign has already been retired by governance").

Definition new_proposal (pub : VotePublicInputs) : ProposalRecord :=
  {| pr_ProposalID := vpi_ProposalID pub; pr_Epoch := d_Epoch deps;
     pr_Commitments := ∅; pr_Reveals := ∅;
     pr_ParamKey := vpi_ParamKey pub; pr_NewValue := vpi_NewValue pub;
     pr_MintAmount := vpi_MintAmount pub; pr_MintOutCommit := vpi_MintOutCommit pub;
     pr_MintApplied := false; pr_MintStaked := vpi_MintStaked pub;
     pr_StakePositionCommit := vpi_StakePositionCommit pub;
     pr_SlashTargetNFT := vpi_SlashTargetNFT pub; pr_SlashBurn := vpi_SlashBurn pub;
     pr_SlashApplied := false; pr_UnlockTransferTarget := vpi_UnlockTransferTarget pub;
     pr_UnlockTransferApplied := false; pr_ContainerAssetTarget := vpi_ContainerAssetTarget pub;
     pr_ContainerAssetApplied := false; pr_UnwindDualSign := vpi_UnwindDualSign pub;
     pr_UnwindDualSignApplied := false; pr_Tallied := false; pr_Approve := 0; pr_Reject := 0;
     pr_Passed := false; pr_Applied := false |}.

Definition exec_vote (t : ShieldedTx) (pub : VotePublicInputs) : run unit :=
  voter ← requireEligibleVoterZK (tx_VoteEligibility t) (vpi_ProposalID pub);
  s ← gets id;
  record ← match Rows.GetProposal (vpi_ProposalID pub) (st_Store s) with
           | Some record => mret record
           | None => _ ← lift (check_proposal s pub); mret (new_proposal pub)
           end;
  _ ← check (negb (pr_Tallied record)) "proposal already tallied; voting is closed";
  _ ← check (negb (bool_decide (is_Some (pr_Commitments record !! voter))))
        "a ballot with this nullifier has already been cast (double-vote)";
  let record := record <| pr_Commitments ::= <[voter := vpi_Commitment pub]> |> in
  modify (λ s, s <| st_Store ::= Rows.PutProposal record |>).

Definition exec_reveal (t : ShieldedTx) (pub : VoteRevealPublicInputs) : run unit :=
  voter ← requireEligibleVoterZK (tx_VoteEligibility t) (vrpi_ProposalID pub);
  store ← gets st_Store;
  match Rows.GetProposal (vrpi_ProposalID pub) store with
  | None => fail "no such proposal"
  | Some record =>
      _ ← check (negb (pr_Tallied record)) "proposal already tallied; reveals are closed";
      match pr_Commitments record !! voter with
      | None => fail "no ballot with this nullifier has been cast"
      | Some commitment =>
          _ ← check (negb (default false (pr_Reveals record !! voter)))
                "a ballot with this nullifier has already been revealed";
          _ ← check (bool_decide (ComputeVoteCommitment voter (vrpi_Approve pub) (vrpi_Nonce pub)
                                  = commitment))
                "reveal does not match the earlier commitment";
          let record := record <| pr_Reveals ::= <[voter := vrpi_Approve pub]> |> in
          modify (λ s, s <| st_Store ::= Rows.PutProposal record |>)
      end
  end.

Definition exec_container_sync (t : ShieldedTx) : run unit :=
  match tx_ContainerID t, tx_Commitments t with
  | Some containerID, newRoot :: _ =>
      store ← gets st_Store;
      _ ← match Rows.GetContainerRoot containerID store with
          | None => mret tt
          | Some _ =>
              _ ← check (len (tx_Memo t) =? 32) "shadow verification required";
              check (Container.ShadowVerify newRoot (tx_Memo t)) "shadow verification mismatch"
          end;
      modify (λ s, s <| st_Store ::= Rows.PutContainerRoot containerID newRoot |>)
  | _, _ => fail "ContainerSync tx missing container id or sync root"
  end.

Definition exec_mint (pub : NFTMintPublicInputs) : run unit :=
  store ← gets st_Store;
  let alreadyHasNFT := match Rows.GetNFTByOwner (nmpi_Owner pub) store with
                       | None => false | Some _ => true end in
  minted ← lift (NFT.Mint
    {| NFT.mp_Owner := nmpi_Owner pub; NFT.mp_AlreadyHasNFT := alreadyHasNFT;
       NFT.mp_Attestation :=
         {| NFT.at_Owner := nmpi_Owner pub; NFT.at_Nonce := nmpi_Nonce pub;
            NFT.at_IssuedAtMs := nmpi_AttestationIssuedAtMs pub;
            NFT.at_Attestor := nmpi_Attestor pub; NFT.at_Sig := nmpi_AttestationSig pub |};
       NFT.mp_TrustedAttestors := d_TrustedPoHAttestors deps; NFT.mp_MintedAt := d_Height deps;
       NFT.mp_Now := d_Now deps; NFT.mp_Nonce := nmpi_Nonce pub |});
  _ ← modify (λ s, s <| st_Store ::= Rows.PutNFT minted |>);
  tree ← gets st_EligibilityTree;
  match tree with
  | None => mret tt
  | Some tree =>
      match ZkTree.Insert tree (FieldElementFromBytes32 (nmpi_VoterCommitment pub)) with
      | Err _ => fail "insert voter commitment into eligibility tree"
      | Ok (_, tree) =>
          _ ← modify (λ s, s <| st_EligibilityTree := Some tree |>);
          modify (λ s, match st_EligibilityRoots s with
                       | None => s
                       | Some h => s <| st_EligibilityRoots :=
                                          Some (RootHistory.Record_root h (ZkTree.Root tree)) |>
                       end)
      end
  end.

Definition exec_unstake (outCommit : Hash) : run unit :=
  tree ← gets st_ZKTree;
  match tree with
  | None => mret tt
  | Some _ =>
      _ ← check (zk_room 1 tree) "canonical commitment tree has no room for the unstake proceeds note";
      _ ← insert_zk outCommit;
      _ ← append_state [outCommit];
      record_zk_root
  end.

Definition exec_nft_transfer (t : ShieldedTx) (pub : NFTTransferPublicInputs) : run unit :=
  store ← gets st_Store;
  match Rows.GetNFT (ntpi_Target pub) store with
  | None => fail "no NFT record for transfer target"
  | Some rec =>
      let signer := AddressFromPubkey (tx_SignerPubKey t) in
      _ ← check (bool_decide (signer = nft_Owner rec)) "NFTTransfer signer is not the current owner";
      let newOwnerAlreadyHasNFT :=
        match Rows.GetNFTByOwner (ntpi_NewOwner pub) store with
        | None => false
        | Some existing => negb (bool_decide (nft_ID existing = ntpi_Target pub))
        end in
      updated ← lift (NFT.TransferOwnership
        {| NFT.tfp_NFT := rec; NFT.tfp_NewOwner := ntpi_NewOwner pub;
           NFT.tfp_NewOwnerAlreadyHasNFT := newOwnerAlreadyHasNFT |});
      modify (λ s, s <| st_Store ::= Rows.TransferNFTOwner (nft_Owner rec) updated |>)
  end.

(** Stage 4 itself. The stages before it have rejected the transactions whose inputs
    are missing; on those Go would dereference a nil pointer, kept here as an error. *)
Definition nil_deref {A} : run A := fail "runtime error: invalid memory address or nil pointer dereference".
Definition with_inputs {A} (o : option A) (k : A → run unit) : run unit :=
  match o with Some a => k a | None => nil_deref end.

Definition stage4SendExec (t : ShieldedTx) : run ShieldedTx :=
  _ ← match tx_Kind t with
      | TxTransfer => with_inputs (tx_Transfer t) exec_transfer
      | TxBankDeposit | TxBankWithdraw => with_inputs (tx_Bank t) (exec_bank t)
      | TxNFTTrait => with_inputs (tx_Trait t) (exec_trait t)
      | TxVote => with_inputs (tx_Vote t) (exec_vote t)
      | TxVoteReveal => with_inputs (tx_VoteReveal t) (exec_reveal t)
      | TxContainerSync => exec_container_sync t
      | TxNFTMint => with_inputs (tx_NFTMint t) exec_mint
      | TxUnstake => with_inputs (head (tx_Commitments t)) exec_unstake
      | TxNFTTransfer => with_inputs (tx_NFTTransfer t) (exec_nft_transfer t)
      | TxMint | TxUnknown _ => mret tt
      end;
  mret (with_stage 4 t).

(** ** Stage 5 and the batch *)

Fixpoint mark_spent (nullifiers : list Hash) : run unit :=
  match nullifiers with
  | [] => mret tt
  | n :: nullifiers =>
      store ← gets st_Store;
      match Rows.MarkNullifierSpent n store with
      | Err _ => fail "commit nullifier"
      | Ok store => _ ← modify (λ s, s <| st_Store := store |>); mark_spent nullifiers
      end
  end.

Definition stage5PlaceFinal (t : ShieldedTx) : run ShieldedTx :=
  _ ← match tx_Kind t with
      | TxTransfer =>
          with_inputs (tx_Transfer t) (λ pub,
            _ ← mark_spent (tpi_Nullifiers pub);
            modify (λ s, s <| st_Vault ::= λ v,
              option_map (λ v, Vault.CollectFee v (Decimal.FromInt (i64 (tpi_FeeAmount pub)))) v |>))
      | TxUnstake => mark_spent [tx_Nullifier t]
      | _ => mret tt
      end;
  mret (with_stage 5 t).

Record StageError := { se_Stage : Z; se_Err : string }.

(** One stage of [processOne]: on failure the reservations are released and the
    transaction is reported as it was when the stage began. *)
Definition stage (n : Z) (m : ShieldedTx → run ShieldedTx)
    (k : ShieldedTx → State → ShieldedTx * option StageError * State)
    (t : ShieldedTx) (s : State) : ShieldedTx * option StageError * State :=
  match m t s with
  | (Ok t', s') => k t' s'
  | (Err e, s') =>
      (t, Some {| se_Stage := n; se_Err := e |}, if n =? 1 then s' else (release t s').2)
  end.

Definition processOne (t : ShieldedTx) (submittedAt : Time) (s : State)
    : ShieldedTx * option StageError * State :=
  stage 1 stage1SenderLeave (
  stage 2 (λ t, stage2TxOffer t submittedAt) (
  stage 3 stage3ReceiverCheck (
  stage 4 stage4SendExec (
  stage 5 stage5PlaceFinal (λ t s, (t, None, (finalize t s).2)))))) t s.

Record Result := { rs_Tx : ShieldedTx; rs_Error : option StageError }.

Fixpoint ProcessBatch (entries : list Entry) (s : State) : list Result * State :=
  match entries with
  | [] => ([], s)
  | e :: entries =>
      let '(t, err, s) := processOne (e_Tx e) (e_SubmittedAt e) s in
      let '(results, s) := ProcessBatch entries s in
      ({| rs_Tx := t; rs_Error := err |} :: results, s)
  end.
End pipeline.
