(* ===== verification/Sample.v ===== *)
(** A concrete node: the pipeline of [Pipeline] over concrete primitives, with a tree of two
    notes and the transfer that spends them. The witnesses and the findings of the later
    files are evaluated on it. *)
From S2P Require Import Prelude Words Decimal Hashing Types Epoch Mempool Governance Bank Merkle.
From S2P Require Import Field ZkTree Circuit Groth NFT Silent Store Pipeline.

(** The pipeline over the concrete primitives: two notes in the tree, and the transfer
    that spends them. *)
Module PipelineModel.
Import FrModel FrontendModel GrothModel.
#[export] Existing Instance CryptoModel.sha.
#[export] Existing Instance CryptoModel.mode3.
#[export] Existing Instance CryptoModel.ed25519.
#[export] Instance bigrat : BigRat := λ _, None.
Definition json : ShieldedTx → result bytes := λ _, Ok [].

Definition deps : Deps :=
  {| d_ZK := Some TransferKey; d_EligibilityZK := Some AnyKey; d_MintZK := Some AnyKey;
     d_StakeZK := Some AnyKey; d_UnstakeZK := Some AnyKey; d_OracleTolerance := Decimal.Zero;
     d_Epoch := 3; d_Height := 9; d_TrustedPoHAttestors := [[7]]; d_Now := Minute |}.

Definition state : State :=
  {| st_Store := Rows.empty; st_StateTree := NewMerkleTree; st_ZKTree := Some tree;
     st_ZKRoots := Some (RootHistory.NewRootHistory (ZkTree.Root tree));
     st_Vault := Some (Vault.New Vault.DefaultSplits); st_Silent := None; st_Oracle := None;
     st_Governance := None; st_EligibilityTree := Some ZkTree.NewTree;
     st_EligibilityRoots := Some (RootHistory.NewRootHistory (ZkTree.Root ZkTree.NewTree));
     st_StakeTree := None; st_StakeRoots := None; pendingNullifiers := ∅ |}.

(** A signed transaction of the given kind. *)
Definition signed_tx (kind : TxKind) : ShieldedTx :=
  let id := ComputeTxID [1] [] hash_zero in
  let t := zero_tx id kind in
  t <| tx_Proof := [1] |> <| tx_SignerPubKey := [7] |>
    <| tx_Sig := [len id mod 256] |> <| tx_FeeCommit := [1] |>.

(** The 32-byte form of a field element, [k] times the field order above it. *)
Definition shifted (k : Z) (e : elem) : Hash := be_enc 32 (be_value (Bytes e) + k * fr_modulus).

Definition transfer_inputs (k : Z) (inp : TransferInput) : TransferPublicInputs :=
  {| tpi_MerkleRoot := Bytes (ti_MerkleRoot inp);
     tpi_Nullifiers := shifted k <$> Nullifiers inp;
     tpi_OutCommits := Bytes <$> OutCommitments inp; tpi_FeeAmount := ti_Fee inp |}.
Definition transfer_tx (k : Z) (inp : TransferInput) : ShieldedTx :=
  let t := signed_tx TxTransfer in
  t <| tx_Transfer := Some (transfer_inputs k inp) |>.
Definition transfer : ShieldedTx := transfer_tx 0 input.

Definition process (t : ShieldedTx) (s : State) := processOne json deps t Minute s.
Definition err_stage (r : ShieldedTx * option StageError * State) : Z :=
  match r.1.2 with None => 0 | Some e => se_Stage e end.
Definition is_accepted (r : ShieldedTx * option StageError * State) : bool :=
  match r.1.2 with None => true | Some _ => false end.
Definition leaves_of (s : State) : nat :=
  match st_ZKTree s with None => 0%nat | Some t => length (ZkTree.leaves t) end.

(** A vote: one NFT exists, its holder has revealed an approval of a direct mint of
    100 proposed in epoch 2. *)
Definition alice_nft : ValidatorNFT :=
  {| nft_ID := [9]; nft_Owner := CryptoModel.alice; nft_MintedAt := 1; nft_Traits := ∅;
     nft_TP := 0; nft_Slashed := false |}.
Definition vote_inputs : VotePublicInputs :=
  {| vpi_ProposalID := "mint"; vpi_Commitment := ComputeVoteCommitment [5] true [6];
     vpi_ParamKey := EmptyString; vpi_NewValue := EmptyString; vpi_MintAmount := 100;
     vpi_MintOutCommit := replicate 32 3; vpi_MintProof := [1]; vpi_MintStaked := false;
     vpi_StakePositionCommit := hash_zero; vpi_StakeProof := []; vpi_SlashTargetNFT := hash_zero;
     vpi_SlashBurn := false; vpi_UnlockTransferTarget := hash_zero;
     vpi_ContainerAssetTarget := EmptyString; vpi_UnwindDualSign := false |}.
Definition due_proposal : ProposalRecord :=
  let p := new_proposal (deps <| d_Epoch := 2 |>) vote_inputs in
  p <| pr_Commitments := {[ [5] := vpi_Commitment vote_inputs ]} |> <| pr_Reveals := {[ [5] := true ]} |>.
Definition vote_state : State :=
  state <| st_Store ::= λ r, Rows.PutProposal due_proposal (Rows.PutNFT alice_nft r) |>.

(** A wallet, the mint of its NFT, the vote that unlocks it, and its transfer to [bob].
    The wallet's address is that of the key [[7]], which also signs and attests. *)
Definition wallet : Address := AddressFromPubkey [7].
Definition wallet_nft : NFTID := NFT.mint_id wallet 1.
Definition mint_tx : ShieldedTx :=
  let t := signed_tx TxNFTMint in
  t <| tx_NFTMint := Some {| nmpi_Owner := wallet; nmpi_Nonce := 1; nmpi_AttestationIssuedAtMs := 0;
         nmpi_Attestor := [7]; nmpi_AttestationSig := [len (NFT.poHAttestationMessage wallet 1 0) mod 256];
         nmpi_VoterCommitment := replicate 32 4 |} |>.
Definition unlock_proposal : ProposalRecord :=
  due_proposal <| pr_MintAmount := 0 |> <| pr_UnlockTransferTarget := wallet_nft |>.
Definition unlock_state : State := state <| st_Store ::= Rows.PutProposal unlock_proposal |>.
Definition transfer_nft_tx : ShieldedTx :=
  let t := signed_tx TxNFTTransfer in
  t <| tx_NFTTransfer := Some {| ntpi_Target := wallet_nft; ntpi_NewOwner := CryptoModel.bob |} |>.

(** A ballot cast and then opened by one eligible voter on a new proposal. *)
Definition eligibility : VoteEligibilityProof :=
  {| vep_Proof := [1]; vep_MerkleRoot := Bytes (ZkTree.Root ZkTree.NewTree); vep_Nullifier := [5] |}.
Definition vote_tx : ShieldedTx :=
  let t := signed_tx TxVote in
  t <| tx_VoteEligibility := Some eligibility |> <| tx_Vote := Some vote_inputs |>.
Definition reveal_tx : ShieldedTx :=
  let t := signed_tx TxVoteReveal in
  t <| tx_VoteEligibility := Some eligibility |>
    <| tx_VoteReveal := Some {| vrpi_ProposalID := "mint"; vrpi_Approve := true; vrpi_Nonce := [6] |} |>.
End PipelineModel.
