(* ===== verification/Admission.v ===== *)
(** The stages of pkg/tx/pipeline.go one by one: what each keeps of the shared state,
    what it does to the reservations and the spent nullifiers, and what a failure
    leaves behind; then the run of one transaction through all five. *)
From S2P Require Import Prelude Words Decimal Hashing Types Epoch Mempool Governance Bank Merkle.
From S2P Require Import Field ZkTree Circuit Groth NFT Silent Store Pipeline.

(** * Frames *)

Section frames.
Context `{SHA : Sha256, M3 : Mode3, ED : Ed25519, BR : BigRat, FR : Fr, MM : MiMC, GR : !Groth16}.
Context (json_marshal : ShieldedTx → result bytes) (deps : Deps).
Implicit Types (s : State) (t : ShieldedTx).

(** The state the chain agrees on: everything but the reservations, the rate monitor
    and the oracle's last-good cache, which are local to the node. *)
Record same_core s s' : Prop := {
  sc_store : st_Store s' = st_Store s; sc_tree : st_StateTree s' = st_StateTree s;
  sc_zk : st_ZKTree s' = st_ZKTree s; sc_zkroots : st_ZKRoots s' = st_ZKRoots s;
  sc_vault : st_Vault s' = st_Vault s; sc_gov : st_Governance s' = st_Governance s;
  sc_elig : st_EligibilityTree s' = st_EligibilityTree s;
  sc_eligroots : st_EligibilityRoots s' = st_EligibilityRoots s;
  sc_stake : st_StakeTree s' = st_StakeTree s; sc_stakeroots : st_StakeRoots s' = st_StakeRoots s }.

#[export] Instance same_core_refl : Reflexive same_core.
Proof. by intros s. Qed.
#[export] Instance same_core_trans : Transitive same_core.
Proof. intros s1 s2 s3 [] []. split; congruence. Qed.

(** The core and the reservations are kept. *)
Definition quiet s s' : Prop := same_core s s' ∧ pendingNullifiers s' = pendingNullifiers s.
#[export] Instance quiet_refl : Reflexive quiet.
Proof. by intros s. Qed.
#[export] Instance quiet_trans : Transitive quiet.
Proof. intros s1 s2 s3 [H1 E1] [H2 E2]. split; [by etrans|congruence]. Qed.

(** The reservations and the spent set are kept. *)
Definition keeps_spent s s' : Prop :=
  pendingNullifiers s' = pendingNullifiers s ∧
  Rows.nullifiers (st_Store s') = Rows.nullifiers (st_Store s).
#[export] Instance keeps_spent_refl : Reflexive keeps_spent.
Proof. by intros s. Qed.
#[export] Instance keeps_spent_trans : Transitive keeps_spent.
Proof. intros s1 s2 s3 [] []. split; congruence. Qed.

Lemma quiet_keeps s s' : quiet s s' → keeps_spent s s'.
Proof. intros [[] ?]. split; congruence. Qed.

(** A call that changes nothing when it fails. *)
Definition clean {A} (m : call State A) : Prop := ∀ s e s', m s = (Err e, s') → quiet s s'.

Lemma clean_bind {A B} (m : call State A) (f : A → call State B) :
  preserves quiet m → (∀ a, clean (f a)) → clean (m ≫= f).
Proof.
  intros Hm Hf s e s' [E|(a & s1 & E1 & E2)]%call_bind_Err.
  - specialize (Hm s). by rewrite E in Hm.
  - etrans; [|by eapply Hf]. specialize (Hm s). by rewrite E1 in Hm.
Qed.
Lemma clean_quiet {A} (m : call State A) : preserves quiet m → clean m.
Proof. intros Hm s e s' E. specialize (Hm s). by rewrite E in Hm. Qed.
Lemma clean_modify f : clean (modify f).
Proof. intros s e s' E. discriminate E. Qed.

(** A call that never fails. *)
Definition total {A} (m : call State A) : Prop := ∀ s, ∃ a s', m s = (Ok a, s').
Lemma total_bind {A B} (m : call State A) (f : A → call State B) :
  total m → (∀ a, total (f a)) → total (m ≫= f).
Proof.
  intros Hm Hf s. destruct (Hm s) as (a & s1 & E). destruct (Hf a s1) as (b & s2 & E').
  exists b, s2. apply call_bind_Ok. eauto.
Qed.
Lemma total_modify f : total (modify f).
Proof. intros s. by eexists _, _. Qed.
Lemma total_ret {A} (a : A) : total (mret a).
Proof. intros s. by eexists _, _. Qed.
Lemma total_gets {A} (f : State → A) : total (gets f).
Proof. intros s. by eexists _, _. Qed.
Lemma clean_total {A} (m : call State A) : total m → clean m.
Proof. intros Hm s e s' E. destruct (Hm s) as (a & s1 & E1). congruence. Qed.
End frames.

(** Proves [preserves] and [clean] facts by following the structure of a call. *)
Ltac call_step :=
  match goal with
  | |- preserves _ (_ ≫= _) => apply (preserves_bind _); [|intros]
  | |- preserves _ (mret _) => apply (preserves_ret _)
  | |- preserves _ (gets _) => apply (preserves_gets _)
  | |- preserves _ (lift _) => apply (preserves_lift _)
  | |- preserves _ (fail _) => apply (preserves_fail _)
  | |- preserves _ (nil_deref) => apply (preserves_fail _)
  | |- preserves _ (check _ _) => apply (preserves_check _)
  | |- preserves _ (modify _) => apply (preserves_modify _); intros
  | |- total (_ ≫= _) => apply total_bind; [|intros]
  | |- total (modify _) => apply total_modify
  | |- total (mret _) => apply total_ret
  | |- total (gets _) => apply total_gets
  | |- clean (modify _ ≫= λ _, mret _) => apply clean_total
  | |- clean (_ ≫= _) => apply clean_bind; [|intros]
  | |- clean (modify _) => apply clean_modify
  | |- clean (mret _) => apply clean_quiet
  | |- clean (fail _) => apply clean_quiet
  | |- clean nil_deref => apply clean_quiet
  | |- clean (check _ _) => apply clean_quiet
  | |- clean (lift _) => apply clean_quiet
  | |- preserves _ (let x := _ in _) => cbv zeta
  | |- clean (let x := _ in _) => cbv zeta
  | |- context [match ?x with _ => _ end] => destruct x
  end.
Ltac call_auto := repeat (call_step; try done).

Section stages.
Context `{SHA : Sha256, M3 : Mode3, ED : Ed25519, BR : BigRat, FR : Fr, MM : MiMC, GR : !Groth16}.
Context (json_marshal : ShieldedTx → result bytes) (deps : Deps).
Implicit Types (s : State) (t : ShieldedTx).

Lemma check_dual_sign_quiet t : preserves quiet (check_dual_sign t).
Proof. unfold check_dual_sign. call_auto. Qed.

Lemma check_rate_quiet t : preserves quiet (check_rate deps t).
Proof. unfold check_rate. call_auto. Qed.

Lemma stage2_quiet t at_ : preserves quiet (stage2TxOffer json_marshal deps t at_).
Proof.
  unfold stage2TxOffer.
  repeat first [ apply check_dual_sign_quiet | apply check_rate_quiet | call_step; try done ].
Qed.

Lemma stage3_quiet t : preserves quiet (stage3ReceiverCheck t).
Proof. unfold stage3ReceiverCheck. call_auto. Qed.

Lemma reserve_Ok ns s u s' :
  reserveNullifiers ns s = (Ok u, s') ↔
  s' = s ∧ Forall (λ n, n ∉ pendingNullifiers s ∧ n ∉ Rows.nullifiers (st_Store s)) ns.
Proof.
  unfold reserveNullifiers. destruct u.
  rewrite call_bind_Ok. cbn [gets]. setoid_rewrite call_bind_Ok. setoid_rewrite check_Ok.
  assert (Hex : ∀ (P : Hash → bool), negb (existsb P ns) = true ↔ Forall (λ n, P n = false) ns).
  { intros P. rewrite negb_true_iff, <-not_true_iff_false, existsb_exists, Forall_forall.
    setoid_rewrite <-not_true_iff_false. setoid_rewrite list_elem_of_In. naive_solver. }
  setoid_rewrite Hex. split.
  - intros (p & s1 & [= <- <-] & ? & ? & [Hp ->] & H2).
    destruct H2 as [Hs ->]. split; [done|]. apply Forall_forall. intros n Hn.
    rewrite Forall_forall in Hp, Hs. specialize (Hp n Hn). specialize (Hs n Hn).
    unfold Rows.IsNullifierSpent in Hs. bools. done.
  - intros [-> HF]. exists (pendingNullifiers s), s. split; [done|]. exists tt, s. split.
    + split; [|done]. eapply Forall_impl; [exact HF|]. intros n [? _]. by apply bool_decide_eq_false.
    + split; [|done]. eapply Forall_impl; [exact HF|]. intros n [_ ?]. by apply bool_decide_eq_false.
Qed.

Lemma reserve_quiet ns : preserves quiet (reserveNullifiers ns).
Proof. unfold reserveNullifiers. call_auto. Qed.

(** Stage 1 on success: the transaction's nullifiers were free and are now reserved,
    and nothing else changed. *)
Lemma stage1_Ok t s t' s' :
  stage1SenderLeave deps t s = (Ok t', s') →
  t' = with_stage 1 t ∧ same_core s s' ∧
  pendingNullifiers s' = list_to_set (txNullifiers t) ∪ pendingNullifiers s ∧
  Forall (λ n, n ∉ pendingNullifiers s ∧ n ∉ Rows.nullifiers (st_Store s)) (txNullifiers t).
Proof.
  assert (Hnil : pendingNullifiers s = list_to_set [] ∪ pendingNullifiers s)
    by (symmetry; apply (union_empty_l_L (C:=gset Hash))).
  unfold stage1SenderLeave, txNullifiers. destruct (tx_Kind t).
  all: try (intros [= <- <-]; split; [done|]; split; [done|]; split; [exact Hnil|constructor]).
  - unfold stage1Transfer, markReserved. destruct (tx_Transfer t) as [pub|]; [|done]. intros E. call_inv.
    destruct (d_ZK deps); [|done]. call_inv.
    match goal with H : reserveNullifiers _ _ = _ |- _ => apply reserve_Ok in H as [-> HF] end. done.
  - unfold stage1Unstake, markReserved. destruct (tx_Unstake t) as [pub|]; [|done].
    destruct (tx_Commitments t) as [|? [|]]; try done. intros E. call_inv.
    destruct (d_UnstakeZK deps); [|done]. call_inv. destruct (st_StakeRoots _); [|done]. call_inv.
    match goal with H : reserveNullifiers _ _ = _ |- _ => apply reserve_Ok in H as [-> HF] end. done.
Qed.

Lemma stage1_clean t : clean (stage1SenderLeave deps t).
Proof.
  unfold stage1SenderLeave, stage1Transfer, stage1Unstake, markReserved.
  repeat first [ apply reserve_quiet | call_step; try done ].
Qed.

(** ** Stage 4 *)

Lemma insert_zk_keeps c : preserves keeps_spent (insert_zk c).
Proof. unfold insert_zk. call_auto. Qed.

Lemma insert_all_keeps cs : preserves keeps_spent (insert_all_zk cs).
Proof.
  induction cs as [|c cs IH]; cbn [insert_all_zk]; [call_auto|].
  apply (preserves_bind _); [apply insert_zk_keeps|done].
Qed.

Lemma record_root_keeps : preserves keeps_spent record_zk_root.
Proof. intros s. unfold record_zk_root, modify. cbn. by repeat case_match. Qed.

Lemma append_state_keeps cs : preserves keeps_spent (append_state cs).
Proof. unfold append_state. call_auto. Qed.

Lemma require_voter_quiet p id : preserves quiet (requireEligibleVoterZK deps p id).
Proof. unfold requireEligibleVoterZK. call_auto. Qed.

Lemma oracle_quiet q k pub : preserves quiet (checkOraclePrice deps q k pub).
Proof. unfold checkOraclePrice. destruct (Oracle.quote _ _) as [r q']. call_auto. Qed.

Lemma quiet_preserves_keeps {A} (m : call State A) : preserves quiet m → preserves keeps_spent m.
Proof. intros Hm s. apply quiet_keeps, Hm. Qed.

Lemma stage4_keeps t : preserves keeps_spent (stage4SendExec deps t).
Proof.
  unfold stage4SendExec, with_inputs, exec_transfer, exec_bank, exec_trait, exec_vote, exec_reveal,
    exec_container_sync, exec_mint, exec_unstake, exec_nft_transfer.
  repeat first [ apply insert_zk_keeps | apply insert_all_keeps | apply record_root_keeps
               | apply append_state_keeps
               | apply quiet_preserves_keeps, require_voter_quiet
               | apply quiet_preserves_keeps, oracle_quiet
               | call_step; try done ].
Qed.

Lemma insert_zk_room s c n :
  zk_room (Z.of_nat (S n)) (st_ZKTree s) = true → ∃ s',
    insert_zk c s = (Ok tt, s') ∧ zk_room (Z.of_nat n) (st_ZKTree s') = true.
Proof.
  cbv [insert_zk mbind call_bind gets]. destruct (st_ZKTree s) as [tree|] eqn:E; cbn [zk_room].
  - unfold ZkTree.Remaining. intros Hr. bools.
    unfold ZkTree.Insert. destruct (Z.leb_spec TreeSize (ZkTree.used tree)); [lia|].
    eexists. split; [reflexivity|]. cbn. unfold ZkTree.Remaining. cbn. bools. lia.
  - intros _. exists s. by rewrite E.
Qed.

Lemma insert_all_room cs s :
  zk_room (Z.of_nat (length cs)) (st_ZKTree s) = true → ∃ s', insert_all_zk cs s = (Ok tt, s').
Proof.
  revert s. induction cs as [|c cs IH]; intros s Hr; [by exists s|].
  destruct (insert_zk_room s c (length cs) Hr) as (s1 & E1 & Hr1).
  destruct (IH s1 Hr1) as (s2 & E2). exists s2.
  cbn [insert_all_zk]. apply call_bind_Ok. by exists tt, s1.
Qed.

Lemma exec_transfer_clean pub : clean (exec_transfer pub).
Proof.
  intros s e s' E. unfold exec_transfer in E.
  apply call_bind_Err in E as [[=]|(tree & s1 & [= <- <-] & E)].
  apply call_bind_Err in E as [E|(u & s1 & [Hr ->]%check_Ok & E)].
  { unfold check, lift in E. by injection E as _ <-. }
  apply call_bind_Err in E as [[=]|(u1 & s2 & [= <- E2] & E)].
  destruct (insert_all_room (tpi_OutCommits pub) s2) as (s3 & E3); [by subst s2|].
  apply call_bind_Err in E as [E|(u2 & s4 & _ & [=])]. congruence.
Qed.

Lemma exec_unstake_clean c : clean (exec_unstake c).
Proof.
  intros s e s' E. unfold exec_unstake in E.
  apply call_bind_Err in E as [[=]|(tree & s1 & [= <- <-] & E)].
  destruct (st_ZKTree s) as [tree|] eqn:Et; [|done].
  apply call_bind_Err in E as [E|(u & s1 & [Hr ->]%check_Ok & E)].
  { unfold check, lift in E. by injection E as _ <-. }
  rewrite <-Et in Hr. destruct (insert_zk_room s c 0 Hr) as (s2 & E2 & _).
  apply call_bind_Err in E as [E|(u1 & s3 & _ & E)]; [by rewrite E2 in E|].
  by apply call_bind_Err in E as [[=]|(u2 & s4 & _ & [=])].
Qed.

(** Whether the eligibility tree has room for one more voter. *)
Definition elig_room s : Prop :=
  match st_EligibilityTree s with None => True | Some tree => ZkTree.used tree < TreeSize end.

Lemma exec_mint_clean pub s e s' :
  exec_mint deps pub s = (Err e, s') → elig_room s → quiet s s'.
Proof.
  unfold exec_mint, elig_room. intros E Hr.
  apply call_bind_Err in E as [[=]|(store & s1 & [= <- <-] & E)].
  apply call_bind_Err in E as [E|(minted & s1 & E1 & E)].
  { unfold lift in E. by injection E as _ <-. }
  injection E1 as E1 <-. apply call_bind_Err in E as [[=]|(u & s2 & [= <- <-] & E)].
  apply call_bind_Err in E as [[=]|(tree & s3 & [= <- <-] & E)]. cbn in E.
  destruct (st_EligibilityTree s) as [tree|]; [|done]. unfold ZkTree.Insert in E.
  destruct (Z.leb_spec TreeSize (ZkTree.used tree)); [lia|]. done.
Qed.

(** A Stage 4 failure changes nothing, the full-tree mint apart. *)
Lemma stage4_clean t s e s' :
  stage4SendExec deps t s = (Err e, s') → (tx_Kind t = TxNFTMint → elig_room s) → quiet s s'.
Proof.
  intros E Hroom. unfold stage4SendExec in E. apply call_bind_Err in E as [E|(u & s1 & _ & [=])].
  assert (Hc : ∀ (m : call State unit), clean m → m s = (Err e, s') → quiet s s') by eauto.
  destruct (tx_Kind t); unfold with_inputs in E;
    lazymatch type of E with
    | context [exec_mint] =>
        destruct (tx_NFTMint t) as [pub|];
          [exact (exec_mint_clean pub s e s' E (Hroom eq_refl))|by injection E as _ <-]
    | _ => revert E; apply Hc
    end;
    repeat first [ apply exec_transfer_clean | apply exec_unstake_clean | call_step; try done
                 | progress unfold exec_bank, exec_trait, exec_vote, exec_reveal,
                     exec_container_sync, exec_nft_transfer, append_state
                 | apply require_voter_quiet | apply oracle_quiet ].
Qed.

End stages.

Section stage5.
Context `{FR : Fr}.
Implicit Types (s : State) (t : ShieldedTx).

(** ** Stage 5 *)

Notation spent s := (Rows.nullifiers (st_Store s)).

Lemma mark_spent_spec ns s :
  let '(r, s') := mark_spent ns s in
  pendingNullifiers s' = pendingNullifiers s ∧ spent s ⊆ spent s' ∧
  (r = Ok tt ↔ NoDup ns ∧ Forall (λ n, n ∉ spent s) ns) ∧
  (r = Ok tt → spent s' = list_to_set ns ∪ spent s).
Proof.
  revert s. induction ns as [|n ns IH]; intros s; cbn [mark_spent].
  { split_and!; try done; [split; [repeat constructor|done]|]. intros _. set_solver. }
  cbv [mbind call_bind gets modify]. cbn beta iota. unfold Rows.MarkNullifierSpent.
  case_bool_decide as Hin.
  { cbn. split_and!; try done. split; [done|]. intros [_ HF]. by apply Forall_cons in HF as [? _]. }
  set (s1 := _ : State). specialize (IH s1). destruct (mark_spent ns s1) as [r s'].
  destruct IH as (Hp & Hs & Hr & Hok). change (spent s1) with ({[n]} ∪ spent s) in *.
  split_and!; [done|set_solver| |].
  - rewrite Hr, NoDup_cons, Forall_cons. rewrite !Forall_forall. set_solver.
  - intros E. rewrite Hok by done. set_solver.
Qed.

(** Stage 5 succeeds exactly on distinct, unspent nullifiers, which it spends. *)
Lemma stage5_spec t s :
  let '(r, s') := stage5PlaceFinal t s in
  pendingNullifiers s' = pendingNullifiers s ∧ spent s ⊆ spent s' ∧
  ((∃ e, r = Err e) → tx_Kind t = TxTransfer ∧ tx_Transfer t = None ∨
     ¬ (NoDup (txNullifiers t) ∧ Forall (λ n, n ∉ spent s) (txNullifiers t))) ∧
  (∀ t', r = Ok t' → t' = with_stage 5 t ∧ NoDup (txNullifiers t) ∧
     Forall (λ n, n ∉ spent s) (txNullifiers t) ∧ spent s' = list_to_set (txNullifiers t) ∪ spent s).
Proof.
  assert (Hs : spent s = list_to_set [] ∪ spent s) by set_solver.
  unfold stage5PlaceFinal, txNullifiers. destruct (tx_Kind t).
  all: try (cbn; split_and!; [done|done|by intros [e [=]]|];
    intros t' [= <-]; split_and!; [done|constructor|constructor|exact Hs]).
  - unfold with_inputs. destruct (tx_Transfer t) as [pub|]; cbn; [|naive_solver].
    pose proof (mark_spent_spec (tpi_Nullifiers pub) s) as Hm.
    unfold mbind, call_bind, modify. destruct (mark_spent _ s) as [[[]|e] s1].
    + destruct Hm as (Hp & Hsub & Hr & Hok). cbn. split_and!; [done|done|by intros [e [=]]|].
      intros t' [= <-]. specialize (Hok eq_refl). destruct (proj1 Hr eq_refl). done.
    + destruct Hm as (Hp & Hsub & Hr & _). split_and!; [done|done| |done].
      intros _. right. intros Hd. by apply Hr in Hd.
  - pose proof (mark_spent_spec [tx_Nullifier t] s) as Hm.
    unfold mbind, call_bind. destruct (mark_spent _ s) as [[[]|e] s1].
    + destruct Hm as (Hp & Hsub & Hr & Hok). cbn. split_and!; [done|done|by intros [e [=]]|].
      intros t' [= <-]. specialize (Hok eq_refl). destruct (proj1 Hr eq_refl). done.
    + destruct Hm as (Hp & Hsub & Hr & _). split_and!; [done|done| |done].
      intros _. right. intros Hd. by apply Hr in Hd.
Qed.

Lemma release_spec t s :
  same_core s (release t s).2 ∧
  pendingNullifiers (release t s).2 = pendingNullifiers s ∖ list_to_set (txNullifiers t).
Proof.
  unfold release. case_bool_decide as E; [|done]. rewrite E. cbn. split; [done|]. set_solver.
Qed.

End stage5.

Section transaction.
Context `{SHA : Sha256, M3 : Mode3, ED : Ed25519, BR : BigRat, FR : Fr, MM : MiMC, GR : !Groth16}.
Context (json_marshal : ShieldedTx → result bytes) (deps : Deps).
Implicit Types (s : State) (t : ShieldedTx).
Notation spent s := (Rows.nullifiers (st_Store s)).

(** ** One transaction *)

(** The accepted runs: all five stages succeed, in order. *)
Record accepted t at_ s t' s' (s1 s2 s3 s4 s5 : State) : Prop := {
  ac_1 : stage1SenderLeave deps t s = (Ok (with_stage 1 t), s1);
  ac_2 : stage2TxOffer json_marshal deps (with_stage 1 t) at_ s1 = (Ok (with_stage 2 (with_stage 1 t)), s2);
  ac_3 : stage3ReceiverCheck (with_stage 2 (with_stage 1 t)) s2 =
           (Ok (with_stage 3 (with_stage 2 (with_stage 1 t))), s3);
  ac_4 : stage4SendExec deps (with_stage 3 (with_stage 2 (with_stage 1 t))) s3 =
           (Ok (with_stage 4 (with_stage 3 (with_stage 2 (with_stage 1 t)))), s4);
  ac_5 : stage5PlaceFinal (with_stage 4 (with_stage 3 (with_stage 2 (with_stage 1 t)))) s4 = (Ok t', s5);
  ac_tx : t' = with_stage 5 (with_stage 4 (with_stage 3 (with_stage 2 (with_stage 1 t))));
  ac_state : s' = (finalize t' s5).2 }.

Lemma stage2_hint t at_ s t' s' :
  stage2TxOffer json_marshal deps t at_ s = (Ok t', s') → t' = with_stage 2 t.
Proof.
  unfold stage2TxOffer. intros E. call_inv. destruct (DilithiumVerify _ _ _); [|done]. call_inv. done.
Qed.
Lemma stage3_hint t s t' s' : stage3ReceiverCheck t s = (Ok t', s') → t' = with_stage 3 t.
Proof. unfold stage3ReceiverCheck. intros E. call_inv. done. Qed.
Lemma stage4_hint t s t' s' : stage4SendExec deps t s = (Ok t', s') → t' = with_stage 4 t.
Proof. unfold stage4SendExec. intros E. call_inv. done. Qed.

(** Either every stage succeeds, or the first failing one decides. *)
Lemma processOne_cases t at_ s :
  let '(t', err, s') := processOne json_marshal deps t at_ s in
  match err with
  | None => ∃ s1 s2 s3 s4 s5, accepted t at_ s t' s' s1 s2 s3 s4 s5
  | Some e =>
      pendingNullifiers s' = pendingNullifiers s ∧ spent s ⊆ spent s' ∧
      (NoDup (txNullifiers t) → (tx_Kind t = TxNFTMint → elig_room s) → same_core s s')
  end.
Proof.
  unfold processOne, stage.
  destruct (stage1SenderLeave deps t s) as [[t1|e] s1] eqn:E1.
  2: { apply stage1_clean in E1 as [Hc Hp]. cbn. split_and!; [done| |done]. by rewrite (sc_store _ _ Hc). }
  destruct (stage1_Ok _ _ _ _ _ E1) as (-> & C1 & P1 & F1).
  assert (Hback : ∀ s', pendingNullifiers s' = pendingNullifiers s1 →
    pendingNullifiers s' ∖ list_to_set (txNullifiers t) = pendingNullifiers s).
  { intros s' ->. rewrite P1. rewrite Forall_forall in F1. set_solver. }
  assert (Hrel : ∀ u s', txNullifiers u = txNullifiers t → quiet s1 s' →
    pendingNullifiers (release u s').2 = pendingNullifiers s ∧ spent s ⊆ spent (release u s').2 ∧
    same_core s (release u s').2).
  { intros u s' Eu [Hq Hp]. destruct (release_spec u s') as [Hr Hrp]. rewrite Hrp, Eu.
    assert (Hall : same_core s (release u s').2) by (etrans; [exact C1|]; by etrans).
    split_and!; [by apply Hback| |done]. by rewrite (sc_store _ _ Hall). }
  cbn [Z.eqb].
  destruct (stage2TxOffer _ _ _ _ s1) as [[t2|e] s2] eqn:E2.
  2: { pose proof (stage2_quiet json_marshal deps (with_stage 1 t) at_ s1) as Hq. rewrite E2 in Hq.
       destruct (Hrel (with_stage 1 t) s2 eq_refl Hq) as (? & ? & ?). done. }
  pose proof (stage2_quiet json_marshal deps (with_stage 1 t) at_ s1) as Q2. rewrite E2 in Q2. cbn [snd] in Q2.
  pose proof (stage2_hint _ _ _ _ _ E2) as ->.
  destruct (stage3ReceiverCheck _ s2) as [[t3|e] s3] eqn:E3.
  2: { pose proof (stage3_quiet (with_stage 2 (with_stage 1 t)) s2) as Hq. rewrite E3 in Hq.
       assert (Hq' : quiet s1 s3) by by etrans.
       destruct (Hrel (with_stage 2 (with_stage 1 t)) s3 eq_refl Hq') as (? & ? & ?). done. }
  pose proof (stage3_quiet (with_stage 2 (with_stage 1 t)) s2) as Q3. rewrite E3 in Q3. cbn [snd] in Q3.
  pose proof (stage3_hint _ _ _ _ E3) as ->. set (t3 := with_stage 3 _) in *.
  assert (Q13 : quiet s1 s3) by by etrans.
  destruct (stage4SendExec deps t3 s3) as [[t4|e] s4] eqn:E4.
  2: { pose proof (stage4_keeps deps t3 s3) as [Kp Ks]. rewrite E4 in Kp, Ks. cbn [snd] in Kp, Ks.
       destruct (release_spec t3 s4) as [Hr Hrp]. cbn [Z.eqb Pos.eqb].
       split_and!.
       - rewrite Hrp. apply Hback. rewrite Kp. apply Q13.
       - rewrite (sc_store _ _ Hr), Ks, (sc_store _ _ (proj1 Q13)), (sc_store _ _ C1). done.
       - intros _ Hroom. eapply stage4_clean in E4.
         + by destruct (Hrel t3 s4 eq_refl) as (_ & _ & ?); [by etrans|].
         + intros Hk. specialize (Hroom Hk). unfold elig_room in *.
           by rewrite (sc_elig _ _ (proj1 Q13)), (sc_elig _ _ C1). }
  pose proof (stage4_keeps deps t3 s3) as [K4 S4]. rewrite E4 in K4, S4. cbn [snd] in K4, S4.
  pose proof (stage4_hint _ _ _ _ E4) as ->. set (t4 := with_stage 4 t3) in *.
  assert (Esp : spent s4 = spent s) by
    by rewrite S4, (sc_store _ _ (proj1 Q13)), (sc_store _ _ C1).
  pose proof (stage5_spec t4 s4) as H5.
  destruct (stage5PlaceFinal t4 s4) as [[t5|e] s5] eqn:E5.
  - destruct H5 as (Hp & Hs & _ & Hok). destruct (Hok t5 eq_refl) as (Et & _).
    exists s1, s2, s3, s4, s5. by split.
  - destruct H5 as (Hp & Hs & Herr & _). destruct (release_spec t4 s5) as [Hr Hrp]. cbn [Z.eqb Pos.eqb].
    split_and!.
    + rewrite Hrp. apply Hback. rewrite Hp, K4. apply Q13.
    + rewrite (sc_store _ _ Hr). set_solver.
    + intros Hnd _. exfalso. destruct Herr as [[Hk Hn]|Hd]; [by exists e| |].
      * assert (tx_Kind t = TxTransfer ∧ tx_Transfer t = None) as [Hk' Hn'] by done.
        unfold stage1SenderLeave in E1. rewrite Hk' in E1. unfold stage1Transfer in E1. by rewrite Hn' in E1.
      * apply Hd. split; [done|]. rewrite Esp. eapply Forall_impl; [exact F1|]. by intros n [_ ?].
Qed.
End transaction.
