(* ===== verification/Batch.v ===== *)
(** What pkg/tx's pipeline guarantees of a batch: reservations never leak, nullifiers
    are spent once, a rejected transaction leaves no trace, and an accepted transfer
    conserves value; and, on the concrete node of [Sample], two ways around these
    guarantees. *)
From S2P Require Import Prelude Words Decimal Hashing Types Epoch Mempool Governance Bank Merkle.
From S2P Require Import Field ZkTree Circuit Groth NFT Silent Store Pipeline Sample Admission.

(** * Lemmas: accepted transactions *)

Section accepted_lemmas.
Context `{SHA : Sha256, M3 : Mode3, ED : Ed25519, BR : BigRat, FR : Fr, MM : MiMC, GR : !Groth16}.
Context (json_marshal : ShieldedTx → result bytes) (deps : Deps).
Notation spent s := (Rows.nullifiers (st_Store s)).

(** The state before Stage 4 of an accepted transaction. *)
Lemma accepted_prefix t at_ s t' s' s1 s2 s3 s4 s5 :
  accepted json_marshal deps t at_ s t' s' s1 s2 s3 s4 s5 →
  same_core s s3 ∧ pendingNullifiers s3 = pendingNullifiers s1 ∧ quiet s1 s3.
Proof.
  intros [A1 A2 A3 _ _ _ _]. apply stage1_Ok in A1 as (_ & C1 & _).
  pose proof (stage2_quiet json_marshal deps (with_stage 1 t) at_ s1) as Q2. rewrite A2 in Q2.
  pose proof (stage3_quiet (with_stage 2 (with_stage 1 t)) s2) as Q3. rewrite A3 in Q3.
  cbn [snd] in Q2, Q3. assert (Q : quiet s1 s3) by by etrans.
  split; [etrans; [exact C1|apply Q]|]. split; [apply Q|done].
Qed.

(** An accepted transaction spends exactly its nullifiers. *)
Lemma accepted_spends t at_ s t' s' s1 s2 s3 s4 s5 :
  accepted json_marshal deps t at_ s t' s' s1 s2 s3 s4 s5 →
  pendingNullifiers s' = pendingNullifiers s ∧ spent s' = list_to_set (txNullifiers t) ∪ spent s ∧
  NoDup (txNullifiers t) ∧ Forall (λ n, n ∉ spent s) (txNullifiers t) ∧
  txNullifiers t' = txNullifiers t.
Proof.
  intros A. destruct (accepted_prefix _ _ _ _ _ _ _ _ _ _ A) as (C3 & P3 & Q3).
  destruct A as [A1 A2 A3 A4 A5 -> ->]. apply stage1_Ok in A1 as (_ & C1 & P1 & F1).
  pose proof (stage4_keeps deps (with_stage 3 (with_stage 2 (with_stage 1 t))) s3) as [K4 S4].
  rewrite A4 in K4, S4. cbn [snd] in K4, S4.
  pose proof (stage5_spec (with_stage 4 (with_stage 3 (with_stage 2 (with_stage 1 t)))) s4) as H5.
  rewrite A5 in H5. destruct H5 as (P5 & _ & _ & Hok). destruct (Hok _ eq_refl) as (_ & Hnd & Hun & Hsp).
  assert (E4 : spent s4 = spent s) by by rewrite S4, (sc_store _ _ C3).
  unfold finalize.
  destruct (release_spec (with_stage 5 (with_stage 4 (with_stage 3 (with_stage 2 (with_stage 1 t))))) s5)
    as [Hr Hrp].
  change (txNullifiers (with_stage 4 (with_stage 3 (with_stage 2 (with_stage 1 t))))) with (txNullifiers t) in *.
  change (txNullifiers (with_stage 5 (with_stage 4 (with_stage 3 (with_stage 2 (with_stage 1 t))))))
    with (txNullifiers t) in *.
  split_and!; [|by rewrite (sc_store _ _ Hr), Hsp, E4|done|by rewrite <-E4|done].
  rewrite Hrp, P5, K4, P3, P1. rewrite Forall_forall in F1. set_solver.
Qed.

(** The trees and the treasury across the steps of a transfer. *)
Lemma insert_zk_effect c s u s' tree :
  insert_zk c s = (Ok u, s') → st_ZKTree s = Some tree →
  (∃ tree', st_ZKTree s' = Some tree' ∧
     ZkTree.leaves tree' = ZkTree.leaves tree ++ [Bytes (FieldElementFromBytes32 c)]) ∧
  st_Vault s' = st_Vault s.
Proof.
  unfold insert_zk. intros E Ht. call_inv. rewrite Ht in E. unfold ZkTree.Insert in E.
  destruct (TreeSize <=? ZkTree.used tree); [done|]. call_inv. split; [|done]. eexists. split; reflexivity.
Qed.

Lemma insert_all_effect cs s u s' tree :
  insert_all_zk cs s = (Ok u, s') → st_ZKTree s = Some tree →
  (ZkTree.leaves <$> st_ZKTree s' = Some (ZkTree.leaves tree ++
     ((λ c, Bytes (FieldElementFromBytes32 c)) <$> cs))) ∧ st_Vault s' = st_Vault s.
Proof.
  revert s tree. induction cs as [|c cs IH]; intros s tree; cbn [insert_all_zk].
  - intros [= _ <-] ->. cbn. by rewrite app_nil_r.
  - intros E Ht. apply call_bind_Ok in E as (v & s1 & E1 & E).
    apply (insert_zk_effect _ _ _ _ tree) in E1 as ((tree' & Ht' & El) & Ev); [|done].
    destruct (IH _ _ E Ht') as [H1 H2]. rewrite H1, H2, El, Ev. split; [|done].
    by rewrite <-(assoc_L (++)).
Qed.

Lemma transfer_exec_effect pub s u s' :
  exec_transfer pub s = (Ok u, s') → ∀ tree, st_ZKTree s = Some tree →
  ZkTree.leaves <$> st_ZKTree s' = Some (ZkTree.leaves tree ++
    ((λ c, Bytes (FieldElementFromBytes32 c)) <$> tpi_OutCommits pub)) ∧ st_Vault s' = st_Vault s.
Proof.
  unfold exec_transfer, append_state, record_zk_root. intros E tree Ht. call_inv.
  match goal with H : insert_all_zk _ _ = (_, ?z) |- _ => rename H into Ei; rename z into s1 end.
  destruct (insert_all_effect _ _ _ _ tree Ei Ht) as [I1 I2]. revert I1 I2.
  destruct (st_ZKTree s1) eqn:Ez, (st_ZKRoots s1); cbn; rewrite ?Ez; done.
Qed.

Lemma mark_spent_frame ns s :
  st_ZKTree (mark_spent ns s).2 = st_ZKTree s ∧ st_Vault (mark_spent ns s).2 = st_Vault s.
Proof.
  revert s. induction ns as [|n ns IH]; intros s; cbn [mark_spent]; [done|].
  cbv [mbind call_bind gets modify]. cbn beta iota. destruct (Rows.MarkNullifierSpent _ _); [|done].
  by rewrite !(proj1 (IH _)), !(proj2 (IH _)).
Qed.
End accepted_lemmas.

(** * Properties *)

Module AdmissionSpec.
Notation spent s := (Rows.nullifiers (st_Store s)).

(** The transactions of a batch that committed. *)
Definition committed (results : list Result) : list ShieldedTx :=
  rs_Tx <$> filter (λ r, rs_Error r = None) results.

Lemma ProcessBatch_spends `{SHA : Sha256, M3 : Mode3, ED : Ed25519, BR : BigRat, FR : Fr, MM : MiMC,
    GR : !Groth16} json_marshal deps entries s :
  let '(results, s') := ProcessBatch json_marshal deps entries s in
  let ns := concat (txNullifiers <$> committed results) in
  length results = length entries ∧
  NoDup ns ∧ Forall (λ n, n ∉ spent s ∧ n ∈ spent s') ns ∧
  spent s ⊆ spent s' ∧ pendingNullifiers s' = pendingNullifiers s.
Proof.
  revert s. induction entries as [|e entries IH]; intros s; cbn [ProcessBatch].
  { split_and!; try done; constructor. }
  pose proof (processOne_cases json_marshal deps (e_Tx e) (e_SubmittedAt e) s) as H1.
  destruct (processOne _ _ _ _ s) as [[t err] s1]. specialize (IH s1).
  destruct (ProcessBatch _ _ entries s1) as [results s2].
  destruct IH as (Hlen & Hnd & HF & Hsub & Hp). unfold committed in *. destruct err as [err|].
  - destruct H1 as (Hp1 & Hs1 & _). rewrite filter_cons_False by done.
    split_and!; [cbn; by f_equal|done| |set_solver|congruence].
    eapply Forall_impl; [exact HF|]. cbv beta. set_solver.
  - destruct H1 as (? & ? & ? & ? & ? & A). apply accepted_spends in A as (Hp1 & Hs1 & Hd & Hu & Et).
    rewrite filter_cons_True by done. cbn [fmap list_fmap concat rs_Tx]. rewrite Et.
    rewrite Forall_forall in HF, Hu.
    split_and!; [cbn; by f_equal| | |set_solver|congruence].
    + apply NoDup_app. split_and!; [done| |done]. intros n Hn Hin. destruct (HF n Hin). set_solver.
    + apply Forall_app. split; apply Forall_forall; intros n Hn; [set_solver|].
      destruct (HF n Hn). set_solver.
Qed.

(** No double spend. Over any batch, from any state, every entry gets one result;
    the nullifiers of the transactions that commit are pairwise distinct, none was
    spent before and all are spent after; spent nullifiers are never forgotten, and
    the batch leaves no reservation behind. *)
Theorem batch_spends_once `{SHA : Sha256, M3 : Mode3, ED : Ed25519, BR : BigRat, FR : Fr, MM : MiMC,
    GR : !Groth16} json_marshal deps entries s :
  let '(results, s') := ProcessBatch json_marshal deps entries s in
  let ns := concat (txNullifiers <$> committed results) in
  length results = length entries ∧
  NoDup ns ∧ Forall (λ n, n ∉ spent s ∧ n ∈ spent s') ns ∧
  spent s ⊆ spent s' ∧ pendingNullifiers s' = pendingNullifiers s.
Proof. apply ProcessBatch_spends. Qed.

(** C8: the atomicity rule. A rejected transaction releases its reservations and
    changes nothing the chain agrees on (rows, trees, root histories, treasury,
    parameters), at whatever stage it failed, provided it does not repeat one of its
    own nullifiers and, for a mint, the eligibility tree is not full. *)
Theorem rejected_leaves_no_trace `{SHA : Sha256, M3 : Mode3, ED : Ed25519, BR : BigRat, FR : Fr,
    MM : MiMC, GR : !Groth16} json_marshal deps t at_ s t' e s' :
  processOne json_marshal deps t at_ s = (t', Some e, s') →
  NoDup (txNullifiers t) → (tx_Kind t = TxNFTMint → elig_room s) →
  same_core s s' ∧ pendingNullifiers s' = pendingNullifiers s.
Proof.
  intros E Hnd Hr. pose proof (processOne_cases json_marshal deps t at_ s) as H. rewrite E in H.
  destruct H as (Hp & _ & Hc). auto.
Qed.

(** Stage 1 of an accepted transfer: its root is one the node recorded, its proof verifies. *)
Lemma transfer_verified `{SHA : Sha256, M3 : Mode3, ED : Ed25519, BR : BigRat, FR : Fr, MM : MiMC,
    GR : !Groth16} json_marshal deps t at_ s t' s' s1 s2 s3 s4 s5 pub vk h :
  accepted json_marshal deps t at_ s t' s' s1 s2 s3 s4 s5 →
  tx_Kind t = TxTransfer → tx_Transfer t = Some pub → d_ZK deps = Some vk → st_ZKRoots s = Some h →
  RootHistory.Contains h (FieldElementFromBytes32 (tpi_MerkleRoot pub)) = true ∧
  VerifyPublicProofBytes vk (tx_Proof t) (transfer_public_of pub) = Ok tt.
Proof.
  intros [A1 _ _ _ _ _ _] Hk Hpub Hvk Hroots.
  unfold stage1SenderLeave in A1. rewrite Hk in A1. unfold stage1Transfer in A1.
  rewrite Hpub, Hvk in A1. call_inv.
  match goal with H : reserveNullifiers _ _ = _ |- _ => apply reserve_Ok in H as [-> _] end.
  match goal with H : match st_ZKRoots s with _ => _ end = true |- _ => rewrite Hroots in H end.
  split; [done|]. by destruct (VerifyPublicProofBytes _ _ _) as [[]|].
Qed.

(** Stages 4 and 5 of an accepted transfer: its outputs are appended, its fee collected. *)
Lemma transfer_places `{SHA : Sha256, M3 : Mode3, ED : Ed25519, BR : BigRat, FR : Fr, MM : MiMC,
    GR : !Groth16} json_marshal deps t at_ s t' s' s1 s2 s3 s4 s5 pub tree :
  accepted json_marshal deps t at_ s t' s' s1 s2 s3 s4 s5 →
  tx_Kind t = TxTransfer → tx_Transfer t = Some pub → st_ZKTree s = Some tree →
  (ZkTree.leaves <$> st_ZKTree s') =
    Some (ZkTree.leaves tree ++ ((λ c, Bytes (FieldElementFromBytes32 c)) <$> tpi_OutCommits pub)) ∧
  st_Vault s' = (λ v, Vault.CollectFee v (Decimal.FromInt (i64 (tpi_FeeAmount pub)))) <$> st_Vault s.
Proof.
  intros A Hk Hpub Htree. destruct (accepted_prefix _ _ _ _ _ _ _ _ _ _ _ _ A) as (C3 & _).
  destruct A as [_ _ _ A4 A5 -> ->]. set (u3 := with_stage 3 _) in *.
  assert (K3 : tx_Kind u3 = TxTransfer ∧ tx_Transfer u3 = Some pub) by done. destruct K3 as [K3 P3].
  unfold stage4SendExec in A4. rewrite K3, P3 in A4. apply call_bind_Ok in A4 as (u4 & s4' & A4 & [= <-]).
  destruct (transfer_exec_effect _ _ _ _ A4 tree) as [Htr Hva]; [by rewrite (sc_zk _ _ C3)|].
  unfold stage5PlaceFinal in A5. change (tx_Kind (with_stage 4 u3)) with (tx_Kind u3) in A5.
  change (tx_Transfer (with_stage 4 u3)) with (tx_Transfer u3) in A5.
  rewrite K3, P3 in A5. apply call_bind_Ok in A5 as (u5 & s5' & A5 & [= <-]).
  apply call_bind_Ok in A5 as (u6 & s6 & A6 & [= _ <-]).
  pose proof (mark_spent_frame (tpi_Nullifiers pub) s4') as Hf. rewrite A6 in Hf.
  destruct Hf as [Fz Fv]. cbn [snd] in Fz, Fv. unfold finalize.
  match goal with |- context [release ?u ?z] => destruct (release_spec u z) as [Hr _] end.
  rewrite (sc_zk _ _ Hr), (sc_vault _ _ Hr). split.
  - etrans; [|exact Htr]. by rewrite <-Fz.
  - rewrite <-(sc_vault _ _ C3), <-Hva, <-Fv. reflexivity.
Qed.

(** C7: an accepted transfer conserves value. Let the verifying key be sound for the
    transfer circuit, and let the transfer write its nullifiers in canonical form, each
    below the field order, and a public fee below 2^63; neither is checked by the node,
    and the findings below show what happens without them. Then the proof opens two
    different notes (under different commitments, or MiMC collides on their openings)
    in a tree whose root the node recorded, and commits to two outputs whose values and
    the fee add up to the notes spent; the outputs are the ones appended to the
    canonical tree, and the treasury collects exactly the fee. *)
Theorem accepted_transfer_conserves `{SHA : Sha256, M3 : Mode3, ED : Ed25519, BR : BigRat, FR : Fr,
    MM : MiMC, MF : !MimcField, FE : !Frontend, GR : !Groth16, FLaws : !FrLaws, L : !FrontendLaws}
    json_marshal deps vk t at_ s t' s' pub h tree :
  sound_transfer vk → d_ZK deps = Some vk →
  st_ZKRoots s = Some h → st_ZKTree s = Some tree →
  tx_Kind t = TxTransfer → tx_Transfer t = Some pub →
  Forall canonical (tpi_Nullifiers pub) → 0 ≤ tpi_FeeAmount pub < 2 ^ 63 →
  processOne json_marshal deps t at_ s = (t', None, s') →
  ∃ n0 n1 c0 c1 : Hash,
    tpi_Nullifiers pub = [n0; n1] ∧ tpi_OutCommits pub = [c0; c1] ∧
    let root := FieldElementFromBytes32 (tpi_MerkleRoot pub) in
    let N0 := FieldElementFromBytes32 n0 in let N1 := FieldElementFromBytes32 n1 in
    RootHistory.Contains h root = true ∧
    N0 ≠ N1 ∧ (∀ s0 s1, opens root N0 s0 → opens root N1 s1 → two_notes s0 s1) ∧
    balanced root N0 N1 (FieldElementFromBytes32 c0) (FieldElementFromBytes32 c1) (tpi_FeeAmount pub) ∧
    (ZkTree.leaves <$> st_ZKTree s') =
      Some (ZkTree.leaves tree ++ [Bytes (FieldElementFromBytes32 c0); Bytes (FieldElementFromBytes32 c1)]) ∧
    st_Vault s' = (λ v, Vault.CollectFee v (Decimal.FromInt (tpi_FeeAmount pub))) <$> st_Vault s.
Proof.
  intros Hsound Hvk Hroots Htree Hk Hpub Hcan Hfee E.
  pose proof (processOne_cases json_marshal deps t at_ s) as H. rewrite E in H.
  destruct H as (s1 & s2 & s3 & s4 & s5 & A).
  destruct (accepted_spends _ _ _ _ _ _ _ _ _ _ _ _ A) as (_ & _ & Hnd & _).
  pose proof (transfer_places _ _ _ _ _ _ _ _ _ _ _ _ pub tree A Hk Hpub Htree) as [Htr Hva].
  destruct (transfer_verified _ _ _ _ _ _ _ _ _ _ _ _ pub vk h A Hk Hpub Hvk Hroots) as [HR HV].
  unfold txNullifiers in Hnd. rewrite Hk, Hpub in Hnd.
  apply verified_balanced in HV as (e0 & e1 & f0 & f1 & En & Eo & Hbal); [|done|cbn; lia].
  cbn [transfer_public_of tp_Nullifiers tp_OutCommits] in En, Eo.
  destruct (tpi_Nullifiers pub) as [|n0 [|n1 [|]]] eqn:En'; try discriminate En.
  destruct (tpi_OutCommits pub) as [|c0 [|c1 [|]]] eqn:Eo'; try discriminate Eo.
  injection En as <- <-. injection Eo as <- <-.
  assert (Hne : FieldElementFromBytes32 n0 ≠ FieldElementFromBytes32 n1).
  { apply NoDup_cons in Hnd as [Hn _]. inversion_clear Hcan as [|? ? H0 Hcan'].
    inversion_clear Hcan' as [|? ? H1 _]. unfold canonical, FieldElementFromBytes32 in *.
    intros E01. apply Hn, elem_of_cons. left. congruence. }
  exists n0, n1, c0, c1. split; [done|]. split; [done|]. split; [exact HR|]. split; [exact Hne|].
  split; [intros; by eapply opens_two_notes|]. split; [exact Hbal|]. split; [exact Htr|].
  by rewrite i64_id in Hva by lia.
Qed.
End AdmissionSpec.

(** The properties on the concrete node. *)
Module BatchWitness.
Import FrModel FrontendModel GrothModel PipelineModel.

Lemma rejected_leaves_no_trace_witness :
  let t := signed_tx (TxUnknown 11) in
  err_stage (process t state) = 2 ∧ same_core state (process t state).2.
Proof.
  intros t.
  assert (E2 : err_stage (process t state) = 2) by (vm_compute; reflexivity).
  split; [exact E2|]. destruct (process t state) as [[t' [e|]] s'] eqn:E; [|discriminate E2].
  refine (proj1 (AdmissionSpec.rejected_leaves_no_trace json deps t Minute state t' e s' E _ _)).
  - constructor.
  - discriminate.
Defined.

Lemma accepted_transfer_conserves_witness :
  is_accepted (process transfer state) = true ∧
  ∃ n0 n1 c0 c1 : Hash,
    let root := FieldElementFromBytes32 (tpi_MerkleRoot (transfer_inputs 0 input)) in
    FieldElementFromBytes32 n0 ≠ FieldElementFromBytes32 n1 ∧
    (∀ s0 s1, opens root (FieldElementFromBytes32 n0) s0 → opens root (FieldElementFromBytes32 n1) s1 →
       two_notes s0 s1) ∧
    balanced root (FieldElementFromBytes32 n0) (FieldElementFromBytes32 n1)
      (FieldElementFromBytes32 c0) (FieldElementFromBytes32 c1) 2.
Proof.
  assert (E0 : is_accepted (process transfer state) = true) by (vm_compute; reflexivity).
  split; [exact E0|]. destruct (process transfer state) as [[t' [e|]] s'] eqn:E; [discriminate E0|].
  assert (Hc : Forall canonical (tpi_Nullifiers (transfer_inputs 0 input)))
    by (repeat constructor; vm_compute; reflexivity).
  assert (Hf : 0 ≤ tpi_FeeAmount (transfer_inputs 0 input) < 2 ^ 63)
    by (change (0 ≤ 2 < 2 ^ 63); lia).
  pose proof (AdmissionSpec.accepted_transfer_conserves json deps TransferKey transfer Minute state t' s'
    (transfer_inputs 0 input) (RootHistory.NewRootHistory (ZkTree.Root tree)) tree) as H.
  specialize (H sound). specialize (H eq_refl). specialize (H eq_refl). specialize (H eq_refl).
  specialize (H eq_refl). specialize (H eq_refl). specialize (H Hc). specialize (H Hf). specialize (H E).
  destruct H as (n0 & n1 & c0 & c1 & _ & _ & _ & Hne & Htwo & Hb & _).
  exists n0, n1, c0, c1. split; [exact Hne|]. split; [exact Htwo|exact Hb].
Defined.

(** * Findings *)

(** The reservation and the spent set compare 32-byte strings, the proof field
    elements: the notes a transfer spent are spent again, by the same proof, under
    nullifiers one field order higher. *)
Theorem nullifier_alias_double_spend :
  let r1 := process transfer state in
  let again := transfer_tx 1 input in
  let r2 := process again r1.2 in
  (is_accepted r1, is_accepted r2, leaves_of r1.2, leaves_of r2.2) = (true, true, 4%nat, 6%nat) ∧
  ((λ n, Bytes (FieldElementFromBytes32 n)) <$> txNullifiers transfer) =
  ((λ n, Bytes (FieldElementFromBytes32 n)) <$> txNullifiers again).
Proof. split; vm_compute; reflexivity. Qed.

(** A transfer that names one note as both of its inputs satisfies the circuit and
    passes the reservations; it is rejected only when Stage 5 marks the nullifier a
    second time, after Stage 4 has put its two outputs, worth more than the note,
    into the canonical tree and recorded the new root as spendable. *)
Theorem double_input_leaves_outputs :
  let t := transfer_tx 0 double_input in
  let r := process t state in
  err_stage r = 5 ∧ leaves_of state = 2%nat ∧ leaves_of r.2 = 4%nat ∧
  (match st_ZKTree r.2, st_ZKRoots r.2 with
   | Some tr, Some h => RootHistory.Contains h (ZkTree.Root tr)
   | _, _ => false
   end) = true ∧
  (ns_Value <$> ti_OutSecrets double_input) = [4; 8] ∧
  (ns_Value <$> ti_InSecrets double_input) = [7; 7].
Proof. split_and!; vm_compute; reflexivity. Qed.

(** One note spent twice by one transfer. The transfer that names the note worth 7 as
    both of its inputs, with the second nullifier written one field order higher, is
    accepted by the same proof: its outputs, worth 12, and the fee of 2 come from a
    note worth 7. *)
Theorem aliased_inputs_create_value :
  let t := signed_tx TxTransfer in
  let pub := transfer_inputs 0 double_input in
  let n := hd hash_zero (tpi_Nullifiers pub) in
  let n' := hd hash_zero (tpi_Nullifiers (transfer_inputs 1 double_input)) in
  let t := t <| tx_Transfer := Some (pub <| tpi_Nullifiers := [n; n'] |>) |> in
  let r := process t state in
  (is_accepted r, leaves_of state, leaves_of r.2) = (true, 2%nat, 4%nat) ∧
  Bytes (FieldElementFromBytes32 n) = Bytes (FieldElementFromBytes32 n') ∧
  (ns_Value <$> ti_OutSecrets double_input) = [4; 8] ∧
  (ns_Value <$> ti_InSecrets double_input) = [7; 7].
Proof. repeat (apply conj; [vm_compute; reflexivity|]). vm_compute. reflexivity. Qed.

(** The treasury takes the fee as an int64: an accepted transfer whose public fee is
    2^63 leaves minus 2^63 in the pools. *)
Theorem large_fee_is_collected_negative :
  let t := signed_tx TxTransfer in
  let t := t <| tx_Transfer := Some ((transfer_inputs 0 input) <| tpi_FeeAmount := 2 ^ 63 |>) |> in
  let r := processOne json (deps <| d_ZK := Some AnyKey |>) t Minute state in
  is_accepted r = true ∧
  (λ v, Qcanon.this (Vault.total v)) <$> st_Vault state = Some 0%Q ∧
  (λ v, Qcanon.this (Vault.total v)) <$> st_Vault r.2 = Some (inject_Z (- 2 ^ 63)).
Proof. repeat (apply conj; [vm_compute; reflexivity|]). vm_compute. reflexivity. Qed.
End BatchWitness.
