(* ===== verification/Tally.v ===== *)
(** pkg/tx/pipeline.go's TallyDueProposals: the epoch-end count of every due proposal and
    the effects of those that pass, on the shared state of [Pipeline]. *)
From S2P Require Import Prelude Words Decimal Hashing Types Governance Merkle.
From S2P Require Import Field ZkTree Circuit Groth NFT Silent Store Pipeline Sample.

Section tally.
Context `{BR : BigRat, FR : Fr, MM : MiMC}.
Implicit Types (p : ProposalRecord) (s : State).

(** The ballots of a proposal, its revealed choices. Go ranges over a map: the order is
    the runtime's, and [Governance.Tally] does not depend on it. *)
Definition ballots_of (p : ProposalRecord) : list Governance.Ballot :=
  (λ vc, {| Governance.bl_Voter := vc.1; Governance.bl_Approve := vc.2 |}) <$> map_to_list (pr_Reveals p).

(** The outcome, recorded before any effect. *)
Definition count_proposal (eligibleNFTs : Z) (p : ProposalRecord) : ProposalRecord :=
  let result := Governance.Tally (ballots_of p) eligibleNFTs Governance.MinTurnout in
  p <| pr_Tallied := true |> <| pr_Approve := Governance.tr_Approve result |>
    <| pr_Reject := Governance.tr_Reject result |> <| pr_Passed := Governance.tr_Passed result |>.

(** ** The effects of a passed proposal, in the order the code runs them *)

Definition apply_param (p : ProposalRecord) (s : State) : ProposalRecord * State :=
  match st_Governance s with
  | Some g =>
      if pr_Passed p && negb (bool_decide (pr_ParamKey p = EmptyString)) then
        match Governance.ApplyParamChange g (pr_ParamKey p) (pr_NewValue p) with
        | Err _ => (p, s)
        | Ok g' =>
            let s' := s <| st_Governance := Some g' |> in
            (p <| pr_Applied := true |>,
             if Governance.IsVaultShareKey (pr_ParamKey p)
             then s' <| st_Vault ::= option_map (λ v, v <| Vault.vt_Splits := Vault.SplitsFromParams g' |>) |>
             else s')
        end
      else (p, s)
  | None => (p, s)
  end.

Definition apply_mint_staked (p : ProposalRecord) (s : State) : ProposalRecord * State :=
  match st_StakeTree s with
  | None => (p, s)
  | Some tree =>
      match ZkTree.Insert tree (FieldElementFromBytes32 (pr_StakePositionCommit p)) with
      | Err _ => (p, s)
      | Ok (_, tree') =>
          (p <| pr_MintApplied := true |>,
           s <| st_StakeTree := Some tree' |>
             <| st_StakeRoots ::= option_map (λ h, RootHistory.Record_root h (ZkTree.Root tree')) |>)
      end
  end.

Definition apply_mint_direct (p : ProposalRecord) (s : State) : ProposalRecord * State :=
  match st_ZKTree s with
  | None => (p, s)
  | Some tree =>
      match ZkTree.Insert tree (FieldElementFromBytes32 (pr_MintOutCommit p)) with
      | Err _ => (p, s)
      | Ok (_, tree') =>
          (p <| pr_MintApplied := true |>,
           s <| st_ZKTree := Some tree' |>
             <| st_StateTree ::= λ m, (Append m (pr_MintOutCommit p)).2 |>
             <| st_ZKRoots ::= option_map (λ h, RootHistory.Record_root h (ZkTree.Root tree')) |>
             <| st_Vault ::= option_map (λ v,
                  Vault.CollectFee v (Decimal.FromInt (i64 (MintFeeAmount (pr_MintAmount p))))) |>)
      end
  end.

Definition apply_mint (p : ProposalRecord) (s : State) : ProposalRecord * State :=
  if pr_Passed p && (0 <? pr_MintAmount p) && pr_MintStaked p then apply_mint_staked p s
  else if pr_Passed p && (0 <? pr_MintAmount p) then apply_mint_direct p s
  else (p, s).

Definition apply_slash (p : ProposalRecord) (s : State) : ProposalRecord * State :=
  if pr_Passed p && negb (IsZero (pr_SlashTargetNFT p)) then
    match Rows.GetNFT (pr_SlashTargetNFT p) (st_Store s) with
    | None => (p, s)
    | Some nft =>
        let action := if pr_SlashBurn p then NFT.SlashBurn else NFT.SlashFreeze in
        let nft := NFT.ApplySlash nft action in
        (p <| pr_SlashApplied := true |>,
         s <| st_Store ::= if pr_SlashBurn p then Rows.DeleteNFT nft else Rows.PutNFT nft |>)
    end
  else (p, s).

Definition apply_unlock (p : ProposalRecord) (s : State) : ProposalRecord * State :=
  if pr_Passed p && negb (IsZero (pr_UnlockTransferTarget p)) then
    match Rows.GetNFT (pr_UnlockTransferTarget p) (st_Store s) with
    | None => (p, s)
    | Some nft =>
        (p <| pr_UnlockTransferApplied := true |>,
         s <| st_Store ::= Rows.PutNFT (NFT.UnlockTransfer nft) |>)
    end
  else (p, s).

Definition apply_asset (p : ProposalRecord) (s : State) : ProposalRecord * State :=
  if pr_Passed p && negb (bool_decide (pr_ContainerAssetTarget p = EmptyString)) then
    (p <| pr_ContainerAssetApplied := true |>,
     s <| st_Store ::= Rows.PutAuthorizedAsset (pr_ContainerAssetTarget p) |>)
  else (p, s).

Definition apply_unwind (p : ProposalRecord) (s : State) : ProposalRecord * State :=
  match st_Governance s with
  | Some g =>
      if pr_Passed p && pr_UnwindDualSign p then
        (p <| pr_UnwindDualSignApplied := true |>,
         s <| st_Governance := Some (g <| Governance.DualSignEnabled := false |>) |>)
      else (p, s)
  | None => (p, s)
  end.

(** The steps of one iteration. *)
Definition effects : list (ProposalRecord → State → ProposalRecord * State) :=
  [apply_param; apply_mint; apply_slash; apply_unlock; apply_asset; apply_unwind].

Definition tally_record (eligibleNFTs : Z) (p : ProposalRecord) (s : State) : ProposalRecord * State :=
  let '(p, s) := foldl (λ ps f, f ps.1 ps.2) (count_proposal eligibleNFTs p, s) effects in
  (p, s <| st_Store ::= Rows.PutProposal p |>).

(** A proposal is due when it is untallied and of an epoch before the current one. *)
Definition due (currentEpoch : Z) (p : ProposalRecord) : bool :=
  negb (pr_Tallied p || (currentEpoch <=? pr_Epoch p)).

Fixpoint tally_all (currentEpoch eligibleNFTs : Z) (all : list ProposalRecord) (s : State)
    : list ProposalRecord * State :=
  match all with
  | [] => ([], s)
  | p :: all =>
      if due currentEpoch p then
        let '(p, s) := tally_record eligibleNFTs p s in
        let '(tallied, s) := tally_all currentEpoch eligibleNFTs all s in
        (p :: tallied, s)
      else tally_all currentEpoch eligibleNFTs all s
  end.

Definition TallyDueProposals (currentEpoch : Z) (s : State) : list ProposalRecord * State :=
  tally_all currentEpoch (Rows.CountNFTs (st_Store s)) (Rows.ListProposals (st_Store s)) s.
End tally.

(** * Lemmas *)

(** What a proposal asks and what was cast for it, as opposed to its outcome. *)
Definition claim (p : ProposalRecord) :=
  (pr_ProposalID p, pr_Epoch p, pr_Commitments p, pr_Reveals p, (pr_ParamKey p, pr_NewValue p),
   (pr_MintAmount p, pr_MintOutCommit p, pr_MintStaked p, pr_StakePositionCommit p),
   (pr_SlashTargetNFT p, pr_SlashBurn p), pr_UnlockTransferTarget p, pr_ContainerAssetTarget p,
   pr_UnwindDualSign p).
Definition outcome (p : ProposalRecord) := (pr_Tallied p, pr_Approve p, pr_Reject p, pr_Passed p).
(** The marks left by effects that ran. *)
Definition marks (p : ProposalRecord) :=
  (pr_Applied p, pr_MintApplied p, pr_SlashApplied p, pr_UnlockTransferApplied p,
   pr_ContainerAssetApplied p, pr_UnwindDualSignApplied p).
Definition no_marks := (false, false, false, false, false, false).

Section tally_lemmas.
Context `{BR : BigRat, FR : Fr, MM : MiMC}.
Implicit Types (p : ProposalRecord) (s : State).
Notation proposals s := (Rows.proposals (st_Store s)).

(** An effect keeps the claim and the outcome, does not touch the stored proposals, the
    spent nullifiers or the reservations, and does nothing for a rejected proposal. *)
Definition effect_ok (f : ProposalRecord → State → ProposalRecord * State) : Prop := ∀ p s,
  let '(p', s') := f p s in
  claim p' = claim p ∧ outcome p' = outcome p ∧ proposals s' = proposals s ∧
  Rows.nullifiers (st_Store s') = Rows.nullifiers (st_Store s) ∧
  pendingNullifiers s' = pendingNullifiers s ∧ (pr_Passed p = false → p' = p ∧ s' = s).

(** Follows the branches of an effect; a branch that changes something is guarded by
    the vote having passed. *)
Ltac effect_cases :=
  repeat (cbv beta iota zeta; match goal with
  | |- context [match ?x with _ => _ end] =>
      lazymatch x with context [match _ with _ => _ end] => fail | _ => destruct x eqn:? end
  end);
  cbv beta iota zeta; (repeat match goal with |- _ ∧ _ => split end); try reflexivity;
  intros Hp; repeat match goal with H : _ && _ = true |- _ => rewrite Hp in H end;
  first [match goal with H : _ && _ = true |- _ => discriminate H end | split; reflexivity].

Lemma apply_param_ok : effect_ok apply_param.
Proof. intros p s. unfold apply_param. effect_cases. Qed.
Lemma apply_mint_ok : effect_ok apply_mint.
Proof. intros p s. unfold apply_mint, apply_mint_staked, apply_mint_direct. effect_cases. Qed.
Lemma apply_slash_ok : effect_ok apply_slash.
Proof. intros p s. unfold apply_slash. effect_cases. Qed.
Lemma apply_unlock_ok : effect_ok apply_unlock.
Proof. intros p s. unfold apply_unlock. effect_cases. Qed.
Lemma apply_asset_ok : effect_ok apply_asset.
Proof. intros p s. unfold apply_asset. effect_cases. Qed.
Lemma apply_unwind_ok : effect_ok apply_unwind.
Proof. intros p s. unfold apply_unwind. effect_cases. Qed.

Lemma effects_ok : Forall effect_ok effects.
Proof.
  repeat constructor; auto using apply_param_ok, apply_mint_ok, apply_slash_ok, apply_unlock_ok,
    apply_asset_ok, apply_unwind_ok.
Qed.

Lemma fold_effects_ok fs : Forall effect_ok fs → effect_ok (λ p s, foldl (λ ps f, f ps.1 ps.2) (p, s) fs).
Proof.
  induction 1 as [|f fs Hf _ IH]; intros p s; cbn [foldl]; [done|].
  specialize (Hf p s). cbn [fst snd]. destruct (f p s) as [p1 s1].
  specialize (IH p1 s1). cbv beta in IH. destruct (foldl _ (p1, s1) fs) as [p2 s2].
  destruct Hf as (C1 & O1 & R1 & N1 & Q1 & F1), IH as (C2 & O2 & R2 & N2 & Q2 & F2).
  split_and!; try congruence. intros Hp. destruct (F1 Hp) as [-> ->]. by apply F2.
Qed.

(** One iteration: the record keeps its claim, takes its outcome, and is stored. *)
Lemma tally_record_spec n p s :
  let '(p', s') := tally_record n p s in
  let r := Governance.Tally (ballots_of p) n Governance.MinTurnout in
  claim p' = claim p ∧
  outcome p' = (true, Governance.tr_Approve r, Governance.tr_Reject r, Governance.tr_Passed r) ∧
  proposals s' = <[pr_ProposalID p := p']> (proposals s) ∧
  Rows.nullifiers (st_Store s') = Rows.nullifiers (st_Store s) ∧
  pendingNullifiers s' = pendingNullifiers s ∧
  (Governance.tr_Passed r = false →
     p' = count_proposal n p ∧ s' = s <| st_Store ::= Rows.PutProposal p' |>).
Proof.
  unfold tally_record. pose proof (fold_effects_ok effects effects_ok (count_proposal n p) s) as H.
  cbv beta in H. destruct (foldl _ _ effects) as [p' s']. destruct H as (C & O & R & N & Q & F).
  assert (Eid : pr_ProposalID p' = pr_ProposalID p) by by apply (f_equal (λ c, c.1.1.1.1.1.1.1.1.1)) in C.
  split_and!; try done.
  - cbn. by rewrite Eid, R.
  - intros Hf. by destruct (F Hf) as [-> ->].
Qed.
End tally_lemmas.

Lemma elem_of_ListProposals p r :
  p ∈ Rows.ListProposals r ↔ ∃ id, Rows.GetProposal id r = Some p.
Proof.
  unfold Rows.ListProposals, Rows.proposal_ids, Rows.GetProposal. rewrite list_elem_of_omap.
  split; [naive_solver|]. intros [id E]. exists id. split; [|done].
  rewrite merge_sort_Permutation, elem_of_elements, elem_of_dom. eauto.
Qed.

(** A stored proposal is filed under its own id, bears no mark of an effect before it is
    tallied, and every revealed choice opens the commitment the same voter cast. *)
Record proposal_ok `{Sha256} (id : string) (p : ProposalRecord) : Prop := {
  po_id : pr_ProposalID p = id;
  po_fresh : pr_Tallied p = false → marks p = no_marks;
  po_open : ∀ voter b, pr_Reveals p !! voter = Some b → ∃ nonce,
    pr_Commitments p !! voter = Some (ComputeVoteCommitment voter b nonce) }.
Definition proposals_ok `{Sha256} (r : Rows) : Prop := map_Forall proposal_ok (Rows.proposals r).

Section tally_loop.
Context `{SHA : Sha256, BR : BigRat, FR : Fr, MM : MiMC}.
Implicit Types (p : ProposalRecord) (s : State).
Notation proposals s := (Rows.proposals (st_Store s)).

Lemma claim_id p p' : claim p' = claim p → pr_ProposalID p' = pr_ProposalID p.
Proof. intros C. by apply (f_equal (λ c, c.1.1.1.1.1.1.1.1.1)) in C. Qed.

(** The outcome of a proposal counted with [n] eligible NFTs. *)
Definition counted (n : Z) p p' : Prop :=
  let r := Governance.Tally (ballots_of p) n Governance.MinTurnout in
  claim p' = claim p ∧
  outcome p' = (true, Governance.tr_Approve r, Governance.tr_Reject r, Governance.tr_Passed r).

Lemma tally_all_spec cur n all s :
  NoDup (pr_ProposalID <$> all) →
  let '(out, s') := tally_all cur n all s in
  Forall2 (counted n) (filter (λ p, due cur p = true) all) out ∧
  (∀ p', p' ∈ out → proposals s' !! pr_ProposalID p' = Some p') ∧
  (∀ id, id ∉ pr_ProposalID <$> out → proposals s' !! id = proposals s !! id) ∧
  Rows.nullifiers (st_Store s') = Rows.nullifiers (st_Store s) ∧
  pendingNullifiers s' = pendingNullifiers s.
Proof.
  revert s. induction all as [|p all IH]; intros s Hnd; cbn [tally_all].
  { split_and!; try done. intros p Hp. by apply not_elem_of_nil in Hp. }
  cbn in Hnd. apply NoDup_cons in Hnd as [Hp Hnd]. rewrite filter_cons.
  destruct (due cur p) eqn:Ed.
  2:{ rewrite decide_False by done. by apply IH. }
  rewrite decide_True by done. pose proof (tally_record_spec n p s) as H.
  destruct (tally_record n p s) as [p1 s1]. cbv zeta in H. destruct H as (C & O & R & N & Q & _).
  specialize (IH s1 Hnd). destruct (tally_all cur n all s1) as [out s2].
  destruct IH as (I1 & I2 & I3 & I4 & I5). pose proof (claim_id _ _ C) as Eid.
  assert (Hout : pr_ProposalID <$> out = pr_ProposalID <$> filter (λ p, due cur p = true) all).
  { clear -I1. induction I1 as [|x y l k [Hx _] _ IH]; [done|]. cbn. f_equal; [by apply claim_id|done]. }
  assert (Hn : pr_ProposalID p1 ∉ pr_ProposalID <$> out).
  { rewrite Hout, Eid. intros (x & Ex & [_ Hx]%list_elem_of_filter)%list_elem_of_fmap.
    apply Hp. rewrite Ex. by apply list_elem_of_fmap_2. }
  split; [by constructor|]. split; [|split; [|split; congruence]].
  - intros p' [->|Hp']%elem_of_cons; [|by apply I2].
    rewrite I3 by done. by rewrite R, Eid, lookup_insert, decide_True.
  - intros id Hid. cbn in Hid. apply not_elem_of_cons in Hid as [Hid Hid'].
    rewrite I3, R by done. rewrite lookup_insert_ne; [done|congruence].
Qed.

Lemma listed_ids_NoDup r : proposals_ok r → NoDup (pr_ProposalID <$> Rows.ListProposals r).
Proof.
  intros Hok. unfold Rows.ListProposals.
  assert (Hids : NoDup (Rows.proposal_ids r)).
  { unfold Rows.proposal_ids. rewrite merge_sort_Permutation. apply NoDup_elements. }
  induction Hids as [|id ids Hid _ IH]; [constructor|]. cbn [omap list_omap].
  destruct (Rows.proposals r !! id) as [p|] eqn:E; [|done]. cbn. apply NoDup_cons. split; [|done].
  intros (x & Ex & (id' & Hid' & E')%list_elem_of_omap)%list_elem_of_fmap.
  apply Hok, po_id in E, E'. congruence.
Qed.

Lemma counted_ids n l out : Forall2 (counted n) l out → pr_ProposalID <$> out = pr_ProposalID <$> l.
Proof. induction 1 as [|x y l k [Hx _] _ IH]; [done|]. cbn. f_equal; [by apply claim_id|done]. Qed.

(** Nothing is due right after a tally of the same epoch. *)
Lemma tally_all_none cur n all s : Forall (λ p, due cur p = false) all → tally_all cur n all s = ([], s).
Proof. induction 1 as [|p all Hp _ IH]; [done|]. cbn [tally_all]. by rewrite Hp. Qed.

(** What a tally does to one stored proposal. *)
Lemma tally_lookup cur s : proposals_ok (st_Store s) →
  let n := Rows.CountNFTs (st_Store s) in
  let '(out, s') := TallyDueProposals cur s in
  pr_ProposalID <$> out = pr_ProposalID <$> filter (λ p, due cur p = true) (Rows.ListProposals (st_Store s)) ∧
  (∀ id p, proposals s !! id = Some p →
     if due cur p then ∃ p', p' ∈ out ∧ counted n p p' ∧ proposals s' !! id = Some p'
     else proposals s' !! id = Some p) ∧
  (∀ id, proposals s !! id = None → proposals s' !! id = None) ∧
  Rows.nullifiers (st_Store s') = Rows.nullifiers (st_Store s) ∧
  pendingNullifiers s' = pendingNullifiers s.
Proof.
  intros Hok n. unfold TallyDueProposals. fold n.
  pose proof (tally_all_spec cur n (Rows.ListProposals (st_Store s)) s (listed_ids_NoDup _ Hok)) as H.
  destruct (tally_all _ _ _ _) as [out s']. destruct H as (HF & Hin & Hout & HN & HQ).
  pose proof (counted_ids _ _ _ HF) as Hids. split; [done|]. split_and!; [| |done..].
  - intros id p E. pose proof (po_id _ _ (Hok _ _ E)) as Eid.
    destruct (due cur p) eqn:Ed.
    + assert (Hp : p ∈ filter (λ p, due cur p = true) (Rows.ListProposals (st_Store s))).
      { apply list_elem_of_filter. split; [done|]. apply elem_of_ListProposals. by exists id. }
      apply list_elem_of_lookup in Hp as [i Hi]. destruct (Forall2_lookup_l _ _ _ _ _ HF Hi) as (p' & Hi' & Hc).
      exists p'. assert (p' ∈ out) by by eapply list_elem_of_lookup_2.
      split_and!; [done..|]. rewrite <-(Hin p') by done. f_equal. destruct Hc as [Hc _].
      apply claim_id in Hc. congruence.
    + rewrite Hout; [done|]. rewrite Hids. intros (x & Ex & [Hx Hl]%list_elem_of_filter)%list_elem_of_fmap.
      apply elem_of_ListProposals in Hl as [id' E']. unfold Rows.GetProposal in E'.
      pose proof (po_id _ _ (Hok _ _ E')). assert (id' = id) as -> by congruence. congruence.
  - intros id E. rewrite Hout; [done|]. rewrite Hids.
    intros (x & Ex & [Hx Hl]%list_elem_of_filter)%list_elem_of_fmap.
    apply elem_of_ListProposals in Hl as [id' E']. unfold Rows.GetProposal in E'.
    pose proof (po_id _ _ (Hok _ _ E')). assert (id' = id) as -> by congruence. congruence.
Qed.
End tally_loop.

(** * What a tally adds to the trees *)

(** The proposals whose mint ran, on either path. *)
Definition direct_mint (p : ProposalRecord) : bool :=
  pr_Passed p && (0 <? pr_MintAmount p) && negb (pr_MintStaked p) && pr_MintApplied p.
Definition staked_mint (p : ProposalRecord) : bool :=
  pr_Passed p && (0 <? pr_MintAmount p) && pr_MintStaked p && pr_MintApplied p.
Definition selected {A} (b : bool) (x : A) : list A := if b then [x] else [].
Definition mint_fee (p : ProposalRecord) : Decimal := Decimal.FromInt (i64 (MintFeeAmount (pr_MintAmount p))).

Section minting.
Context `{SHA : Sha256, BR : BigRat, FR : Fr, MM : MiMC}.
Implicit Types (p : ProposalRecord) (s : State).

Definition note_leaf (c : Hash) : bytes := Bytes (FieldElementFromBytes32 c).
Definition grow_by (o : option ZkTree.Tree) (l : list bytes) (o' : option ZkTree.Tree) : Prop :=
  ZkTree.leaves <$> o' = (λ k, k ++ l) <$> (ZkTree.leaves <$> o).

(** What the effects other than a mint leave alone: the trees, the mint's mark, and the
    treasury's content (its shares too, unless the vote was on a share). *)
Record mint_frame p s p' s' : Prop := {
  mf_zk : st_ZKTree s' = st_ZKTree s; mf_state : st_StateTree s' = st_StateTree s;
  mf_stake : st_StakeTree s' = st_StakeTree s; mf_elig : st_EligibilityTree s' = st_EligibilityTree s;
  mf_mark : pr_MintApplied p' = pr_MintApplied p;
  mf_vault : Governance.IsVaultShareKey (pr_ParamKey p) = false → st_Vault s' = st_Vault s }.

(** What one iteration adds, given the mark it leaves. *)
Record mints p' s s' : Prop := {
  mi_zk : grow_by (st_ZKTree s) (selected (direct_mint p') (note_leaf (pr_MintOutCommit p'))) (st_ZKTree s');
  mi_state : mt_leaves (st_StateTree s') =
    mt_leaves (st_StateTree s) ++ selected (direct_mint p') (pr_MintOutCommit p');
  mi_stake : grow_by (st_StakeTree s)
    (selected (staked_mint p') (note_leaf (pr_StakePositionCommit p'))) (st_StakeTree s');
  mi_elig : st_EligibilityTree s' = st_EligibilityTree s;
  mi_vault : ∀ v, st_Vault s = Some v → Governance.IsVaultShareKey (pr_ParamKey p') = false →
    ∃ v', st_Vault s' = Some v' ∧ Vault.vt_Splits v' = Vault.vt_Splits v ∧
    Vault.total v' = (Vault.total v +
      foldr Qcplus 0 (selected (direct_mint p') (mint_fee p' * Vault.split_sum (Vault.vt_Splits v))))%Qc }.

Lemma grow_nil o : grow_by o [] o.
Proof. unfold grow_by. destruct o; cbn; [by rewrite app_nil_r|done]. Qed.

(** Follows the branches of an effect that mints nothing. *)
Ltac frame_cases :=
  repeat (cbv beta iota zeta; match goal with
  | |- context [match ?x with _ => _ end] =>
      lazymatch x with context [match _ with _ => _ end] => fail | _ => destruct x eqn:? end
  end);
  cbv beta iota zeta; split; try reflexivity; intros Hk;
  first [reflexivity | match goal with H : Governance.IsVaultShareKey _ = true |- _ => by rewrite Hk in H end].

Lemma apply_param_frame p s : mint_frame p s (apply_param p s).1 (apply_param p s).2.
Proof. unfold apply_param. frame_cases. Qed.
Lemma apply_slash_frame p s : mint_frame p s (apply_slash p s).1 (apply_slash p s).2.
Proof. unfold apply_slash. frame_cases. Qed.
Lemma apply_unlock_frame p s : mint_frame p s (apply_unlock p s).1 (apply_unlock p s).2.
Proof. unfold apply_unlock. frame_cases. Qed.
Lemma apply_asset_frame p s : mint_frame p s (apply_asset p s).1 (apply_asset p s).2.
Proof. unfold apply_asset. frame_cases. Qed.
Lemma apply_unwind_frame p s : mint_frame p s (apply_unwind p s).1 (apply_unwind p s).2.
Proof. unfold apply_unwind. frame_cases. Qed.

Lemma insert_leaves tree c i tree' :
  ZkTree.Insert tree (FieldElementFromBytes32 c) = Ok (i, tree') →
  ZkTree.leaves tree' = ZkTree.leaves tree ++ [note_leaf c].
Proof. unfold ZkTree.Insert. case_match; [done|]. by intros [= _ <-]. Qed.

Lemma direct_mint_marked p :
  direct_mint (p <| pr_MintApplied := true |>) =
  pr_Passed p && (0 <? pr_MintAmount p) && negb (pr_MintStaked p).
Proof. apply andb_true_r. Qed.
Lemma staked_mint_marked p :
  staked_mint (p <| pr_MintApplied := true |>) = pr_Passed p && (0 <? pr_MintAmount p) && pr_MintStaked p.
Proof. apply andb_true_r. Qed.

Lemma apply_mint_spec p s :
  pr_MintApplied p = false → mints (apply_mint p s).1 s (apply_mint p s).2.
Proof.
  intros Hm. unfold apply_mint.
  assert (Hno : ∀ p' : ProposalRecord, direct_mint p' = false → staked_mint p' = false → mints p' s s).
  { intros p' Hd Hs. split; rewrite ?Hd, ?Hs; try apply grow_nil; try done.
    - cbn. by rewrite app_nil_r.
    - intros v E _. exists v. split; [done|]. split; [done|]. cbn. by rewrite Qcplus_0_r. }
  destruct (pr_Passed p && (0 <? pr_MintAmount p)) eqn:Ep; cbn [andb fst snd].
  2:{ apply Hno; unfold direct_mint, staked_mint; by rewrite Ep. }
  destruct (pr_MintStaked p) eqn:Es.
  - unfold apply_mint_staked. destruct (st_StakeTree s) as [tree|] eqn:Et; cbn [fst snd].
    2:{ apply Hno; unfold direct_mint, staked_mint; by rewrite Ep, Es, Hm. }
    destruct (ZkTree.Insert _ _) as [[i tree']|] eqn:Ei; cbn [fst snd].
    2:{ apply Hno; unfold direct_mint, staked_mint; by rewrite Ep, Es, Hm. }
    apply insert_leaves in Ei.
    pose proof (direct_mint_marked p) as Hd. pose proof (staked_mint_marked p) as Hs.
    rewrite Ep, Es in Hd, Hs. cbn in Hd, Hs.
    split; rewrite ?Hd, ?Hs; try apply grow_nil; try done.
    + cbn. by rewrite app_nil_r.
    + unfold grow_by. rewrite Et. cbn. by rewrite Ei.
    + intros v E _. exists v. split; [done|]. split; [done|]. cbn. by rewrite Qcplus_0_r.
  - unfold apply_mint_direct. destruct (st_ZKTree s) as [tree|] eqn:Et; cbn [fst snd].
    2:{ apply Hno; unfold direct_mint, staked_mint; by rewrite Ep, Es, Hm. }
    destruct (ZkTree.Insert _ _) as [[i tree']|] eqn:Ei; cbn [fst snd].
    2:{ apply Hno; unfold direct_mint, staked_mint; by rewrite Ep, Es, Hm. }
    apply insert_leaves in Ei.
    pose proof (direct_mint_marked p) as Hd. pose proof (staked_mint_marked p) as Hs.
    rewrite Ep, Es in Hd, Hs. cbn in Hd, Hs.
    split; rewrite ?Hd, ?Hs; try apply grow_nil; try done.
    + unfold grow_by. rewrite Et. cbn. by rewrite Ei.
    + intros v E _. eexists. cbn. rewrite E. split; [reflexivity|].
      destruct (CollectFee_total v (mint_fee p)) as [Ht Hv].
      split; [exact Hv|]. cbn [selected foldr]. rewrite Qcplus_0_r. exact Ht.
Qed.

Lemma mints_extend p p1 s s1 s2 p2 p3 s3 :
  mint_frame p s p1 s1 → claim p1 = claim p → mints p2 s1 s2 → mint_frame p2 s2 p3 s3 →
  claim p2 = claim p1 → claim p3 = claim p2 → outcome p3 = outcome p2 → mints p3 s s3.
Proof.
  intros [F1 F2 F3 F4 _ F5] C1 [M1 M2 M3 M4 M5] [G1 G2 G3 G4 G5 G6] C2 C3 O3.
  assert (Ek : ∀ q q', claim q' = claim q → pr_ParamKey q' = pr_ParamKey q ∧
    pr_MintAmount q' = pr_MintAmount q ∧ pr_MintOutCommit q' = pr_MintOutCommit q ∧
    pr_MintStaked q' = pr_MintStaked q ∧ pr_StakePositionCommit q' = pr_StakePositionCommit q).
  { intros q q' E. by injection E. }
  destruct (Ek _ _ C1) as (K1 & _), (Ek _ _ C2) as (K2 & _), (Ek _ _ C3) as (K3 & A3 & B3 & D3 & H3).
  assert (Ep : pr_Passed p3 = pr_Passed p2) by by injection O3.
  assert (Ed : direct_mint p3 = direct_mint p2) by (unfold direct_mint; by rewrite Ep, A3, D3, G5).
  assert (Es : staked_mint p3 = staked_mint p2) by (unfold staked_mint; by rewrite Ep, A3, D3, G5).
  split; rewrite ?Ed, ?Es, ?B3, ?H3, ?G1, ?G2, ?G3, ?G4, <-?F1, <-?F2, <-?F3, <-?F4; try done.
  intros v Ev Hkey. rewrite K3 in Hkey.
  destruct (M5 v) as (v' & Ev' & Hsp & Ht); [rewrite F5; [done|congruence]|done|].
  exists v'. rewrite G6 by done. split; [done|]. split; [done|].
  unfold mint_fee. by rewrite A3.
Qed.

Lemma mint_frame_trans p1 s1 p2 s2 p3 s3 :
  mint_frame p1 s1 p2 s2 → mint_frame p2 s2 p3 s3 → pr_ParamKey p2 = pr_ParamKey p1 →
  mint_frame p1 s1 p3 s3.
Proof.
  intros [] [] Ek. split; try congruence. rewrite Ek in *. intros Hk. transitivity (st_Vault s2); auto.
Qed.

Lemma claim_key p p' : claim p' = claim p → pr_ParamKey p' = pr_ParamKey p.
Proof. intros E. by injection E. Qed.

Lemma tally_record_mints n p s :
  pr_MintApplied p = false → mints (tally_record n p s).1 s (tally_record n p s).2.
Proof.
  intros Hm. unfold tally_record, effects. cbn [foldl fst snd].
  set (p0 := count_proposal n p).
  pose proof (apply_param_frame p0 s) as F1. pose proof (apply_param_ok p0 s) as O1.
  destruct (apply_param p0 s) as [p1 s1]. cbn [fst snd] in *.
  pose proof (apply_mint_spec p1 s1) as F2. pose proof (apply_mint_ok p1 s1) as O2.
  destruct (apply_mint p1 s1) as [p2 s2]. cbn [fst snd] in *.
  pose proof (apply_slash_frame p2 s2) as F3. pose proof (apply_slash_ok p2 s2) as O3.
  destruct (apply_slash p2 s2) as [p3 s3]. cbn [fst snd] in *.
  pose proof (apply_unlock_frame p3 s3) as F4. pose proof (apply_unlock_ok p3 s3) as O4.
  destruct (apply_unlock p3 s3) as [p4 s4]. cbn [fst snd] in *.
  pose proof (apply_asset_frame p4 s4) as F5. pose proof (apply_asset_ok p4 s4) as O5.
  destruct (apply_asset p4 s4) as [p5 s5]. cbn [fst snd] in *.
  pose proof (apply_unwind_frame p5 s5) as F6. pose proof (apply_unwind_ok p5 s5) as O6.
  destruct (apply_unwind p5 s5) as [p6 s6]. cbn [fst snd] in *.
  destruct O1 as (C1 & U1 & _), O2 as (C2 & U2 & _), O3 as (C3 & U3 & _), O4 as (C4 & U4 & _),
    O5 as (C5 & U5 & _), O6 as (C6 & U6 & _).
  apply (mints_extend p0 p1 s s1 s2 p2 p6); [done..|apply F2| |done|congruence|congruence].
  { rewrite (mf_mark _ _ _ _ F1). exact Hm. }
  assert (F7 : mint_frame p5 s5 p6 (s6 <| st_Store ::= Rows.PutProposal p6 |>)) by by destruct F6.
  eapply mint_frame_trans; [exact F3| |by apply claim_key].
  eapply mint_frame_trans; [exact F4| |by apply claim_key].
  eapply mint_frame_trans; [exact F5|exact F7|by apply claim_key].
Qed.

(** What a whole tally adds. *)
Lemma tally_all_mints cur n all s :
  Forall (λ p, due cur p = true → pr_MintApplied p = false) all →
  let '(out, s') := tally_all cur n all s in
  let direct := filter (λ p, direct_mint p = true) out in
  let staked := filter (λ p, staked_mint p = true) out in
  grow_by (st_ZKTree s) (note_leaf ∘ pr_MintOutCommit <$> direct) (st_ZKTree s') ∧
  mt_leaves (st_StateTree s') = mt_leaves (st_StateTree s) ++ (pr_MintOutCommit <$> direct) ∧
  grow_by (st_StakeTree s) (note_leaf ∘ pr_StakePositionCommit <$> staked) (st_StakeTree s') ∧
  st_EligibilityTree s' = st_EligibilityTree s ∧
  (∀ v, st_Vault s = Some v →
     Forall (λ p, Governance.IsVaultShareKey (pr_ParamKey p) = false) out →
     ∃ v', st_Vault s' = Some v' ∧ Vault.vt_Splits v' = Vault.vt_Splits v ∧
     Vault.total v' = (Vault.total v +
       foldr Qcplus 0 ((λ p, mint_fee p * Vault.split_sum (Vault.vt_Splits v)) <$> direct))%Qc).
Proof.
  revert s. induction all as [|p all IH]; intros s HF; cbn [tally_all].
  { cbn. split_and!; try apply grow_nil; try done; [by rewrite app_nil_r|].
    intros v E _. exists v. split; [done|]. split; [done|]. by rewrite Qcplus_0_r. }
  apply Forall_cons in HF as [Hp HF].
  destruct (due cur p) eqn:Ed; [|by apply IH].
  pose proof (tally_record_mints n p s (Hp eq_refl)) as [M1 M2 M3 M4 M5].
  destruct (tally_record n p s) as [p1 s1]. cbn [fst snd] in *.
  specialize (IH s1 HF). destruct (tally_all cur n all s1) as [out s2]. cbv zeta in *.
  destruct IH as (I1 & I2 & I3 & I4 & I5).
  assert (Hg : ∀ a b c l k, grow_by a l b → grow_by b k c → grow_by a (l ++ k) c).
  { unfold grow_by. intros a b c l k -> ->. destruct a; cbn; [by rewrite <-(assoc_L (++))|done]. }
  assert (Hsel : ∀ B (b : ProposalRecord → bool) (f : ProposalRecord → B),
    f <$> filter (λ p, b p = true) (p1 :: out) = selected (b p1) (f p1) ++ (f <$> filter (λ p, b p = true) out)).
  { intros B b f. rewrite filter_cons. destruct (b p1); [by rewrite decide_True|by rewrite decide_False]. }
  rewrite !Hsel. split_and!.
  - by eapply Hg.
  - by rewrite I2, M2, <-(assoc_L (++)).
  - by eapply Hg.
  - congruence.
  - intros v Ev [Hk HFo]%Forall_cons. destruct (M5 v Ev Hk) as (v1 & Ev1 & Hs1 & Ht1).
    destruct (I5 v1 Ev1 HFo) as (v2 & Ev2 & Hs2 & Ht2). exists v2. split; [done|]. split; [congruence|].
    rewrite Ht2, Ht1, Hs1, Hsel, foldr_app. destruct (direct_mint p1); cbn [selected foldr app]; [|by rewrite Qcplus_0_r].
    generalize (foldr Qcplus 0%Qc ((λ p, mint_fee p * Vault.split_sum (Vault.vt_Splits v))%Qc <$>
      filter (λ p, direct_mint p = true) out)). intros z. ring.
Qed.
End minting.

(** * Properties *)

Module TallySpec.
Notation proposals s := (Rows.proposals (st_Store s)).

(** C26: the epoch-end tally counts every due proposal once. Exactly the untallied
    proposals of earlier epochs are counted, in key order; each is stored back with
    its claim and ballots unchanged, marked tallied, with the counts and the verdict
    of its revealed choices over the NFTs that exist, whatever order the map of
    reveals is walked in; every other proposal is left as it was, none appears, and
    a second tally of the same epoch finds nothing to do. *)
Theorem tally_once `{SHA : Sha256, BR : BigRat, FR : Fr, MM : MiMC} cur s :
  proposals_ok (st_Store s) →
  let n := Rows.CountNFTs (st_Store s) in
  let '(out, s') := TallyDueProposals cur s in
  pr_ProposalID <$> out =
    pr_ProposalID <$> filter (λ p, due cur p = true) (Rows.ListProposals (st_Store s)) ∧
  NoDup (pr_ProposalID <$> out) ∧
  (∀ id p, proposals s !! id = Some p →
     if due cur p then ∃ p', p' ∈ out ∧ counted n p p' ∧ proposals s' !! id = Some p'
     else proposals s' !! id = Some p) ∧
  (∀ id, proposals s !! id = None → proposals s' !! id = None) ∧
  (∀ p bs, ballots_of p ≡ₚ bs →
     Governance.Tally bs n Governance.MinTurnout = Governance.Tally (ballots_of p) n Governance.MinTurnout) ∧
  TallyDueProposals cur s' = ([], s').
Proof.
  intros Hok n. pose proof (tally_lookup cur s Hok) as H. cbv zeta in H. fold n in H.
  destruct (TallyDueProposals cur s) as [out s'] eqn:E. destruct H as (Hids & Hin & Hno & _).
  split; [done|]. split; [|split; [done|split; [done|split]]].
  - rewrite Hids. eapply sublist_NoDup; [apply listed_ids_NoDup, Hok|]. apply fmap_sublist, sublist_filter.
  - intros p bs Hp. apply Tally_perm; [|done]. unfold ballots_of. rewrite <-list_fmap_compose.
    apply NoDup_fst_map_to_list.
  - unfold TallyDueProposals. apply tally_all_none, Forall_forall. intros p [id Ep]%elem_of_ListProposals.
    unfold Rows.GetProposal in Ep. destruct (proposals s !! id) as [q|] eqn:Eq; [|by rewrite Hno in Ep].
    specialize (Hin id q Eq). destruct (due cur q) eqn:Ed; [|congruence].
    destruct Hin as (p' & _ & [_ Ho] & Ep'). assert (p' = p) as -> by congruence.
    unfold due. injection Ho as -> _ _ _. done.
Qed.

(** C27: new money needs a passed vote. A tally adds to the canonical tree exactly the
    output notes of the direct mints that it marks as applied, and to the stake tree
    exactly the positions of the staked ones, in the order the proposals are listed;
    each of these passed, with more approvals than rejections and at least the
    minimum turnout of the NFTs that exist. The treasury collects the mint fees of
    the direct mints, split by its shares, when no share is itself being voted on;
    no voter is added and no nullifier is spent. *)
Theorem mint_needs_a_vote `{SHA : Sha256, BR : BigRat, FR : Fr, MM : MiMC} cur s :
  proposals_ok (st_Store s) →
  let n := Rows.CountNFTs (st_Store s) in
  let '(out, s') := TallyDueProposals cur s in
  let direct := filter (λ p, direct_mint p = true) out in
  let staked := filter (λ p, staked_mint p = true) out in
  grow_by (st_ZKTree s) (note_leaf ∘ pr_MintOutCommit <$> direct) (st_ZKTree s') ∧
  mt_leaves (st_StateTree s') = mt_leaves (st_StateTree s) ++ (pr_MintOutCommit <$> direct) ∧
  grow_by (st_StakeTree s) (note_leaf ∘ pr_StakePositionCommit <$> staked) (st_StakeTree s') ∧
  Forall (λ p, direct_mint p || staked_mint p = true →
    0 < n ∧ pr_Reject p < pr_Approve p ∧
    (Governance.MinTurnout * Decimal.FromInt n <= Decimal.FromInt (pr_Approve p + pr_Reject p))%Qc) out ∧
  (∀ v, st_Vault s = Some v →
     Forall (λ p, Governance.IsVaultShareKey (pr_ParamKey p) = false) out →
     ∃ v', st_Vault s' = Some v' ∧ Vault.total v' = (Vault.total v +
       foldr Qcplus 0 ((λ p, mint_fee p * Vault.split_sum (Vault.vt_Splits v)) <$> direct))%Qc) ∧
  st_EligibilityTree s' = st_EligibilityTree s ∧
  Rows.nullifiers (st_Store s') = Rows.nullifiers (st_Store s).
Proof.
  intros Hok n. unfold TallyDueProposals. fold n.
  pose proof (tally_all_spec cur n (Rows.ListProposals (st_Store s)) s (listed_ids_NoDup _ Hok)) as H1.
  pose proof (tally_all_mints cur n (Rows.ListProposals (st_Store s)) s) as H2.
  destruct (tally_all _ _ _ _) as [out s']. cbv zeta in H2. destruct H2 as (Hz & Ht & Hst & He & Hv).
  { apply Forall_forall. intros p [id E]%elem_of_ListProposals Hd. apply Hok, po_fresh in E.
    - by injection E.
    - unfold due in Hd. bools. by destruct Hd as [? _]. }
  destruct H1 as (HF & _ & _ & HN & _). split_and!; try done.
  - apply Forall_forall. intros p [i Hi]%list_elem_of_lookup Hm.
    destruct (Forall2_lookup_r _ _ _ _ _ HF Hi) as (q & _ & [_ Ho]). injection Ho as _ Ea Er Ep.
    assert (Hp : pr_Passed p = true) by (unfold direct_mint, staked_mint in Hm; by destruct (pr_Passed p)).
    rewrite Ep in Hp. apply Tally_passed in Hp; [|done]. by rewrite Ea, Er.
  - intros v Ev Hk. destruct (Hv v Ev Hk) as (v' & Ev' & _ & Et). by exists v'.
Qed.
End TallySpec.

(** The properties on the concrete node. *)
Module TallyWitness.
Import FrModel FrontendModel GrothModel PipelineModel.

Lemma vote_state_ok : proposals_ok (st_Store vote_state).
Proof.
  apply map_Forall_insert_2; [|apply map_Forall_empty]. split; [done|done|].
  intros voter b E. change (({[ [5] := true ]} : gmap Hash bool) !! voter = Some b) in E.
  apply lookup_singleton_Some in E as [<- <-]. by exists [6].
Qed.

Lemma tally_once_witness :
  let '(out, s') := TallyDueProposals 3 vote_state in
  pr_ProposalID <$> out = ["mint"%string] ∧ TallyDueProposals 3 s' = ([], s').
Proof.
  pose proof (TallySpec.tally_once 3 vote_state vote_state_ok) as H.
  destruct (TallyDueProposals 3 vote_state) as [out s'] eqn:E. cbv zeta in H.
  destruct H as (Hids & _ & _ & _ & _ & H). split; [|exact H].
  etrans; [exact Hids|]. vm_compute. reflexivity.
Defined.

Lemma mint_needs_a_vote_witness :
  let '(out, s') := TallyDueProposals 3 vote_state in
  ((λ p, direct_mint p) <$> out = [true]) ∧
  Forall (λ p, direct_mint p || staked_mint p = true → pr_Reject p < pr_Approve p) out.
Proof.
  pose proof (TallySpec.mint_needs_a_vote 3 vote_state vote_state_ok) as H.
  assert (E0 : (λ p, direct_mint p) <$> (TallyDueProposals 3 vote_state).1 = [true])
    by (vm_compute; reflexivity).
  destruct (TallyDueProposals 3 vote_state) as [out s']. cbv zeta in H.
  destruct H as (_ & _ & _ & H & _). split; [exact E0|].
  eapply Forall_impl; [exact H|]. cbv beta. intros p Hp Hm. exact (proj1 (proj2 (Hp Hm))).
Defined.
End TallyWitness.
