(* ===== verification/Local.v ===== *)
(** What of a replay is local to the node: the instant it runs at, the rate monitor and the
    oracle. The rest of the pipeline and the tally do not read them, so that two nodes that
    agree on the rest can disagree on a batch through the three local checks only. *)
From S2P Require Import Prelude Words Decimal Hashing Types Epoch Mempool Governance Bank Merkle.
From S2P Require Import Field ZkTree Circuit Groth NFT Silent Store Pipeline Admission Sample Tally.

Section local.
Context `{SHA : Sha256, M3 : Mode3, ED : Ed25519, BR : BigRat, FR : Fr, MM : MiMC, GR : !Groth16}.
Implicit Types (s : State) (t : ShieldedTx) (deps : Deps).

(** The local part of the state, and the rest of one state with the local part of another. *)
Definition local_part : Type := option Silent.RateMonitor * option Oracle.Quorum.
Definition local_of s : local_part := (st_Silent s, st_Oracle s).
Definition localize (l : local_part) s : State := s <| st_Silent := l.1 |> <| st_Oracle := l.2 |>.

(** States with the same core differ in their local parts and reservations only. *)
Lemma same_core_localize s s' : same_core s s' → pendingNullifiers s' = pendingNullifiers s → s' = localize (local_of s') s.
Proof. intros [] ?. destruct s, s'. cbn in *. by subst. Qed.

(** ** The local checks *)

(** The rate check of one transaction: the monitor after it, if it lets the signer through. *)
Definition rate_passes (now : Time) t (monitor : option Silent.RateMonitor) : option (option Silent.RateMonitor) :=
  match monitor with
  | None => Some None
  | Some m =>
      let addr := SumHash [tx_SignerPubKey t] in
      let '(held, m) := Silent.IsHeld m addr now in
      if held then None
      else
        let '(action, m) := Silent.EvaluateSpike (Silent.RecordTx m addr now) addr now in
        match action with None => Some (Some m) | Some _ => None end
  end.

(** The attestation of a mint is neither of the future nor too old. *)
Definition attestation_fresh (now : Time) t : bool :=
  match tx_Kind t, tx_NFTMint t with
  | TxNFTMint, Some pub =>
      let age := time_sub now (time_of_milli (nmpi_AttestationIssuedAtMs pub)) in
      (0 <=? age) && (age <=? NFT.PoHAttestationTTL)
  | _, _ => true
  end.

(** A deposit's or withdrawal's price is the one the oracle quotes now, or, for a
    withdrawal it quotes nothing for, last quoted: the oracle after it, if so. *)
Definition price_passes deps t (oracle : option Oracle.Quorum) : option (option Oracle.Quorum) :=
  match oracle, tx_Bank t with
  | Some q, Some pub =>
      if bool_decide (tx_Kind t = TxBankDeposit ∨ tx_Kind t = TxBankWithdraw) then
        let '(r, q) := Oracle.quote q (bpi_Asset pub) in
        quote ← match r with
                | Ok quote => Some quote
                | Err _ => if bool_decide (tx_Kind t = TxBankWithdraw) then Oracle.LastGood q (bpi_Asset pub) else None
                end;
        if withinTolerance (bpi_OraclePriceUSD pub) (Oracle.qt_PriceUSD quote) (oracleTolerance deps) &&
           withinTolerance (bpi_ATRUSD pub) (Oracle.qt_ATRUSD quote) (oracleTolerance deps)
        then Some (Some q) else None
      else Some oracle
  | _, _ => Some oracle
  end.

(** The three checks of a transaction, in the order of the stages, and of a batch. *)
Definition tx_passes deps t (l : local_part) : option local_part :=
  m ← rate_passes (d_Now deps) t l.1;
  q ← price_passes deps t l.2;
  if attestation_fresh (d_Now deps) t then Some (m, q) else None.
Definition batch_passes deps (batch : list ShieldedTx) (l : local_part) : option local_part :=
  foldl (λ l t, l ≫= tx_passes deps t) (Some l) batch.

(** ** Calls that do not read the local part *)

Definition commutes {A} (m : call State A) : Prop := ∀ l s,
  m (localize l s) = (let '(r, s1) := m s in (r, localize l s1)).

Lemma commutes_ret {A} (a : A) : commutes (mret a).
Proof. done. Qed.
Lemma commutes_fail {A} e : commutes (fail (A:=A) e).
Proof. done. Qed.
Lemma commutes_lift {A} (r : result A) : commutes (lift r).
Proof. done. Qed.
Lemma commutes_check b e : commutes (check b e).
Proof. done. Qed.
Lemma commutes_gets {A} (f : State → A) : (∀ l s, f (localize l s) = f s) → commutes (gets f).
Proof. intros Hf l s. unfold gets. by rewrite Hf. Qed.
Lemma commutes_modify f : (∀ l s, f (localize l s) = localize l (f s)) → commutes (modify f).
Proof. intros Hf l s. unfold modify. by rewrite Hf. Qed.
Lemma commutes_bind {A B} (m : call State A) (k : A → call State B) :
  commutes m → (∀ a, commutes (k a)) → commutes (m ≫= k).
Proof.
  intros Hm Hk l s. unfold mbind, call_bind. rewrite Hm. destruct (m s) as [[a|e] s1]; [apply Hk|done].
Qed.
(** A read of the whole state, whose continuation reads it no further than it should. *)
Lemma commutes_gets_id {B} (k : State → call State B) :
  (∀ l s, k (localize l s) = k s) → (∀ s, commutes (k s)) → commutes (gets id ≫= k).
Proof. intros Hk Hc l s. unfold mbind, call_bind, gets, id. rewrite Hk. apply Hc. Qed.
End local.

(** Splits a call into its parts, down to reads and writes of the shared state. *)
Ltac commute_step :=
  lazymatch goal with
  | |- commutes (mret _) => apply commutes_ret
  | |- commutes (fail _) => apply commutes_fail
  | |- commutes (lift _) => apply commutes_lift
  | |- commutes (check _ _) => apply commutes_check
  | |- commutes (gets _) => apply commutes_gets; intros; reflexivity
  | |- commutes (modify _) => apply commutes_modify; intros ? []; reflexivity
  | |- commutes (_ ≫= _) => apply commutes_bind; [|intros ?]
  | |- commutes (match ?x with _ => _ end) => destruct x
  end.
Ltac commute := repeat commute_step.

Section pipeline_local.
Context `{SHA : Sha256, M3 : Mode3, ED : Ed25519, BR : BigRat, FR : Fr, MM : MiMC, GR : !Groth16}.
Implicit Types (s : State) (t : ShieldedTx) (deps : Deps).
Context (json_marshal : ShieldedTx → result bytes).

Lemma reserve_commutes ns : commutes (reserveNullifiers ns).
Proof. unfold reserveNullifiers. commute. Qed.
Lemma stage1_commutes deps t : commutes (stage1SenderLeave deps t).
Proof.
  unfold stage1SenderLeave, stage1Transfer, stage1Unstake, markReserved.
  repeat first [apply reserve_commutes | commute_step].
Qed.
Lemma dual_sign_commutes t : commutes (check_dual_sign t).
Proof. unfold check_dual_sign. commute. Qed.
Lemma stage3_commutes t : commutes (stage3ReceiverCheck t).
Proof. unfold stage3ReceiverCheck. commute. Qed.

Lemma append_state_commutes cs : commutes (append_state cs).
Proof. unfold append_state. commute. Qed.
Lemma insert_zk_commutes c : commutes (insert_zk c).
Proof. unfold insert_zk. commute. Qed.
Lemma insert_all_zk_commutes cs : commutes (insert_all_zk cs).
Proof. induction cs; cbn [insert_all_zk]; repeat first [apply insert_zk_commutes | done | commute_step]. Qed.
Lemma record_zk_root_commutes : commutes record_zk_root.
Proof.
  unfold record_zk_root. apply commutes_modify. intros l []. cbn.
  repeat case_match; reflexivity.
Qed.
Lemma require_voter_commutes deps p id : commutes (requireEligibleVoterZK deps p id).
Proof. unfold requireEligibleVoterZK. commute. Qed.
Lemma check_proposal_localize deps l s pub : check_proposal deps (localize l s) pub = check_proposal deps s pub.
Proof. reflexivity. Qed.
Lemma exec_vote_commutes deps t pub : commutes (exec_vote deps t pub).
Proof.
  unfold exec_vote. apply commutes_bind; [apply require_voter_commutes|]. intros voter.
  apply commutes_gets_id; [reflexivity|]. intros s. commute.
Qed.
Lemma record_elig_root_commutes tree : commutes (modify (λ s,
  match st_EligibilityRoots s with
  | None => s
  | Some h => s <| st_EligibilityRoots := Some (RootHistory.Record_root h (ZkTree.Root tree)) |>
  end)).
Proof. apply commutes_modify. intros l []. cbn. case_match; reflexivity. Qed.
Lemma mark_spent_commutes ns : commutes (mark_spent ns).
Proof. induction ns; cbn [mark_spent]; repeat first [done | commute_step]. Qed.
Lemma stage5_commutes t : commutes (stage5PlaceFinal t).
Proof. unfold stage5PlaceFinal, with_inputs, nil_deref. repeat first [apply mark_spent_commutes | commute_step]. Qed.
Lemma release_commutes t : commutes (release t).
Proof. unfold release. commute. Qed.

(** ** Calls that read it through the local checks *)

(** Where the first call succeeds, the second, from the same core and another local part,
    does the same when [step] passes the local part on, and fails when it does not. *)
Definition follows {A} (m m' : call State A) (step : local_part → option local_part) : Prop := ∀ s a s1 l,
  m s = (Ok a, s1) →
  match step l with
  | Some l' => m' (localize l s) = (Ok a, localize l' s1)
  | None => ∃ e s', m' (localize l s) = (Err e, s')
  end.

Lemma follows_commutes {A} (m : call State A) : commutes m → follows m m Some.
Proof. intros Hm s a s1 l E. by rewrite Hm, E. Qed.
Lemma follows_bind {A B} (m m' : call State A) (k k' : A → call State B) f g :
  follows m m' f → (∀ a, follows (k a) (k' a) g) → follows (m ≫= k) (m' ≫= k') (λ l, f l ≫= g).
Proof.
  intros Hm Hk s b s2 l E. apply call_bind_Ok in E as (a & s1 & Em & Ek). specialize (Hm _ _ _ l Em).
  unfold mbind, call_bind, option_bind. destruct (f l) as [l1|].
  - rewrite Hm. exact (Hk a _ _ _ l1 Ek).
  - destruct Hm as (e & s' & ->). by eexists _, _.
Qed.
Lemma follows_bind_l {A B} (m : call State A) (k k' : A → call State B) g :
  commutes m → (∀ a, follows (k a) (k' a) g) → follows (m ≫= k) (m ≫= k') g.
Proof. intros Hm Hk. exact (follows_bind m m k k' Some g (follows_commutes m Hm) Hk). Qed.
Lemma follows_bind_r {A B} (m m' : call State A) (k : A → call State B) f :
  follows m m' f → (∀ a, commutes (k a)) → follows (m ≫= k) (m' ≫= k) f.
Proof.
  intros Hm Hk s b s2 l E.
  pose proof (follows_bind m m' k k f Some Hm (λ a, follows_commutes _ (Hk a)) s b s2 l E) as H.
  cbv beta in H. destruct (f l); exact H.
Qed.

(** The same dependencies at another instant. *)
Definition at_instant (now : Time) deps : Deps := deps <| d_Now := now |>.

Lemma check_rate_follows deps now t :
  follows (check_rate deps t) (check_rate (at_instant now deps) t) (λ l, m ← rate_passes now t l.1; Some (m, l.2)).
Proof.
  intros s [] s1 [m q] E.
  assert (Es : ∃ m1, s1 = s <| st_Silent := m1 |>).
  { unfold check_rate in E. apply call_bind_Ok in E as (silent & s2 & [= <- <-] & E).
    destruct (st_Silent s) as [m0|] eqn:Em; [|injection E as <-; exists None; destruct s; cbn in *; by subst].
    destruct (Silent.IsHeld _ _ _) as [held m1]. apply call_bind_Ok in E as (? & s2 & [= <- <-] & E).
    apply call_bind_Ok in E as (? & s2 & [_ ->]%check_Ok & E).
    destruct (Silent.EvaluateSpike _ _ _) as [[act|] m2]; [|injection E as <-; by eexists].
    by apply call_bind_Ok in E as (? & ? & _ & [=]). }
  destruct Es as [m1 ->]. unfold rate_passes, check_rate. cbn [fst snd].
  destruct m as [m|]; [|destruct s; reflexivity].
  unfold mbind, call_bind, gets, modify, check, lift, require, option_bind. cbn [localize fst snd].
  change (d_Now (at_instant now deps)) with now.
  cbn -[Silent.IsHeld Silent.EvaluateSpike Silent.RecordTx].
  destruct (Silent.IsHeld _ _ _) as [[] m2]; [by eexists _, _|].
  destruct (Silent.EvaluateSpike _ _ _) as [[act|] m3]; [by eexists _, _|destruct s; reflexivity].
Qed.

(** A submission is fresh at the instant it is made. *)
Lemma submission_fresh now : time_is_zero now || (time_sub now now <=? TxTTL) = true.
Proof.
  apply orb_true_iff. right. apply Z.leb_le.
  unfold time_sub, TxTTL, Second, MinInt64, MaxInt64. lia.
Qed.

Lemma stage2_follows deps now t :
  follows (stage2TxOffer json_marshal deps t (d_Now deps)) (stage2TxOffer json_marshal (at_instant now deps) t now)
    (λ l, m ← rate_passes now t l.1; Some (m, l.2)).
Proof.
  unfold stage2TxOffer. change (d_Now (at_instant now deps)) with now. rewrite !submission_fresh.
  do 5 (apply follows_bind_l; [apply commutes_check|intros _]).
  destruct (DilithiumVerify _ _ _) as [ok|]; [|intros s a s1 l [=]].
  apply follows_bind_l; [apply commutes_check|intros _].
  apply follows_bind_l; [apply dual_sign_commutes|intros _].
  apply follows_bind_r; [apply check_rate_follows|]. intros _. commute.
Qed.

(** What is left of [exec_bank] once the bound values are checked. *)
Definition bank_price deps (kind : TxKind) (pub : BankPublicInputs) : call State unit :=
  oracle ← gets st_Oracle;
  match oracle with None => mret tt | Some q => checkOraclePrice deps q kind pub end.

Lemma price_follows deps now t pub :
  tx_Bank t = Some pub → tx_Kind t = TxBankDeposit ∨ tx_Kind t = TxBankWithdraw →
  follows (bank_price deps (tx_Kind t) pub) (bank_price (at_instant now deps) (tx_Kind t) pub)
    (λ l, q ← price_passes deps t l.2; Some (l.1, q)).
Proof.
  intros Hpub Hk s [] s1 [m o] E.
  assert (Es : ∃ o1, s1 = s <| st_Oracle := o1 |>).
  { unfold bank_price in E. apply call_bind_Ok in E as (oracle & s2 & [= <- <-] & E).
    destruct (st_Oracle s) as [q|] eqn:Eq; [|injection E as <-; exists None; destruct s; cbn in *; by subst].
    unfold checkOraclePrice in E. destruct (Oracle.quote _ _) as [r q'].
    apply call_bind_Ok in E as (? & s2 & [= <- <-] & E). apply call_bind_Ok in E as (quote & s3 & E1 & E).
    assert (s3 = s <| st_Oracle := Some q' |>) as ->.
    { clear -E1. repeat case_match; try discriminate E1; by injection E1. }
    apply call_bind_Ok in E as (? & s2 & [_ ->]%check_Ok & [_ ->]%check_Ok). by eexists. }
  destruct Es as [o1 ->]. unfold bank_price, price_passes. rewrite Hpub. cbn [fst snd].
  destruct o as [q|]; [|destruct s; reflexivity]. rewrite (bool_decide_eq_true_2 (_ ∨ _)) by done.
  unfold checkOraclePrice. change (oracleTolerance (at_instant now deps)) with (oracleTolerance deps).
  cbv [mbind call_bind gets modify option_bind]. change (st_Oracle (localize _ s)) with (Some q). cbv iota beta.
  destruct (Oracle.quote q (bpi_Asset pub)) as [[x|e] q'].
  - cbv [mret call_ret check lift require].
    destruct (withinTolerance (bpi_OraclePriceUSD pub) _ _); [|by eexists _, _].
    destruct (withinTolerance (bpi_ATRUSD pub) _ _); [destruct s; reflexivity|by eexists _, _].
  - case_bool_decide; cbn [negb]; [|by eexists _, _]. destruct (Oracle.LastGood q' (bpi_Asset pub)) as [x|]; [|by eexists _, _].
    cbv [mret call_ret check lift require].
    destruct (withinTolerance (bpi_OraclePriceUSD pub) _ _); [|by eexists _, _].
    destruct (withinTolerance (bpi_ATRUSD pub) _ _); [destruct s; reflexivity|by eexists _, _].
Qed.

Lemma bind_assoc {A B C} (m : call State A) (f : A → call State B) (g : B → call State C) s :
  ((m ≫= f) ≫= g) s = (m ≫= λ a, f a ≫= g) s.
Proof. unfold mbind, call_bind. by destruct (m s) as [[|] ?]. Qed.

Lemma follows_ext {A} (m1 m1' m2 m2' : call State A) f :
  (∀ s, m1 s = m2 s) → (∀ s, m1' s = m2' s) → follows m2 m2' f → follows m1 m1' f.
Proof. intros H1 H2 Hf s a s1 l E. rewrite H1 in E. specialize (Hf s a s1 l E). destruct (f l); by rewrite H2. Qed.

Lemma exec_bank_follows deps now t pub :
  tx_Bank t = Some pub → tx_Kind t = TxBankDeposit ∨ tx_Kind t = TxBankWithdraw →
  follows (exec_bank deps t pub) (exec_bank (at_instant now deps) t pub)
    (λ l, q ← price_passes deps t l.2; Some (l.1, q)).
Proof.
  intros Hpub Hk. unfold exec_bank.
  apply follows_bind_l; [commute|intros store]. apply follows_bind_l; [commute|intros _].
  apply follows_bind_l; [commute|intros gov]. apply follows_bind_l; [commute|intros _].
  eapply follows_ext; [intros; symmetry; apply bind_assoc..|].
  apply (follows_bind_r (bank_price deps (tx_Kind t) pub) (bank_price (at_instant now deps) (tx_Kind t) pub)).
  - by apply price_follows.
  - intros _. apply append_state_commutes.
Qed.

Lemma mint_at p now :
  is_ok (NFT.Mint p) = true →
  let age := time_sub now (time_of_milli (NFT.at_IssuedAtMs (NFT.mp_Attestation p))) in
  let p' := p <| NFT.mp_Now := now |> in
  if (0 <=? age) && (age <=? NFT.PoHAttestationTTL) then NFT.Mint p' = NFT.Mint p else ∃ e, NFT.Mint p' = Err e.
Proof.
  intros E age p'. unfold NFT.Mint, NFT.verify in *.
  change (NFT.mp_Now p') with now. change (NFT.mp_AlreadyHasNFT p') with (NFT.mp_AlreadyHasNFT p).
  change (NFT.mp_Attestation p') with (NFT.mp_Attestation p). change (NFT.mp_Owner p') with (NFT.mp_Owner p).
  change (NFT.mp_Nonce p') with (NFT.mp_Nonce p). change (NFT.mp_TrustedAttestors p') with (NFT.mp_TrustedAttestors p).
  fold age. rewrite Z.ltb_antisym, (Z.ltb_antisym age).
  destruct (NFT.mp_AlreadyHasNFT p); [discriminate E|]. destruct (_ || _); [discriminate E|].
  destruct (negb (existsb _ _)); [discriminate E|]. destruct (DilithiumVerify _ _ _) as [[]|]; [|discriminate E..].
  cbn [negb] in E |- *. destruct ((_ <? 0) || _); [discriminate E|].
  destruct (0 <=? age), (age <=? NFT.PoHAttestationTTL); cbn; eauto.
Qed.

Lemma exec_mint_follows deps now t pub : tx_Kind t = TxNFTMint → tx_NFTMint t = Some pub →
  follows (exec_mint deps pub) (exec_mint (at_instant now deps) pub)
    (λ l, if attestation_fresh now t then Some l else None).
Proof.
  intros Hk Hpub. unfold exec_mint. apply follows_bind_l; [commute|intros store].
  apply follows_bind_r.
  - intros s a s1 l E. unfold lift in E. injection E as E <-.
    pose proof (mint_at _ now ltac:(by rewrite E)) as Hm. cbv zeta in Hm. unfold attestation_fresh. rewrite Hk, Hpub.
    cbn [NFT.mp_Attestation NFT.at_IssuedAtMs] in Hm. destruct (_ && _).
    + unfold lift. f_equal. rewrite <-E. exact Hm.
    + destruct Hm as [e Hm]. exists e, (localize l s). unfold lift. f_equal. exact Hm.
  - intros minted. apply commutes_bind; [commute|intros _]. apply commutes_bind; [commute|intros tree].
    destruct tree as [tree|]; [|commute]. destruct (ZkTree.Insert _ _) as [[i tree']|]; [|commute].
    apply commutes_bind; [commute|intros _]. apply record_elig_root_commutes.
Qed.

Ltac commute_exec := repeat
  lazymatch goal with
  | |- commutes (append_state _) => apply append_state_commutes
  | |- commutes (insert_zk _) => apply insert_zk_commutes
  | |- commutes (insert_all_zk _) => apply insert_all_zk_commutes
  | |- commutes record_zk_root => apply record_zk_root_commutes
  | |- commutes (requireEligibleVoterZK _ _ _) => apply require_voter_commutes
  | |- _ => commute_step
  end.
Lemma exec_transfer_commutes pub : commutes (exec_transfer pub).
Proof. unfold exec_transfer. commute_exec. Qed.
Lemma exec_trait_commutes t pub : commutes (exec_trait t pub).
Proof. unfold exec_trait. commute_exec. Qed.
Lemma exec_reveal_commutes deps t pub : commutes (exec_reveal deps t pub).
Proof. unfold exec_reveal. commute_exec. Qed.
Lemma exec_sync_commutes t : commutes (exec_container_sync t).
Proof. unfold exec_container_sync. commute_exec. Qed.
Lemma exec_unstake_commutes c : commutes (exec_unstake c).
Proof. unfold exec_unstake. commute_exec. Qed.
Lemma exec_nft_transfer_commutes t pub : commutes (exec_nft_transfer t pub).
Proof. unfold exec_nft_transfer. commute_exec. Qed.
Lemma with_inputs_commutes {A} (o : option A) k : (∀ a, commutes (k a)) → commutes (with_inputs o k).
Proof. intros Hk. destruct o; [apply Hk|done]. Qed.

Lemma stage4_follows deps now t :
  follows (stage4SendExec deps t) (stage4SendExec (at_instant now deps) t)
    (λ l, q ← price_passes deps t l.2; if attestation_fresh now t then Some (l.1, q) else None).
Proof.
  unfold stage4SendExec. apply follows_bind_r; [|intros; commute].
  assert (Hquiet : ∀ m : call State unit, commutes m →
    tx_Kind t ≠ TxBankDeposit → tx_Kind t ≠ TxBankWithdraw → tx_Kind t ≠ TxNFTMint →
    follows m m (λ l, q ← price_passes deps t l.2; if attestation_fresh now t then Some (l.1, q) else None)).
  { intros m Hm H1 H2 H3 s a s1 [m0 q0] E. unfold price_passes, attestation_fresh. cbn [fst snd].
    assert (Hp : match q0, tx_Bank t with
      | Some q, Some pub => if bool_decide (tx_Kind t = TxBankDeposit ∨ tx_Kind t = TxBankWithdraw)
          then None else Some q0 | _, _ => Some q0 end = Some q0).
    { destruct q0, (tx_Bank t); try done. by rewrite bool_decide_eq_false_2 by tauto. }
    destruct q0 as [q|], (tx_Bank t) as [pub|]; cbn [mbind option_bind] in *;
      rewrite ?(bool_decide_eq_false_2 (_ ∨ _)) by tauto; cbn [option_bind];
      destruct (tx_Kind t); try done; rewrite Hm, E; reflexivity. }
  assert (Hbank : ∀ pub, tx_Bank t = Some pub → tx_Kind t = TxBankDeposit ∨ tx_Kind t = TxBankWithdraw →
    follows (exec_bank deps t pub) (exec_bank (at_instant now deps) t pub)
      (λ l, q ← price_passes deps t l.2; if attestation_fresh now t then Some (l.1, q) else None)).
  { intros pub Hb Hk. pose proof (exec_bank_follows deps now t pub Hb Hk) as H. unfold attestation_fresh.
    destruct Hk as [-> | ->]; exact H. }
  change (exec_vote (at_instant now deps) t) with (exec_vote deps t).
  change (exec_reveal (at_instant now deps) t) with (exec_reveal deps t).
  destruct (tx_Kind t) eqn:Hk;
    lazymatch goal with
    | |- follows (with_inputs (tx_Bank _) _) _ _ =>
        destruct (tx_Bank t) as [pub|]; [by apply Hbank; auto|intros s a s1 l [=]]
    | |- follows (with_inputs (tx_NFTMint _) _) _ _ => idtac
    | |- _ => apply Hquiet; [|done..]
    end;
    lazymatch goal with
    | |- commutes (with_inputs _ (exec_transfer)) => apply with_inputs_commutes, exec_transfer_commutes
    | |- commutes (with_inputs _ (exec_trait _)) => apply with_inputs_commutes, exec_trait_commutes
    | |- commutes (with_inputs _ (exec_vote _ _)) => apply with_inputs_commutes, exec_vote_commutes
    | |- commutes (with_inputs _ (exec_reveal _ _)) => apply with_inputs_commutes, exec_reveal_commutes
    | |- commutes (with_inputs _ (exec_unstake)) => apply with_inputs_commutes, exec_unstake_commutes
    | |- commutes (with_inputs _ (exec_nft_transfer _)) => apply with_inputs_commutes, exec_nft_transfer_commutes
    | |- commutes (exec_container_sync _) => apply exec_sync_commutes
    | |- commutes (mret _) => apply commutes_ret
    | |- _ => idtac
    end.
  destruct (tx_NFTMint t) as [pub|] eqn:Hm; [|intros s a s1 l [=]].
  pose proof (exec_mint_follows deps now t pub Hk Hm) as H.
  intros s a s1 [m0 q0] E. specialize (H s a s1 (m0, q0) E). unfold price_passes. cbn [fst snd].
  rewrite Hk. destruct q0 as [q|], (tx_Bank t); exact H.
Qed.

(** ** A transaction, a batch, the tally *)

Lemma processOne_follows deps now t s t' s' l :
  processOne json_marshal deps t (d_Now deps) s = (t', None, s') →
  match tx_passes (at_instant now deps) t l with
  | Some l' => processOne json_marshal (at_instant now deps) t now (localize l s) = (t', None, localize l' s')
  | None => ∃ u e s2, processOne json_marshal (at_instant now deps) t now (localize l s) = (u, Some e, s2)
  end.
Proof.
  intros E. pose proof (processOne_cases json_marshal deps t (d_Now deps) s) as H. rewrite E in H.
  destruct H as (s1 & s2 & s3 & s4 & s5 & [A1 A2 A3 A4 A5 -> ->]).
  pose proof (stage1_commutes deps t l s) as C1. rewrite A1 in C1.
  pose proof (stage2_follows deps now _ _ _ _ l A2) as C2.
  unfold processOne, stage. change (stage1SenderLeave (at_instant now deps) t) with (stage1SenderLeave deps t).
  rewrite C1. unfold tx_passes. change (d_Now (at_instant now deps)) with now.
  cbv beta in C2. replace (rate_passes now (with_stage 1 t)) with (rate_passes now t) in C2 by reflexivity.
  destruct (rate_passes now t l.1) as [m|]; cbn [mbind option_bind] in C2 |- *.
  2:{ destruct C2 as (e & s' & ->). by eexists _, _, _. }
  rewrite C2. pose proof (stage3_commutes (with_stage 2 (with_stage 1 t)) (m, l.2) s2) as C3. rewrite A3 in C3. rewrite C3.
  pose proof (stage4_follows deps now _ _ _ _ (m, l.2) A4) as C4. cbn [fst snd] in C4.
  set (u := with_stage 3 (with_stage 2 (with_stage 1 t))) in *.
  replace (price_passes deps u) with (price_passes (at_instant now deps) t) in C4 by reflexivity.
  replace (attestation_fresh now u) with (attestation_fresh now t) in C4 by reflexivity.
  destruct (price_passes (at_instant now deps) t l.2) as [q|]; cbn [mbind option_bind] in C4 |- *.
  2:{ destruct C4 as (e & s' & ->). by eexists _, _, _. }
  destruct (attestation_fresh now t).
  2:{ destruct C4 as (e & s' & ->). by eexists _, _, _. }
  rewrite C4. cbn [fst]. pose proof (stage5_commutes (with_stage 4 u) (m, q) s4) as C5. rewrite A5 in C5. rewrite C5.
  f_equal. unfold finalize. rewrite release_commutes. by destruct (release _ s5).
Qed.

Definition no_failure (results : list Result) : Prop := Forall (λ r, rs_Error r = None) results.

Lemma foldl_None deps batch : foldl (λ l t, l ≫= tx_passes deps t) None batch = None.
Proof. by induction batch. Qed.

Lemma ProcessBatch_follows deps now batch s results s' l :
  ProcessBatch json_marshal deps ((λ t, {| e_Tx := t; e_SubmittedAt := d_Now deps |}) <$> batch) s = (results, s') →
  no_failure results →
  let run := ProcessBatch json_marshal (at_instant now deps)
    ((λ t, {| e_Tx := t; e_SubmittedAt := now |}) <$> batch) (localize l s) in
  match batch_passes (at_instant now deps) batch l with
  | Some l' => run = (results, localize l' s')
  | None => ¬ no_failure run.1
  end.
Proof.
  unfold batch_passes. revert s results s' l.
  induction batch as [|t batch IH]; intros s results s' l E Hok; cbn [fmap list_fmap ProcessBatch foldl] in *.
  { by injection E as <- <-. }
  cbn [e_Tx e_SubmittedAt] in *.
  destruct (processOne json_marshal deps t (d_Now deps) s) as [[t1 err] s1] eqn:E1.
  destruct (ProcessBatch json_marshal deps _ s1) as [rs s2] eqn:E2. injection E as <- <-.
  apply Forall_cons in Hok as [He Hok]. cbn in He. subst err.
  pose proof (processOne_follows deps now t s t1 s1 l E1) as H1. cbn [mbind option_bind].
  destruct (tx_passes (at_instant now deps) t l) as [l1|].
  - specialize (IH s1 rs s2 l1 E2 Hok). cbn zeta in IH |- *. rewrite H1.
    destruct (foldl _ (Some l1) batch) as [l2|].
    + by rewrite IH.
    + destruct (ProcessBatch _ _ _ (localize l1 s1)) as [rs' s3]. cbn [fst] in *. by intros [_ ?]%Forall_cons.
  - rewrite foldl_None. cbn zeta. destruct H1 as (u & e & s3 & ->).
    destruct (ProcessBatch _ _ _ s3) as [rs' s4]. cbn [fst]. by intros [[=] _]%Forall_cons.
Qed.

(** A step of the tally from a state with another local part. *)
Definition tally_commutes (f : ProposalRecord → State → ProposalRecord * State) : Prop := ∀ l p s,
  f p (localize l s) = (let '(p', s') := f p s in (p', localize l s')).

Lemma effects_commute : Forall tally_commutes effects.
Proof.
  unfold effects. repeat constructor; intros l p []; cbn -[localize].
  all: unfold apply_param, apply_mint, apply_mint_staked, apply_mint_direct, apply_slash, apply_unlock, apply_asset, apply_unwind.
  all: cbn -[Governance.ApplyParamChange ZkTree.Insert Rows.GetNFT]; repeat case_match; try reflexivity; congruence.
Qed.

Lemma tally_record_commutes n : tally_commutes (tally_record n).
Proof.
  intros l p s. unfold tally_record. generalize (count_proposal n p). revert s.
  assert (Hf : ∀ fs s q, Forall tally_commutes fs → foldl (λ ps f, f ps.1 ps.2) (q, localize l s) fs =
    (let '(q', s') := foldl (λ (ps : ProposalRecord * State) f, f ps.1 ps.2) (q, s) fs in (q', localize l s'))).
  { intros fs. induction fs as [|f fs IH]; intros s q HF; [done|]. apply Forall_cons in HF as [Hf HF].
    cbn [foldl fst snd]. rewrite Hf. destruct (f q s) as [q1 s1]. by apply IH. }
  intros s q. rewrite Hf by apply effects_commute. destruct (foldl _ _ _) as [q1 s1]. by destruct s1.
Qed.

Lemma tally_localize epoch l s :
  TallyDueProposals epoch (localize l s) = (let '(out, s') := TallyDueProposals epoch s in (out, localize l s')).
Proof.
  unfold TallyDueProposals. change (st_Store (localize l s)) with (st_Store s).
  generalize (Rows.CountNFTs (st_Store s)) as n. intros n. generalize (Rows.ListProposals (st_Store s)) as all. intros all.
  revert s. induction all as [|p all IH]; intros s; [done|]. cbn [tally_all]. destruct (due epoch p); [|apply IH].
  rewrite tally_record_commutes. destruct (tally_record n p s) as [p1 s1]. rewrite IH. by destruct (tally_all _ _ _ s1).
Qed.
End pipeline_local.
