(* ===== verification/History.v ===== *)
(** Invariants along any history of a node: transactions run through the pipeline one
    after the other, with epoch-end tallies in between. What happens to a proposal and
    its ballots, and who owns which NFT. *)
From S2P Require Import Prelude Words Decimal Hashing Types Epoch Mempool Governance Bank Merkle.
From S2P Require Import Field ZkTree Circuit Groth NFT Silent Store Pipeline Sample Admission Tally.

(** * Histories *)

Section history.
Context `{SHA : Sha256, M3 : Mode3, ED : Ed25519, BR : BigRat, FR : Fr, MM : MiMC, GR : !Groth16}.

(** One entry of [ProcessBatch] with the block it is part of, or an epoch-end tally. *)
Inductive event :=
| ESubmit (json_marshal : ShieldedTx → result bytes) (deps : Deps) (t : ShieldedTx) (at_ : Time)
| ETally (currentEpoch : Z).

Definition apply_event (e : event) (s : State) : State :=
  match e with
  | ESubmit json_marshal deps t at_ => (processOne json_marshal deps t at_ s).2
  | ETally cur => (TallyDueProposals cur s).2
  end.
Definition run_events (es : list event) (s : State) : State := foldl (λ s e, apply_event e s) s es.

(** A batch is the submission of its entries in order. *)
Lemma batch_events json_marshal deps entries s :
  (ProcessBatch json_marshal deps entries s).2 =
  run_events ((λ e, ESubmit json_marshal deps (e_Tx e) (e_SubmittedAt e)) <$> entries) s.
Proof.
  unfold run_events. revert s. induction entries as [|e entries IH]; intros s; [done|].
  cbn [ProcessBatch fmap list_fmap foldl apply_event].
  destruct (processOne _ _ _ _ s) as [[t err] s1]. specialize (IH s1).
  destruct (ProcessBatch _ _ entries s1). exact IH.
Qed.

(** A relation every stage preserves is preserved by the run of a transaction. *)
Lemma processOne_preserves (R : State → State → Prop) `{!Reflexive R, !Transitive R} json_marshal deps t at_ s :
  (∀ t, preserves R (stage1SenderLeave deps t)) →
  (∀ t, preserves R (stage2TxOffer json_marshal deps t at_)) →
  (∀ t, preserves R (stage3ReceiverCheck t)) →
  (∀ t', tx_Kind t' = tx_Kind t → tx_NFTMint t' = tx_NFTMint t → ∀ s1,
     st_Store s1 = st_Store s → R s1 (stage4SendExec deps t' s1).2) →
  (∀ t, preserves R (stage5PlaceFinal t)) →
  (∀ t, preserves R (release t)) →
  (∀ t, preserves quiet (stage2TxOffer json_marshal deps t at_)) →
  R s (processOne json_marshal deps t at_ s).2.
Proof.
  intros P1 P2 P3 P4 P5 P6 Q2. unfold processOne, stage, finalize.
  assert (Hrel : ∀ (s1 s2 : State) (u : ShieldedTx), R s1 s2 → R s1 (release u s2).2)
    by (intros; etrans; [done|apply P6]).
  pose proof (P1 t s) as R1. destruct (stage1SenderLeave deps t s) as [[t1|e] s1] eqn:E1; [|exact R1].
  apply stage1_Ok in E1 as (-> & C1 & _). set (t1 := with_stage 1 t) in *.
  pose proof (P2 t1 s1) as R2. pose proof (Q2 t1 s1) as C2.
  destruct (stage2TxOffer _ _ t1 at_ s1) as [[t2|e] s2] eqn:E2; cbn [snd fst] in *; [|apply Hrel; by etrans].
  pose proof (P3 t2 s2) as R3. pose proof (stage3_quiet t2 s2) as C3.
  destruct (stage3ReceiverCheck t2 s2) as [[t3|e] s3] eqn:E3; cbn [snd fst] in *; [|apply Hrel; by do 2 etrans].
  apply stage2_hint in E2 as ->. apply stage3_hint in E3 as ->.
  assert (R4 : R s3 (stage4SendExec deps (with_stage 3 (with_stage 2 t1)) s3).2).
  { apply P4; [done|done|]. destruct C2 as [C2 _], C3 as [C3 _].
    by rewrite (sc_store _ _ C3), (sc_store _ _ C2), (sc_store _ _ C1). }
  assert (R03 : R s s3) by by do 2 etrans.
  destruct (stage4SendExec deps _ s3) as [[t4|e] s4]; cbn [snd fst] in *; [|apply Hrel; by etrans].
  pose proof (P5 t4 s4) as R5.
  destruct (stage5PlaceFinal t4 s4) as [[t5|e] s5]; cbn [snd fst] in *; apply Hrel; by do 2 etrans.
Qed.
End history.

(** * Proposals and ballots *)

(** A sealed ballot fixes the choice: two openings of one commitment agree. *)
Lemma vote_commitment_binds `{Sha256} voter b nonce b' nonce' :
  ComputeVoteCommitment voter b nonce = ComputeVoteCommitment voter b' nonce' → b = b' ∨ collision.
Proof.
  unfold ComputeVoteCommitment, SumHash. intros E.
  destruct (decide (frames [voter; [if b then 1 else 0]; nonce] = frames [voter; [if b' then 1 else 0]; nonce'])) as [Ef|Hne].
  - left. unfold frames in Ef. cbn [fmap list_fmap concat] in Ef. apply (inj (app (frame voter))) in Ef.
    by destruct b, b'.
  - right. by eexists _, _.
Qed.

(** What a proposal binds when it is created. *)
Definition binding (p : ProposalRecord) :=
  (pr_ProposalID p, pr_Epoch p, (pr_ParamKey p, pr_NewValue p),
   (pr_MintAmount p, pr_MintOutCommit p, pr_MintStaked p, pr_StakePositionCommit p),
   (pr_SlashTargetNFT p, pr_SlashBurn p), pr_UnlockTransferTarget p, pr_ContainerAssetTarget p,
   pr_UnwindDualSign p).

(** How a stored proposal may change: ballots are only added, an opened ballot keeps
    its choice unless SHA-256 collides, and nothing changes once it is tallied. *)
Record evolves `{Sha256} (p p' : ProposalRecord) : Prop := {
  ev_binding : binding p' = binding p;
  ev_commitments : pr_Commitments p ⊆ pr_Commitments p';
  ev_reveals : ∀ v b, pr_Reveals p !! v = Some b → pr_Reveals p' !! v = Some b ∨ collision;
  ev_final : pr_Tallied p = true → p' = p }.

Section proposals.
Context `{SHA : Sha256, M3 : Mode3, ED : Ed25519, BR : BigRat, FR : Fr, MM : MiMC, GR : !Groth16}.
Implicit Types (p : ProposalRecord) (s : State).
Notation proposals s := (Rows.proposals (st_Store s)).

#[export] Instance evolves_refl : Reflexive evolves.
Proof. intros p. split; auto. Qed.
#[export] Instance evolves_trans : Transitive evolves.
Proof.
  intros p q r [B1 C1 R1 F1] [B2 C2 R2 F2]. split; [congruence|by etrans| |].
  - intros v b Hv. destruct (R1 v b Hv) as [Hv'|]; auto.
  - intros Ht. pose proof (F1 Ht) as ->. auto.
Qed.

(** Every stored proposal stays stored, in order, and evolves. *)
Definition grows s s' : Prop := proposals_ok (st_Store s) →
  proposals_ok (st_Store s') ∧
  ∀ id p, proposals s !! id = Some p → ∃ p', proposals s' !! id = Some p' ∧ evolves p p'.
#[export] Instance grows_refl : Reflexive grows.
Proof. intros s Hok. split; [done|]. intros id p E. by exists p. Qed.
#[export] Instance grows_trans : Transitive grows.
Proof.
  intros s1 s2 s3 G1 G2 Hok. destruct (G1 Hok) as [Hok2 H1]. destruct (G2 Hok2) as [Hok3 H2].
  split; [done|]. intros id p E. destruct (H1 id p E) as (q & Eq & V1). destruct (H2 id q Eq) as (r & Er & V2).
  exists r. split; [done|by etrans].
Qed.

Lemma grows_same s s' : proposals s' = proposals s → grows s s'.
Proof. intros E Hok. unfold proposals_ok in *. rewrite E. split; [done|]. intros id p Ep. by exists p. Qed.

Lemma quiet_grows {A} (m : call State A) : preserves quiet m → preserves grows m.
Proof. intros Hm s. apply grows_same. destruct (Hm s) as [C _]. by rewrite (sc_store _ _ C). Qed.

(** Storing one proposal again. *)
Lemma grows_put s p' :
  (proposals_ok (st_Store s) → proposal_ok (pr_ProposalID p') p' ∧
     ∀ p, proposals s !! pr_ProposalID p' = Some p → evolves p p') →
  grows s (s <| st_Store ::= Rows.PutProposal p' |>).
Proof.
  intros H Hok. destruct (H Hok) as [Hp He]. unfold proposals_ok. cbn. split.
  { by apply map_Forall_insert_2. }
  intros id p E. destruct (decide (id = pr_ProposalID p')) as [->|Hne].
  - exists p'. rewrite lookup_insert, decide_True by done. auto.
  - exists p. by rewrite lookup_insert_ne by done.
Qed.

Lemma mark_spent_proposals ns s : proposals (mark_spent ns s).2 = proposals s.
Proof.
  revert s. induction ns as [|n ns IH]; intros s; cbn [mark_spent]; [done|].
  cbv [mbind call_bind gets modify]. cbn beta iota. unfold Rows.MarkNullifierSpent.
  case_bool_decide; [done|]. by rewrite IH.
Qed.

Context (deps : Deps).

Lemma exec_vote_grows t pub : preserves grows (exec_vote deps t pub).
Proof.
  intros s. unfold exec_vote.
  destruct ((requireEligibleVoterZK deps (tx_VoteEligibility t) (vpi_ProposalID pub)) s) as [[voter|e] s1] eqn:E1.
  2:{ cbv [mbind call_bind]. rewrite E1. cbn [snd].
      by replace s1 with ((requireEligibleVoterZK deps (tx_VoteEligibility t) (vpi_ProposalID pub)) s).2;
        [apply quiet_grows, require_voter_quiet|rewrite E1]. }
  assert (R1 : grows s s1).
  { pose proof (quiet_grows _ (require_voter_quiet deps (tx_VoteEligibility t) (vpi_ProposalID pub)) s) as G.
    by rewrite E1 in G. }
  etrans; [exact R1|]. cbv [mbind call_bind]. rewrite E1. cbv [gets id].
  destruct (Rows.GetProposal (vpi_ProposalID pub) (st_Store s1)) as [p|] eqn:Ep.
  - cbv [mret call_ret check lift require]. destruct (negb (pr_Tallied p)) eqn:Et; [|apply grows_refl].
    case_bool_decide as Hv; cbn [negb]; [apply grows_refl|]. cbn [modify snd]. apply grows_put. intros Hok.
    set (p' := p <| pr_Commitments ::= <[voter := vpi_Commitment pub]> |>).
    destruct (Hok _ _ Ep) as [Hid Hfr Hop]. split.
    + split; [done|exact Hfr|]. intros v b Hb. destruct (Hop v b Hb) as [nonce Hc]. exists nonce. cbn.
      rewrite lookup_insert_ne; [done|]. intros ->. apply Hv. eauto.
    + intros q Eq. change (pr_ProposalID p') with (pr_ProposalID p) in Eq. rewrite Hid in Eq.
      unfold Rows.GetProposal in Ep. assert (q = p) as -> by congruence. split; [done| |auto|].
      * cbn. apply insert_subseteq. destruct (pr_Commitments p !! voter) eqn:?; [|done]. destruct Hv. eauto.
      * intros Ht. by rewrite Ht in Et.
  - destruct (lift _ s1) as [[[]|e] s2] eqn:El; injection El as El <-; [|apply grows_refl].
    cbn [mret call_ret]. cbv [check lift require]. cbn [pr_Tallied new_proposal negb].
    case_bool_decide as Hv; cbn [negb]; [apply grows_refl|]. cbn [modify snd]. apply grows_put. intros Hok. split.
    + split; [done|done|]. cbn. intros v b Hb. by rewrite lookup_empty in Hb.
    + intros q Eq. change (proposals s1 !! vpi_ProposalID pub = Some q) in Eq.
      unfold Rows.GetProposal in Ep. congruence.
Qed.

Lemma exec_reveal_grows t pub : preserves grows (exec_reveal deps t pub).
Proof.
  unfold exec_reveal. apply (preserves_bind _); [apply quiet_grows, require_voter_quiet|]. intros voter.
  intros s. cbv [mbind call_bind gets].
  destruct (Rows.GetProposal (vrpi_ProposalID pub) (st_Store s)) as [p|] eqn:Ep; [|apply grows_refl].
  cbv [check lift require]. destruct (negb (pr_Tallied p)) eqn:Et; [|apply grows_refl].
  destruct (pr_Commitments p !! voter) as [commitment|] eqn:Ec; [|apply grows_refl].
  destruct (negb (default false (pr_Reveals p !! voter))) eqn:Er; [|apply grows_refl].
  case_bool_decide as Hc; [|apply grows_refl]. cbn [modify snd]. apply grows_put. intros Hok.
  set (p' := p <| pr_Reveals ::= <[voter := vrpi_Approve pub]> |>).
  destruct (Hok _ _ Ep) as [Hid Hfr Hop]. split.
  - split; [done|exact Hfr|]. intros v b Hb. cbn in Hb.
    destruct (decide (v = voter)) as [->|Hne].
    + rewrite lookup_insert, decide_True in Hb by done. injection Hb as <-.
      exists (vrpi_Nonce pub). cbn. by rewrite Ec, Hc.
    + rewrite lookup_insert_ne in Hb by done. by apply Hop.
  - intros q Eq. change (pr_ProposalID p') with (pr_ProposalID p) in Eq. rewrite Hid in Eq.
    unfold Rows.GetProposal in Ep. assert (q = p) as -> by congruence. split; [done|done| |].
    + intros v b Hb. cbn. destruct (decide (v = voter)) as [->|Hne].
      * rewrite lookup_insert, decide_True by done. destruct (Hop voter b Hb) as [nonce Hn].
        rewrite Ec in Hn. injection Hn as Hn. rewrite <-Hc in Hn.
        apply vote_commitment_binds in Hn as [->|]; auto.
      * rewrite lookup_insert_ne by done. auto.
    + intros Ht. by rewrite Ht in Et.
Qed.

Lemma insert_zk_grows c : preserves grows (insert_zk c).
Proof. unfold insert_zk. repeat first [call_step | apply grows_same; reflexivity]. Qed.

Lemma insert_all_grows cs : preserves grows (insert_all_zk cs).
Proof.
  induction cs as [|c cs IH]; cbn [insert_all_zk]; [call_auto|].
  apply (preserves_bind _); [apply insert_zk_grows|done].
Qed.

Lemma record_root_grows : preserves grows record_zk_root.
Proof. intros s. unfold record_zk_root, modify. cbn. repeat case_match; by apply grows_same. Qed.

Lemma append_state_grows cs : preserves grows (append_state cs).
Proof. unfold append_state. repeat first [call_step | apply grows_same; reflexivity]. Qed.

(** Follows a call none of whose mutations touches the stored proposals. *)
Ltac grow_auto :=
  repeat first
    [ apply insert_zk_grows | apply insert_all_grows | apply record_root_grows
    | apply append_state_grows | apply quiet_grows, oracle_quiet | apply quiet_grows, reserve_quiet
    | call_step | apply grows_same; reflexivity ].

Lemma exec_transfer_grows pub : preserves grows (exec_transfer pub).
Proof. unfold exec_transfer. grow_auto. Qed.
Lemma exec_bank_grows t pub : preserves grows (exec_bank deps t pub).
Proof. unfold exec_bank. grow_auto. Qed.
Lemma exec_trait_grows t pub : preserves grows (exec_trait t pub).
Proof. unfold exec_trait. grow_auto. Qed.
Lemma exec_container_sync_grows t : preserves grows (exec_container_sync t).
Proof. unfold exec_container_sync. grow_auto. Qed.
Lemma exec_mint_grows pub : preserves grows (exec_mint deps pub).
Proof. unfold exec_mint. grow_auto. Qed.
Lemma exec_unstake_grows c : preserves grows (exec_unstake c).
Proof. unfold exec_unstake. grow_auto. Qed.
Lemma exec_nft_transfer_grows t pub : preserves grows (exec_nft_transfer t pub).
Proof. unfold exec_nft_transfer. grow_auto. Qed.

Lemma with_inputs_grows {A} (o : option A) k :
  (∀ a, preserves grows (k a)) → preserves grows (with_inputs o k).
Proof. intros Hk. destruct o; [apply Hk|apply (preserves_fail _)]. Qed.

Lemma stage4_grows t : preserves grows (stage4SendExec deps t).
Proof.
  unfold stage4SendExec. apply (preserves_bind _); [|intros; apply (preserves_ret _)].
  destruct (tx_Kind t); try apply (preserves_ret _); try apply exec_container_sync_grows;
    apply with_inputs_grows; intros.
  - apply exec_transfer_grows.
  - apply exec_vote_grows.
  - apply exec_bank_grows.
  - apply exec_bank_grows.
  - apply exec_trait_grows.
  - apply exec_reveal_grows.
  - apply exec_mint_grows.
  - apply exec_unstake_grows.
  - apply exec_nft_transfer_grows.
Qed.

Lemma stage1_grows t : preserves grows (stage1SenderLeave deps t).
Proof.
  unfold stage1SenderLeave, stage1Transfer, stage1Unstake, markReserved.
  grow_auto.
Qed.

Lemma stage5_grows t : preserves grows (stage5PlaceFinal t).
Proof.
  assert (Hm : ∀ ns, preserves grows (mark_spent ns)) by (intros ns s; apply grows_same, mark_spent_proposals).
  unfold stage5PlaceFinal, with_inputs.
  repeat first [ apply Hm | call_step | apply grows_same; reflexivity ].
Qed.

Lemma release_grows t : preserves grows (release t).
Proof. unfold release. repeat first [call_step | apply grows_same; reflexivity]. Qed.

Lemma processOne_grows json_marshal t at_ s : grows s (processOne json_marshal deps t at_ s).2.
Proof.
  apply (processOne_preserves grows); intros; auto using stage1_grows, stage4_grows, stage5_grows,
    release_grows, quiet_grows, stage2_quiet, stage3_quiet.
  apply stage4_grows.
Qed.
End proposals.

Section tally_growth.
Context `{SHA : Sha256, M3 : Mode3, ED : Ed25519, BR : BigRat, FR : Fr, MM : MiMC, GR : !Groth16}.
Implicit Types (p : ProposalRecord) (s : State).

Lemma counted_evolves n p p' : pr_Tallied p = false → counted n p p' → evolves p p'.
Proof.
  intros Ht [C _]. split; [injection C; unfold binding; congruence| |intros v b Hv|congruence].
  - assert (E : pr_Commitments p' = pr_Commitments p) by by injection C. by rewrite E.
  - left. assert (E : pr_Reveals p' = pr_Reveals p) by by injection C. by rewrite E.
Qed.

Lemma tally_grows cur s : grows s (TallyDueProposals cur s).2.
Proof.
  intros Hok. pose proof (tally_lookup cur s Hok) as H. cbv zeta in H.
  destruct (TallyDueProposals cur s) as [out s']. destruct H as (_ & Hin & Hno & _). cbn [snd].
  assert (Hstep : ∀ id p, Rows.proposals (st_Store s) !! id = Some p → ∃ p',
    Rows.proposals (st_Store s') !! id = Some p' ∧ evolves p p' ∧ proposal_ok id p').
  { intros id p E. specialize (Hin id p E). destruct (due cur p) eqn:Ed.
    - destruct Hin as (p' & _ & Hc & E'). exists p'. split; [done|].
      assert (Ht : pr_Tallied p = false) by (unfold due in Ed; bools; by destruct Ed).
      split; [by eapply counted_evolves|]. destruct (Hok _ _ E) as [Hid _ Hop], Hc as [C O].
      split; [rewrite (claim_id _ _ C); done|injection O as -> _ _ _; done|].
      assert (Er : pr_Reveals p' = pr_Reveals p) by by injection C.
      assert (Ec : pr_Commitments p' = pr_Commitments p) by by injection C. by rewrite Er, Ec.
    - exists p. split; [done|]. split; [done|]. by apply Hok. }
  split.
  - intros id p' E'. destruct (Rows.proposals (st_Store s) !! id) as [p|] eqn:E.
    + destruct (Hstep id p E) as (q & Eq & _ & Hq). congruence.
    + by rewrite Hno in E'.
  - intros id p E. destruct (Hstep id p E) as (q & Eq & Hq & _). by exists q.
Qed.

Lemma events_grow es s : grows s (run_events es s).
Proof.
  unfold run_events. revert s. induction es as [|e es IH]; intros s; [apply grows_refl|]. cbn [foldl].
  etrans; [|apply IH]. destruct e; [apply processOne_grows|apply tally_grows].
Qed.
End tally_growth.

(** * Ownership *)

(** The owner index and the NFT records agree: a wallet is indexed exactly when it owns
    an NFT, under that NFT's id. *)
Record index_ok (r : Rows) : Prop := {
  io_id : ∀ id n, Rows.nfts r !! id = Some n → nft_ID n = id;
  io_owner : ∀ id n, Rows.nfts r !! id = Some n → Rows.owners r !! nft_Owner n = Some id;
  io_back : ∀ o id, Rows.owners r !! o = Some id → ∃ n, Rows.nfts r !! id = Some n ∧ nft_Owner n = o }.

Lemma index_ok_eq r r' :
  Rows.nfts r' = Rows.nfts r → Rows.owners r' = Rows.owners r → index_ok r → index_ok r'.
Proof. intros E1 E2 [H1 H2 H3]. split; rewrite ?E1, ?E2; auto. Qed.

(** Rewriting a record in place: same id, same owner. *)
Lemma index_put_same r id n n' :
  index_ok r → Rows.nfts r !! id = Some n → nft_ID n' = id → nft_Owner n' = nft_Owner n →
  index_ok (Rows.PutNFT n' r).
Proof.
  intros [Hi Ho Hb] E <- Eo. unfold Rows.PutNFT. split; cbn.
  - intros id m Em. destruct (decide (id = nft_ID n')) as [->|Hne].
    + rewrite lookup_insert, decide_True in Em by done. congruence.
    + rewrite lookup_insert_ne in Em by done. auto.
  - intros id m Em. destruct (decide (id = nft_ID n')) as [->|Hne].
    + rewrite lookup_insert, decide_True in Em by done. injection Em as <-. by rewrite lookup_insert, decide_True.
    + rewrite lookup_insert_ne in Em by done. pose proof (Ho _ _ Em) as Eid. rewrite lookup_insert_ne; [done|].
      rewrite Eo. intros E'. pose proof (Ho _ _ E) as Eid'. rewrite E' in Eid'. congruence.
  - intros o id Eid. destruct (decide (o = nft_Owner n')) as [->|Hne].
    + rewrite lookup_insert, decide_True in Eid by done. injection Eid as <-. exists n'.
      by rewrite lookup_insert, decide_True.
    + rewrite lookup_insert_ne in Eid by done. destruct (Hb _ _ Eid) as (m & Em & Eo').
      exists m. rewrite lookup_insert_ne; [done|]. intros <-. congruence.
Qed.

(** Adding a record under an unused id for a wallet that owns none. *)
Lemma index_put_new r n' :
  index_ok r → Rows.nfts r !! nft_ID n' = None → Rows.owners r !! nft_Owner n' = None →
  index_ok (Rows.PutNFT n' r).
Proof.
  intros [Hi Ho Hb] E Eo. unfold Rows.PutNFT. split; cbn.
  - intros id m Em. destruct (decide (id = nft_ID n')) as [->|Hne].
    + rewrite lookup_insert, decide_True in Em by done. congruence.
    + rewrite lookup_insert_ne in Em by done. auto.
  - intros id m Em. destruct (decide (id = nft_ID n')) as [->|Hne].
    + rewrite lookup_insert, decide_True in Em by done. injection Em as <-. by rewrite lookup_insert, decide_True.
    + rewrite lookup_insert_ne in Em by done. pose proof (Ho _ _ Em) as Eid. rewrite lookup_insert_ne; [done|congruence].
  - intros o id Eid. destruct (decide (o = nft_Owner n')) as [->|Hne].
    + rewrite lookup_insert, decide_True in Eid by done. injection Eid as <-. exists n'.
      by rewrite lookup_insert, decide_True.
    + rewrite lookup_insert_ne in Eid by done. destruct (Hb _ _ Eid) as (m & Em & Eo').
      exists m. rewrite lookup_insert_ne; [done|]. intros <-. congruence.
Qed.

(** Deleting a record, or a version of it with the same id and owner. *)
Lemma index_delete r id n n' :
  index_ok r → Rows.nfts r !! id = Some n → nft_ID n' = id → nft_Owner n' = nft_Owner n →
  index_ok (Rows.DeleteNFT n' r).
Proof.
  intros [Hi Ho Hb] E <- Eo. unfold Rows.DeleteNFT. split; cbn.
  - intros id m [_ Em]%lookup_delete_Some. auto.
  - intros id m [Hne Em]%lookup_delete_Some. rewrite lookup_delete_ne; [auto|].
    rewrite Eo. intros E'. pose proof (Ho _ _ E) as E1. pose proof (Ho _ _ Em) as E2. congruence.
  - intros o id [Hne Eid]%lookup_delete_Some. destruct (Hb _ _ Eid) as (m & Em & <-).
    exists m. split; [|done]. rewrite lookup_delete_ne; [done|]. intros <-. congruence.
Qed.

(** Handing a record to a wallet that owns no other. *)
Lemma index_transfer r id n n' :
  index_ok r → Rows.nfts r !! id = Some n → nft_ID n' = id →
  (∀ id', Rows.owners r !! nft_Owner n' = Some id' → id' = id) →
  index_ok (Rows.TransferNFTOwner (nft_Owner n) n' r).
Proof.
  intros Hok E <- Hnew. pose proof (index_delete r _ n n Hok E (io_id _ Hok _ _ E) eq_refl) as Hd.
  pose proof (io_id _ Hok _ _ E) as Eid.
  apply (index_ok_eq (Rows.PutNFT n' (Rows.DeleteNFT n r))).
  { change (<[nft_ID n' := n']> (Rows.nfts r) = <[nft_ID n' := n']> (delete (nft_ID n) (Rows.nfts r))).
    rewrite Eid. symmetry. apply insert_delete_eq. }
  { reflexivity. }
  apply index_put_new; [done| |].
  - cbn. by rewrite Eid, lookup_delete, decide_True.
  - cbn. apply lookup_delete_None. destruct (Rows.owners r !! nft_Owner n') as [id'|] eqn:Eo; [left|by right].
    pose proof (Hnew _ eq_refl) as ->. destruct (io_back _ Hok _ _ Eo) as (m & Em & <-). congruence.
Qed.

Section ownership.
Context `{SHA : Sha256, M3 : Mode3, ED : Ed25519, BR : BigRat, FR : Fr, MM : MiMC, GR : !Groth16}.
Implicit Types (s : State).

Definition keeps_index s s' : Prop := index_ok (st_Store s) → index_ok (st_Store s').
#[export] Instance keeps_index_refl : Reflexive keeps_index.
Proof. intros s Hok. exact Hok. Qed.
#[export] Instance keeps_index_trans : Transitive keeps_index.
Proof. intros s1 s2 s3 H1 H2 Hok. auto. Qed.

(** Stores with the same NFTs and owners. *)
Lemma index_same s s' :
  Rows.nfts (st_Store s') = Rows.nfts (st_Store s) → Rows.owners (st_Store s') = Rows.owners (st_Store s) →
  keeps_index s s'.
Proof. intros E1 E2 Hok. by apply (index_ok_eq (st_Store s)). Qed.

Lemma quiet_index {A} (m : call State A) : preserves quiet m → preserves keeps_index m.
Proof. intros Hm s. destruct (Hm s) as [C _]. by apply index_same; rewrite (sc_store _ _ C). Qed.

Lemma index_store s f :
  (index_ok (st_Store s) → index_ok (f (st_Store s))) → keeps_index s (s <| st_Store ::= f |>).
Proof. intros H Hok. exact (H Hok). Qed.

Lemma mark_spent_index ns : preserves keeps_index (mark_spent ns).
Proof.
  intros s. apply index_same; revert s; induction ns as [|n ns IH]; intros s; cbn [mark_spent]; try done;
    cbv [mbind call_bind gets modify]; cbn beta iota; unfold Rows.MarkNullifierSpent;
    (case_bool_decide; [done|by rewrite IH]).
Qed.

Context (deps : Deps).

Lemma insert_zk_index c : preserves keeps_index (insert_zk c).
Proof. unfold insert_zk. repeat first [call_step | apply index_same; reflexivity]. Qed.
Lemma insert_all_index cs : preserves keeps_index (insert_all_zk cs).
Proof.
  induction cs as [|c cs IH]; cbn [insert_all_zk]; [apply (preserves_ret _)|].
  apply (preserves_bind _); [apply insert_zk_index|done].
Qed.
Lemma record_root_index : preserves keeps_index record_zk_root.
Proof. intros s. unfold record_zk_root, modify. cbn. repeat case_match; by apply index_same. Qed.
Lemma append_state_index cs : preserves keeps_index (append_state cs).
Proof. unfold append_state. repeat first [call_step | apply index_same; reflexivity]. Qed.

(** Follows a call none of whose mutations touches the NFTs. *)
Ltac index_auto :=
  repeat first
    [ apply insert_zk_index | apply insert_all_index | apply record_root_index
    | apply append_state_index | apply quiet_index, oracle_quiet | apply quiet_index, reserve_quiet
    | apply quiet_index, require_voter_quiet | apply mark_spent_index
    | call_step | apply index_same; reflexivity ].

Lemma exec_trait_index t pub : preserves keeps_index (exec_trait t pub).
Proof.
  intros s. unfold exec_trait. destruct (tx_Commitments t) as [|target ?]; [apply keeps_index_refl|].
  cbv [mbind call_bind gets]. destruct (Rows.GetNFT target (st_Store s)) as [rec|] eqn:E; [|apply keeps_index_refl].
  cbn [modify snd]. apply index_store. intros Hok.
  apply (index_put_same _ target rec); [done|exact E| |done]. exact (io_id _ Hok _ _ E).
Qed.

Lemma GetNFTByOwner_None r o : index_ok r → Rows.GetNFTByOwner o r = None → Rows.owners r !! o = None.
Proof.
  intros Hok E. unfold Rows.GetNFTByOwner in E. destruct (Rows.owners r !! o) as [id|] eqn:Eo; [|done].
  destruct (io_back _ Hok _ _ Eo) as (n & En & _). cbn in E. congruence.
Qed.

Lemma exec_mint_index pub s :
  Rows.GetNFT (NFT.mint_id (nmpi_Owner pub) (nmpi_Nonce pub)) (st_Store s) = None →
  keeps_index s (exec_mint deps pub s).2.
Proof.
  intros Hfresh. unfold exec_mint. cbv [mbind call_bind gets lift].
  destruct (NFT.Mint _) as [minted|e] eqn:Em; [|apply keeps_index_refl]. cbn [modify].
  set (s1 := s <| st_Store ::= Rows.PutNFT minted |>).
  assert (R1 : keeps_index s s1).
  { apply index_store. intros Hok. unfold NFT.Mint in Em.
    destruct (NFT.mp_AlreadyHasNFT _) eqn:Ea; [done|]. ok_inv. apply index_put_new; [done|exact Hfresh|].
    cbn. apply GetNFTByOwner_None; [done|]. cbn in Ea.
    by destruct (Rows.GetNFTByOwner (nmpi_Owner pub) (st_Store s)). }
  etrans; [exact R1|]. destruct (st_EligibilityTree s1) as [tree|]; [|apply keeps_index_refl].
  destruct (ZkTree.Insert _ _) as [[i tree']|]; [|apply keeps_index_refl].
  set (s2 := s1 <| st_EligibilityTree := Some tree' |>). change (keeps_index s1
    match st_EligibilityRoots s2 with
    | None => s2
    | Some h => s2 <| st_EligibilityRoots := Some (RootHistory.Record_root h (ZkTree.Root tree')) |>
    end). destruct (st_EligibilityRoots s2); apply index_same; reflexivity.
Qed.

Lemma exec_nft_transfer_index t pub : preserves keeps_index (exec_nft_transfer t pub).
Proof.
  intros s. unfold exec_nft_transfer. cbv [mbind call_bind gets].
  destruct (Rows.GetNFT (ntpi_Target pub) (st_Store s)) as [rec|] eqn:E; [|apply keeps_index_refl].
  cbv [check lift require]. case_bool_decide; [|apply keeps_index_refl].
  destruct (NFT.TransferOwnership _) as [updated|e] eqn:Et; [|apply keeps_index_refl].
  cbn [modify snd]. apply index_store. intros Hok. unfold NFT.TransferOwnership in Et.
  repeat (case_match; [done|]). injection Et as <-. cbn in *.
  apply (index_transfer _ (ntpi_Target pub)); [done|exact E| |].
  - exact (io_id _ Hok _ _ E).
  - cbn. intros id' Eo. destruct (io_back _ Hok _ _ Eo) as (m & Em & _).
    match goal with H : match Rows.GetNFTByOwner _ _ with _ => _ end = false |- _ => rename H into Hn end.
    unfold Rows.GetNFTByOwner in Hn. rewrite Eo in Hn. cbn in Hn. rewrite Em in Hn. bools.
    by rewrite (io_id _ Hok _ _ Em) in Hn.
Qed.

Lemma exec_transfer_index pub : preserves keeps_index (exec_transfer pub).
Proof. unfold exec_transfer. index_auto. Qed.
Lemma exec_bank_index t pub : preserves keeps_index (exec_bank deps t pub).
Proof. unfold exec_bank. index_auto. Qed.
Lemma exec_vote_index t pub : preserves keeps_index (exec_vote deps t pub).
Proof. unfold exec_vote. index_auto. Qed.
Lemma exec_reveal_index t pub : preserves keeps_index (exec_reveal deps t pub).
Proof. unfold exec_reveal. index_auto. Qed.
Lemma exec_container_sync_index t : preserves keeps_index (exec_container_sync t).
Proof. unfold exec_container_sync. index_auto. Qed.
Lemma exec_unstake_index c : preserves keeps_index (exec_unstake c).
Proof. unfold exec_unstake. index_auto. Qed.

Lemma with_inputs_index {A} (o : option A) k s :
  (∀ a, o = Some a → keeps_index s (k a s).2) → keeps_index s (with_inputs o k s).2.
Proof. intros Hk. destruct o; [by apply Hk|apply keeps_index_refl]. Qed.

(** The id a transaction would mint is in no record. *)
Definition mint_fresh t s : Prop := tx_Kind t = TxNFTMint → ∀ pub, tx_NFTMint t = Some pub →
  Rows.GetNFT (NFT.mint_id (nmpi_Owner pub) (nmpi_Nonce pub)) (st_Store s) = None.

Lemma stage4_index t s : mint_fresh t s → keeps_index s (stage4SendExec deps t s).2.
Proof.
  intros Hfresh. unfold stage4SendExec.
  assert (H : ∀ m : call State unit, keeps_index s (m s).2 →
    keeps_index s ((m ≫= λ _, mret (with_stage 4 t)) s).2).
  { intros m Hm. unfold mbind, call_bind. by destruct (m s) as [[]]. }
  apply H. unfold mint_fresh in Hfresh. destruct (tx_Kind t); try apply keeps_index_refl;
    try apply exec_container_sync_index; apply with_inputs_index; intros a Ea.
  - apply exec_transfer_index.
  - apply exec_vote_index.
  - apply exec_bank_index.
  - apply exec_bank_index.
  - apply exec_trait_index.
  - apply exec_reveal_index.
  - apply exec_mint_index. by apply Hfresh.
  - apply exec_unstake_index.
  - apply exec_nft_transfer_index.
Qed.

Lemma processOne_index json_marshal t at_ s :
  mint_fresh t s → keeps_index s (processOne json_marshal deps t at_ s).2.
Proof.
  intros Hf. apply (processOne_preserves keeps_index); intros; auto using quiet_index, stage2_quiet, stage3_quiet.
  - unfold stage1SenderLeave, stage1Transfer, stage1Unstake, markReserved. index_auto.
  - apply stage4_index. unfold mint_fresh in *.
    match goal with Hk : tx_Kind _ = _, Hm : tx_NFTMint _ = _, Hs : st_Store _ = _ |- _ => by rewrite Hk, Hm, Hs end.
  - unfold stage5PlaceFinal, with_inputs. index_auto.
  - unfold release. index_auto.
Qed.

Lemma tally_record_index n p s : keeps_index s (tally_record n p s).2.
Proof.
  assert (H : ∀ (fs : list (ProposalRecord → State → ProposalRecord * State)) p s,
    Forall (λ f, ∀ p s, keeps_index s (f p s).2) fs →
    keeps_index s (foldl (λ ps f, f ps.1 ps.2) (p, s) fs).2).
  { intros fs. induction fs as [|f fs IH]; intros q z HF; [apply keeps_index_refl|].
    apply Forall_cons in HF as [Hf HF]. cbn [foldl fst snd]. specialize (Hf q z).
    destruct (f q z) as [q' z']. etrans; [exact Hf|by apply IH]. }
  unfold tally_record. specialize (H effects (count_proposal n p) s).
  destruct (foldl _ _ effects) as [p' s']. cbn [snd] in *. etrans; [apply H|apply index_same; reflexivity].
  unfold effects. repeat apply Forall_cons_2; [..|apply Forall_nil_2]; intros q z.
  - unfold apply_param. repeat case_match; (apply index_same; reflexivity).
  - unfold apply_mint, apply_mint_staked, apply_mint_direct. repeat case_match; (apply index_same; reflexivity).
  - unfold apply_slash. case_match; [|apply keeps_index_refl].
    destruct (Rows.GetNFT _ _) as [nft|] eqn:E; [|apply keeps_index_refl]. cbn [snd].
    apply index_store. intros Hok.
    assert (Hn : ∀ a, nft_ID (NFT.ApplySlash nft a) = nft_ID nft ∧ nft_Owner (NFT.ApplySlash nft a) = nft_Owner nft).
    { intros a. unfold NFT.ApplySlash. by case_bool_decide. }
    destruct (Hn (if pr_SlashBurn q then NFT.SlashBurn else NFT.SlashFreeze)) as [Hi Ho].
    pose proof (io_id _ Hok _ _ E) as Eid. rewrite Eid in Hi.
    destruct (pr_SlashBurn q); [eapply index_delete|eapply index_put_same]; eauto.
  - unfold apply_unlock. case_match; [|apply keeps_index_refl].
    destruct (Rows.GetNFT _ _) as [nft|] eqn:E; [|apply keeps_index_refl]. cbn [snd].
    apply index_store. intros Hok. eapply index_put_same; [done|exact E| |done]. exact (io_id _ Hok _ _ E).
  - unfold apply_asset. case_match; (apply index_same; reflexivity).
  - unfold apply_unwind. repeat case_match; (apply index_same; reflexivity).
Qed.

Lemma tally_index cur s : keeps_index s (TallyDueProposals cur s).2.
Proof.
  unfold TallyDueProposals. generalize (Rows.CountNFTs (st_Store s)) as n.
  generalize (Rows.ListProposals (st_Store s)) as all. intros all n. revert s.
  induction all as [|p all IH]; intros s; cbn [tally_all]; [apply keeps_index_refl|].
  destruct (due cur p); [|apply IH]. pose proof (tally_record_index n p s) as R.
  destruct (tally_record n p s) as [p' s1]. specialize (IH s1).
  destruct (tally_all cur n all s1). cbn [snd] in *. by etrans.
Qed.
End ownership.

Section traces.
Context `{SHA : Sha256, M3 : Mode3, ED : Ed25519, BR : BigRat, FR : Fr, MM : MiMC, GR : !Groth16}.
Implicit Types (s : State).

(** Every mint of a history is of an id no record has at that time. *)
Fixpoint fresh_mints (es : list event) s : Prop :=
  match es with
  | [] => True
  | e :: es => match e with ESubmit _ _ t _ => mint_fresh t s | ETally _ => True end ∧
               fresh_mints es (apply_event e s)
  end.

Lemma events_index es s : fresh_mints es s → keeps_index s (run_events es s).
Proof.
  unfold run_events. revert s. induction es as [|e es IH]; intros s; [intros _; apply keeps_index_refl|].
  intros [Hf Hfs]. cbn [foldl]. etrans; [|by apply IH].
  destruct e; [by apply processOne_index|apply tally_index].
Qed.
End traces.

Lemma owner_count r : index_ok r → size (Rows.owners r) = size (Rows.nfts r).
Proof.
  intros Hok.
  assert (E : dom (Rows.owners r) = list_to_set ((λ kn, nft_Owner kn.2) <$> map_to_list (Rows.nfts r))).
  { apply leibniz_equiv. intros o. rewrite elem_of_dom, elem_of_list_to_set, list_elem_of_fmap. split.
    - intros [id Eid]. destruct (io_back _ Hok _ _ Eid) as (n & En & <-). exists (id, n).
      split; [done|]. by apply elem_of_map_to_list.
    - intros ([id n] & -> & En%elem_of_map_to_list). exists id. by apply (io_owner _ Hok). }
  rewrite <-(size_dom (D:=gset Address)), E, size_list_to_set, length_fmap, length_map_to_list; [done|].
  apply NoDup_fmap_2_strong; [|apply NoDup_map_to_list].
  intros [id n] [id' n'] Hi%elem_of_map_to_list Hj%elem_of_map_to_list Eo. cbn in Eo.
  pose proof (io_owner _ Hok _ _ Hi) as H1. pose proof (io_owner _ Hok _ _ Hj) as H2.
  rewrite Eo in H1. assert (id = id') as <- by congruence. congruence.
Qed.

(** * Properties *)

Module HistorySpec.

(** C28: the life of a proposal. Along any history of transactions and tallies a stored
    proposal is never dropped and never changes what it binds; a cast ballot is never
    replaced or removed; every opened choice opens the commitment its voter cast, and
    stays as opened unless SHA-256 collides; and once tallied the record is final. *)
Theorem proposal_lifecycle `{SHA : Sha256, M3 : Mode3, ED : Ed25519, BR : BigRat, FR : Fr, MM : MiMC,
    GR : !Groth16} es s :
  proposals_ok (st_Store s) →
  proposals_ok (st_Store (run_events es s)) ∧
  ∀ id p, Rows.GetProposal id (st_Store s) = Some p →
    ∃ p', Rows.GetProposal id (st_Store (run_events es s)) = Some p' ∧ evolves p p'.
Proof. apply events_grow. Qed.

(** C29: one NFT per wallet. Along any history of transactions and tallies in which no
    mint reuses the id of an existing NFT, the owner index finds exactly the NFTs a
    wallet owns, no wallet owns two, and there are as many NFTs, hence votes, as
    wallets that own one. *)
Theorem one_nft_per_wallet `{SHA : Sha256, M3 : Mode3, ED : Ed25519, BR : BigRat, FR : Fr, MM : MiMC,
    GR : !Groth16} es s :
  index_ok (st_Store s) → fresh_mints es s →
  let r := st_Store (run_events es s) in
  index_ok r ∧
  (∀ o n, Rows.GetNFTByOwner o r = Some n ↔ Rows.GetNFT (nft_ID n) r = Some n ∧ nft_Owner n = o) ∧
  (∀ id id' n n', Rows.GetNFT id r = Some n → Rows.GetNFT id' r = Some n' →
     nft_Owner n = nft_Owner n' → id = id' ∧ n = n') ∧
  Rows.CountNFTs r = Z.of_nat (size (Rows.owners r)).
Proof.
  intros Hok Hf r. assert (H : index_ok r) by by apply events_index. split; [done|].
  unfold Rows.GetNFTByOwner, Rows.GetNFT. split; [|split].
  - intros o n. split.
    + destruct (Rows.owners r !! o) as [id|] eqn:Eo; [|done]. cbn. intros En.
      destruct (io_back _ H _ _ Eo) as (m & Em & <-). assert (m = n) as -> by congruence.
      by rewrite (io_id _ H _ _ En).
    + intros [En <-]. by rewrite (io_owner _ H _ _ En).
  - intros id id' n n' E E' Eo. pose proof (io_owner _ H _ _ E) as H1. pose proof (io_owner _ H _ _ E') as H2.
    rewrite Eo in H1. assert (id = id') as -> by congruence. split; congruence.
  - unfold Rows.CountNFTs. by rewrite owner_count.
Qed.
End HistorySpec.

(** The properties on the concrete node. *)
Module HistoryWitness.
Import FrModel FrontendModel GrothModel PipelineModel.

Definition submit (t : ShieldedTx) : event := ESubmit json deps t Minute.

Lemma proposal_lifecycle_witness :
  let s := run_events [submit vote_tx] state in
  let s' := run_events [submit reveal_tx; ETally 4] s in
  pr_Passed <$> Rows.GetProposal "mint" (st_Store s') = Some false ∧
  ∀ p, Rows.GetProposal "mint" (st_Store s) = Some p →
    ∃ p', Rows.GetProposal "mint" (st_Store s') = Some p' ∧ evolves p p'.
Proof.
  assert (Hok : proposals_ok (st_Store state)) by apply map_Forall_empty.
  destruct (HistorySpec.proposal_lifecycle [submit vote_tx] state Hok) as [Hok1 _].
  pose proof (HistorySpec.proposal_lifecycle [submit reveal_tx; ETally 4]
    (run_events [submit vote_tx] state) Hok1) as [_ H].
  split; [vm_compute; reflexivity|]. exact (H "mint"%string).
Defined.

Lemma empty_index : index_ok (st_Store unlock_state).
Proof.
  split.
  - intros id n E. change ((∅ : gmap NFTID ValidatorNFT) !! id = Some n) in E. by rewrite lookup_empty in E.
  - intros id n E. change ((∅ : gmap NFTID ValidatorNFT) !! id = Some n) in E. by rewrite lookup_empty in E.
  - intros o id E. change ((∅ : gmap Address NFTID) !! o = Some id) in E. by rewrite lookup_empty in E.
Qed.

Lemma one_nft_per_wallet_witness :
  let s := run_events [submit mint_tx; ETally 3; submit transfer_nft_tx] unlock_state in
  nft_ID <$> Rows.GetNFTByOwner CryptoModel.bob (st_Store s) = Some wallet_nft ∧
  index_ok (st_Store s).
Proof.
  split; [vm_compute; reflexivity|].
  refine (proj1 (HistorySpec.one_nft_per_wallet [submit mint_tx; ETally 3; submit transfer_nft_tx]
    unlock_state empty_index _)).
  split; [|split; [exact I|split; [|exact I]]].
  - intros _ pub E. injection E as <-. vm_compute. reflexivity.
  - intros Ek. discriminate Ek.
Defined.

(** * Findings *)

(** The id of an NFT is the hash of its minter and a nonce, and a wallet that has
    transferred its NFT away may mint again: with the same nonce the new record
    overwrites the transferred one. The receiver's index still points to the NFT,
    which the minter owns again. *)
Theorem remint_takes_nft_back :
  let s := run_events [submit mint_tx; ETally 3; submit transfer_nft_tx; submit mint_tx] unlock_state in
  nft_Owner <$> Rows.GetNFTByOwner CryptoModel.bob (st_Store s) = Some wallet ∧
  nft_Owner <$> Rows.GetNFT wallet_nft (st_Store s) = Some wallet ∧
  Rows.CountNFTs (st_Store s) = 1 ∧ size (Rows.owners (st_Store s)) = 2%nat.
Proof. vm_compute. done. Qed.
End HistoryWitness.
