(* ===== verification/Net.v ===== *)
(** pkg/net: the wire messages (message.go), the per-peer token-bucket limiter
    (ratelimit.go) and the receive loop that applies it (protocol.go). libp2p streams are
    outside; encoding/json is the class [Codec]. *)
From S2P Require Import Prelude Words Decimal Hashing Types.
From S2P Require Import Outage.
From Stdlib Require Import SpecFloat.

(** [peer.ID]. *)
Abbreviation PeerID := string (only parsing).
(** [MessageType] is a string on the wire. *)
Abbreviation MessageType := string (only parsing).

Definition MsgHeartbeat : MessageType := "Heartbeat".
Definition MsgTxOffer : MessageType := "TxOffer".
Definition MsgBlockProposal : MessageType := "BlockProposal".
Definition MsgStageVote : MessageType := "StageVote".
Definition MsgBlockAnnounce : MessageType := "BlockAnnounce".
Definition MsgMegabatchPart : MessageType := "MegabatchPart".
Definition MsgContainerSync : MessageType := "ContainerSync".
Definition MsgSilentPad : MessageType := "SilentPad".
Definition MsgBlockRequest : MessageType := "BlockRequest".
Definition MsgBlockResponse : MessageType := "BlockResponse".

(** * Payloads *)

Record HeartbeatPayload := {
  hb_NFT : NFTID; hb_PubKey : bytes; hb_Timestamp : Z; hb_IsSentinel : bool }.
Record BlockProposalPayload := {
  bp_Height : Z; bp_Epoch : Z; bp_Proposer : NFTID; bp_Batch : list ShieldedTx;
  bp_Timestamp : Z; bp_DualTrack : bool }.
Record StageVotePayload := {
  sv_Height : Z; sv_Validator : NFTID; sv_CandidateHash : Hash; sv_Sig : bytes }.
(** [Data] is [None] when it is the nil slice, which JSON's null decodes to. *)
Record MegabatchPartPayload := {
  mg_Height : Z; mg_PartIndex : Z; mg_PartCount : Z; mg_Data : option bytes }.
Record BlockRequestPayload := { br_FromHeight : Z; br_ToHeight : Z }.

(** What the node sends, by type. *)
Inductive Payload :=
| PHeartbeat (hb : HeartbeatPayload)
| PTxOffer (t : ShieldedTx)
| PBlockProposal (p : BlockProposalPayload)
| PStageVote (v : StageVotePayload)
| PBlockAnnounce (b : Block)
| PMegabatchPart (p : MegabatchPartPayload)
| PBlockRequest (r : BlockRequestPayload)
| PBlockResponse (blocks : list Block).

Definition MaxMegabatchPartBytes : Z := 64 * 1024.
Definition MaxMegabatchParts : Z := 1024.
Definition MaxCatchUpBlocks : Z := 200.

Record Envelope := { env_Type : MessageType; env_Payload : bytes }.

(** encoding/json, as the node uses it: [Marshal] of a payload, of a transaction and of
    a batch, and [Unmarshal] into each payload type. *)
Class Codec := {
  json_marshal : ShieldedTx → result bytes;
  marshal_payload : Payload → result bytes;
  decode_heartbeat : bytes → result HeartbeatPayload;
  decode_tx_offer : bytes → result ShieldedTx;
  decode_proposal : bytes → result BlockProposalPayload;
  decode_vote : bytes → result StageVotePayload;
  decode_announce : bytes → result Block;
  decode_part : bytes → result MegabatchPartPayload;
  decode_request : bytes → result BlockRequestPayload;
  decode_response : bytes → result (list Block);
  unmarshal_batch : bytes → result (list ShieldedTx) }.

Definition NewEnvelope `{Codec} (t : MessageType) (payload : Payload) : result Envelope :=
  b ← marshal_payload payload; Ok {| env_Type := t; env_Payload := b |}.

(** * The limiter *)

(** [float64] arithmetic, rounded to 53 bits. *)
Definition float64_add := SFadd 53 1024.
Definition float64_sub := SFsub 53 1024.
Definition float64_mul := SFmul 53 1024.
Definition float64_div := SFdiv 53 1024.
Definition float64_0 : spec_float := float64_of_int 0.
Definition float64_1 : spec_float := float64_of_int 1.

(** [Duration.Seconds]: whole seconds plus the nanoseconds left. *)
Definition Seconds (d : Duration) : spec_float :=
  float64_add (float64_of_int (Z.quot d Second))
    (float64_div (float64_of_int (Z.rem d Second)) (float64_of_int (10 ^ 9))).

Record bucket := {
  bk_tokens : spec_float; bk_capacity : spec_float; bk_refillRate : spec_float; bk_lastRefill : Time }.

Definition newBucket (capacity refillRate : spec_float) (now : Time) : bucket :=
  {| bk_tokens := capacity; bk_capacity := capacity; bk_refillRate := refillRate; bk_lastRefill := now |}.

Definition refill (b : bucket) (now : Time) : bucket :=
  let elapsed := Seconds (time_sub now (bk_lastRefill b)) in
  if SFltb float64_0 elapsed then
    let tokens := float64_add (bk_tokens b) (float64_mul elapsed (bk_refillRate b)) in
    let tokens := if SFltb (bk_capacity b) tokens then bk_capacity b else tokens in
    {| bk_tokens := tokens; bk_capacity := bk_capacity b; bk_refillRate := bk_refillRate b;
       bk_lastRefill := now |}
  else b.

Definition take_token (b : bucket) (now : Time) : bool * bucket :=
  let b := refill b now in
  if SFltb (bk_tokens b) float64_1 then (false, b)
  else (true, b <| bk_tokens ::= λ t, float64_sub t float64_1 |>).

Record RateLimiterConfig := { rl_Capacity : spec_float; rl_RefillRate : spec_float; rl_Cooldown : Duration }.
Definition DefaultRateLimiterConfig : RateLimiterConfig :=
  {| rl_Capacity := float64_of_int 20; rl_RefillRate := float64_of_int 5; rl_Cooldown := 30 * Second |}.

Record RateLimiter := {
  rl_cfg : RateLimiterConfig; buckets : gmap string (gmap string bucket);
  droppedUntil : gmap string Time }.

Definition NewRateLimiter (cfg : RateLimiterConfig) : RateLimiter :=
  {| rl_cfg := cfg; buckets := ∅; droppedUntil := ∅ |}.

(** The bucket of a peer and type, full when it is first needed. *)
Definition bucket_of (r : RateLimiter) (p : PeerID) (t : MessageType) (now : Time) : bucket :=
  default (newBucket (rl_Capacity (rl_cfg r)) (rl_RefillRate (rl_cfg r)) now)
    (default ∅ (buckets r !! p) !! t).

(** The token taken once the cooldown is over. *)
Definition allow_token (r : RateLimiter) (p : PeerID) (t : MessageType) (now : Time) : bool * RateLimiter :=
  let '(ok, b) := take_token (bucket_of r p t now) now in
  let r := r <| buckets ::= λ m, <[p := <[t := b]> (default ∅ (m !! p))]> m |> in
  if ok then (true, r)
  else (false, r <| droppedUntil ::= <[p := time_add now (rl_Cooldown (rl_cfg r))]> |>).

Definition Allow (r : RateLimiter) (p : PeerID) (t : MessageType) (now : Time) : bool * RateLimiter :=
  if negb (bool_decide (t = MsgHeartbeat)) && negb (bool_decide (t = MsgTxOffer)) then (true, r)
  else
    match droppedUntil r !! p with
    | Some until =>
        if now <? until then (false, r)
        else allow_token (r <| droppedUntil ::= delete p |>) p t now
    | None => allow_token r p t now
    end.

Definition IsDropped (r : RateLimiter) (p : PeerID) (now : Time) : bool :=
  match droppedUntil r !! p with Some until => now <? until | None => false end.

(** The loop of [handleStream] over the envelopes of one stream, each with the time it
    is read: the first one refused ends the stream. The result is what reached the
    handler. *)
Fixpoint handleStream (r : RateLimiter) (remote : PeerID) (envs : list (Envelope * Time))
    : list (Envelope * Time) * RateLimiter :=
  match envs with
  | [] => ([], r)
  | (env, now) :: envs =>
      let '(ok, r) := Allow r remote (env_Type env) now in
      if ok then
        let '(handled, r) := handleStream r remote envs in
        ((env, now) :: handled, r)
      else ([], r)
  end.

(** * Lemmas *)

Definition limited (t : MessageType) : Prop := t = MsgHeartbeat ∨ t = MsgTxOffer.

#[export] Instance limited_dec t : Decision (limited t).
Proof. unfold limited. apply _. Defined.

Lemma Allow_unlimited r p t now : ¬ limited t → Allow r p t now = (true, r).
Proof.
  unfold limited, Allow. intros Hn.
  by rewrite !bool_decide_eq_false_2 by tauto.
Qed.

Lemma Allow_limited r p t now : limited t →
  Allow r p t now =
  match droppedUntil r !! p with
  | Some until => if now <? until then (false, r)
                  else allow_token (r <| droppedUntil ::= delete p |>) p t now
  | None => allow_token r p t now
  end.
Proof.
  unfold limited, Allow. intros [->| ->]; reflexivity.
Qed.

(** What a limiter knows about a peer. *)
Definition view (r : RateLimiter) (q : PeerID) := (buckets r !! q, droppedUntil r !! q).

Lemma allow_token_other r p t now q : q ≠ p → view (allow_token r p t now).2 q = view r q.
Proof.
  intros Hne. unfold allow_token, view. destruct (take_token _ _) as [[] b]; cbn;
    by rewrite !lookup_insert_ne by done.
Qed.

Lemma allow_token_false r p t now :
  (allow_token r p t now).1 = false →
  droppedUntil (allow_token r p t now).2 !! p = Some (time_add now (rl_Cooldown (rl_cfg r))).
Proof.
  unfold allow_token. destruct (take_token _ _) as [[] b]; cbn; [done|].
  by rewrite lookup_insert_eq.
Qed.

Lemma allow_token_cfg r p t now : rl_cfg (allow_token r p t now).2 = rl_cfg r.
Proof. unfold allow_token. by destruct (take_token _ _) as [[] b]. Qed.

Lemma Allow_cfg r p t now : rl_cfg (Allow r p t now).2 = rl_cfg r.
Proof.
  destruct (decide (limited t)) as [Hl|]; [|by rewrite Allow_unlimited].
  rewrite Allow_limited by done. repeat case_match; by rewrite ?allow_token_cfg.
Qed.

(** A run of the limiter over messages of any peers, and its verdicts. *)
Fixpoint verdicts (r : RateLimiter) (msgs : list (string * string * Time)) : list bool :=
  match msgs with
  | [] => []
  | m :: msgs => let '(ok, r) := Allow r m.1.1 m.1.2 m.2 in ok :: verdicts r msgs
  end.

Lemma Allow_dropped r p now until q u :
  droppedUntil r !! p = Some until → (q = p → now < until) →
  droppedUntil (Allow r q u now).2 !! p = Some until ∧ (q = p → limited u → (Allow r q u now).1 = false).
Proof.
  intros Hd Ht. destruct (decide (limited u)) as [Hl|Hl]; [|by rewrite Allow_unlimited].
  rewrite Allow_limited by done. destruct (decide (q = p)) as [->|Hne].
  - rewrite Hd. by rewrite (proj2 (Z.ltb_lt now until)) by auto.
  - split; [|done]. assert (Hv : ∀ r', view r' p = view r p → droppedUntil r' !! p = Some until)
      by (unfold view; congruence).
    destruct (droppedUntil r !! q) as [w|]; [case_match; [done|]|];
      apply Hv; rewrite allow_token_other by done; [|done].
    unfold view. cbn. by rewrite lookup_delete_ne.
Qed.

(** [k] tokens left in a default bucket last refilled [now]. *)
Definition tokens_left (k : nat) (now : Time) : bucket :=
  {| bk_tokens := float64_of_int (Z.of_nat k); bk_capacity := float64_of_int 20;
     bk_refillRate := float64_of_int 5; bk_lastRefill := now |}.

Lemma take_tokens k now : (k ≤ 20)%nat →
  take_token (tokens_left k now) now =
  match k with O => (false, tokens_left 0 now) | S k => (true, tokens_left k now) end.
Proof.
  intros Hk. unfold take_token, refill. cbn [bk_lastRefill tokens_left].
  replace (time_sub now now) with 0 by (unfold time_sub, MinInt64, MaxInt64; lia).
  change (SFltb float64_0 (Seconds 0)) with false. cbv iota.
  do 21 (destruct k as [|k]; [reflexivity|]). lia.
Qed.

Lemma burst n k r p env now :
  (k ≤ 20)%nat → limited (env_Type env) → rl_cfg r = DefaultRateLimiterConfig →
  droppedUntil r !! p = None → bucket_of r p (env_Type env) now = tokens_left k now →
  (handleStream r p (replicate n (env, now))).1 = replicate (n `min` k) (env, now).
Proof.
  intros Hk Hl Hc. revert k r Hk Hc. induction n as [|n IH]; intros k r Hk Hc Hd Hb; [done|].
  cbn [replicate handleStream]. rewrite Allow_limited, Hd by done. unfold allow_token.
  rewrite Hb, take_tokens by done. destruct k as [|k]; cbn [Nat.min]; [reflexivity|].
  match goal with |- context [handleStream ?r' p _] => specialize (IH k r') end.
  destruct (handleStream _ p _) as [handled r2]. cbn in *. rewrite IH; [done|lia|done|done|].
  unfold bucket_of. cbn. rewrite lookup_insert_eq. cbn. by rewrite lookup_insert_eq.
Qed.

(** * Properties *)

Module NetSpec.
(** The per-peer brake. Only heartbeats and transaction offers are limited. A refusal
    drops the peer until a later instant (the configured cooldown after a bucket ran
    dry), and until then every limited message of that peer is refused, whatever is
    received meanwhile from anyone; no peer's traffic changes what is known of another.
    With the default configuration a new peer gets exactly 20 messages of a type through
    in a burst. *)
Theorem limiter_brakes r p t now :
  0 < rl_Cooldown (rl_cfg r) →
  (¬ limited t → Allow r p t now = (true, r)) ∧
  (∀ q, q ≠ p → view (Allow r p t now).2 q = view r q) ∧
  ((Allow r p t now).1 = false → ∃ until, now < until ∧
     (droppedUntil r !! p = Some until ∨ until = now + rl_Cooldown (rl_cfg r)) ∧
     ∀ msgs, Forall (λ m : string * string * Time, m.1.1 = p → m.2 < until) msgs →
       Forall2 (λ m ok, m.1.1 = p → limited m.1.2 → ok = false) msgs (verdicts (Allow r p t now).2 msgs)) ∧
  (∀ env n, limited (env_Type env) → rl_cfg r = DefaultRateLimiterConfig → view r p = (None, None) →
     (handleStream r p (replicate n (env, now))).1 = replicate (n `min` 20) (env, now)).
Proof.
  intros Hc. split_and!.
  - apply Allow_unlimited.
  - intros q Hq. destruct (decide (limited t)) as [Hl|]; [|by rewrite Allow_unlimited].
    rewrite Allow_limited by done. repeat case_match; [done| |by apply allow_token_other].
    rewrite allow_token_other by done. unfold view. cbn. by rewrite lookup_delete_ne.
  - destruct (decide (limited t)) as [Hl|]; [|by rewrite Allow_unlimited].
    intros Hf. assert (∃ until, now < until ∧ (droppedUntil r !! p = Some until ∨
        until = now + rl_Cooldown (rl_cfg r)) ∧ droppedUntil (Allow r p t now).2 !! p = Some until)
      as (until & Hu & Ho & Hd).
    { rewrite Allow_limited in Hf |- * by done. unfold time_add in *.
      destruct (droppedUntil r !! p) as [u|] eqn:E; [destruct (Z.ltb_spec now u)|].
      - exists u. auto.
      - apply allow_token_false in Hf. eexists. split; [|split; [by right|exact Hf]]. unfold time_add. cbn. lia.
      - apply allow_token_false in Hf. eexists. split; [|split; [by right|exact Hf]]. unfold time_add. lia. }
    exists until. split_and!; [done..|]. generalize dependent ((Allow r p t now).2). clear -Hu.
    intros r' Hd msgs HF. revert r' Hd. induction HF as [|m msgs Hm HF IH]; intros r' Hd; [constructor|].
    cbn. pose proof (Allow_dropped r' p m.2 until m.1.1 m.1.2 Hd Hm) as [Hd' Hv].
    destruct (Allow r' _ _ _) as [ok r2]. constructor; [exact Hv|]. by apply IH.
  - unfold view. intros env n Hl Hcfg [= Hb Hd]. apply burst; [done..|].
    unfold bucket_of. rewrite Hb, Hcfg. reflexivity.
Qed.

Lemma limiter_brakes_witness :
  let env := {| env_Type := MsgTxOffer; env_Payload := [] |} in
  let r := NewRateLimiter DefaultRateLimiterConfig in
  0 < rl_Cooldown (rl_cfg r) ∧
  (handleStream r "peer" (replicate 25 (env, Hour))).1 = replicate 20 (env, Hour).
Proof.
  intros env r. split; [reflexivity|].
  destruct (limiter_brakes r "peer" MsgTxOffer Hour) as (_ & _ & _ & H); [reflexivity|].
  apply (H env 25%nat); [by right|reflexivity|reflexivity].
Defined.
End NetSpec.
