(* ===== verification/Node.v ===== *)
(** pkg/validator: the state of a validator node (node.go, round.go) and its heartbeat
    side: the registry of validators heard from, the sets and counts derived from it, the
    sentinel stand-down and the heartbeat itself. The messages handed to pkg/net are
    recorded in the order they are sent. *)
From S2P Require Import Prelude Words Decimal Hashing Types Epoch Revolver Committee Mempool Outage.
From S2P Require Import Governance Bank Merkle Field ZkTree Circuit Groth NFT Silent Store Chain.
From S2P Require Import Pipeline Net.

(** * Configuration *)

Record Config := {
  BatchInterval : Duration; RoundTimeout : Duration; HeartbeatInterval : Duration;
  OnlineTimeout : Duration; Genesis : Z; MaxBatchSize : Z; MaxBatchBytes : Z }.

Definition DefaultMaxBatchSize : Z := 200.
Definition DefaultMaxBatchBytes : Z := 800 * 1024.
Definition maxBatchSize (c : Config) : Z :=
  if MaxBatchSize c <=? 0 then DefaultMaxBatchSize else MaxBatchSize c.
Definition maxBatchBytes (c : Config) : Z :=
  if MaxBatchBytes c <=? 0 then DefaultMaxBatchBytes else MaxBatchBytes c.

Definition DefaultConfig (genesis : Z) : Config :=
  {| BatchInterval := Second; RoundTimeout := 8 * Second;
     HeartbeatInterval := Revolver.HeartbeatInterval; OnlineTimeout := OfflineWindow;
     Genesis := genesis; MaxBatchSize := DefaultMaxBatchSize; MaxBatchBytes := DefaultMaxBatchBytes |}.

(** * State *)

Record onlineInfo := { oi_lastBeat : Time; oi_pubKey : bytes; oi_isSentinel : bool }.

(** A [state.Txn]: the rows when it began and the rows as its writes leave them. *)
Record Txn := { txn_base : Rows; txn_rows : Rows }.

Record round := {
  rd_height : Z; rd_committee : list NFTID; rd_batch : list ShieldedTx; rd_txn : Txn;
  rd_treeSnapshotLen : Z; rd_block : Block; rd_candidate : Hash; rd_votes : list Vote;
  rd_deadline : Time }.

Record megabatchAssembly := { ma_parts : list (option bytes); ma_seen : Z }.

(** A message handed to pkg/net: to every peer, or to one. *)
Inductive Output :=
| Broadcast (env : Envelope)
| Send (p : PeerID) (env : Envelope).

Section node.
Context `{SHA : Sha256, M3 : Mode3, ED : Ed25519, SG : Mode3Signer, BR : BigRat, FR : Fr, MM : MiMC,
  GR : !Groth16, CD : Codec}.

(** The node. [n_shared] holds what the pipeline shares (trees, root histories, treasury,
    rate monitor, oracle, parameters), with the committed rows of the store. *)
Record Node := {
  n_cfg : Config; n_mempool : Mempool.Mempool; n_shared : State;
  n_zkSys : option VerifyingKey; n_eligibilityZK : option VerifyingKey;
  n_mintZK : option VerifyingKey; n_stakeZK : option VerifyingKey; n_unstakeZK : option VerifyingKey;
  n_trustedPoHAttestors : list bytes; n_chn : Chain.Chain;
  n_sentinels : SentinelManager; n_outage : Outage.OutageController; n_isSentinel : bool;
  n_identity : NFTID; n_pk : bytes; n_sk : bytes;
  n_online : gmap NFTID onlineInfo; n_everSeen : gmap NFTID Time; n_rounds : gmap Z round;
  n_megabatchRecv : gmap (string * Z) megabatchAssembly;
  n_megabatchDone : gmap Z (list ShieldedTx); n_megabatchDoneOrder : list Z;
  n_sent : list Output }.

Definition send (o : Output) (n : Node) : Node := n <| n_sent ::= λ l, l ++ [o] |>.

(** Building an envelope and handing it over; a payload that does not marshal is only logged. *)
Definition broadcast (t : MessageType) (p : Payload) (n : Node) : Node :=
  match NewEnvelope t p with Ok env => send (Broadcast env) n | Err _ => n end.
Definition send_to (peer : PeerID) (t : MessageType) (p : Payload) (n : Node) : Node :=
  match NewEnvelope t p with Ok env => send (Send peer env) n | Err _ => n end.

(** ** The registry *)

Definition recordOnline (id : NFTID) (pk : bytes) (isSentinel : bool) (now : Time) (n : Node) : Node :=
  n <| n_online ::= <[id := {| oi_lastBeat := now; oi_pubKey := pk; oi_isSentinel := isSentinel |}]> |>
    <| n_everSeen ::= <[id := now]> |>.

Definition within_timeout (n : Node) (now : Time) (info : onlineInfo) : bool :=
  time_sub now (oi_lastBeat info) <=? OnlineTimeout (n_cfg n).

Definition onlineSet (n : Node) (now : Time) : list NFTID :=
  SortNFTIDs (filter (λ p, within_timeout n now p.2 = true) (map_to_list (n_online n))).*1.

Definition onlineCivilianCount (n : Node) (now : Time) : Z :=
  Z.of_nat (length (filter (λ p, negb (oi_isSentinel p.2) && within_timeout n now p.2 = true)
    (map_to_list (n_online n)))).

Definition outageBaselineWindow : Duration := 10 * Minute.

Definition outageBaseline (n : Node) (now : Time) : Z * Z :=
  let seen := filter (λ p : NFTID * Time, ¬ outageBaselineWindow < time_sub now p.2)
                (map_to_list (n_everSeen n)) in
  let missing := filter (λ p : NFTID * Time,
    match n_online n !! p.1 with None => true | Some info => negb (within_timeout n now info) end = true) seen in
  (Z.of_nat (length seen), Z.of_nat (length missing)).

Definition pubKeyLookup (n : Node) : Chain.PubKeyLookup := λ id, oi_pubKey <$> n_online n !! id.

(** ** Construction *)

Definition NewNode (cfg : Config) (store : Rows) (tree : MerkleTree) (chn : Chain.Chain)
    (zkSys : option VerifyingKey) (vlt : option Vault.Vault) (oracleQuorum : option Oracle.Quorum)
    (trustedPoHAttestors : list bytes) (eligibilityZK mintZK stakeZK unstakeZK : option VerifyingKey)
    (mempool : Mempool.Mempool) (pk sk : bytes) (isSentinel : bool) (now : Time) : Node :=
  let fresh_roots := Some (RootHistory.NewRootHistory (ZkTree.Root ZkTree.NewTree)) in
  let n := {|
    n_cfg := cfg; n_mempool := mempool;
    n_shared := {|
      st_Store := store; st_StateTree := tree;
      st_ZKTree := Some ZkTree.NewTree; st_ZKRoots := fresh_roots;
      st_Vault := vlt; st_Silent := Some Silent.NewRateMonitor; st_Oracle := oracleQuorum;
      st_Governance := Some Governance.Default;
      st_EligibilityTree := Some ZkTree.NewTree; st_EligibilityRoots := fresh_roots;
      st_StakeTree := Some ZkTree.NewTree; st_StakeRoots := fresh_roots; pendingNullifiers := ∅ |};
    n_zkSys := zkSys; n_eligibilityZK := eligibilityZK; n_mintZK := mintZK;
    n_stakeZK := stakeZK; n_unstakeZK := unstakeZK; n_trustedPoHAttestors := trustedPoHAttestors;
    n_chn := chn; n_sentinels := NewSentinelManager;
    n_outage := Outage.NewOutageController DefaultOutageThresholds; n_isSentinel := isSentinel;
    n_identity := SumHash [pk]; n_pk := pk; n_sk := sk;
    n_online := ∅; n_everSeen := ∅; n_rounds := ∅;
    n_megabatchRecv := ∅; n_megabatchDone := ∅; n_megabatchDoneOrder := []; n_sent := [] |} in
  if isSentinel then n else recordOnline (n_identity n) pk isSentinel now n.

Definition SeedEligibility (commitment : Hash) (n : Node) : result Z * Node :=
  match st_EligibilityTree (n_shared n) with
  | None => (Err "runtime error: invalid memory address or nil pointer dereference", n)
  | Some tree =>
      match ZkTree.Insert tree (FieldElementFromBytes32 commitment) with
      | Err e => (Err e, n)
      | Ok (idx, tree) =>
          (Ok idx, n <| n_shared ::= λ s, s <| st_EligibilityTree := Some tree |>
             <| st_EligibilityRoots ::= option_map (λ h, RootHistory.Record_root h (ZkTree.Root tree)) |> |>)
      end
  end.

Definition ReassembledMegabatch (n : Node) (height : Z) : option (list ShieldedTx) :=
  n_megabatchDone n !! height.

(** ** The heartbeat *)

Definition evaluateSentinels (now : Time) (n : Node) : Node :=
  n <| n_sentinels ::= λ s, (Evaluate s (onlineCivilianCount n now) (unix_milli now)).2 |>.

Definition sendHeartbeat (now : Time) (n : Node) : Node :=
  let n := evaluateSentinels now n in
  if n_isSentinel n && negb (sm_active (n_sentinels n)) then n
  else
    let n := recordOnline (n_identity n) (n_pk n) (n_isSentinel n) now n in
    broadcast MsgHeartbeat (PHeartbeat {| hb_NFT := n_identity n; hb_PubKey := n_pk n;
      hb_Timestamp := unix_milli now; hb_IsSentinel := n_isSentinel n |}) n.
End node.
