(* ===== verification/Consensus.v ===== *)
(** pkg/validator/consensus.go: proposal, vote, finalization, adoption of announced blocks,
    catch-up and the megabatch side channel. A handler takes the instant it runs at
    (every [time.Now] of one call returns it) and the node, and returns the node. *)
From S2P Require Import Prelude Words Decimal Hashing Types Epoch Revolver Committee Mempool Outage.
From S2P Require Import Governance Bank Merkle Field ZkTree Circuit Groth NFT Silent Store Chain.
From S2P Require Import Pipeline Tally Net Node.

Definition committeeSize (online : Z) : Z := i64 (ValidatorsPerStage online * 5).

Section consensus.
Context `{SHA : Sha256, M3 : Mode3, ED : Ed25519, SG : Mode3Signer, BR : BigRat, FR : Fr, MM : MiMC,
  GR : !Groth16, CD : Codec}.
Implicit Types (n : Node) (now : Time).

(** ** Small helpers *)

Definition txRootOf (batch : list ShieldedTx) : Hash := SumHash (tx_TxID <$> batch).
Definition daRootOf (batch : list ShieldedTx) : Hash :=
  SumHash (concat ((λ t, [tx_Proof t; tx_Memo t]) <$> batch)).
Definition containsID (ids : list NFTID) (id : NFTID) : bool := bool_decide (id ∈ ids).
Definition firstFailure (results : list Result) : option Result :=
  list_find (λ r, rs_Error r ≠ None) results ≫= λ p, Some p.2.

(** The committee of a height, as this node sees it. *)
Definition committee_at n (height : Z) now : list NFTID :=
  let online := onlineSet n now in
  AssignCommittee online height (committeeSize (Z.of_nat (length online))).

(** The dependencies of a pipeline for one block. *)
Definition deps_for n (epoch height : Z) now : Deps :=
  {| d_ZK := n_zkSys n; d_EligibilityZK := n_eligibilityZK n; d_MintZK := n_mintZK n;
     d_StakeZK := n_stakeZK n; d_UnstakeZK := n_unstakeZK n; d_OracleTolerance := Decimal.Zero;
     d_Epoch := epoch; d_Height := height; d_TrustedPoHAttestors := n_trustedPoHAttestors n;
     d_Now := now |}.

(** [BeginTxn] and a new pipeline on the shared state: nothing is reserved yet. *)
Definition begin_txn n : State := let s := n_shared n in s <| pendingNullifiers := ∅ |>.
(** The shared state after the pipeline ran on an open transaction: the rows written are
    the transaction's, everything else was changed in place. *)
Definition hold n (s : State) : State :=
  s <| st_Store := st_Store (n_shared n) |> <| pendingNullifiers := ∅ |>.
(** [Discard] and [TruncateTo]: nothing else is restored. *)
Definition truncate (treeSnapshot : Z) n : Node :=
  n <| n_shared ::= λ s, s <| st_StateTree ::= λ m, TruncateTo m treeSnapshot |> |>.
Definition discard n (s : State) (treeSnapshot : Z) : Node :=
  truncate treeSnapshot (n <| n_shared := hold n s |>).
(** [Commit]: the rows of the transaction become the store's. *)
Definition commit (t : Txn) n : Node := n <| n_shared ::= λ s, s <| st_Store := txn_rows t |> |>.

Definition entries_of (batch : list ShieldedTx) now : list Entry :=
  (λ t, {| e_Tx := t; e_SubmittedAt := now |}) <$> batch.

(** The replay of a batch on an open transaction: the results and, when none failed, the
    state after the epoch tally. *)
Definition replay n (batch : list ShieldedTx) (epoch height : Z) now : list Result * State :=
  let '(results, s) := ProcessBatch json_marshal (deps_for n epoch height now) (entries_of batch now) (begin_txn n) in
  match firstFailure results with
  | Some _ => (results, s)
  | None => (results, (TallyDueProposals epoch s).2)
  end.

Definition reinsert_pool (t : ShieldedTx) now n : Node :=
  match Mempool.Reinsert (n_mempool n) t now with
  | Ok m => n <| n_mempool := m |>
  | Err _ => n
  end.
Definition reinsert_all (ts : list ShieldedTx) now n : Node :=
  foldl (λ n t, reinsert_pool t now n) n ts.

Definition noteCommittedBlock (b : Block) n : Node :=
  if b_DualTrack b
  then n <| n_outage ::= λ o, (Outage.MaybeClear (Outage.RecordCleanDualTrackCycle o)).2 |>
  else n.

Definition pruneCommittedFromLocalQueues (batch : list ShieldedTx) n : Node :=
  let ids := tx_TxID <$> batch in
  n <| n_mempool ::= λ m, Mempool.Remove m ids |> <| n_outage ::= λ o, Outage.Remove o ids |>.

(** ** Finalization *)

Definition tryFinalizeLocked (height : Z) now n : Node :=
  match n_rounds n !! height with
  | None => n
  | Some r =>
      let '(_, quorum) := TallyVotes (rd_committee r) (rd_candidate r) (rd_votes r) in
      if negb quorum then n
      else
        let block := rd_block r in
        let block := block <| b_Votes := rd_votes r |> in
        match Chain.Append (n_chn n) block (rd_committee r) (pubKeyLookup n) with
        | Err _ =>
            let n := truncate (rd_treeSnapshotLen r) n in
            reinsert_all (rd_batch r) now (n <| n_rounds ::= delete height |>)
        | Ok chn =>
            let n := commit (rd_txn r) (n <| n_chn := chn |>) in
            let n := n <| n_rounds ::= delete height |> in
            broadcast MsgBlockAnnounce (PBlockAnnounce block) (noteCommittedBlock block n)
        end
  end.

(** ** Proposal handling *)

(** What [handleBlockProposal] checks before it takes [roundMu], in its order: the
    committee it computed, when it goes on. None of it is checked again under the lock. *)
Definition proposal_guards (prop : BlockProposalPayload) now n : option (list NFTID) :=
  if negb (bp_Height prop =? Chain.NextHeight (n_chn n)) then None
  else
    let committee := committee_at n (bp_Height prop) now in
    if negb (bool_decide (head committee = Some (bp_Proposer prop))) then None
    else if negb (containsID committee (n_identity n)) then None
    else if negb (bp_Epoch prop =? CurrentEpoch (Genesis (n_cfg n)) now) then None
    else Some committee.

(** The candidate block of a proposal on the replayed state. *)
Definition candidate_block (prop : BlockProposalPayload) (s : State) n : Block :=
  let b := Chain.NextBlock (n_chn n) (bp_Epoch prop) (bp_Batch prop) (txRootOf (bp_Batch prop))
             (Root (st_StateTree s)) (daRootOf (bp_Batch prop)) (bp_Proposer prop) (bp_Timestamp prop) in
  b <| b_DualTrack := bp_DualTrack prop |>.

(** The round opened by a proposal that passed, with the node's own vote. *)
Definition round_of (committee : list NFTID) (prop : BlockProposalPayload) (s : State) (sig : bytes) now n : round :=
  let block := candidate_block prop s n in
  {| rd_height := bp_Height prop; rd_committee := committee;
     rd_batch := bp_Batch prop;
     rd_txn := {| txn_base := st_Store (n_shared n); txn_rows := st_Store s |};
     rd_treeSnapshotLen := tree_len (st_StateTree (n_shared n)); rd_block := block;
     rd_candidate := HashBlock block;
     rd_votes := [{| v_Validator := n_identity n; v_StateRoot := HashBlock block; v_Sig := sig |}];
     rd_deadline := time_add now (RoundTimeout (n_cfg n)) |}.

(** The section under the lock, for a proposal that passed its guards with this committee. *)
Definition process_proposal (committee : list NFTID) (prop : BlockProposalPayload) now n : Node :=
  match n_rounds n !! bp_Height prop with
  | Some _ => n
  | None =>
    let treeSnapshot := tree_len (st_StateTree (n_shared n)) in
    let '(results, s) := replay n (bp_Batch prop) (bp_Epoch prop) (bp_Height prop) now in
    match firstFailure results with
    | Some _ =>
        reinsert_all (rs_Tx <$> filter (λ r, rs_Error r = None) results) now (discard n s treeSnapshot)
    | None =>
        let candidate := HashBlock (candidate_block prop s n) in
        match DilithiumSign (n_sk n) candidate with
        | Err _ => discard n s treeSnapshot
        | Ok sig =>
            let r := round_of committee prop s sig now n in
            let n := n <| n_shared := hold n s |> <| n_rounds ::= <[bp_Height prop := r]> |> in
            let n := pruneCommittedFromLocalQueues (bp_Batch prop) n in
            match NewEnvelope MsgStageVote (PStageVote {| sv_Height := bp_Height prop;
                    sv_Validator := n_identity n; sv_CandidateHash := candidate; sv_Sig := sig |}) with
            | Err _ => n
            | Ok env => tryFinalizeLocked (bp_Height prop) now (send (Broadcast env) n)
            end
        end
    end
  end.

(** The handler, when nothing else takes the lock between its guards and its own section. *)
Definition handleBlockProposal (prop : BlockProposalPayload) now n : Node :=
  match proposal_guards prop now n with
  | None => n
  | Some committee => process_proposal committee prop now n
  end.

Definition handleStageVote (v : StageVotePayload) now n : Node :=
  match n_rounds n !! sv_Height v with
  | None => n
  | Some r =>
      if negb (bool_decide (rd_candidate r = sv_CandidateHash v)) then n
      else
        match pubKeyLookup n (sv_Validator v) with
        | None => n
        | Some pk =>
            if bool_decide (DilithiumVerify pk (sv_CandidateHash v) (sv_Sig v) = Ok true) then
              let vote := {| v_Validator := sv_Validator v; v_StateRoot := sv_CandidateHash v;
                             v_Sig := sv_Sig v |} in
              let r := r <| rd_votes ::= λ vs, vs ++ [vote] |> in
              tryFinalizeLocked (sv_Height v) now (n <| n_rounds ::= <[sv_Height v := r]> |>)
            else n
        end
  end.

(** ** Adoption and catch-up *)

(** Whatever was tracked for the height is superseded. *)
Definition supersede (height : Z) n : Node :=
  match n_rounds n !! height with
  | None => n
  | Some r => truncate (rd_treeSnapshotLen r) (n <| n_rounds ::= delete height |>)
  end.

Definition tryAdoptBlockLocked (b : Block) now n : result unit * Node :=
  if negb (b_Height b =? Chain.NextHeight (n_chn n))
  then (Err "block is not the expected next height", n)
  else
    let committee := committee_at n (b_Height b) now in
    let n := supersede (b_Height b) n in
    let treeSnapshot := tree_len (st_StateTree (n_shared n)) in
    let '(results, s) := replay n (b_Batch b) (b_Epoch b) (b_Height b) now in
    match firstFailure results with
    | Some _ => (Err "tx failed replay", discard n s treeSnapshot)
    | None =>
        if negb (bool_decide (Root (st_StateTree s) = b_StateRoot b))
        then (Err "recomputed state root disagrees with announced", discard n s treeSnapshot)
        else
          match Chain.Append (n_chn n) b committee (pubKeyLookup n) with
          | Err _ => (Err "chain.Append", discard n s treeSnapshot)
          | Ok chn =>
              let txn := {| txn_base := st_Store (n_shared n); txn_rows := st_Store s |} in
              let n := commit txn (n <| n_chn := chn |> <| n_shared := hold n s |>) in
              (Ok tt, noteCommittedBlock b (pruneCommittedFromLocalQueues (b_Batch b) n))
          end
    end.

(** The end of a range of at most [MaxCatchUpBlocks] heights, as both sides compute it. *)
Definition capped_to (from to : Z) : Z :=
  if MaxCatchUpBlocks <? u64 (to - from + 1) then u64 (from + MaxCatchUpBlocks - 1) else to.

Definition requestCatchUp (sender : PeerID) (from to : Z) n : Node :=
  if to <? from then n
  else send_to sender MsgBlockRequest
         (PBlockRequest {| br_FromHeight := from; br_ToHeight := capped_to from to |}) n.

Definition handleBlockAnnounce (sender : PeerID) (b : Block) now n : Node :=
  if b_Height b <=? Chain.headHeight (n_chn n) then n
  else if Chain.NextHeight (n_chn n) <? b_Height b
  then requestCatchUp sender (Chain.NextHeight (n_chn n)) (b_Height b) n
  else (tryAdoptBlockLocked b now n).2.

(** The loop of [handleBlockRequest] from height [h]; every height it passes has a
    stored block, so one more step than there are blocks is enough. *)
Fixpoint collect_blocks (fuel : nat) (store : ChainRows) (h to : Z) : option (list Block) :=
  match fuel with
  | O => None
  | S fuel =>
      if h <=? to then
        match ChainRows.GetBlock h store with
        | None => Some []
        | Some b => rest ← collect_blocks fuel store (u64 (h + 1)) to; Some (b :: rest)
        end
      else Some []
  end.

Definition catch_up_blocks n (from to : Z) : list Block :=
  let store := Chain.ch_store (n_chn n) in
  default [] (collect_blocks (S (size (ChainRows.blocks store))) store from to).

Definition handleBlockRequest (sender : PeerID) (req : BlockRequestPayload) n : Node :=
  if br_ToHeight req <? br_FromHeight req then n
  else
    match catch_up_blocks n (br_FromHeight req) (capped_to (br_FromHeight req) (br_ToHeight req)) with
    | [] => n
    | blocks => send_to sender MsgBlockResponse (PBlockResponse blocks) n
    end.

(** The loop of [handleBlockResponse], over blocks sorted by height. *)
Fixpoint adopt_all (blocks : list Block) now n : Node :=
  match blocks with
  | [] => n
  | b :: blocks =>
      if b_Height b <=? Chain.headHeight (n_chn n) then adopt_all blocks now n
      else if negb (b_Height b =? Chain.NextHeight (n_chn n)) then n
      else
        match tryAdoptBlockLocked b now n with
        | (Err _, n) => n
        | (Ok _, n) => adopt_all blocks now n
        end
  end.

Definition height_le (a b : Block) : Prop := b_Height a ≤ b_Height b.
#[export] Instance height_le_dec a b : Decision (height_le a b).
Proof. unfold height_le. apply _. Defined.

(** [sort.Slice] leaves the order of equal heights open; this is the stable one. *)
Definition handleBlockResponse (blocks : list Block) now n : Node :=
  adopt_all (merge_sort height_le blocks) now n.
End consensus.
