(* ===== verification/Ledger.v ===== *)
(** What the validators agree on, as an abstract machine: a replicated ledger of rows and
    chain that grows by whole blocks, each one an accepted block whose batch replays
    without a failure. [Replica] shows a node to be one. *)
From S2P Require Import Prelude Words Decimal Hashing Types Committee Mempool Governance Bank Merkle.
From S2P Require Import Field ZkTree Circuit Groth NFT Silent Store Chain.
From S2P Require Import Pipeline Admission Batch Tally History Replay Net Node Consensus.
Import AdmissionSpec.

Section ledger.
Context `{SHA : Sha256, M3 : Mode3, ED : Ed25519, BR : BigRat, FR : Fr, MM : MiMC,
  GR : !Groth16, CD : Codec}.
Implicit Types (b : Block) (bs : list Block) (s : State) (r : Rows) (c : Chain.Chain).

(** A clean replay of a batch: on some shared state over the rows [r], no transaction
    fails, and the epoch tally leaves the rows [r'] and the state root [root]. *)
Inductive replays (batch : list ShieldedTx) (epoch height : Z) r r' : Hash → Prop :=
| replays_intro deps entries s results s1 :
    st_Store s = r → pendingNullifiers s = ∅ → e_Tx <$> entries = batch →
    d_Epoch deps = epoch → d_Height deps = height →
    ProcessBatch json_marshal deps entries s = (results, s1) → firstFailure results = None →
    r' = st_Store (TallyDueProposals epoch s1).2 →
    replays batch epoch height r r' (Root (st_StateTree (TallyDueProposals epoch s1).2)).

(** One block: its batch replays to the state root it announces, and the chain accepts
    it with some committee's endorsement. *)
Inductive extends : Rows * Chain.Chain → Block → Rows * Chain.Chain → Prop :=
| extends_intro r c b committee lookup r' c' :
    replays (b_Batch b) (b_Epoch b) (b_Height b) r r' (b_StateRoot b) →
    Chain.Append c b committee lookup = Ok c' →
    extends (r, c) b (r', c').

Inductive ledger_run : Rows * Chain.Chain → list Block → Rows * Chain.Chain → Prop :=
| ledger_nil l : ledger_run l [] l
| ledger_cons l b l' bs l'' : extends l b l' → ledger_run l' bs l'' → ledger_run l (b :: bs) l''.

Lemma ledger_app l bs l' bs' l'' :
  ledger_run l bs l' → ledger_run l' bs' l'' → ledger_run l (bs ++ bs') l''.
Proof. induction 1; intros; [done|]. cbn. econstructor; eauto. Qed.

Lemma ledger_one l b l' : extends l b l' → ledger_run l [b] l'.
Proof. intros. econstructor; [done|constructor]. Qed.

(** ** Spending *)

(** The nullifiers a block consumes. *)
Definition block_nullifiers b : list Hash := concat (txNullifiers <$> b_Batch b).

Lemma firstFailure_None results : firstFailure results = None ↔ Forall (λ x, rs_Error x = None) results.
Proof.
  unfold firstFailure. induction results as [|x results IH]; [done|]. cbn.
  case_decide as Hd; cbn.
  - split; [done|]. intros [? _]%Forall_cons. done.
  - rewrite Forall_cons, <-IH. destruct (list_find _ results) as [[]|]; cbn; naive_solver.
Qed.

Lemma clean_results json deps entries s results s' :
  ProcessBatch json deps entries s = (results, s') → Forall (λ x, rs_Error x = None) results →
  txNullifiers <$> committed results = txNullifiers <$> (e_Tx <$> entries).
Proof.
  revert s results. induction entries as [|e entries IH]; intros s results; cbn [ProcessBatch].
  { by intros [= <- _]. }
  pose proof (processOne_cases json deps (e_Tx e) (e_SubmittedAt e) s) as H1.
  destruct (processOne _ _ _ _ s) as [[t err] s1]. destruct (ProcessBatch _ _ entries s1) as [rs s2] eqn:E.
  intros [= <- <-] [Hr HF]%Forall_cons. cbn in Hr. subst err.
  destruct H1 as (? & ? & ? & ? & ? & A). apply accepted_spends in A as (_ & _ & _ & _ & Et).
  unfold committed in *. rewrite filter_cons_True by done. cbn [fmap list_fmap rs_Tx].
  rewrite Et. f_equal. by eapply IH.
Qed.

(** A replay spends the nullifiers of its batch, each once and for the first time. *)
Lemma replays_spends batch epoch height r r' root : replays batch epoch height r r' root →
  let ns := concat (txNullifiers <$> batch) in
  NoDup ns ∧ Forall (λ n, n ∉ Rows.nullifiers r ∧ n ∈ Rows.nullifiers r') ns ∧
  Rows.nullifiers r ⊆ Rows.nullifiers r'.
Proof.
  intros [deps entries s results s1 <- _ <- _ _ E Hf ->] ns.
  pose proof (ProcessBatch_spends json_marshal deps entries s) as H. rewrite E in H.
  destruct H as (_ & Hnd & HF & Hsub & _). apply firstFailure_None in Hf.
  rewrite (clean_results _ _ _ _ _ _ E Hf) in Hnd, HF.
  destruct (TallyDueProposals_keeps epoch s1) as (_ & -> & _). done.
Qed.

Lemma ledger_spends l bs l' : ledger_run l bs l' →
  let ns := concat (block_nullifiers <$> bs) in
  NoDup ns ∧ Forall (λ n, n ∉ Rows.nullifiers l.1 ∧ n ∈ Rows.nullifiers l'.1) ns ∧
  Rows.nullifiers l.1 ⊆ Rows.nullifiers l'.1.
Proof.
  induction 1 as [l|l b l1 bs l2 He _ IH].
  { cbn. split_and!; [constructor|constructor|done]. }
  destruct IH as (Hnd & HF & Hsub). destruct He as [r c b committee lookup r' c' Hr _].
  apply replays_spends in Hr as (Hnd1 & HF1 & Hsub1). cbn [fst fmap list_fmap concat] in *.
  fold (block_nullifiers b) in Hnd1, HF1. rewrite Forall_forall in HF, HF1. split_and!.
  - apply NoDup_app. split_and!; [done| |done]. intros n Hn Hin. destruct (HF1 n Hn), (HF n Hin). done.
  - apply Forall_app. split; apply Forall_forall; intros n Hn.
    + destruct (HF1 n Hn). set_solver.
    + destruct (HF n Hn). set_solver.
  - set_solver.
Qed.

(** ** Storage *)

Lemma extends_chain l b l' : extends l b l' →
  b_Height b = Chain.NextHeight l.2 ∧ Chain.headHeight l'.2 = b_Height b ∧
  (∀ h, ChainRows.GetBlock h (Chain.ch_store l'.2) =
    if decide (h = b_Height b) then Some b else ChainRows.GetBlock h (Chain.ch_store l.2)).
Proof.
  intros [r c b' committee lookup r' c' _ (Eh & _ & _ & ->)%Append_Ok]. cbn [snd Chain.headHeight Chain.ch_store].
  split_and!; [done..|]. intros h. unfold ChainRows.GetBlock.
  destruct (index_batch_frame (b_Height b') (b_Batch b')
    (ChainRows.SetHead (b_Height b') (ChainRows.PutBlock b' (Chain.ch_store c)))) as [-> _].
  cbn. rewrite lookup_insert. repeat case_decide; congruence.
Qed.

Lemma ledger_chain l bs l' : ledger_run l bs l' →
  0 ≤ Chain.headHeight l.2 → Chain.headHeight l.2 + Z.of_nat (length bs) < 2 ^ 64 →
  Chain.headHeight l'.2 = Chain.headHeight l.2 + Z.of_nat (length bs) ∧
  (∀ h, h ≤ Chain.headHeight l.2 →
     ChainRows.GetBlock h (Chain.ch_store l'.2) = ChainRows.GetBlock h (Chain.ch_store l.2)) ∧
  (∀ i b, bs !! i = Some b →
     ChainRows.GetBlock (Chain.headHeight l.2 + 1 + Z.of_nat i) (Chain.ch_store l'.2) = Some b).
Proof.
  induction 1 as [l|l b l1 bs l2 He _ IH]; intros H0 Hlt.
  { cbn. split_and!; [lia|done|]. intros i b. by rewrite lookup_nil. }
  apply extends_chain in He as (Eh & Eh1 & Hget). cbn [length] in *.
  unfold Chain.NextHeight in Eh. rewrite u64_id in Eh by lia.
  destruct IH as (I1 & I2 & I3); [lia..|]. split_and!.
  - lia.
  - intros h Hh. rewrite I2, Hget, decide_False by lia. done.
  - intros [|i] b' Hi; cbn in Hi.
    + injection Hi as <-. rewrite I2 by lia. rewrite Hget, decide_True by lia. done.
    + apply I3 in Hi. rewrite <-Hi. f_equal. lia.
Qed.
End ledger.
