(* ===== verification/Propose.v ===== *)
(** pkg/validator/consensus.go: batch building, the proposer's turn, round time-outs, the
    megabatch side channel, the dispatch of messages and the two loops, as events. *)
From S2P Require Import Prelude Words Decimal Hashing Types Epoch Revolver Committee Mempool Outage.
From S2P Require Import Governance Bank Merkle Field ZkTree Circuit Groth NFT Silent Store Chain.
From S2P Require Import Pipeline Tally Net Node Consensus.

Section propose.
Context `{SHA : Sha256, M3 : Mode3, ED : Ed25519, SG : Mode3Signer, BR : BigRat, FR : Fr, MM : MiMC,
  GR : !Groth16, CD : Codec}.
Implicit Types (n : Node) (now : Time).

(** ** Batch building *)

(** Whether the commit a reveal opens is in the store. *)
Definition commit_stored (store : Rows) (pid : string) (voter : Hash) : bool :=
  match Rows.GetProposal pid store with
  | Some record => bool_decide (is_Some (pr_Commitments record !! voter))
  | None => false
  end.

(** The loop of [filterReadyReveals]; [seen] holds the votes of this batch so far. *)
Fixpoint filter_reveals (store : Rows) (seen : gset (string * Hash)) (txs : list ShieldedTx)
    : list ShieldedTx * list ShieldedTx :=
  match txs with
  | [] => ([], [])
  | t :: txs =>
      match tx_Kind t with
      | TxVote =>
          let seen := match tx_Vote t, tx_VoteEligibility t with
                      | Some pub, Some el => {[(vpi_ProposalID pub, vep_Nullifier el)]} ∪ seen
                      | _, _ => seen
                      end in
          let '(ready, deferred) := filter_reveals store seen txs in (t :: ready, deferred)
      | TxVoteReveal =>
          let ok := match tx_VoteReveal t, tx_VoteEligibility t with
                    | Some pub, Some el =>
                        bool_decide ((vrpi_ProposalID pub, vep_Nullifier el) ∈ seen) ||
                        commit_stored store (vrpi_ProposalID pub) (vep_Nullifier el)
                    | _, _ => true
                    end in
          let '(ready, deferred) := filter_reveals store seen txs in
          if ok then (t :: ready, deferred) else (ready, t :: deferred)
      | _ => let '(ready, deferred) := filter_reveals store seen txs in (t :: ready, deferred)
      end
  end.

Definition filterReadyReveals n (txs : list ShieldedTx) : list ShieldedTx * list ShieldedTx :=
  filter_reveals (st_Store (n_shared n)) ∅ txs.

(** encoding/json's array: the elements between brackets, separated by commas; the nil
    slice is null. *)
Fixpoint join_commas (parts : list bytes) : bytes :=
  match parts with
  | [] => []
  | [p] => p
  | p :: parts => p ++ 44 :: join_commas parts
  end.
Definition json_array (batch : list ShieldedTx) : result bytes :=
  match batch with
  | [] => Ok [110; 117; 108; 108]
  | _ => parts ← mapM json_marshal batch; Ok (91 :: join_commas parts ++ [93])
  end.
Definition marshaledSize (batch : list ShieldedTx) : result Z :=
  b ← json_array batch; Ok (Z.of_nat (length b)).

Fixpoint split_loop (txs : list ShieldedTx) (budget total : Z)
    : result (list ShieldedTx * list ShieldedTx) :=
  match txs with
  | [] => Ok ([], [])
  | t :: rest =>
      match marshaledSize [t] with
      | Err e => Err e
      | Ok size =>
          if budget <? total + size then Ok ([], txs)
          else
            match split_loop rest budget (total + size) with
            | Err e => Err e
            | Ok (fit, overflow) => Ok (t :: fit, overflow)
            end
      end
  end.
Definition splitByByteBudget (txs : list ShieldedTx) (budget : Z) := split_loop txs budget 0.

(** ** The megabatch side channel *)

(** The chunks of an announcement. *)
Fixpoint chunks (k : nat) (data : bytes) : list bytes :=
  match k with
  | O => []
  | S k => take (Z.to_nat MaxMegabatchPartBytes) data :: chunks k (drop (Z.to_nat MaxMegabatchPartBytes) data)
  end.
Definition part_count (data : bytes) : Z :=
  let c := (len data + MaxMegabatchPartBytes - 1) / MaxMegabatchPartBytes in
  if c =? 0 then 1 else c.

(** The parts of an announcement of [data] for a height. *)
Definition megabatch_parts (height : Z) (data : bytes) : list MegabatchPartPayload :=
  imap (λ i p, {| mg_Height := height; mg_PartIndex := Z.of_nat i; mg_PartCount := part_count data;
                  mg_Data := Some p |}) (chunks (Z.to_nat (part_count data)) data).

(** The loop over the parts: the first that does not marshal ends it. *)
Fixpoint send_parts (parts : list MegabatchPartPayload) n : Node :=
  match parts with
  | [] => n
  | p :: parts =>
      match NewEnvelope MsgMegabatchPart (PMegabatchPart p) with
      | Err _ => n
      | Ok env => send_parts parts (send (Broadcast env) n)
      end
  end.

Definition broadcastMegabatchPart (height : Z) (batch : list ShieldedTx) n : Node :=
  match json_array batch with
  | Err _ => n
  | Ok data => send_parts (megabatch_parts height data) n
  end.

Definition megabatchDoneCap : nat := 16.

(** The eviction loop, the oldest height first. *)
Fixpoint evict (fuel : nat) (order : list Z) (done : gmap Z (list ShieldedTx))
    : list Z * gmap Z (list ShieldedTx) :=
  match fuel, order with
  | S fuel, oldest :: rest =>
      if (megabatchDoneCap <? length order)%nat then evict fuel rest (delete oldest done)
      else (order, done)
  | _, _ => (order, done)
  end.

Definition recordCompletedMegabatch (height : Z) (batch : list ShieldedTx) n : Node :=
  let order := if bool_decide (is_Some (n_megabatchDone n !! height)) then n_megabatchDoneOrder n
               else n_megabatchDoneOrder n ++ [height] in
  let '(order, done) := evict (length order) order (<[height := batch]> (n_megabatchDone n)) in
  n <| n_megabatchDoneOrder := order |> <| n_megabatchDone := done |>.

Definition part_ok (part : MegabatchPartPayload) : bool :=
  negb ((mg_PartCount part <=? 0) || (MaxMegabatchParts <? mg_PartCount part) ||
        (mg_PartIndex part <? 0) || (mg_PartCount part <=? mg_PartIndex part)) &&
  negb (MaxMegabatchPartBytes <? len (default [] (mg_Data part))).

(** The assembly a part joins: a new one when none is open or the part count changed. *)
Definition assembly_for (sender : PeerID) (part : MegabatchPartPayload) n : megabatchAssembly :=
  let fresh := {| ma_parts := replicate (Z.to_nat (mg_PartCount part)) None; ma_seen := 0 |} in
  match n_megabatchRecv n !! (sender, mg_Height part) with
  | None => fresh
  | Some asm => if mg_PartCount part =? Z.of_nat (length (ma_parts asm)) then asm else fresh
  end.

Definition add_part (asm : megabatchAssembly) (part : MegabatchPartPayload) : megabatchAssembly :=
  let i := Z.to_nat (mg_PartIndex part) in
  {| ma_parts := <[i := mg_Data part]> (ma_parts asm);
     ma_seen := match ma_parts asm !! i with
                | Some None => ma_seen asm + 1 | _ => ma_seen asm end |}.

Definition handleMegabatchPart (sender : PeerID) (part : MegabatchPartPayload) n : Node :=
  if negb (part_ok part) then n
  else
    let key := (sender, mg_Height part) in
    let asm := add_part (assembly_for sender part n) part in
    if ma_seen asm =? mg_PartCount part then
      let n := n <| n_megabatchRecv ::= delete key |> in
      match unmarshal_batch (concat (default [] <$> ma_parts asm)) with
      | Err _ => n
      | Ok batch => recordCompletedMegabatch (mg_Height part) batch n
      end
    else n <| n_megabatchRecv ::= <[key := asm]> |>.

(** ** The proposer's turn *)

Definition outage_reinsert (ts : list ShieldedTx) n : Node :=
  n <| n_outage ::= λ o, foldl Outage.Reinsert o ts |>.

Definition buildProposalBatch (dualTrack : bool) now n : list ShieldedTx * Node :=
  let '(entries, m) := Mempool.DrainBatchBytes json_marshal (n_mempool n) (maxBatchSize (n_cfg n))
                         (maxBatchBytes (n_cfg n)) now in
  let n := n <| n_mempool := m |> in
  let '(batch, deferred) := filterReadyReveals n (e_Tx <$> entries) in
  let n := reinsert_all deferred now n in
  if negb dualTrack then (batch, n)
  else
    match marshaledSize batch with
    | Err _ => (batch, n)
    | Ok liveBytes =>
        let remaining := maxBatchBytes (n_cfg n) - liveBytes in
        if remaining <=? 0 then (batch, n)
        else
          let '(megaDrained, o) := Outage.BuildMegabatch (n_outage n) (maxBatchSize (n_cfg n)) in
          let n := n <| n_outage := o |> in
          let n := if bool_decide (megaDrained = []) then n
                   else broadcastMegabatchPart (Chain.NextHeight (n_chn n)) megaDrained n in
          let '(mega, megaDeferred) := filterReadyReveals n megaDrained in
          let n := outage_reinsert megaDeferred n in
          match splitByByteBudget mega remaining with
          | Err _ => (batch, n)
          | Ok (fit, overflow) => (batch ++ fit, outage_reinsert overflow n)
          end
    end.

Definition maybePropose now n : Node :=
  let nextHeight := Chain.NextHeight (n_chn n) in
  if bool_decide (is_Some (n_rounds n !! nextHeight)) then n
  else if negb (bool_decide (head (committee_at n nextHeight now) = Some (n_identity n))) then n
  else
    let dualTrack := Outage.Active (n_outage n) in
    let '(batch, n) := buildProposalBatch dualTrack now n in
    if bool_decide (batch = []) then n
    else
      let prop := {| bp_Height := nextHeight; bp_Epoch := CurrentEpoch (Genesis (n_cfg n)) now;
                     bp_Proposer := n_identity n; bp_Batch := batch; bp_Timestamp := unix_milli now;
                     bp_DualTrack := dualTrack |} in
      match NewEnvelope MsgBlockProposal (PBlockProposal prop) with
      | Err _ => n
      | Ok env => handleBlockProposal prop now (send (Broadcast env) n)
      end.

(** ** The round loop *)

Definition evaluateOutage now n : Node :=
  if Outage.Active (n_outage n) then n
  else
    let '(lastKnown, missing) := outageBaseline n now in
    if Outage.DetectOutage (n_outage n) lastKnown missing
    then n <| n_outage ::= Outage.DeclareOutage |> else n.

(** The expired rounds are rolled back one by one, then their transactions retried and
    their heights asked of every peer. *)
Definition sweepTimeouts (peers : list string) now n : Node :=
  let expired := filter (λ r, rd_deadline r < now) (map_to_list (n_rounds n)).*2 in
  let n := n <| n_rounds ::= filter (λ p, ¬ rd_deadline p.2 < now) |> in
  let n := foldl (λ n r, truncate (rd_treeSnapshotLen r) n) n expired in
  foldl (λ n r,
    foldl (λ n p, requestCatchUp p (rd_height r) (rd_height r) n) (reinsert_all (rd_batch r) now n) peers)
    n expired.

Definition round_tick (peers : list string) now n : Node :=
  maybePropose now (sweepTimeouts peers now (evaluateOutage now n)).

(** ** Messages *)

Definition handle_offer (env : Envelope) (t : ShieldedTx) now n : Node :=
  if Outage.Active (n_outage n) then
    let '(err, o) := Outage.Enqueue (n_outage n) t now in
    let n := n <| n_outage := o |> in
    match err with None => send (Broadcast env) n | Some _ => n end
  else
    match Mempool.Submit (n_mempool n) t now with
    | Ok m => send (Broadcast env) (n <| n_mempool := m |>)
    | Err _ => n
    end.

(** A payload that does not decode is only logged. *)
Definition decoded {A} (r : result A) (k : A → Node → Node) n : Node :=
  match r with Ok a => k a n | Err _ => n end.

Definition handleMessage (p : PeerID) (env : Envelope) now n : Node :=
  let t := env_Type env in
  let b := env_Payload env in
  if bool_decide (t = MsgHeartbeat) then
    decoded (decode_heartbeat b) (λ hb n,
      if bool_decide (hb_PubKey hb = []) then n
      else recordOnline (hb_NFT hb) (hb_PubKey hb) (hb_IsSentinel hb) now n) n
  else if bool_decide (t = MsgTxOffer) then
    decoded (decode_tx_offer b) (λ t n, handle_offer env t now n) n
  else if bool_decide (t = MsgBlockProposal) then
    decoded (decode_proposal b) (λ prop n, handleBlockProposal prop now n) n
  else if bool_decide (t = MsgStageVote) then
    decoded (decode_vote b) (λ v n, handleStageVote v now n) n
  else if bool_decide (t = MsgBlockAnnounce) then
    decoded (decode_announce b) (λ blk n, handleBlockAnnounce p blk now n) n
  else if bool_decide (t = MsgBlockRequest) then
    decoded (decode_request b) (λ req n, handleBlockRequest p req n) n
  else if bool_decide (t = MsgBlockResponse) then
    decoded (decode_response b) (λ blocks n, handleBlockResponse blocks now n) n
  else if bool_decide (t = MsgMegabatchPart) then
    decoded (decode_part b) (λ part n, handleMegabatchPart p part n) n
  else n.

(** ** A node's life *)

(** A received envelope, a tick of the round loop with the peers connected then, a tick
    of the heartbeat loop, and the two entry points of other packages. *)
Inductive node_event :=
| NMessage (p : PeerID) (env : Envelope) (now : Time)
| NTick (peers : list string) (now : Time)
| NHeartbeat (now : Time)
| NSubmit (t : ShieldedTx) (now : Time)
| NSeed (commitment : Hash).

Definition apply_node_event n (e : node_event) : Node :=
  match e with
  | NMessage p env now => handleMessage p env now n
  | NTick peers now => round_tick peers now n
  | NHeartbeat now => sendHeartbeat now n
  | NSubmit t now => match Mempool.Submit (n_mempool n) t now with
                     | Ok m => n <| n_mempool := m |> | Err _ => n end
  | NSeed c => (SeedEligibility c n).2
  end.
Definition run_node n (es : list node_event) : Node := foldl apply_node_event n es.
End propose.
