(* ===== verification/NodeSample.v ===== *)
(** A concrete committee of three validators over the primitives of [Sample]: the
    witnesses and findings about nodes are evaluated on it. *)
From S2P Require Import Prelude Words Decimal Hashing Types Epoch Revolver Committee Mempool Outage.
From S2P Require Import Governance Bank Merkle Field ZkTree Circuit Groth NFT Silent Store Chain.
From S2P Require Import Pipeline Sample Tally Net Node Consensus Propose.

Module NodeModel.
Export FrModel FrontendModel GrothModel PipelineModel.
#[export] Instance signer : Mode3Signer :=
  {| mode3_PrivateKeySize := 1; mode3_SignTo sk msg := [len msg mod 256] |}.

Definition clock : Time := Minute.
Definition id_of (k : Z) : NFTID := SumHash [[k]].
Definition chn0 : Chain.Chain :=
  {| Chain.ch_store := ChainRows.SetHead 0 (ChainRows.PutBlock (Chain.genesis 0) ChainRows.empty);
     Chain.headHeight := 0; Chain.headHash := HashBlock (Chain.genesis 0) |}.

(** The node of key [[k]], and the same once it has heard from validators 1, 2 and 3. *)
Definition boot (k : Z) : Node :=
  NewNode (DefaultConfig 0) Rows.empty NewMerkleTree chn0 (Some AnyKey) (Some (Vault.New Vault.DefaultSplits))
    None [[7]] (Some AnyKey) None None None Mempool.NewMempool [k] [k] false clock.
Definition joined (k : Z) : Node :=
  foldl (λ n i, recordOnline (id_of i) [i] false clock n) (boot k) [1; 2; 3].

(** A transfer anchored to the empty tree's root, and one that mints an NFT. *)
Definition pay : ShieldedTx :=
  let t := signed_tx TxTransfer in
  t <| tx_Transfer := Some {| tpi_MerkleRoot := Bytes (ZkTree.Root ZkTree.NewTree);
         tpi_Nullifiers := [replicate 32 5; replicate 32 6];
         tpi_OutCommits := [replicate 32 3; replicate 32 4]; tpi_FeeAmount := 1 |} |>.

(** The proposals of validator 2, whose turn height 1 is. *)
Definition proposal (batch : list ShieldedTx) (stamp : Z) : BlockProposalPayload :=
  {| bp_Height := 1; bp_Epoch := CurrentEpoch 0 clock; bp_Proposer := id_of 2; bp_Batch := batch;
     bp_Timestamp := stamp; bp_DualTrack := false |}.
Definition vote_for (k : Z) (candidate : Hash) : StageVotePayload :=
  {| sv_Height := 1; sv_Validator := id_of k; sv_CandidateHash := candidate;
     sv_Sig := [len candidate mod 256] |}.
Definition beat (k : Z) : HeartbeatPayload :=
  {| hb_NFT := id_of k; hb_PubKey := [k]; hb_Timestamp := unix_milli clock; hb_IsSentinel := false |}.

(** A codec whose payloads are table indices: heartbeats by key, proposals and votes by
    position; what is marshalled is not looked at. *)
Definition table {A} (l : list A) (b : bytes) : result A :=
  match b with
  | [i] => match l !! Z.to_nat i with Some a => Ok a | None => Err "json" end
  | _ => Err "json"
  end.
Definition codec_of (props : list BlockProposalPayload) (votes : list StageVotePayload)
    (blocks : list Block) : Codec :=
  {| json_marshal _ := Ok []; marshal_payload _ := Ok [];
     decode_heartbeat := table (beat <$> [0; 1; 2; 3]); decode_tx_offer _ := Err "json";
     decode_proposal := table props; decode_vote := table votes; decode_announce := table blocks;
     decode_part _ := Err "json"; decode_request _ := Err "json"; decode_response _ := Err "json";
     unmarshal_batch _ := Ok [] |}.
Definition message (t : string) (i : Z) (now : Time) : node_event :=
  NMessage "peer" {| env_Type := t; env_Payload := [i] |} now.

Definition candidate_of (n : Node) : Hash :=
  match n_rounds n !! 1 with Some r => rd_candidate r | None => [] end.
Definition zk_leaves (n : Node) : nat := leaves_of (n_shared n).
#[export] Instance codec : Codec := codec_of [] [] [].
Definition propose (batch : list ShieldedTx) (stamp : Z) (now : Time) (n : Node) : Node :=
  handleBlockProposal (proposal batch stamp) now n.
End NodeModel.
