(* ===== verification/Recovery.v ===== *)
(** Batch building and recovery: what a proposal takes from the queues and what goes back,
    catch-up service, and the reassembly of megabatch announcements. *)
From S2P Require Import Prelude Words Decimal Hashing Types Epoch Revolver Committee Mempool Outage.
From S2P Require Import Governance Bank Merkle Field ZkTree Circuit Groth NFT Silent Store Chain.
From S2P Require Import Pipeline Sample Net Node Consensus Propose NodeSample.

Section queues.
Context `{SHA : Sha256, M3 : Mode3, ED : Ed25519, SG : Mode3Signer, BR : BigRat, FR : Fr, MM : MiMC,
  GR : !Groth16, CD : Codec}.
Implicit Types (n : Node) (now : Time) (t : ShieldedTx) (txs : list ShieldedTx).

Lemma Forall_sublist_of (P : ShieldedTx → Prop) txs txs' :
  txs `sublist_of` txs' → Forall P txs' → Forall P txs.
Proof. induction 1; [done|..]; rewrite ?Forall_cons; naive_solver. Qed.

(** ** Ready reveals *)

(** The ballot a vote casts, and the one a reveal opens. *)
Definition casts t (pid : string) (voter : Hash) : Prop :=
  tx_Kind t = TxVote ∧ ∃ pub el, tx_Vote t = Some pub ∧ tx_VoteEligibility t = Some el ∧
    vpi_ProposalID pub = pid ∧ vep_Nullifier el = voter.
Definition opens t (pid : string) (voter : Hash) : Prop :=
  tx_Kind t = TxVoteReveal ∧ ∃ pub el, tx_VoteReveal t = Some pub ∧ tx_VoteEligibility t = Some el ∧
    vrpi_ProposalID pub = pid ∧ vep_Nullifier el = voter.

(** The batch so far: [earlier] has been taken, [seen] are the ballots it casts. *)
Lemma filter_reveals_spec store seen txs earlier :
  (∀ pid voter, (pid, voter) ∈ seen → ∃ t, t ∈ earlier ∧ casts t pid voter) →
  let '(ready, deferred) := filter_reveals store seen txs in
  ready ++ deferred ≡ₚ txs ∧ ready `sublist_of` txs ∧ deferred `sublist_of` txs ∧
  Forall (λ t, ∃ pid voter, opens t pid voter ∧ commit_stored store pid voter = false) deferred ∧
  (∀ before t after pid voter, ready = before ++ t :: after → opens t pid voter →
     commit_stored store pid voter = true ∨ ∃ u, u ∈ earlier ++ before ∧ casts u pid voter).
Proof.
  revert seen earlier. induction txs as [|t txs IH]; intros seen earlier Hseen.
  { cbn. split_and!; [constructor..|]. intros [|? ?]; intros; discriminate. }
  assert (Hkeep : ∀ seen', (∀ pid voter, (pid, voter) ∈ seen' → ∃ u, u ∈ earlier ++ [t] ∧ casts u pid voter) →
    (∀ pid voter, opens t pid voter → commit_stored store pid voter = true ∨ ∃ u, u ∈ earlier ∧ casts u pid voter) →
    let '(ready, deferred) := filter_reveals store seen' txs in
    (t :: ready) ++ deferred ≡ₚ t :: txs ∧ t :: ready `sublist_of` t :: txs ∧ deferred `sublist_of` t :: txs ∧
    Forall (λ t, ∃ pid voter, opens t pid voter ∧ commit_stored store pid voter = false) deferred ∧
    (∀ before u after pid voter, t :: ready = before ++ u :: after → opens u pid voter →
       commit_stored store pid voter = true ∨ ∃ w, w ∈ earlier ++ before ∧ casts w pid voter)).
  { intros seen' Hs' Ho. specialize (IH seen' (earlier ++ [t]) Hs').
    destruct (filter_reveals store seen' txs) as [ready deferred]. destruct IH as (I1 & I2 & I3 & I4 & I5).
    split_and!; [by apply perm_skip|by apply sublist_skip|by apply sublist_cons|done|].
    intros [|b before] u after pid voter E Hu; injection E as <- E.
    - rewrite app_nil_r. auto.
    - specialize (I5 before u after pid voter E Hu). by rewrite <-app_assoc in I5. }
  assert (Hmono : ∀ pid voter, (pid, voter) ∈ seen → ∃ u, u ∈ earlier ++ [t] ∧ casts u pid voter).
  { intros pid voter (u & Hu & Hc)%Hseen. exists u. split; [|done]. apply elem_of_app. by left. }
  cbn [filter_reveals]. destruct (tx_Kind t) eqn:Ek.
  all: try (specialize (Hkeep seen Hmono); destruct (filter_reveals store seen txs) as [ready deferred];
            apply Hkeep; intros pid voter [Ho _]; congruence).
  - match goal with |- context [filter_reveals store ?s txs] => specialize (Hkeep s); set (seen' := s) in * end.
    destruct (filter_reveals store seen' txs) as [ready deferred]. apply Hkeep.
    + intros pid voter Hin. unfold seen' in Hin. destruct (tx_Vote t) as [pub|] eqn:Ev; [|auto].
      destruct (tx_VoteEligibility t) as [el|] eqn:Ee; [|auto]. apply elem_of_union in Hin as [Hin|Hin]; [|auto].
      apply elem_of_singleton in Hin. injection Hin as -> ->. exists t. split; [set_solver|].
      split; [done|]. by exists pub, el.
    + intros pid voter [Ho _]. congruence.
  - match goal with |- context [if ?c then _ else _] => destruct c eqn:Eok end.
    + specialize (Hkeep seen Hmono). destruct (filter_reveals store seen txs) as [ready deferred].
      apply Hkeep. intros pid voter (_ & pub & el & Ev & Ee & <- & <-). rewrite Ev, Ee in Eok.
      apply orb_true_iff in Eok as [Hin|Hst]; [right|by left]. apply bool_decide_eq_true in Hin. auto.
    + specialize (IH seen earlier Hseen). destruct (filter_reveals store seen txs) as [ready deferred].
      destruct IH as (I1 & I2 & I3 & I4 & I5).
      split_and!; [by rewrite <-Permutation_middle, I1|by apply sublist_cons|by apply sublist_skip| |done].
      constructor; [|done]. destruct (tx_VoteReveal t) as [pub|] eqn:Ev; [|done].
      destruct (tx_VoteEligibility t) as [el|] eqn:Ee; [|done]. apply orb_false_iff in Eok as [_ Hst].
      exists (vrpi_ProposalID pub), (vep_Nullifier el). split; [|done]. split; [done|]. by exists pub, el.
Qed.

(** ** The byte budget *)

(** The encoded length of a batch that marshals. *)
Definition enc_len t : Z := match json_marshal t with Ok b => len b | Err _ => 0 end.
Definition encodes t : Prop := is_ok (json_marshal t) = true.
Definition total_len txs : Z := foldr (λ t acc, enc_len t + acc) 0 txs.

Lemma enc_len_nonneg t : 0 ≤ enc_len t.
Proof. unfold enc_len, len. case_match; lia. Qed.

Lemma total_len_app txs txs' : total_len (txs ++ txs') = total_len txs + total_len txs'.
Proof. unfold total_len. induction txs as [|t txs IH]; cbn; [done|]. rewrite IH. lia. Qed.

Lemma join_commas_length parts :
  len (join_commas parts) = foldr (λ p acc, len p + acc) 0 parts + Z.max 0 (Z.of_nat (length parts) - 1).
Proof.
  unfold len. induction parts as [|p [|q parts] IH]; [done|cbn; rewrite Z.add_0_r; lia|].
  change (join_commas (p :: q :: parts)) with (p ++ 44 :: join_commas (q :: parts)).
  rewrite length_app. cbn [length foldr] in *. lia.
Qed.

(** A batch is encoded in its transactions' bytes, its commas and its brackets. *)
Lemma marshaledSize_spec txs size : txs ≠ [] → marshaledSize txs = Ok size →
  size = 2 + total_len txs + (Z.of_nat (length txs) - 1).
Proof.
  unfold marshaledSize, json_array. intros Hne H. destruct txs as [|t0 txs0]; [done|].
  set (txs := t0 :: txs0) in *. ok_inv.
  match goal with H : mapM json_marshal txs = Ok ?p |- _ => rename H into Hp; rename p into parts end.
  assert (Hl : length parts = length txs ∧ foldr (λ p acc, len p + acc) 0 parts = total_len txs).
  { clearbody txs. clear -Hp. revert parts Hp. induction txs as [|t txs IH]; intros parts Hp; cbn in Hp; ok_inv.
    { injection Hp as <-. done. }
    match goal with H : mapM _ _ = Ok _ |- _ => apply IH in H as [E1 E2] end.
    unfold mret, result_ret in *. ok_inv. cbn. rewrite E1, E2. split; [done|]. unfold enc_len. match goal with H : json_marshal t = Ok _ |- _ => by rewrite H end. }
  destruct Hl as [Hl1 Hl2]. pose proof (join_commas_length parts) as Hj. unfold len in Hj at 1.
  rewrite Hl1, Hl2 in Hj. cbn [length]. rewrite length_app. cbn [length].
  assert (0 < Z.of_nat (length txs)) by (unfold txs; cbn; lia). lia.
Qed.

Lemma marshaledSize_one t : marshaledSize [t] = (b ← json_marshal t; Ok (2 + len b)).
Proof.
  unfold marshaledSize, json_array. cbn. destruct (json_marshal t) as [b|e]; [|done]. cbn.
  f_equal. unfold len. rewrite length_app. cbn. lia.
Qed.

(** The prefix taken fits the budget, and the next transaction would not. *)
Lemma split_loop_spec txs budget total :
  match split_loop txs budget total with
  | Err _ => ∃ t, t ∈ txs ∧ ¬ encodes t
  | Ok (fit, overflow) =>
      txs = fit ++ overflow ∧ (fit = [] ∨ total + total_len fit + 2 * Z.of_nat (length fit) ≤ budget) ∧
      (∀ t, head overflow = Some t → budget < total + total_len fit + 2 * Z.of_nat (length fit) + (enc_len t + 2))
  end.
Proof.
  revert total. induction txs as [|t txs IH]; intros total; cbn [split_loop]; [split_and!; auto; done|].
  rewrite marshaledSize_one. destruct (json_marshal t) as [b|e] eqn:Ej.
  2:{ cbn. exists t. split; [set_solver|]. unfold encodes. rewrite Ej. done. }
  cbn [mbind result_bind]. assert (El : enc_len t = len b) by (unfold enc_len; by rewrite Ej).
  destruct (Z.ltb_spec budget (total + (2 + len b))).
  - split_and!; [done|by left|]. intros t' [= <-]. cbn. lia.
  - specialize (IH (total + (2 + len b))). destruct (split_loop txs budget _) as [[fit overflow]|e].
    + destruct IH as (-> & H2 & H3). split_and!; [done|right|].
      * cbn [total_len foldr length]. fold (total_len fit). destruct H2 as [->|H2]; cbn; lia.
      * intros t' Ht'. specialize (H3 t' Ht'). cbn [total_len foldr length]. fold (total_len fit). lia.
    + destruct IH as (u & Hu & Hn). exists u. split; [by right|done].
Qed.

(** ** What a node holds queued *)

Definition pool_txs n : list ShieldedTx := e_Tx <$> Mempool.pending (n_mempool n).
Definition backlog n : list ShieldedTx := Outage.backlog (n_outage n).
Definition pool_bounded n : Prop := Mempool.Len (n_mempool n) ≤ Mempool.maxSize (n_mempool n).

(** Reinserting into a pool with room appends. *)
Lemma reinsert_all_room ts now n :
  Mempool.Len (n_mempool n) + Z.of_nat (length ts) ≤ Mempool.maxSize (n_mempool n) →
  let n' := reinsert_all ts now n in
  pool_txs n' = pool_txs n ++ ts ∧ n_outage n' = n_outage n ∧ n_shared n' = n_shared n ∧
  n_cfg n' = n_cfg n ∧ n_chn n' = n_chn n.
Proof.
  unfold reinsert_all. revert n. induction ts as [|t ts IH]; intros n Hl; cbn [foldl length] in *.
  { by rewrite app_nil_r. }
  assert (E : reinsert_pool t now n = n <| n_mempool := Mempool.push (n_mempool n) t now |>).
  { unfold reinsert_pool, Mempool.Reinsert, Mempool.Len in *.
    by rewrite (proj2 (Z.leb_gt _ _)) by lia. }
  rewrite E. set (n1 := n <| n_mempool := _ |>). destruct (IH n1) as (-> & -> & -> & -> & ->).
  - unfold n1, Mempool.Len, Mempool.maxSize, Mempool.push in *. cbn in *. rewrite length_app. cbn. lia.
  - split_and!; try reflexivity. unfold n1, pool_txs. cbn. by rewrite fmap_app, <-app_assoc.
Qed.

Lemma broadcastMegabatchPart_frame h batch n :
  let n' := broadcastMegabatchPart h batch n in
  n_mempool n' = n_mempool n ∧ n_outage n' = n_outage n ∧ n_shared n' = n_shared n ∧ n_cfg n' = n_cfg n.
Proof.
  unfold broadcastMegabatchPart. case_match; [|done]. generalize (megabatch_parts h a). intros parts. revert n.
  induction parts as [|p parts IH]; intros n; [done|]. cbn [send_parts]. case_match; [|done].
  match goal with |- context [send_parts parts ?m] => destruct (IH m) as (-> & -> & -> & ->) end. done.
Qed.

Lemma outage_reinsert_backlog ts n : backlog (outage_reinsert ts n) = backlog n ++ ts.
Proof.
  unfold backlog, outage_reinsert. cbn. generalize (n_outage n). induction ts as [|t ts IH]; intros o; cbn [foldl];
    [by rewrite app_nil_r|]. rewrite IH. cbn. by rewrite <-app_assoc.
Qed.

(** The reveals of a batch can be executed in its order: each one's commit is stored or
    cast earlier in the batch. *)
Definition reveals_ready (store : Rows) txs : Prop :=
  ∀ before t after pid voter, txs = before ++ t :: after → opens t pid voter →
    commit_stored store pid voter = true ∨ ∃ u, u ∈ before ∧ casts u pid voter.

Lemma reveals_ready_app store txs txs' :
  reveals_ready store txs → reveals_ready store txs' → reveals_ready store (txs ++ txs').
Proof.
  intros H1 H2 before t after pid voter E Ho. apply app_eq_app in E as (k & [[-> E]|[-> E]]).
  - destruct k as [|x k]; cbn in E.
    + rewrite app_nil_r in *. destruct (H2 [] t after pid voter) as [|(u & Hu & _)]; [done..|by left|].
      by apply not_elem_of_nil in Hu.
    + injection E as <- E. apply (H1 before t k pid voter eq_refl Ho).
  - destruct (H2 k t after pid voter E Ho) as [|(u & Hu & Hc)]; [by left|right].
    exists u. split; [|done]. apply elem_of_app. by right.
Qed.

Lemma reveals_ready_prefix store txs txs' : reveals_ready store (txs ++ txs') → reveals_ready store txs.
Proof.
  intros H before t after pid voter -> Ho. apply (H before t (after ++ txs') pid voter); [|done].
  by rewrite <-app_assoc.
Qed.

Lemma filterReadyReveals_spec n txs :
  let '(ready, deferred) := filterReadyReveals n txs in
  ready ++ deferred ≡ₚ txs ∧ ready `sublist_of` txs ∧ deferred `sublist_of` txs ∧
  reveals_ready (st_Store (n_shared n)) ready.
Proof.
  unfold filterReadyReveals. pose proof (filter_reveals_spec (st_Store (n_shared n)) ∅ txs []) as H.
  destruct (filter_reveals _ _ _) as [ready deferred]. destruct H as (H1 & H2 & H3 & _ & H4); [set_solver|].
  split_and!; [done..|]. intros before t after pid voter E Ho. by apply (H4 before t after pid voter E Ho).
Qed.

(** The part of a proposal from the pool, and what is left. *)
Record built n (batch live fit : list ShieldedTx) n' : Prop := {
  bu_batch : batch = live ++ fit;
  bu_live : live `sublist_of` pool_txs n;
  bu_fit : fit ⊆+ backlog n;
  bu_all : batch ++ pool_txs n' ++ backlog n' ≡ₚ pool_txs n ++ backlog n;
  bu_ready : reveals_ready (st_Store (n_shared n)) batch;
  bu_size : fit ≠ [] → ∀ size, marshaledSize batch = Ok size → size ≤ maxBatchBytes (n_cfg n) }.

Lemma live_part now n :
  pool_bounded n →
  let '(entries, m) := Mempool.DrainBatchBytes json_marshal (n_mempool n) (maxBatchSize (n_cfg n))
                         (maxBatchBytes (n_cfg n)) now in
  let n0 := n <| n_mempool := m |> in
  let '(live, deferred) := filterReadyReveals n0 (e_Tx <$> entries) in
  let n1 := reinsert_all deferred now n0 in
  built n live live [] n1 ∧ n_outage n1 = n_outage n ∧ n_shared n1 = n_shared n ∧
  n_cfg n1 = n_cfg n ∧ n_chn n1 = n_chn n.
Proof.
  intros Hb. unfold Mempool.DrainBatchBytes. set (k := Z.to_nat _). cbv zeta.
  set (entries := take k _). set (m := Mempool.with_pending _ _). set (n0 := n <| n_mempool := m |>).
  assert (Esplit : e_Tx <$> entries = take k (pool_txs n)) by (unfold pool_txs, entries; by rewrite fmap_take).
  assert (Epool : pool_txs n0 = drop k (pool_txs n)) by (unfold pool_txs, n0, m; cbn; by rewrite fmap_drop).
  pose proof (filterReadyReveals_spec n0 (e_Tx <$> entries)) as H.
  destruct (filterReadyReveals n0 (e_Tx <$> entries)) as [live deferred]. destruct H as (H1 & H2 & H3 & H4).
  rewrite Esplit in *.
  destruct (reinsert_all_room deferred now n0) as (E1 & E2 & E3 & E4 & E5).
  { apply sublist_length in H3. unfold pool_bounded, Mempool.Len, Mempool.maxSize in *. cbn in *.
    rewrite length_drop. rewrite length_take in H3. unfold pool_txs in H3. rewrite length_fmap in H3.
    assert (length (Mempool.pending (n_mempool n)) = (k `min` length (Mempool.pending (n_mempool n)) +
      (length (Mempool.pending (n_mempool n)) - k))%nat) by lia.
    destruct (_ <=? 0); lia. }
  split; [|by rewrite E2, E3, E4, E5]. split.
  - by rewrite app_nil_r.
  - etrans; [exact H2|]. apply sublist_take.
  - apply submseteq_nil_l.
  - rewrite E1, Epool. unfold backlog. rewrite E2. cbn [n_outage].
    rewrite <-(take_drop k (pool_txs n)) at 2. rewrite <-H1. change (n_outage n0) with (n_outage n).
    solve_Permutation.
  - exact H4.
  - done.
Qed.

(** The dual-track top-up keeps the accounts and the budget. *)
Lemma built_dual n n1 n2 live mega drained fit overflow deferred store size :
  built n live live [] n1 → backlog n1 = backlog n → store = st_Store (n_shared n) →
  marshaledSize live = Ok size →
  drained ++ backlog n2 = backlog n → pool_txs n2 = pool_txs n1 →
  mega ++ deferred ≡ₚ drained → reveals_ready store mega → mega = fit ++ overflow →
  (fit = [] ∨ total_len fit + 2 * Z.of_nat (length fit) ≤ maxBatchBytes (n_cfg n) - size) →
  built n (live ++ fit) live fit (outage_reinsert overflow (outage_reinsert deferred n2)).
Proof.
  intros [_ B2 _ B4 B5 _] Eb -> Hs Ed Ep Hm Hr -> Hfit. rewrite Eb in B4. split.
  - done.
  - done.
  - rewrite <-Ed, <-Hm, <-!app_assoc. by apply submseteq_inserts_r.
  - rewrite !outage_reinsert_backlog. change (pool_txs (outage_reinsert _ _)) with (pool_txs n2).
    rewrite Ep. rewrite <-B4, <-Ed, <-Hm. solve_Permutation.
  - apply reveals_ready_app; [done|]. by eapply reveals_ready_prefix.
  - intros Hne size' Hs'. destruct Hfit as [|Hfit]; [done|].
    apply marshaledSize_spec in Hs'; [|by intros [_ ?]%app_eq_nil].
    rewrite total_len_app, length_app in Hs'. destruct live as [|t live].
    + injection Hs as <-. cbn in Hs'. lia.
    + apply marshaledSize_spec in Hs; [|done]. lia.
Qed.

Lemma splitByByteBudget_spec txs budget : Forall encodes txs →
  ∃ fit overflow, splitByByteBudget txs budget = Ok (fit, overflow) ∧ txs = fit ++ overflow ∧
    (fit = [] ∨ total_len fit + 2 * Z.of_nat (length fit) ≤ budget) ∧
    (∀ t, head overflow = Some t → budget < total_len fit + 2 * Z.of_nat (length fit) + (enc_len t + 2)).
Proof.
  intros HF. unfold splitByByteBudget. pose proof (split_loop_spec txs budget 0) as H.
  destruct (split_loop txs budget 0) as [[fit overflow]|e].
  - destruct H as (H1 & H2 & H3). exists fit, overflow. split_and!; try done; try lia.
  - destruct H as (t & Ht & Hn). rewrite Forall_forall in HF. by apply HF in Ht.
Qed.

Lemma marshaledSize_ok txs : Forall encodes txs → ∃ size, marshaledSize txs = Ok size.
Proof.
  intros HF. unfold marshaledSize, json_array. destruct txs as [|t0 txs0]; [by eexists|].
  assert (H : ∃ parts, mapM json_marshal (t0 :: txs0) = Ok parts).
  { induction HF as [|t txs Ht _ [parts IH]]; [by eexists|]. cbn. unfold encodes in Ht.
    destruct (json_marshal t) as [b|e]; [|done]. cbn. rewrite IH. by eexists. }
  destruct H as [parts ->]. by eexists.
Qed.

(** The backlog that is drained is a prefix. *)
Lemma build_drained o k : let '(drained, o') := Outage.BuildMegabatch o k in
  drained ++ Outage.backlog o' = Outage.backlog o.
Proof.
  pose proof (BuildMegabatch_conserves o k) as H. by destruct (Outage.BuildMegabatch o k).
Qed.
End queues.

(** * Serving blocks *)

Section serving.
Implicit Types (store : ChainRows).

(** The stored blocks from a height on, as far as they go and no further than [to]. *)
Definition run_from store (from to : Z) (bs : list Block) : Prop :=
  (∀ i b, bs !! i = Some b → ChainRows.GetBlock (from + Z.of_nat i) store = Some b) ∧
  from + Z.of_nat (length bs) ≤ to + 1 ∧
  (from + Z.of_nat (length bs) ≤ to → ChainRows.GetBlock (from + Z.of_nat (length bs)) store = None).

(** The stored heights of a range are distinct: there are at most as many as blocks. *)
Definition heights_from store (from to : Z) : nat :=
  size (filter (λ p : Z * Block, from ≤ p.1 ≤ to) (ChainRows.blocks store)).

Lemma heights_from_step store from to b : from ≤ to → ChainRows.GetBlock from store = Some b →
  heights_from store from to = S (heights_from store (from + 1) to).
Proof.
  intros Hle Hb. unfold heights_from, ChainRows.GetBlock in *.
  rewrite <-(insert_delete_id (ChainRows.blocks store) from b Hb).
  rewrite map_filter_insert_True by (cbn; lia).
  rewrite map_size_insert_None by (apply map_lookup_filter_None; left; apply lookup_delete_eq).
  f_equal. f_equal. rewrite map_filter_insert_False by (cbn; lia).
  rewrite (delete_id (delete from (ChainRows.blocks store)) from) by apply lookup_delete_eq.
  apply map_filter_ext. intros h x Hh. cbn.
  split; [|lia]. intros [? ?]. split; [|done].
  destruct (decide (h = from)) as [->|]; [|lia]. by rewrite lookup_delete_eq in Hh.
Qed.

Lemma collect_blocks_spec fuel store from to :
  0 ≤ from → to < 2 ^ 64 → ChainRows.GetBlock (2 ^ 64 - 1) store = None → from ≤ 2 ^ 64 - 1 →
  (heights_from store from to < fuel)%nat →
  ∃ bs, collect_blocks fuel store from to = Some bs ∧ (from ≤ to → run_from store from to bs) ∧ (to < from → bs = []).
Proof.
  intros H0 Ht Hmax. revert from H0. induction fuel as [|fuel IH]; intros from H0 Hf Hfuel; [lia|].
  cbn [collect_blocks]. destruct (Z.leb_spec from to) as [Hle|]; [|exists []; split_and!; [done|lia|done]].
  destruct (ChainRows.GetBlock from store) as [b|] eqn:Eb.
  2:{ exists []. split_and!; [done| |done]. intros _. split_and!; [by intros i b; rewrite lookup_nil|cbn; lia|].
      intros _. cbn. by rewrite Z.add_0_r. }
  rewrite (heights_from_step _ _ _ _ Hle Eb) in Hfuel.
  assert (from ≠ 2 ^ 64 - 1) by (intros ->; congruence).
  rewrite u64_id by lia.
  destruct (IH (from + 1)) as (bs & -> & Hrun & Hnil); [lia..|]. exists (b :: bs).
  split_and!; [done| |lia]. intros _. destruct (decide (from + 1 ≤ to)) as [Hle'|Hgt].
  - destruct (Hrun Hle') as (R1 & R2 & R3). unfold run_from.
    replace (Z.of_nat (length (b :: bs))) with (1 + Z.of_nat (length bs)) by (cbn; lia). split_and!.
    + intros [|i] c Hi; cbn in Hi; [injection Hi as <-; by rewrite Z.add_0_r|].
      apply R1 in Hi. rewrite <-Hi. f_equal. lia.
    + lia.
    + intros Hl. rewrite <-R3 by lia. f_equal. lia.
  - rewrite Hnil by lia. split_and!; [|cbn; lia|cbn; lia].
    intros [|i] c Hi; cbn in Hi; [injection Hi as <-; by rewrite Z.add_0_r|done].
Qed.

Lemma heights_from_le store from to : (heights_from store from to ≤ size (ChainRows.blocks store))%nat.
Proof. unfold heights_from. apply map_size_filter. Qed.
End serving.

(** * Reassembly *)

Section reassembly.
Context `{SHA : Sha256, M3 : Mode3, ED : Ed25519, SG : Mode3Signer, BR : BigRat, FR : Fr, MM : MiMC,
  GR : !Groth16, CD : Codec}.
Implicit Types (n : Node).

Lemma chunks_length k data : length (chunks k data) = k.
Proof. revert data. induction k as [|k IH]; intros data; cbn; [done|]. by rewrite IH. Qed.

Lemma chunks_concat k data : len data ≤ Z.of_nat k * MaxMegabatchPartBytes → concat (chunks k data) = data.
Proof.
  revert data. induction k as [|k IH]; intros data Hl; cbn [chunks concat].
  - unfold len in Hl. destruct data; [done|cbn in Hl; lia].
  - assert (Hw : Z.of_nat (Z.to_nat MaxMegabatchPartBytes) = MaxMegabatchPartBytes) by (apply Z2Nat.id; done).
    generalize dependent (Z.to_nat MaxMegabatchPartBytes). intros w Hw.
    rewrite IH, take_drop; [reflexivity|]. unfold len in *. rewrite length_drop. lia.
Qed.

Lemma chunks_small k data i p : chunks k data !! i = Some p → len p ≤ MaxMegabatchPartBytes.
Proof.
  revert data i. induction k as [|k IH]; intros data i; cbn [chunks]; [by rewrite lookup_nil|].
  assert (Hw : Z.of_nat (Z.to_nat MaxMegabatchPartBytes) = MaxMegabatchPartBytes) by (apply Z2Nat.id; done).
  generalize dependent (Z.to_nat MaxMegabatchPartBytes). intros w Hw. destruct i as [|i]; [|apply IH].
  intros [= <-]. unfold len. rewrite length_take. lia.
Qed.

Lemma part_count_spec data : 0 < len data ≤ MaxMegabatchParts * MaxMegabatchPartBytes →
  0 < part_count data ≤ MaxMegabatchParts ∧ len data ≤ part_count data * MaxMegabatchPartBytes.
Proof.
  unfold part_count, MaxMegabatchParts, MaxMegabatchPartBytes. intros Hl.
  case_match eqn:E; bools; Z.div_mod_to_equations; lia.
Qed.

(** The kept reassemblies: their order lists their heights once, at most sixteen. *)
Record done_ok n : Prop := {
  dk_nodup : NoDup (n_megabatchDoneOrder n);
  dk_dom : ∀ h, h ∈ n_megabatchDoneOrder n ↔ is_Some (n_megabatchDone n !! h);
  dk_cap : (length (n_megabatchDoneOrder n) ≤ megabatchDoneCap)%nat }.

Lemma recordCompleted_ok h batch n : done_ok n →
  let n' := recordCompletedMegabatch h batch n in
  done_ok n' ∧ n_megabatchDone n' !! h = Some batch ∧ n_megabatchRecv n' = n_megabatchRecv n.
Proof.
  intros [Hnd Hdom Hcap]. unfold recordCompletedMegabatch.
  assert (Hev : ∀ fuel order done, (length order ≤ megabatchDoneCap)%nat → evict fuel order done = (order, done)).
  { intros fuel order done Hl. destruct fuel, order; cbn [evict]; try done.
    rewrite (proj2 (Nat.ltb_ge _ _)) by done. done. }
  case_bool_decide as Hin.
  - rewrite Hev by done. split_and!; [|cbn; apply lookup_insert_eq|done]. split; cbn; [done| |done].
    intros g. rewrite Hdom. destruct (decide (g = h)) as [->|]; [rewrite lookup_insert_eq|rewrite lookup_insert_ne by done; done].
    split; [by eexists|done].
  - assert (Hnew : h ∉ n_megabatchDoneOrder n) by (rewrite Hdom; done).
    assert (Hdom' : ∀ g, g ∈ n_megabatchDoneOrder n ++ [h] ↔ is_Some (<[h:=batch]> (n_megabatchDone n) !! g)).
    { intros g. rewrite elem_of_app, list_elem_of_singleton, Hdom.
      destruct (decide (g = h)) as [->|]; [rewrite lookup_insert_eq; split; [by eexists|by right]|].
      rewrite lookup_insert_ne by done. naive_solver. }
    assert (Hnd' : NoDup (n_megabatchDoneOrder n ++ [h])).
    { apply NoDup_app. split_and!; [done| |apply NoDup_singleton]. intros g Hg ->%list_elem_of_singleton. done. }
    destruct (decide (length (n_megabatchDoneOrder n) < megabatchDoneCap)%nat) as [Hlt|Hge].
    + rewrite Hev by (rewrite length_app; cbn; lia). split_and!; [|cbn; apply lookup_insert_eq|done].
      split; cbn; [done|done|rewrite length_app; cbn; lia].
    + destruct (n_megabatchDoneOrder n) as [|g rest] eqn:Eo; [cbn in Hge; unfold megabatchDoneCap in Hge; lia|].
      cbn [app length evict] in *. rewrite (proj2 (Nat.ltb_lt _ _)) by (rewrite length_app; cbn; lia).
      rewrite Hev by (rewrite length_app; cbn; lia). apply NoDup_cons in Hnd' as [Hg Hnd'].
      assert (g ≠ h) by (intros ->; set_solver). split_and!.
      * split; cbn; [done| |rewrite length_app; cbn; lia]. intros x. destruct (decide (x = g)) as [->|].
        { rewrite lookup_delete_eq. split; [done|]. by intros [? ?]. }
        rewrite lookup_delete_ne by done. rewrite <-Hdom'. rewrite elem_of_cons. naive_solver.
      * cbn. rewrite lookup_delete_ne by done. apply lookup_insert_eq.
      * done.
Qed.

(** ** One announcement *)

Context (sender : string) (height : Z) (data : bytes).
Context (Hlen : 0 < len data ≤ MaxMegabatchParts * MaxMegabatchPartBytes).
Definition count : nat := Z.to_nat (part_count data).
Definition part_at (i : nat) : MegabatchPartPayload :=
  {| mg_Height := height; mg_PartIndex := Z.of_nat i; mg_PartCount := part_count data;
     mg_Data := chunks count data !! i |}.

Lemma megabatch_parts_at i part : megabatch_parts height data !! i = Some part ↔ (i < count)%nat ∧ part = part_at i.
Proof.
  unfold megabatch_parts. fold count. rewrite list_lookup_imap. unfold part_at. split.
  - intros H. destruct (chunks count data !! i) as [p|] eqn:E; [|done]. cbn in H. injection H as <-.
    apply lookup_lt_Some in E. by rewrite chunks_length in E.
  - intros [Hi ->]. destruct (lookup_lt_is_Some_2 (chunks count data) i) as [p E]; [by rewrite chunks_length|].
    by rewrite E.
Qed.

Lemma part_at_ok i : (i < count)%nat → part_ok (part_at i) = true.
Proof.
  intros Hi. destruct (part_count_spec data Hlen) as [[Hc1 Hc2] _]. unfold count in Hi.
  unfold part_ok, part_at. cbn [mg_PartCount mg_PartIndex mg_Data].
  destruct (lookup_lt_is_Some_2 (chunks count data) i) as [p E]; [by rewrite chunks_length|].
  rewrite E. apply chunks_small in E. cbn [default]. apply andb_true_iff. split; apply negb_true_iff.
  - rewrite !orb_false_iff, !Z.leb_gt, !Z.ltb_ge. lia.
  - by apply Z.ltb_ge.
Qed.

(** The assembly once the parts of [got] have arrived. *)
Definition assembled (got : list nat) : megabatchAssembly :=
  {| ma_parts := (λ i, if decide (i ∈ got) then chunks count data !! i else None) <$> seq 0 count;
     ma_seen := Z.of_nat (length got) |}.

Definition receiving (got : list nat) n : Prop := ∀ i, assembly_for sender (part_at i) n = assembled got.

Lemma assembled_length got : length (ma_parts (assembled got)) = count.
Proof. cbn. by rewrite length_fmap, length_seq. Qed.

Lemma receiving_none n : n_megabatchRecv n !! (sender, height) = None → receiving [] n.
Proof.
  intros E i. unfold assembly_for. cbn [mg_Height part_at]. rewrite E. unfold assembled. cbn [length mg_PartCount part_at].
  f_equal. apply list_eq. intros j. fold count. rewrite list_lookup_fmap.
  destruct (decide (j < count)%nat).
  - rewrite lookup_seq_lt by done. rewrite lookup_replicate_2 by done. cbn. by rewrite decide_False by set_solver.
  - rewrite (proj1 (lookup_replicate_None _ _ _)) by lia. by rewrite lookup_seq_ge by lia.
Qed.

Lemma add_part_at got i : (i < count)%nat → i ∉ got → add_part (assembled got) (part_at i) = assembled (got ++ [i]).
Proof.
  intros Hi Hn. unfold add_part. cbn [mg_PartIndex mg_Data part_at]. rewrite Nat2Z.id.
  assert (El : ma_parts (assembled got) !! i = Some None).
  { cbn. rewrite list_lookup_fmap, lookup_seq_lt by done. cbn. by rewrite decide_False. }
  rewrite El. unfold assembled. cbn [ma_parts ma_seen]. f_equal; [|rewrite length_app; cbn; lia].
  apply list_eq. intros j. destruct (decide (i = j)) as [<-|Hne].
  - rewrite list_lookup_insert_eq by (rewrite length_fmap, length_seq; done).
    rewrite list_lookup_fmap, lookup_seq_lt by done. cbn. by rewrite decide_True by set_solver.
  - rewrite list_lookup_insert_ne by done. rewrite !list_lookup_fmap.
    destruct (seq 0 count !! j) as [k|] eqn:Ek; [|done]. apply lookup_seq in Ek as [-> _]. cbn. f_equal.
    repeat case_decide; set_solver.
Qed.

Lemma assembled_all got : NoDup got → Forall (λ i, (i < count)%nat) got → length got = count →
  concat (default [] <$> ma_parts (assembled got)) = data.
Proof.
  intros Hnd HF Hl. destruct (part_count_spec data Hlen) as [[Hc _] Hd].
  etrans; [|apply (chunks_concat count data); unfold count; lia]. f_equal.
  assert (Hall : ∀ i, (i < count)%nat → i ∈ got).
  { intros i Hi. assert (Hs : got ⊆+ seq 0 count).
    { apply NoDup_submseteq; [done|]. intros j Hj. rewrite Forall_forall in HF. apply HF in Hj. apply elem_of_seq. lia. }
    apply submseteq_length_Permutation in Hs; [|rewrite length_seq; lia]. rewrite Hs. apply elem_of_seq. lia. }
  apply list_eq. intros j. cbn. rewrite !list_lookup_fmap. destruct (decide (j < count)%nat) as [Hj|Hj].
  - rewrite lookup_seq_lt by done. cbn. rewrite decide_True by auto.
    destruct (lookup_lt_is_Some_2 (chunks count data) j) as [p E]; [by rewrite chunks_length|]. by rewrite E.
  - rewrite lookup_seq_ge by lia. cbn. symmetry. apply lookup_ge_None. rewrite chunks_length. lia.
Qed.

(** A part received before the last one is buffered; the last one completes. *)
Lemma handle_part got i n : receiving got n → NoDup (got ++ [i]) → Forall (λ i, (i < count)%nat) (got ++ [i]) →
  let n' := handleMegabatchPart sender (part_at i) n in
  if (length got + 1 =? count)%nat then
    n' = (let n1 := n <| n_megabatchRecv ::= delete (sender, height) |> in
          match unmarshal_batch data with Ok batch => recordCompletedMegabatch height batch n1 | Err _ => n1 end)
  else receiving (got ++ [i]) n' ∧ n_megabatchDone n' = n_megabatchDone n ∧
       n_megabatchDoneOrder n' = n_megabatchDoneOrder n.
Proof.
  intros Hr Hnd HF. assert (Hi : (i < count)%nat) by (apply Forall_app in HF as [_ HF]; by apply Forall_cons in HF as [? _]).
  assert (Hn : i ∉ got) by (apply NoDup_app in Hnd as (_ & Hd & _); intros Hin; apply (Hd i Hin); by left).
  destruct (part_count_spec data Hlen) as [[Hc _] _].
  unfold handleMegabatchPart. rewrite (part_at_ok i Hi). cbn [negb]. cbv zeta.
  rewrite (Hr i), (add_part_at got i Hi Hn).
  change (ma_seen (assembled (got ++ [i]))) with (Z.of_nat (length (got ++ [i]))).
  change (mg_PartCount (part_at i)) with (part_count data). change (mg_Height (part_at i)) with height.
  assert (Ec : (Z.of_nat (length (got ++ [i])) =? part_count data) = (length got + 1 =? count)%nat).
  { rewrite length_app. cbn. unfold count. destruct (Nat.eqb_spec (length got + 1) (Z.to_nat (part_count data)));
      [apply Z.eqb_eq|apply Z.eqb_neq]; lia. }
  rewrite Ec. destruct (Nat.eqb_spec (length got + 1) count) as [E|E].
  - rewrite assembled_all; [reflexivity|done|done|]. rewrite length_app. cbn. lia.
  - split_and!; [|done|done]. intros j. unfold assembly_for. cbn [mg_Height part_at n_megabatchRecv].
    cbn -[assembled]. rewrite lookup_insert_eq, assembled_length. unfold count at 1.
    rewrite Z2Nat.id, Z.eqb_refl by lia. done.
Qed.
End reassembly.

(** Delivering a permutation of the parts of one announcement. *)
Lemma deliver_all `{SHA : Sha256, M3 : Mode3, ED : Ed25519, SG : Mode3Signer, BR : BigRat, FR : Fr,
    MM : MiMC, GR : !Groth16, CD : Codec} sender height data
    (Hlen : 0 < len data ≤ MaxMegabatchParts * MaxMegabatchPartBytes) batch todo got n :
  unmarshal_batch data = Ok batch → done_ok n → receiving sender height data got n →
  NoDup (got ++ todo) → Forall (λ i, (i < count data)%nat) (got ++ todo) →
  length (got ++ todo) = count data → todo ≠ [] →
  let n' := foldl (λ n p, handleMegabatchPart sender p n) n (part_at height data <$> todo) in
  done_ok n' ∧ ReassembledMegabatch n' height = Some batch ∧
  n_megabatchRecv n' !! (sender, height) = None.
Proof.
  intros Hu. revert got n. induction todo as [|i todo IH]; intros got n Hd Hr Hnd HF Hl Hne; [done|].
  rewrite (cons_middle i got todo), app_assoc in Hnd, HF. cbn [fmap list_fmap foldl].
  apply NoDup_app in Hnd as Hnd'. destruct Hnd' as (Hnd1 & _ & _). apply Forall_app in HF as HF'. destruct HF' as [HF1 _].
  pose proof (handle_part sender height data Hlen got i n Hr Hnd1 HF1) as H. cbv zeta in H.
  rewrite length_app in Hl. cbn [length] in Hl. destruct todo as [|j todo].
  - rewrite (proj2 (Nat.eqb_eq _ _)) in H by (cbn [length] in Hl; lia). rewrite H, Hu. cbn [fmap list_fmap foldl].
    match goal with |- context [recordCompletedMegabatch height batch ?m] =>
      destruct (recordCompleted_ok height batch m) as (D1 & D2 & D3) end.
    { destruct Hd. by split. }
    split_and!; [done|done|]. rewrite D3. cbn. apply lookup_delete_eq.
  - rewrite (proj2 (Nat.eqb_neq _ _)) in H by (cbn [length] in Hl; lia). destruct H as (Hr' & E1 & E2).
    apply (IH (got ++ [i])); [|done|done|done| |done].
    + destruct Hd as [K1 K2 K3]. split; [by rewrite E2|by rewrite E1, E2|by rewrite E2].
    + rewrite !length_app. cbn [length] in *. lia.
Qed.

(** * Properties *)

Module RecoverySpec.
(** C38: building a proposal loses no transaction and respects the budget. A batch is a
    live part from the pool and, during an outage, transactions from the backlog; what is
    not proposed is back in the pool or the backlog, nothing is lost or duplicated. Every
    reveal proposed has its commit stored or earlier in the batch, so it cannot fail the
    whole batch for arriving early; and whatever the backlog adds, the encoded batch
    stays within [MaxBatchBytes]. *)
Theorem proposal_building_conserves `{SHA : Sha256, M3 : Mode3, ED : Ed25519, SG : Mode3Signer,
    BR : BigRat, FR : Fr, MM : MiMC, GR : !Groth16, CD : Codec} n dualTrack now :
  pool_bounded n → Forall encodes (pool_txs n ++ backlog n) →
  let '(batch, n') := buildProposalBatch dualTrack now n in
  ∃ live fit, built n batch live fit n' ∧ (dualTrack = false → fit = []).
Proof.
  intros Hb HF. apply Forall_app in HF as [HFp HFb]. unfold buildProposalBatch.
  pose proof (live_part now n Hb) as HL. cbv zeta in HL.
  destruct (Mempool.DrainBatchBytes _ _ _ _ _) as [entries m].
  destruct (filterReadyReveals _ (e_Tx <$> entries)) as [live deferred]. cbv zeta.
  set (n1 := reinsert_all deferred now _) in *. destruct HL as (HB & Eo & Es & Ec & Ech).
  destruct dualTrack; cbn [negb]; [|by exists live, []].
  destruct (marshaledSize_ok live) as [size Hsize].
  { eapply Forall_sublist_of; [|exact HFp]. apply (bu_live _ _ _ _ _ HB). }
  rewrite Hsize. destruct (Z.leb_spec (maxBatchBytes (n_cfg n1) - size) 0); [by exists live, []|].
  pose proof (build_drained (n_outage n1) (maxBatchSize (n_cfg n1))) as Hd.
  destruct (Outage.BuildMegabatch _ _) as [drained o].
  match goal with |- context [filterReadyReveals ?x drained] => set (n2 := x) end.
  assert (F2 : n_mempool n2 = n_mempool n1 ∧ n_outage n2 = o ∧ n_shared n2 = n_shared n1 ∧ n_cfg n2 = n_cfg n1).
  { unfold n2. case_bool_decide; [done|].
    match goal with |- context [broadcastMegabatchPart ?h ?b ?x] =>
      destruct (broadcastMegabatchPart_frame h b x) as (-> & -> & -> & ->) end. done. }
  destruct F2 as (F2a & F2b & F2c & F2d).
  pose proof (filterReadyReveals_spec n2 drained) as H2.
  destruct (filterReadyReveals n2 drained) as [mega deferred']. destruct H2 as (P1 & P2 & P3 & P4).
  rewrite Eo in Hd. assert (HFm : Forall encodes mega).
  { eapply Forall_sublist_of; [exact P2|]. unfold backlog in HFb. rewrite <-Hd in HFb. by apply Forall_app in HFb as [? _]. }
  destruct (splitByByteBudget_spec mega (maxBatchBytes (n_cfg n1) - size) HFm)
    as (fit & overflow & -> & Em & Hfit & _).
  exists live, fit. split; [|done].
  eapply (built_dual n n1 n2 live mega drained fit overflow deferred'); try done.
  - unfold backlog. by rewrite Eo.
  - unfold backlog. by rewrite F2b.
  - unfold pool_txs. by rewrite F2a.
  - by rewrite F2c, Es in P4.
  - by rewrite <-Ec.
Qed.
(** Serving catch-up requests. For a request over 64-bit heights the answer is exactly
    the longest run of stored blocks from [FromHeight], up to [ToHeight] or the cap: each
    block at its height, no gap skipped, nothing made up, and the scan ends. A range
    that is not all of the 2^64 heights is answered with at most 200 blocks; an empty or
    inverted one is not answered. *)
Theorem catch_up_serves_the_run `{SHA : Sha256, M3 : Mode3, ED : Ed25519, SG : Mode3Signer,
    BR : BigRat, FR : Fr, MM : MiMC, GR : !Groth16, CD : Codec} n sender from to :
  0 ≤ from < 2 ^ 64 → 0 ≤ to < 2 ^ 64 →
  ChainRows.GetBlock (2 ^ 64 - 1) (Chain.ch_store (n_chn n)) = None →
  let n' := handleBlockRequest sender {| br_FromHeight := from; br_ToHeight := to |} n in
  (to < from → n' = n) ∧
  (from ≤ to → ∃ bs,
     run_from (Chain.ch_store (n_chn n)) from (capped_to from to) bs ∧
     n' = (if bool_decide (bs = []) then n else send_to sender MsgBlockResponse (PBlockResponse bs) n) ∧
     (to - from + 1 < 2 ^ 64 → capped_to from to = Z.min to (from + MaxCatchUpBlocks - 1) ∧
        Z.of_nat (length bs) ≤ MaxCatchUpBlocks)).
Proof.
  intros Hf Ht Hmax n'. unfold n', handleBlockRequest. cbn [br_FromHeight br_ToHeight].
  destruct (Z.ltb_spec to from) as [|Hle]; [by split; [|lia]|]. split; [lia|]. intros _.
  assert (Hcap : to - from + 1 < 2 ^ 64 → capped_to from to = Z.min to (from + MaxCatchUpBlocks - 1)).
  { intros Hlt. unfold capped_to, MaxCatchUpBlocks. rewrite (u64_id (to - from + 1)) by lia.
    destruct (Z.ltb_spec 200 (to - from + 1)); [rewrite u64_id|]; lia. }
  assert (Hto : from ≤ capped_to from to < 2 ^ 64).
  { destruct (decide (to - from + 1 < 2 ^ 64)) as [Hlt|]; [rewrite Hcap by done; unfold MaxCatchUpBlocks; lia|].
    assert (from = 0 ∧ to = 2 ^ 64 - 1) as [-> ->] by lia. done. }
  pose proof (heights_from_le (Chain.ch_store (n_chn n)) from (capped_to from to)) as Hh.
  destruct (collect_blocks_spec (S (size (ChainRows.blocks (Chain.ch_store (n_chn n)))))
    (Chain.ch_store (n_chn n)) from (capped_to from to)) as (bs & E & Hrun & _); [lia|lia|done|lia|lia|].
  unfold catch_up_blocks. cbv zeta. rewrite E. cbn [default]. exists bs. specialize (Hrun ltac:(lia)).
  split_and!; [done|by destruct bs|]. intros Hlt. split; [by apply Hcap|].
  destruct Hrun as (_ & Hl & _). rewrite (Hcap Hlt) in Hl. unfold MaxCatchUpBlocks in *. lia.
Qed.

(** C39: megabatch announcements round-trip. A batch is cut into parts of at most 64 KiB
    that say where they belong; whatever order they arrive in, a receiver with nothing
    buffered for that sender and height accepts every part, and after the last one its
    record for the height is the batch the broadcast bytes decode to, with the buffer
    gone. At most sixteen heights are kept, each once. *)
Theorem megabatch_roundtrip `{SHA : Sha256, M3 : Mode3, ED : Ed25519, SG : Mode3Signer,
    BR : BigRat, FR : Fr, MM : MiMC, GR : !Groth16, CD : Codec} n sender height txs data batch parts :
  json_array txs = Ok data → unmarshal_batch data = Ok batch →
  len data ≤ MaxMegabatchParts * MaxMegabatchPartBytes →
  parts ≡ₚ megabatch_parts height data →
  done_ok n → n_megabatchRecv n !! (sender, height) = None →
  let n' := foldl (λ n p, handleMegabatchPart sender p n) n parts in
  done_ok n' ∧ ReassembledMegabatch n' height = Some batch ∧ n_megabatchRecv n' !! (sender, height) = None.
Proof.
  intros Hj Hu Hmax Hp Hd Hr. assert (Hlen : 0 < len data ≤ MaxMegabatchParts * MaxMegabatchPartBytes).
  { split; [|done]. unfold json_array in Hj. destruct txs; [injection Hj as <-; done|]. ok_inv. unfold len. cbn. lia. }
  destruct (part_count_spec data Hlen) as [[Hc _] _].
  assert (Eparts : megabatch_parts height data = part_at height data <$> seq 0 (count data)).
  { apply list_eq. intros i. rewrite list_lookup_fmap. destruct (decide (i < count data)%nat) as [Hi|Hi].
    - rewrite lookup_seq_lt by done. by apply megabatch_parts_at.
    - rewrite lookup_seq_ge by lia. destruct (megabatch_parts height data !! i) as [p|] eqn:E; [|done].
      apply megabatch_parts_at in E as [? _]. lia. }
  rewrite Eparts in Hp. destruct (Permutation_map_inv _ _ Hp) as (todo & -> & Hperm).
  assert (Hlt : length todo = count data) by (rewrite <-Hperm; apply length_seq).
  apply (deliver_all sender height data Hlen batch todo []); [done|done|by apply receiving_none| | |done|].
  - cbn [app]. rewrite <-Hperm. apply NoDup_seq.
  - cbn [app]. apply Forall_forall. intros i. rewrite <-Hperm, elem_of_seq. lia.
  - intros ->. cbn in Hlt. unfold count in Hlt. lia.
Qed.
End RecoverySpec.

Module RecoveryWitness.
Import NodeModel.
(** During an outage, with a payment in the pool and a mint in the backlog. *)
Definition recovering : Node :=
  let n := apply_node_event (joined 2) (NSubmit pay clock) in
  n <| n_outage ::= λ o, (Outage.Enqueue (Outage.DeclareOutage o) mint_tx clock).2 |>.

Lemma proposal_building_conserves_witness :
  (buildProposalBatch true clock recovering).1 = [pay; mint_tx] ∧
  ∃ live fit, built recovering (buildProposalBatch true clock recovering).1 live fit
    (buildProposalBatch true clock recovering).2.
Proof.
  split; [vm_compute; reflexivity|].
  assert (Hb : pool_bounded recovering) by (vm_compute; discriminate).
  assert (HF : Forall encodes (pool_txs recovering ++ backlog recovering)) by (repeat constructor).
  pose proof (RecoverySpec.proposal_building_conserves recovering true clock Hb HF) as H.
  destruct (buildProposalBatch true clock recovering) as [batch n']. destruct H as (live & fit & H & _).
  exists live, fit. exact H.
Defined.

Lemma catch_up_serves_the_run_witness :
  ∃ bs, run_from (Chain.ch_store (n_chn (joined 1))) 0 5 bs ∧ Z.of_nat (length bs) ≤ 200.
Proof.
  destruct (RecoverySpec.catch_up_serves_the_run (joined 1) "peer" 0 5) as (_ & H); [lia|lia|reflexivity|].
  destruct (H ltac:(lia)) as (bs & Hrun & _ & Hcap). exists bs. split; [exact Hrun|].
  apply Hcap. lia.
Defined.

(** A codec that encodes a transaction on 70 000 bytes: the announcement has two parts. *)
Definition wide : Codec :=
  {| json_marshal _ := Ok (replicate 70 (Z.of_nat 7) ++ concat (replicate 699 (replicate 100 0)) ++ replicate 30 0);
     marshal_payload _ := Ok []; decode_heartbeat _ := Err "json"; decode_tx_offer _ := Err "json";
     decode_proposal _ := Err "json"; decode_vote _ := Err "json"; decode_announce _ := Err "json";
     decode_part _ := Err "json"; decode_request _ := Err "json"; decode_response _ := Err "json";
     unmarshal_batch b := if 70000 <? len b then Ok [pay] else Err "json" |}.
Definition announced : bytes := match json_array (CD := wide) [pay] with Ok b => b | Err _ => [] end.

Lemma announced_ok : json_array (CD := wide) [pay] = Ok announced.
Proof.
  assert (H : is_ok (json_array (CD := wide) [pay]) = true) by (vm_compute; reflexivity).
  unfold announced. destruct (json_array (CD := wide) [pay]); [reflexivity|discriminate H].
Qed.

Lemma megabatch_roundtrip_witness :
  length (megabatch_parts 7 announced) = 2%nat ∧
  let n' := foldl (λ n p, handleMegabatchPart (CD := wide) "peer" p n) (boot 1) (reverse (megabatch_parts 7 announced)) in
  ReassembledMegabatch n' 7 = Some [pay].
Proof.
  split; [vm_compute; reflexivity|].
  refine (proj1 (proj2 (RecoverySpec.megabatch_roundtrip (CD := wide) (boot 1) "peer" 7 [pay] announced [pay]
    (reverse (megabatch_parts 7 announced)) _ _ _ _ _ _))).
  - exact announced_ok.
  - vm_compute. reflexivity.
  - vm_compute. discriminate.
  - apply reverse_Permutation.
  - split; cbn; [constructor| |unfold megabatchDoneCap; lia]. intros h. rewrite lookup_empty, elem_of_nil.
    split; [done|]. by intros [? ?].
  - reflexivity.
Defined.
End RecoveryWitness.

(** * Findings *)

Section uncapped.
Context `{SHA : Sha256, M3 : Mode3, ED : Ed25519, SG : Mode3Signer, BR : BigRat, FR : Fr, MM : MiMC,
  GR : !Groth16, CD : Codec}.

(** The 2^64 heights of the widest request wrap to a count of zero, and the cap is not
    applied: the answer is the whole chain. *)
Theorem widest_request_is_uncapped : capped_to 0 (2 ^ 64 - 1) = 2 ^ 64 - 1.
Proof. reflexivity. Qed.

(** A part without data counts as missing and as arrived: one message repeated fills an
    announcement of any size. *)
Theorem empty_part_counts_again sender height count n asm k :
  n_megabatchRecv n !! (sender, height) = Some asm → length (ma_parts asm) = k → count = Z.of_nat k →
  0 < count ≤ MaxMegabatchParts → ma_parts asm !! 0%nat = Some None → ma_seen asm + 1 ≠ count →
  let part := {| mg_Height := height; mg_PartIndex := 0; mg_PartCount := count; mg_Data := None |} in
  n_megabatchRecv (handleMegabatchPart sender part n) !! (sender, height) =
    Some {| ma_parts := ma_parts asm; ma_seen := ma_seen asm + 1 |}.
Proof.
  intros Er Hk Ec Hc H0 Hs part. unfold MaxMegabatchParts in Hc.
  assert (Hok : part_ok part = true).
  { unfold part_ok, part. cbn [mg_PartCount mg_PartIndex mg_Data default].
    apply andb_true_iff. split; apply negb_true_iff; [|reflexivity].
    rewrite !orb_false_iff, !Z.leb_gt, !Z.ltb_ge. unfold MaxMegabatchParts. lia. }
  assert (Hasm : assembly_for sender part n = asm).
  { unfold assembly_for, part. cbn [mg_Height mg_PartCount]. by rewrite Er, Hk, <-Ec, Z.eqb_refl. }
  assert (Hadd : add_part asm part = {| ma_parts := ma_parts asm; ma_seen := ma_seen asm + 1 |}).
  { unfold add_part. change (Z.to_nat (mg_PartIndex part)) with 0%nat. rewrite H0. f_equal.
    by apply list_insert_id. }
  unfold handleMegabatchPart. rewrite Hok, Hasm, Hadd. cbn [negb ma_seen]. change (mg_PartCount part) with count.
  rewrite (proj2 (Z.eqb_neq _ _)) by done. apply lookup_insert_eq.
Qed.
End uncapped.
