(* ===== verification/Faults.v ===== *)
(** Where the node does not do what it is meant to: behaviours of the modelled code,
    evaluated on the committee of [NodeSample] or proved of every node. *)
From S2P Require Import Prelude Words Decimal Hashing Types Epoch Revolver Committee Mempool Outage.
From S2P Require Import Governance Bank Merkle Field ZkTree Circuit Groth NFT Silent Store Chain.
From S2P Require Import Pipeline Sample Tally Net Node Consensus Propose NodeSample.

(** Evaluates each conjunct of a closed statement; a disequality is refuted by value. *)
Ltac evaluate :=
  intros; repeat match goal with |- _ ∧ _ => apply conj end;
  match goal with
  | |- _ ≠ _ => let E := fresh in intros E; vm_compute in E; discriminate E
  | |- _ => vm_compute; reflexivity
  end.

Module Faults.
Import NodeModel.

Definition after (seconds : Z) : Time := clock + seconds * Second.
(** The block a node holds at a height. *)
Definition block_at (h : Z) (n : Node) : Block :=
  default (Chain.genesis 0) (ChainRows.GetBlock h (Chain.ch_store (n_chn n))).
(** Validator 3 commits a batch at height 1 on its own vote and validator 2's. *)
Definition committed_by_3 (batch : list ShieldedTx) : Node :=
  let n := propose batch 0 clock (joined 3) in handleStageVote (vote_for 2 (candidate_of n)) clock n.
Definition zk_root (n : Node) : option bytes := (λ t, Bytes (ZkTree.Root t)) <$> st_ZKTree (n_shared n).

(** Rolling a round back cuts the state tree but not the commitment tree its transfers were
    inserted into. A validator whose round timed out and that then adopts the very block
    it had voted for holds the two outputs twice; one that never voted holds them once.
    Their rows, chains and state trees agree, their spendable roots do not. *)
Theorem timed_out_voter_diverges :
  let b := block_at 1 (committed_by_3 [pay]) in
  let voter := sweepTimeouts [] (after 9) (propose [pay] 0 clock (joined 1)) in
  let r1 := tryAdoptBlockLocked b (after 9) voter in
  let r2 := tryAdoptBlockLocked b (after 9) (joined 1) in
  (r1.1, r2.1) = (Ok tt, Ok tt) ∧
  (zk_leaves voter, zk_leaves r1.2, zk_leaves r2.2) = (2%nat, 4%nat, 2%nat) ∧
  Chain.headHash (n_chn r1.2) = Chain.headHash (n_chn r2.2) ∧
  mt_leaves (st_StateTree (n_shared r1.2)) = mt_leaves (st_StateTree (n_shared r2.2)) ∧
  zk_root r1.2 ≠ zk_root r2.2.
Proof. evaluate. Qed.

(** A vote binds nobody after a time-out. Validators 1, 2 and 3 all follow the protocol:
    1 and 2 vote for A, time out, and vote for B, the same height proposed again; 3 gets A
    late and then the vote 1 cast for it. 1 commits B and 3 commits A. *)
Theorem honest_timeout_forks :
  let r1 := propose [] 0 clock (joined 1) in
  let again k := propose [] 1 (after 9) (sweepTimeouts [] (after 9) (propose [] 0 clock (joined k))) in
  let A := candidate_of r1 in
  let B := candidate_of (again 1) in
  let v1 := handleStageVote (vote_for 2 B) (after 10) (again 1) in
  let v3 := handleStageVote (vote_for 1 A) (after 10) (propose [] 0 (after 5) (joined 3)) in
  rd_votes <$> n_rounds r1 !! 1 =
    Some [{| v_Validator := id_of 1; v_StateRoot := A; v_Sig := sv_Sig (vote_for 1 A) |}] ∧
  rd_votes <$> n_rounds (again 2) !! 1 =
    Some [{| v_Validator := id_of 2; v_StateRoot := B; v_Sig := sv_Sig (vote_for 2 B) |}] ∧
  (Chain.headHeight (n_chn v1), Chain.headHash (n_chn v1)) = (1, B) ∧
  (Chain.headHeight (n_chn v3), Chain.headHash (n_chn v3)) = (1, A) ∧ A ≠ B.
Proof. evaluate. Qed.

(** Adoption recomputes the state root only, and neither TxRoot nor DARoot: the signed
    header of a block that mints an NFT also passes with an empty batch. Two nodes end
    with one head hash and different rows. *)
Theorem adopted_batch_is_not_bound :
  let b := block_at 1 (committed_by_3 [mint_tx]) in
  let forged := b <| b_Batch := [] |> in
  let r1 := tryAdoptBlockLocked b clock (joined 1) in
  let r2 := tryAdoptBlockLocked forged clock (joined 1) in
  (r1.1, r2.1) = (Ok tt, Ok tt) ∧
  Chain.headHash (n_chn r1.2) = Chain.headHash (n_chn r2.2) ∧
  txRootOf (b_Batch forged) ≠ b_TxRoot forged ∧
  (Rows.CountNFTs (st_Store (n_shared r1.2)), Rows.CountNFTs (st_Store (n_shared r2.2))) = (1, 0).
Proof. evaluate. Qed.

(** The state tree is built empty at every start while the rows and the chain persist: a
    restarted node refuses the next block its peers agree on. *)
Theorem restarted_node_is_stuck :
  let live := committed_by_3 [pay] in
  let prop := proposal [] 1 in
  let prop := prop <| bp_Height := 2 |> <| bp_Proposer := id_of 3 |> in
  let open := handleBlockProposal prop clock live in
  let voted := match n_rounds open !! 2 with Some r => rd_candidate r | None => [] end in
  let vote := vote_for 1 voted in
  let b := block_at 2 (handleStageVote (vote <| sv_Height := 2 |>) clock open) in
  let restarted := live <| n_shared := let s := n_shared (boot 3) in s <| st_Store := st_Store (n_shared live) |> |> in
  b_Height b = 2 ∧ is_ok (tryAdoptBlockLocked b clock live).1 = true ∧
  (tryAdoptBlockLocked b clock restarted).1 = Err "recomputed state root disagrees with announced".
Proof. evaluate. Qed.

(** The guards of a proposal run before [roundMu] is taken, and only the open round is
    looked at again under it. A proposal for height 1 whose guards pass just before the
    node adopts another block of height 1 is then processed on the new head: a round opens
    for a height already committed, its transfer's outputs are in the state tree on top of
    the head's, and the node refuses the next block, which it would otherwise adopt. *)
Theorem late_proposal_opens_stale_round :
  let live := committed_by_3 [] in
  let b := block_at 1 live in
  let prop := proposal [pay] 0 in
  let committee := committee_at (joined 1) 1 clock in
  let adopted := (tryAdoptBlockLocked b clock (joined 1)).2 in
  let late := process_proposal committee prop clock adopted in
  let next := proposal [] 1 in
  let next := next <| bp_Height := 2 |> <| bp_Proposer := id_of 3 |> in
  let open := handleBlockProposal next clock live in
  let voted := match n_rounds open !! 2 with Some r => rd_candidate r | None => [] end in
  let vote := vote_for 1 voted in
  let b2 := block_at 2 (handleStageVote (vote <| sv_Height := 2 |>) clock open) in
  proposal_guards prop clock (joined 1) = Some committee ∧
  proposal_guards prop clock adopted = None ∧
  (Chain.headHeight (n_chn late), rd_height <$> n_rounds late !! 1) = (1, Some 1) ∧
  Root (st_StateTree (n_shared adopted)) = b_StateRoot b ∧
  Root (st_StateTree (n_shared late)) ≠ b_StateRoot b ∧
  b_Height b2 = 2 ∧ (tryAdoptBlockLocked b2 clock adopted).1 = Ok tt ∧
  (tryAdoptBlockLocked b2 clock late).1 = Err "recomputed state root disagrees with announced".
Proof. evaluate. Qed.
End Faults.

Section every_node.
Context `{SHA : Sha256, M3 : Mode3, ED : Ed25519, SG : Mode3Signer, BR : BigRat, FR : Fr, MM : MiMC,
  GR : !Groth16, CD : Codec}.

(** A heartbeat's key is believed whatever identity it claims, although an identity is
    defined as the hash of its key: one message replaces the key any validator's votes
    are checked against. *)
Theorem heartbeat_replaces_any_key (n : Node) p env now hb :
  env_Type env = MsgHeartbeat → decode_heartbeat (env_Payload env) = Ok hb → hb_PubKey hb ≠ [] →
  pubKeyLookup (handleMessage p env now n) (hb_NFT hb) = Some (hb_PubKey hb).
Proof.
  intros Et Ed Hk. unfold handleMessage. rewrite Et, Ed. cbv zeta.
  rewrite bool_decide_eq_true_2 by reflexivity. cbn [decoded]. rewrite bool_decide_eq_false_2 by exact Hk.
  unfold pubKeyLookup. cbn. by rewrite lookup_insert_eq.
Qed.

(** A proposal is taken from whoever sends it: the envelope's sender is not compared with
    the proposer it names, and nothing in it is signed. *)
Theorem proposal_sender_is_ignored (n : Node) p q env now :
  env_Type env = MsgBlockProposal → handleMessage p env now n = handleMessage q env now n.
Proof. intros Et. unfold handleMessage. by rewrite Et. Qed.
End every_node.
