(* ===== verification/Replica.v ===== *)
(** The validator node implements the ledger: the invariant of its rounds, its simulation
    of [Ledger] over every event, and what follows for the committed chain. *)
From S2P Require Import Prelude Words Decimal Hashing Types Epoch Revolver Committee Mempool Outage.
From S2P Require Import Governance Bank Merkle Field ZkTree Circuit Groth NFT Silent Store Chain.
From S2P Require Import Pipeline Admission Batch Tally History Replay Net Node Consensus Ledger Propose.

Section replica.
Context `{SHA : Sha256, M3 : Mode3, ED : Ed25519, SG : Mode3Signer, BR : BigRat, FR : Fr, MM : MiMC,
  GR : !Groth16, CD : Codec}.
Implicit Types (n : Node) (now : Time) (r : round).

(** ** The invariant *)

Definition rows_of n : Rows := st_Store (n_shared n).
Definition tree_of n : MerkleTree := st_StateTree (n_shared n).
Definition ledger_of n : Rows * Chain.Chain := (rows_of n, n_chn n).

(** An open round is for the next height; its transaction began on the committed rows and
    holds a clean replay of its batch; its block chains onto the head, and the shared
    tree is the one that block's state root commits to. *)
Record round_ok n (h : Z) r : Prop := {
  ro_next : h = Chain.NextHeight (n_chn n);
  ro_height : rd_height r = h;
  ro_base : txn_base (rd_txn r) = rows_of n;
  ro_batch : b_Batch (rd_block r) = rd_batch r;
  ro_candidate : rd_candidate r = HashBlock (rd_block r);
  ro_replays : replays (rd_batch r) (b_Epoch (rd_block r)) (b_Height (rd_block r))
    (rows_of n) (txn_rows (rd_txn r)) (b_StateRoot (rd_block r));
  ro_root : Root (tree_of n) = b_StateRoot (rd_block r) }.

Record node_ok n : Prop := {
  no_pending : pendingNullifiers (n_shared n) = ∅;
  no_rounds : map_Forall (round_ok n) (n_rounds n) }.

(** The tree without what an open round added to it. *)
Definition settled n : MerkleTree :=
  match n_rounds n !! Chain.NextHeight (n_chn n) with
  | Some r => TruncateTo (tree_of n) (rd_treeSnapshotLen r)
  | None => tree_of n
  end.

(** The head block's state root is that of the settled tree. *)
Definition head_root n : Prop := ∀ b,
  ChainRows.GetBlock (Chain.headHeight (n_chn n)) (Chain.ch_store (n_chn n)) = Some b →
  Root (settled n) = b_StateRoot b.

(** ** Steps that implement the ledger *)

Record implements n n' : Prop := {
  im_ok : node_ok n';
  im_run : ∃ bs, ledger_run (ledger_of n) bs (ledger_of n');
  im_root : head_root n → head_root n' }.
Definition step_ok n n' : Prop := node_ok n → implements n n'.

#[export] Instance step_ok_refl : Reflexive step_ok.
Proof. intros n Hn. split; [done| |done]. exists []. constructor. Qed.
#[export] Instance step_ok_trans : Transitive step_ok.
Proof.
  intros n1 n2 n3 H12 H23 Hn. destruct (H12 Hn) as [O2 [bs R2] T2]. destruct (H23 O2) as [O3 [bs' R3] T3].
  split; [done| |auto]. exists (bs ++ bs'). by eapply ledger_app.
Qed.

(** What the invariant is about. *)
Definition core n :=
  (rows_of n, tree_of n, pendingNullifiers (n_shared n), n_chn n, n_rounds n).

Lemma core_ok n n' : core n' = core n → node_ok n → node_ok n'.
Proof.
  unfold core. intros [= E1 E2 E3 E4 E5] [Hp Hr]. split; [congruence|]. rewrite E5.
  intros h r Hl. destruct (Hr h r Hl). split; congruence.
Qed.

Lemma core_root n n' : core n' = core n → head_root n → head_root n'.
Proof.
  unfold core. intros [= E1 E2 E3 E4 E5]. unfold head_root, settled. by rewrite E2, E4, E5.
Qed.

Lemma step_core n n' : core n' = core n → step_ok n n'.
Proof.
  intros E Hn. split; [by eapply core_ok| |by apply core_root].
  exists []. unfold core in E. unfold ledger_of. injection E as -> _ _ -> _. constructor.
Qed.

(** A round's height is the next one: there is at most one. *)
Lemma rounds_cases n : node_ok n →
  n_rounds n = ∅ ∨ ∃ r, n_rounds n = {[Chain.NextHeight (n_chn n) := r]} ∧
                        round_ok n (Chain.NextHeight (n_chn n)) r.
Proof.
  intros [_ Hr]. destruct (n_rounds n !! Chain.NextHeight (n_chn n)) as [r|] eqn:E.
  - right. exists r. split; [|by apply Hr]. apply map_eq. intros h.
    destruct (decide (h = Chain.NextHeight (n_chn n))) as [->|Hne]; [by rewrite lookup_singleton_eq|].
    rewrite lookup_singleton_ne by done. destruct (n_rounds n !! h) as [r'|] eqn:E'; [|done].
    apply Hr, ro_next in E'. done.
  - left. apply map_empty. intros h. destruct (n_rounds n !! h) as [r'|] eqn:E'; [|done].
    pose proof (ro_next _ _ _ (Hr _ _ E')). congruence.
Qed.

Lemma TruncateTo_prefix m m' : mt_leaves m `prefix_of` mt_leaves m' → TruncateTo m' (tree_len m) = m.
Proof.
  intros [k Hk]. unfold TruncateTo, tree_len. rewrite Hk, length_app.
  replace (Z.of_nat (length (mt_leaves m)) <? 0) with false by (symmetry; bools; lia).
  replace (_ <? _) with false by (symmetry; bools; lia).
  rewrite Nat2Z.id, take_app_length. by destruct m.
Qed.

Lemma same_root_HashBlock b vs : HashBlock (b <| b_Votes := vs |>) = HashBlock b.
Proof. done. Qed.

(** ** Replays *)

Lemma replay_tree n batch epoch height now :
  mt_leaves (tree_of n) `prefix_of` mt_leaves (st_StateTree (replay n batch epoch height now).2).
Proof.
  unfold replay.
  pose proof (ProcessBatch_tree (deps_for n epoch height now) json_marshal (entries_of batch now) (begin_txn n)) as H.
  destruct (ProcessBatch _ _ _ _) as [results s]. cbn [snd] in H.
  destruct (firstFailure results); [exact H|]. cbn [snd].
  destruct (TallyDueProposals_keeps epoch s) as [HT _]. etrans; [exact H|exact HT].
Qed.

Lemma entries_txs batch now : e_Tx <$> entries_of batch now = batch.
Proof. unfold entries_of. rewrite <-list_fmap_compose. apply list_fmap_id. Qed.

Lemma replay_replays n batch epoch height now results s :
  replay n batch epoch height now = (results, s) → firstFailure results = None →
  replays batch epoch height (rows_of n) (st_Store s) (Root (st_StateTree s)).
Proof.
  unfold replay. destruct (ProcessBatch _ _ _ _) as [rs s1] eqn:E.
  destruct (firstFailure rs) as [f|] eqn:Ef; intros [= <- <-] Hf; [congruence|].
  eapply (replays_intro _ _ _ _ _ (deps_for n epoch height now) _ (begin_txn n)); [reflexivity|reflexivity|apply entries_txs|reflexivity|reflexivity|exact E|exact Ef|reflexivity].
Qed.

(** Discarding restores the rows and the tree. *)
Lemma discard_core n batch epoch height now :
  node_ok n → core (discard n (replay n batch epoch height now).2 (tree_len (tree_of n))) = core n.
Proof.
  intros Hn. unfold core, discard, truncate, tree_of at 1, rows_of at 1. cbn.
  rewrite (TruncateTo_prefix (tree_of n)); [by rewrite (no_pending _ Hn)|]. apply replay_tree.
Qed.

(** ** Frames *)

Lemma reinsert_core ts now n : core (reinsert_all ts now n) = core n.
Proof.
  unfold reinsert_all. revert n. induction ts as [|t ts IH]; intros n; [reflexivity|]. cbn [foldl].
  rewrite IH. unfold reinsert_pool. case_match; reflexivity.
Qed.
Lemma broadcast_core t p n : core (broadcast t p n) = core n.
Proof. unfold broadcast. case_match; reflexivity. Qed.
Lemma send_to_core peer t p n : core (send_to peer t p n) = core n.
Proof. unfold send_to. case_match; reflexivity. Qed.
Lemma prune_core batch n : core (pruneCommittedFromLocalQueues batch n) = core n.
Proof. reflexivity. Qed.
Lemma note_core b n : core (noteCommittedBlock b n) = core n.
Proof. unfold noteCommittedBlock. case_match; reflexivity. Qed.
Lemma requestCatchUp_core p from to n : core (requestCatchUp p from to n) = core n.
Proof. unfold requestCatchUp. case_match; [reflexivity|]. apply send_to_core. Qed.
Lemma handleBlockRequest_core p req n : core (handleBlockRequest p req n) = core n.
Proof. unfold handleBlockRequest. repeat case_match; try reflexivity; apply send_to_core. Qed.
Lemma outage_reinsert_core ts n : core (outage_reinsert ts n) = core n.
Proof. reflexivity. Qed.
Lemma send_parts_core parts n : core (send_parts parts n) = core n.
Proof. revert n. induction parts as [|p parts IH]; intros n; [reflexivity|]. cbn. case_match; [|reflexivity]. rewrite IH. reflexivity. Qed.
Lemma broadcastMegabatchPart_core h batch n : core (broadcastMegabatchPart h batch n) = core n.
Proof. unfold broadcastMegabatchPart. case_match; [|reflexivity]. apply send_parts_core. Qed.
Lemma handleMegabatchPart_core p part n : core (handleMegabatchPart p part n) = core n.
Proof.
  unfold handleMegabatchPart, recordCompletedMegabatch. repeat (case_match; try reflexivity).
Qed.
Lemma evaluateOutage_core now n : core (evaluateOutage now n) = core n.
Proof. unfold evaluateOutage. repeat (case_match; try reflexivity). Qed.
Lemma handle_offer_core env t now n : core (handle_offer env t now n) = core n.
Proof. unfold handle_offer. repeat (case_match; try reflexivity). Qed.
Lemma sendHeartbeat_core now n : core (sendHeartbeat now n) = core n.
Proof. unfold sendHeartbeat. case_match; [reflexivity|]. rewrite broadcast_core. reflexivity. Qed.
Lemma SeedEligibility_core c n : core (SeedEligibility c n).2 = core n.
Proof. unfold SeedEligibility. repeat (case_match; try reflexivity). Qed.

Lemma buildProposalBatch_core dual now n : core (buildProposalBatch dual now n).2 = core n.
Proof.
  unfold buildProposalBatch. destruct (Mempool.DrainBatchBytes _ _ _ _ _) as [entries m].
  destruct (filterReadyReveals _ (e_Tx <$> entries)) as [batch deferred]. cbv zeta.
  assert (E1 : core (reinsert_all deferred now (n <| n_mempool := m |>)) = core n) by (rewrite reinsert_core; reflexivity).
  destruct (negb dual); [exact E1|]. destruct (marshaledSize batch); [|exact E1].
  case_match; [exact E1|]. destruct (Outage.BuildMegabatch _ _) as [drained o].
  destruct (filterReadyReveals _ drained) as [mega deferred'].
  match goal with |- core (match _ with Ok _ => _ | Err _ => (_, ?m) end).2 = _ =>
    assert (E2 : core m = core n) end.
  { rewrite outage_reinsert_core. case_match; [exact E1|]. rewrite broadcastMegabatchPart_core. exact E1. }
  destruct (splitByByteBudget _ _) as [[fit overflow]|]; exact E2.
Qed.
End replica.

(** * The simulation *)

Section simulation.
Context `{SHA : Sha256, M3 : Mode3, ED : Ed25519, SG : Mode3Signer, BR : BigRat, FR : Fr, MM : MiMC,
  GR : !Groth16, CD : Codec}.
Implicit Types (n : Node) (now : Time) (r : round).

(** Rolling the open round back: its tree additions are cut off. *)
Lemma step_drop n n' r :
  n_rounds n !! Chain.NextHeight (n_chn n) = Some r →
  core n' = (rows_of n, TruncateTo (tree_of n) (rd_treeSnapshotLen r), pendingNullifiers (n_shared n), n_chn n, ∅) →
  step_ok n n'.
Proof.
  unfold core. intros Er [= E1 E2 E3 E4 E5] Hn. split.
  - split; [rewrite E3; apply Hn|]. rewrite E5. apply map_Forall_empty.
  - exists []. unfold ledger_of. rewrite E1, E4. constructor.
  - unfold head_root, settled. by rewrite Er, E2, E4, E5, lookup_empty.
Qed.

(** Committing a replayed block that the chain accepts. *)
Lemma step_commit n n' b committee lookup chn tree rows :
  replays (b_Batch b) (b_Epoch b) (b_Height b) (rows_of n) rows (b_StateRoot b) →
  Chain.Append (n_chn n) b committee lookup = Ok chn → Root tree = b_StateRoot b →
  core n' = (rows, tree, ∅, chn, ∅) → step_ok n n'.
Proof.
  unfold core. intros Hr Ha Ht [= E1 E2 E3 E4 E5] Hn.
  assert (He : extends (ledger_of n) b (ledger_of n')).
  { unfold ledger_of. rewrite E1, E4. by econstructor. }
  split.
  - split; [exact E3|]. rewrite E5. apply map_Forall_empty.
  - exists [b]. by apply ledger_one.
  - intros _ b' Hb'. apply extends_chain in He as (_ & Eh & Hget). cbn [ledger_of snd] in *.
    rewrite Eh, Hget, decide_True in Hb' by done. injection Hb' as <-.
    unfold settled. by rewrite E5, lookup_empty, E2.
Qed.

Lemma singleton_round n h r : node_ok n → n_rounds n !! h = Some r →
  h = Chain.NextHeight (n_chn n) ∧ delete h (n_rounds n) = ∅ ∧ round_ok n h r.
Proof.
  intros Hn E. pose proof (no_rounds _ Hn _ _ E) as Hr. pose proof (ro_next _ _ _ Hr) as Eh.
  split_and!; [done| |done]. destruct (rounds_cases n Hn) as [E0|(r' & Es & _)].
  - by rewrite E0, lookup_empty in E.
  - rewrite Es, Eh. apply delete_singleton_eq.
Qed.

Lemma tryFinalize_step height now n : step_ok n (tryFinalizeLocked height now n).
Proof.
  intros Hn. unfold tryFinalizeLocked. destruct (n_rounds n !! height) as [r|] eqn:Er; [|by apply step_ok_refl].
  destruct (singleton_round n height r Hn Er) as (Eh & Ed & Hr).
  destruct (TallyVotes _ _ _) as [k quorum]. destruct quorum; cbn [negb]; [|by apply step_ok_refl].
  cbv zeta. destruct (Chain.Append _ _ _ _) as [chn|e] eqn:Ea.
  - pose proof (no_pending _ Hn) as Hp. revert Hn.
    eapply (step_commit _ _ _ _ _ chn (tree_of n) (txn_rows (rd_txn r))); [|exact Ea| |].
    + cbn. rewrite (ro_batch _ _ _ Hr). apply Hr.
    + apply Hr.
    + rewrite broadcast_core, note_core. unfold core. cbn. rewrite Ed, Hp. reflexivity.
  - revert Hn. eapply step_drop; [by rewrite <-Eh|]. rewrite reinsert_core. unfold core. cbn.
    rewrite Ed. reflexivity.
Qed.

(** A proposal a node acts on: for the next height, of the assigned proposer, for a
    committee the node is in, of the current epoch, with no round open for the height. *)
Definition proposal_expected (prop : BlockProposalPayload) now n : bool :=
  (bp_Height prop =? Chain.NextHeight (n_chn n)) &&
  bool_decide (head (committee_at n (bp_Height prop) now) = Some (bp_Proposer prop)) &&
  containsID (committee_at n (bp_Height prop) now) (n_identity n) &&
  (bp_Epoch prop =? CurrentEpoch (Genesis (n_cfg n)) now) &&
  bool_decide (n_rounds n !! bp_Height prop = None).
(** The round it opens. *)
Definition open_round prop s sig now n : round := round_of (committee_at n (bp_Height prop) now) prop s sig now n.

Lemma handleBlockProposal_unexpected prop now n :
  proposal_expected prop now n = false → handleBlockProposal prop now n = n.
Proof.
  unfold proposal_expected, handleBlockProposal, proposal_guards, process_proposal. intros Hx.
  destruct (_ =? Chain.NextHeight _); cbn [negb andb] in *; [|done].
  destruct (bool_decide (head _ = _)); cbn [negb andb] in *; [|done].
  destruct (containsID _ _); cbn [negb andb] in *; [|done].
  destruct (_ =? CurrentEpoch _ _); cbn [negb andb] in *; [|done].
  apply bool_decide_eq_false in Hx. by destruct (n_rounds n !! bp_Height prop).
Qed.
Lemma handleBlockProposal_expected prop now n :
  proposal_expected prop now n = true →
  handleBlockProposal prop now n = process_proposal (committee_at n (bp_Height prop) now) prop now n ∧
  n_rounds n !! bp_Height prop = None.
Proof.
  unfold proposal_expected, handleBlockProposal, proposal_guards. rewrite !andb_true_iff.
  intros ((((-> & ->) & ->) & ->) & ?%bool_decide_eq_true). done.
Qed.

(** With no round open, a failed replay leaves no mark on the core. *)
Lemma handleBlockProposal_step prop now n : step_ok n (handleBlockProposal prop now n).
Proof.
  intros Hn. destruct (proposal_expected prop now n) eqn:Ex;
    [|rewrite handleBlockProposal_unexpected by done; by apply step_ok_refl].
  destruct (handleBlockProposal_expected prop now n Ex) as [-> E0]. unfold process_proposal. rewrite E0. clear E0.
  pose proof (discard_core n (bp_Batch prop) (bp_Epoch prop) (bp_Height prop) now Hn) as Hd.
  pose proof (replay_tree n (bp_Batch prop) (bp_Epoch prop) (bp_Height prop) now) as Ht.
  destruct (replay _ _ _ _ _) as [results s] eqn:E. cbn [snd] in Hd, Ht.
  destruct (firstFailure results) as [f|] eqn:Ef.
  { revert Hn. apply step_core. rewrite reinsert_core. exact Hd. }
  destruct (DilithiumSign _ _) as [sig|e] eqn:Es; [|revert Hn; apply step_core; exact Hd].
  cbv zeta. unfold proposal_expected in Ex. rewrite !andb_true_iff in Ex.
  destruct Ex as ((((Eh & _) & _) & _) & Eno). apply Z.eqb_eq in Eh. apply bool_decide_eq_true in Eno.
  assert (Hopen : step_ok n (pruneCommittedFromLocalQueues (bp_Batch prop) (n <| n_shared := hold n s |>
      <| n_rounds ::= <[bp_Height prop := open_round prop s sig now n]> |>))).
  { clear Hn. intros Hn. split.
    - split; [reflexivity|]. cbn. destruct (rounds_cases n Hn) as [E0|(r' & E0 & _)].
      2:{ by rewrite E0, Eh, lookup_singleton_eq in Eno. }
      rewrite E0, insert_empty. apply map_Forall_singleton. split; cbn; try reflexivity; [exact Eh|].
      unfold candidate_block. cbn. pose proof (replay_replays _ _ _ _ _ _ _ E Ef) as Hr.
      unfold Chain.NextHeight in Eh. rewrite <-Eh. exact Hr.
    - exists []. constructor.
    - intros Hh b Hb. specialize (Hh b Hb). unfold settled in *. cbn. rewrite <-Eh in Hh |- *.
      rewrite Eno in Hh. rewrite lookup_insert_eq. cbn [rd_treeSnapshotLen open_round].
      change (Root (TruncateTo (st_StateTree s) (tree_len (tree_of n))) = b_StateRoot b).
      by rewrite (TruncateTo_prefix _ _ Ht). }
  destruct (NewEnvelope _ _) as [env|e]; [|by apply Hopen].
  apply (step_ok_trans _ _ _ Hopen); [|done]. etrans; [|apply tryFinalize_step]. by apply step_core.
Qed.

Lemma handleStageVote_step v now n : step_ok n (handleStageVote v now n).
Proof.
  intros Hn. unfold handleStageVote. destruct (n_rounds n !! sv_Height v) as [r|] eqn:Er; [|by apply step_ok_refl].
  case_match; [by apply step_ok_refl|]. destruct (pubKeyLookup _ _) as [pk|]; [|by apply step_ok_refl].
  case_match; [|by apply step_ok_refl]. cbv zeta.
  destruct (singleton_round n _ r Hn Er) as (Eh & Ed & Hr).
  apply (step_ok_trans n (n <| n_rounds ::= <[sv_Height v := r <| rd_votes ::= λ vs, vs ++
    [{| v_Validator := sv_Validator v; v_StateRoot := sv_CandidateHash v; v_Sig := sv_Sig v |}] |>]> |>));
    [|apply tryFinalize_step|exact Hn].
  clear Hn. intros Hn. split.
  - split; [apply Hn|]. cbn. apply map_Forall_insert_2; [|].
    + destruct Hr. by split.
    + intros h r' E'. destruct (no_rounds _ Hn _ _ E'). by split.
  - exists []. constructor.
  - unfold head_root, settled. cbn. rewrite Eh, lookup_insert_eq. rewrite Eh in Er. by rewrite Er.
Qed.

Lemma supersede_step n : let n' := supersede (Chain.NextHeight (n_chn n)) n in
  step_ok n n' ∧ (node_ok n → n_rounds n' = ∅ ∧ rows_of n' = rows_of n ∧ n_chn n' = n_chn n).
Proof.
  intros n'. unfold n', supersede. destruct (n_rounds n !! _) as [r|] eqn:Er.
  - split.
    + intros Hn. revert Hn. intros Hn. destruct (singleton_round n _ r Hn Er) as (_ & Ed & _).
      revert Hn. eapply step_drop; [exact Er|]. unfold core. cbn. rewrite Ed. reflexivity.
    + intros Hn. destruct (singleton_round n _ r Hn Er) as (_ & Ed & _). cbn. rewrite Ed. done.
  - split; [apply step_ok_refl|]. intros Hn. split; [|done].
    destruct (rounds_cases n Hn) as [E0|(r' & E0 & _)]; [done|]. by rewrite E0, lookup_singleton_eq in Er.
Qed.

Lemma tryAdopt_step b now n : step_ok n (tryAdoptBlockLocked b now n).2.
Proof.
  unfold tryAdoptBlockLocked. destruct (Z.eqb_spec (b_Height b) (Chain.NextHeight (n_chn n))) as [Eh|];
    cbn [negb]; [|apply step_ok_refl].
  rewrite Eh. destruct (supersede_step n) as [Hs Hs']. set (n1 := supersede _ n) in *.
  intros Hn. destruct (Hs' Hn) as (Hr0 & Hrows & Hchn). apply (step_ok_trans _ _ _ Hs); [|exact Hn].
  intros Hn1. rewrite <-Eh.
  pose proof (discard_core n1 (b_Batch b) (b_Epoch b) (b_Height b) now Hn1) as Hd.
  destruct (replay _ _ _ _ _) as [results s] eqn:E. cbn [snd] in Hd.
  destruct (firstFailure results) as [f|] eqn:Ef; [revert Hn1; apply step_core; exact Hd|].
  case_bool_decide as Eroot; cbn [negb]; [|revert Hn1; apply step_core; exact Hd].
  destruct (Chain.Append _ _ _ _) as [chn|e] eqn:Ea; [|revert Hn1; apply step_core; exact Hd].
  cbv zeta. cbn [snd]. revert Hn1. eapply step_commit; [|exact Ea|exact Eroot|].
  - rewrite <-Eroot. eapply replay_replays; [exact E|exact Ef].
  - rewrite note_core, prune_core. unfold core. cbn. rewrite Hr0. reflexivity.
Qed.

Lemma adopt_all_step blocks now n : step_ok n (adopt_all blocks now n).
Proof.
  revert n. induction blocks as [|b blocks IH]; intros n; cbn [adopt_all]; [apply step_ok_refl|].
  case_match; [apply IH|]. case_match; [apply step_ok_refl|].
  pose proof (tryAdopt_step b now n) as H1. destruct (tryAdoptBlockLocked b now n) as [[u|e] n1]; cbn [snd] in H1;
    [|exact H1]. etrans; [exact H1|apply IH].
Qed.

Lemma retry_core peers now expired n :
  core (foldl (λ n r, foldl (λ n p, requestCatchUp p (rd_height r) (rd_height r) n)
    (reinsert_all (rd_batch r) now n) peers) n expired) = core n.
Proof.
  assert (Hin : ∀ h n, core (foldl (λ n p, requestCatchUp p h h n) n peers) = core n).
  { intros h. induction peers as [|p peers IH]; intros m; [reflexivity|]. cbn [foldl].
    rewrite IH. apply requestCatchUp_core. }
  revert n. induction expired as [|r expired IH]; intros n; [reflexivity|]. cbn [foldl].
  rewrite IH, Hin. apply reinsert_core.
Qed.

Lemma sweepTimeouts_step peers now n : step_ok n (sweepTimeouts peers now n).
Proof.
  intros Hn. unfold sweepTimeouts. cbv zeta. destruct (rounds_cases n Hn) as [E0|(r & Es & Hr)].
  - revert Hn. apply step_core. rewrite retry_core. rewrite E0, map_to_list_empty. unfold core. cbn.
    rewrite E0. reflexivity.
  - assert (El : n_rounds n !! Chain.NextHeight (n_chn n) = Some r) by (rewrite Es; apply lookup_singleton_eq).
    destruct (decide (rd_deadline r < now)) as [Hlt|Hge].
    + revert Hn. eapply step_drop; [exact El|]. rewrite retry_core.
      rewrite Es, map_to_list_singleton. cbn [fmap list_fmap snd]. rewrite filter_cons_True by done.
      unfold core. cbn. rewrite Es, map_filter_singleton_False by (cbn; tauto). reflexivity.
    + revert Hn. apply step_core. rewrite retry_core.
      rewrite Es, map_to_list_singleton. cbn [fmap list_fmap snd]. rewrite filter_cons_False by done.
      unfold core. cbn. rewrite Es, map_filter_singleton_True by done. reflexivity.
Qed.

Lemma maybePropose_step now n : step_ok n (maybePropose now n).
Proof.
  unfold maybePropose. case_match; [apply step_ok_refl|]. case_match; [apply step_ok_refl|]. cbv zeta.
  pose proof (buildProposalBatch_core (Outage.Active (n_outage n)) now n) as Hc.
  destruct (buildProposalBatch _ now n) as [batch n1]. cbn [snd] in Hc.
  pose proof (step_core n n1 Hc) as H1. case_match; [exact H1|].
  destruct (NewEnvelope _ _) as [env|e]; [|exact H1].
  etrans; [|apply handleBlockProposal_step]. etrans; [exact H1|]. apply step_core. reflexivity.
Qed.

Lemma decoded_step {A} (res : result A) k n : (∀ a, step_ok n (k a n)) → step_ok n (decoded res k n).
Proof. intros H. unfold decoded. destruct res; [apply H|apply step_ok_refl]. Qed.

Lemma handleMessage_step p env now n : step_ok n (handleMessage p env now n).
Proof.
  unfold handleMessage. cbv zeta. repeat case_match; try (apply decoded_step; intros a); [..|apply step_ok_refl].
  - case_match; [apply step_ok_refl|]. apply step_core. reflexivity.
  - apply step_core, handle_offer_core.
  - apply handleBlockProposal_step.
  - apply handleStageVote_step.
  - unfold handleBlockAnnounce. case_match; [apply step_ok_refl|].
    case_match; [apply step_core, requestCatchUp_core|apply tryAdopt_step].
  - apply step_core, handleBlockRequest_core.
  - apply adopt_all_step.
  - apply step_core, handleMegabatchPart_core.
Qed.

Lemma event_step e n : step_ok n (apply_node_event n e).
Proof.
  destruct e as [p env now|peers now|now|t now|c]; cbn [apply_node_event].
  - apply handleMessage_step.
  - unfold round_tick. etrans; [apply step_core, (evaluateOutage_core now)|].
    etrans; [apply sweepTimeouts_step|apply maybePropose_step].
  - apply step_core, sendHeartbeat_core.
  - apply step_core. case_match; reflexivity.
  - apply step_core, SeedEligibility_core.
Qed.

Lemma run_step es n : step_ok n (run_node n es).
Proof.
  unfold run_node. revert n. induction es as [|e es IH]; intros n; [apply step_ok_refl|].
  cbn [foldl]. etrans; [apply event_step|apply IH].
Qed.

End simulation.
