(* ===== verification/Agreement.v ===== *)
(** What the validators guarantee: the properties of a node over any sequence of events,
    of one proposal and of one adoption, and the agreement of a voter with an adopter. *)
From S2P Require Import Prelude Words Decimal Hashing Types Epoch Revolver Committee Mempool Outage.
From S2P Require Import Governance Bank Merkle Field ZkTree Circuit Groth NFT Silent Store Chain.
From S2P Require Import Pipeline Admission Batch Tally Local History Replay Net Node Consensus Ledger.
From S2P Require Import Sample Propose NodeSample Replica.

(** A node as [NewNode] makes it, over the given rows, state tree and chain. *)
Inductive starts `{SHA : Sha256, FR : Fr, MM : MiMC, GR : !Groth16} :
  Node → Rows → MerkleTree → Chain.Chain → Prop :=
| starts_intro cfg store tree chn zk vlt oracle attestors ezk mzk szk uzk pool pk sk sentinel now :
    starts (NewNode cfg store tree chn zk vlt oracle attestors ezk mzk szk uzk pool pk sk sentinel now)
      store tree chn.

Section agreement.
Context `{SHA : Sha256, M3 : Mode3, ED : Ed25519, SG : Mode3Signer, BR : BigRat, FR : Fr, MM : MiMC,
  GR : !Groth16, CD : Codec}.
Implicit Types (n : Node) (now : Time) (r : round).

Lemma starts_core n store tree chn : starts n store tree chn → core n = (store, tree, ∅, chn, ∅).
Proof. intros []. unfold NewNode. cbv zeta. destruct sentinel; reflexivity. Qed.

Lemma starts_ok n store tree chn : starts n store tree chn →
  node_ok n ∧ ledger_of n = (store, chn) ∧ settled n = tree ∧ n_chn n = chn.
Proof.
  intros H%starts_core. unfold core in H. injection H as E1 E2 E3 E4 E5. split_and!.
  - split; [exact E3|]. rewrite E5. apply map_Forall_empty.
  - unfold ledger_of. by rewrite E1, E4.
  - unfold settled. by rewrite E5, lookup_empty.
  - exact E4.
Qed.

(** ** One vote is no quorum *)

Lemma committeeSize_ge k : 5 ≤ committeeSize k.
Proof. unfold committeeSize, ValidatorsPerStage. repeat case_match; vm_compute; discriminate. Qed.

Lemma committee_two n height now :
  committee_at n height now ≠ [] → (2 ≤ length (committee_at n height now))%nat.
Proof.
  unfold committee_at. set (ids := onlineSet n now). pose proof (committeeSize_ge (Z.of_nat (length ids))) as Hc.
  generalize dependent (committeeSize (Z.of_nat (length ids))). intros count Hc Hne.
  unfold AssignCommittee, MinCommitteeSize in *. destruct (Z.ltb_spec (Z.of_nat (length ids)) 2) as [|Hl]; [done|].
  set (k := if Z.of_nat (length ids) <? count then Z.of_nat (length ids) else count) in *.
  assert (2 ≤ k) by (unfold k; destruct (Z.ltb_spec (Z.of_nat (length ids)) count); lia).
  rewrite (proj2 (Z.leb_gt k 0)) by lia. rewrite length_fmap, length_seqZ. lia.
Qed.

Lemma one_vote_no_quorum (committee : list NFTID) candidate v :
  (2 ≤ length committee)%nat → (TallyVotes committee candidate [v]).2 = false.
Proof.
  intros Hl. pose proof (TallyVotes_size committee candidate [v]) as Hs. unfold TallyVotes in *. cbn [fst snd] in *.
  rewrite Hs. unfold BFTQuorumMet.
  assert ((size (voters_for candidate [v] ∩ list_to_set committee) ≤ 1)%nat).
  { rewrite <-(size_singleton (v_Validator v) (C := gset NFTID)). apply subseteq_size.
    rewrite voters_for_cons. case_decide; unfold voters_for; cbn; set_solver. }
  case_match; bools; [done|]. apply Z.ltb_ge. lia.
Qed.

Lemma rounds_of_expected prop now n : node_ok n → proposal_expected prop now n = true →
  n_rounds n = ∅ ∧ bp_Height prop = Chain.NextHeight (n_chn n) ∧
  (2 ≤ length (committee_at n (bp_Height prop) now))%nat.
Proof.
  intros Hn Hx. unfold proposal_expected in Hx. rewrite !andb_true_iff in Hx.
  destruct Hx as ((((Eh & Hhd) & _) & _) & Eno).
  apply Z.eqb_eq in Eh. apply bool_decide_eq_true in Hhd, Eno. split_and!; [|done|].
  - destruct (rounds_cases n Hn) as [E0|(r' & E0 & _)]; [done|].
    by rewrite E0, Eh, lookup_singleton_eq in Eno.
  - apply committee_two. intros E. by rewrite E in Hhd.
Qed.

(** What a vote cast for a proposal leaves. *)
Record voted prop (s : State) (sig : bytes) now n n' : Prop := {
  vt_rounds : n_rounds n' = {[bp_Height prop := open_round prop s sig now n]};
  vt_shared : n_shared n' = hold n s;
  vt_chn : n_chn n' = n_chn n;
  vt_sent : ∀ env, NewEnvelope MsgStageVote (PStageVote {| sv_Height := bp_Height prop;
      sv_Validator := n_identity n; sv_CandidateHash := rd_candidate (open_round prop s sig now n);
      sv_Sig := sig |}) = Ok env → n_sent n' = n_sent n ++ [Broadcast env] }.

Lemma handleBlockProposal_votes prop now n results s sig :
  node_ok n → proposal_expected prop now n = true →
  replay n (bp_Batch prop) (bp_Epoch prop) (bp_Height prop) now = (results, s) →
  firstFailure results = None → DilithiumSign (n_sk n) (HashBlock (candidate_block prop s n)) = Ok sig →
  voted prop s sig now n (handleBlockProposal prop now n).
Proof.
  intros Hn Hx E Ef Es. destruct (rounds_of_expected prop now n Hn Hx) as (E0 & Eh & Hlen).
  destruct (handleBlockProposal_expected prop now n Hx) as [-> Eno]. unfold process_proposal.
  rewrite Eno, E, Ef, Es. cbv zeta. fold (open_round prop s sig now n). set (r := open_round prop s sig now n).
  destruct (NewEnvelope _ _) as [env|e] eqn:Ee.
  - unfold tryFinalizeLocked. cbn [n_rounds send pruneCommittedFromLocalQueues].
    match goal with |- context [?m !! bp_Height prop] => assert (El : m !! bp_Height prop = Some r) end.
    { cbn. apply lookup_insert_eq. }
    rewrite El. pose proof (one_vote_no_quorum (rd_committee r) (rd_candidate r) {| v_Validator := n_identity n;
      v_StateRoot := rd_candidate r; v_Sig := sig |} Hlen) as Hq.
    change (rd_votes r) with [{| v_Validator := n_identity n; v_StateRoot := rd_candidate r; v_Sig := sig |}].
    destruct (TallyVotes _ _ _) as [k q]. cbn in Hq. subst q. cbn [negb].
    split; cbn; [by rewrite E0, insert_empty|reflexivity|reflexivity|].
    intros env' Ee'. assert (E' : Ok env = Ok env') by (rewrite <-Ee, <-Ee'; reflexivity). injection E' as <-. reflexivity.
  - split; cbn; [by rewrite E0, insert_empty|reflexivity|reflexivity|].
    intros env' Ee'. assert (E' : Err e = Ok env') by (rewrite <-Ee, <-Ee'; reflexivity). discriminate E'.
Qed.

Lemma reinsert_sent ts now n : n_sent (reinsert_all ts now n) = n_sent n.
Proof.
  unfold reinsert_all. revert n. induction ts as [|t ts IH]; intros n; [reflexivity|]. cbn [foldl].
  rewrite IH. unfold reinsert_pool. case_match; reflexivity.
Qed.

(** ** Adoption *)

(** The checks an announced block has to pass. *)
Definition adoptable (b : Block) now n : Prop :=
  b_Height b = Chain.NextHeight (n_chn n) ∧
  let '(results, s) := replay (supersede (b_Height b) n) (b_Batch b) (b_Epoch b) (b_Height b) now in
  firstFailure results = None ∧ Root (st_StateTree s) = b_StateRoot b ∧
  is_ok (Chain.Append (n_chn n) b (committee_at n (b_Height b) now) (pubKeyLookup n)) = true.

Lemma supersede_frame height n :
  n_chn (supersede height n) = n_chn n ∧ n_online (supersede height n) = n_online n ∧
  n_sent (supersede height n) = n_sent n ∧ rows_of (supersede height n) = rows_of n.
Proof. unfold supersede. case_match; split_and!; reflexivity. Qed.
(** ** Voter and adopter *)

Lemma broadcast_shared t p n : n_shared (broadcast t p n) = n_shared n.
Proof. unfold broadcast. case_match; reflexivity. Qed.
Lemma note_shared b n : n_shared (noteCommittedBlock b n) = n_shared n.
Proof. unfold noteCommittedBlock. case_match; reflexivity. Qed.

(** A finalization that moved the chain committed the round's block. *)
Lemma tryFinalize_commits h r now n :
  n_rounds n !! h = Some r → n_chn (tryFinalizeLocked h now n) ≠ n_chn n →
  let b := rd_block r in
  let b := b <| b_Votes := rd_votes r |> in
  Chain.Append (n_chn n) b (rd_committee r) (pubKeyLookup n) = Ok (n_chn (tryFinalizeLocked h now n)) ∧
  n_shared (tryFinalizeLocked h now n) = n_shared (commit (rd_txn r) n).
Proof.
  intros Er. unfold tryFinalizeLocked. rewrite Er. destruct (TallyVotes _ _ _) as [k quorum].
  destruct quorum; cbn [negb]; [|done]. cbv zeta. destruct (Chain.Append _ _ _ _) as [chn|e] eqn:Ea.
  - intros _. set (n2 := broadcast _ _ _).
    assert (E1 : n_chn n2 = chn).
    { assert (Ec : core n2 = (txn_rows (rd_txn r), tree_of n, pendingNullifiers (n_shared n), chn, delete h (n_rounds n)))
        by (unfold n2; rewrite broadcast_core, note_core; reflexivity).
      unfold core in Ec. by injection Ec. }
    rewrite E1. split; [reflexivity|]. unfold n2. rewrite broadcast_shared, note_shared. reflexivity.
  - intros Hc. exfalso. apply Hc.
    match goal with |- n_chn (reinsert_all ?ts ?t ?m) = _ => pose proof (reinsert_core ts t m) as Ec end.
    unfold core in Ec. by injection Ec.
Qed.

(** Two nodes that agree on what the chain does: the chain, the shared state but for the
    rate monitor and the oracle, and the keys and attestors they check against. *)
Definition same_replica (na nb : Node) : Prop :=
  same_core (n_shared na) (n_shared nb) ∧ n_chn nb = n_chn na ∧ (∀ e h t, deps_for nb e h t = deps_for na e h t).

(** The node's own checks of a batch at an instant: its rate monitor lets every signer
    through, its oracle confirms every price, no attestation has expired. *)
Definition locally_passes nb (batch : list ShieldedTx) (epoch height : Z) now : option local_part :=
  batch_passes (deps_for nb epoch height now) batch (local_of (n_shared nb)).

(** A batch that replays on one node replays on another, at another instant, exactly when
    the other's own checks pass, and to the same state but for what they keep. *)
Lemma local_replay na nb batch e h now now' results s :
  same_replica na nb → replay na batch e h now = (results, s) → firstFailure results = None →
  match locally_passes nb batch e h now' with
  | Some l => replay nb batch e h now' = (results, localize l s)
  | None => firstFailure (replay nb batch e h now').1 ≠ None
  end.
Proof.
  intros (Hs & _ & Ed) E Hf. unfold replay, entries_of, locally_passes in *. rewrite Ed.
  assert (Eb : begin_txn nb = localize (local_of (n_shared nb)) (begin_txn na)).
  { apply (same_core_localize (begin_txn na) (begin_txn nb)); [by destruct Hs; split|done]. }
  rewrite Eb. change (deps_for na e h now') with (at_instant now' (deps_for na e h now)).
  destruct (ProcessBatch json_marshal (deps_for na e h now) _ (begin_txn na)) as [rs s1] eqn:Ep.
  assert (Er : rs = results) by (destruct (firstFailure rs); by injection E).
  subst rs. rewrite Hf in E. injection E as Es.
  pose proof (ProcessBatch_follows json_marshal (deps_for na e h now) now' batch (begin_txn na) results s1
    (local_of (n_shared nb)) Ep (proj1 (firstFailure_None _) Hf)) as H. cbv zeta in H.
  destruct (batch_passes _ _ _) as [l|].
  - rewrite H, Hf. f_equal. rewrite tally_localize. by destruct (TallyDueProposals e s1); cbn in Es; subst.
  - rewrite <-firstFailure_None in H. clear Ep. destruct (ProcessBatch _ (at_instant _ _) _ _) as [rs s2]. cbn [fst] in H.
    destruct (firstFailure rs) eqn:Ef; cbn [fst]; [by rewrite Ef|by destruct H].
Qed.
End agreement.

(** * Properties *)

Module AgreementSpec.
(** C1: a node implements the replicated ledger. From [NewNode], over any sequence of
    received messages, round ticks, heartbeats and submissions: the committed rows and
    the chain evolve only by whole blocks, each accepted by the chain with a quorum and
    each with a batch that replays without a failure to the state root the block
    announces and to the rows the node now holds; and the node has at most one open
    round, for the next height, whose transaction began on the committed rows. *)
Theorem node_implements_ledger `{SHA : Sha256, M3 : Mode3, ED : Ed25519, SG : Mode3Signer,
    BR : BigRat, FR : Fr, MM : MiMC, GR : !Groth16, CD : Codec} n store tree chn es :
  starts n store tree chn →
  let n' := run_node n es in
  (∃ bs, ledger_run (store, chn) bs (ledger_of n')) ∧
  (∀ h r, n_rounds n' !! h = Some r →
     h = Chain.NextHeight (n_chn n') ∧ txn_base (rd_txn r) = rows_of n' ∧
     replays (rd_batch r) (b_Epoch (rd_block r)) (b_Height (rd_block r)) (rows_of n')
       (txn_rows (rd_txn r)) (b_StateRoot (rd_block r))).
Proof.
  intros Hs n'. destruct (starts_ok _ _ _ _ Hs) as (Hn & El & _ & _).
  destruct (run_step es n Hn) as [[_ Hr] Hrun _]. rewrite El in Hrun. split; [exact Hrun|].
  intros h r Er. destruct (Hr h r Er). auto.
Qed.

(** C2: no double spend over the life of the chain. Whatever a node receives, the blocks
    it commits on top of the chain it started from can be read back at consecutive
    heights, and their transactions consume pairwise distinct nullifiers, none of them
    spent before and all of them recorded as spent after. *)
Theorem chain_never_double_spends `{SHA : Sha256, M3 : Mode3, ED : Ed25519, SG : Mode3Signer,
    BR : BigRat, FR : Fr, MM : MiMC, GR : !Groth16, CD : Codec} n store tree chn es :
  starts n store tree chn →
  let n' := run_node n es in
  ∃ bs,
    let ns := concat (block_nullifiers <$> bs) in
    NoDup ns ∧ Forall (λ x, x ∉ Rows.nullifiers store ∧ x ∈ Rows.nullifiers (rows_of n')) ns ∧
    Rows.nullifiers store ⊆ Rows.nullifiers (rows_of n') ∧
    (0 ≤ Chain.headHeight chn → Chain.headHeight chn + Z.of_nat (length bs) < 2 ^ 64 →
     Chain.headHeight (n_chn n') = Chain.headHeight chn + Z.of_nat (length bs) ∧
     ∀ i b, bs !! i = Some b →
       ChainRows.GetBlock (Chain.headHeight chn + 1 + Z.of_nat i) (Chain.ch_store (n_chn n')) = Some b).
Proof.
  intros Hs n'. destruct (starts_ok _ _ _ _ Hs) as (Hn & El & _ & _).
  destruct (run_step es n Hn) as [_ [bs Hrun] _]. rewrite El in Hrun. exists bs.
  destruct (ledger_spends _ _ _ Hrun) as (Hnd & HF & Hsub). split_and!; [done..|].
  intros H0 Hlt. destruct (ledger_chain _ _ _ Hrun H0 Hlt) as (Hh & _ & Hb). done.
Qed.

(** C3: the tree tracks the head. If the state root of the head block is that of the state
    tree the node started with, then it is so after every sequence of events, once what
    an open round has tentatively appended is cut off: rejected, timed-out and superseded
    rounds leave the tree exactly as the chain says. *)
Theorem state_root_tracks_head `{SHA : Sha256, M3 : Mode3, ED : Ed25519, SG : Mode3Signer,
    BR : BigRat, FR : Fr, MM : MiMC, GR : !Groth16, CD : Codec} n store tree chn es :
  starts n store tree chn →
  (∀ b, ChainRows.GetBlock (Chain.headHeight chn) (Chain.ch_store chn) = Some b → Root tree = b_StateRoot b) →
  let n' := run_node n es in
  ∀ b, ChainRows.GetBlock (Chain.headHeight (n_chn n')) (Chain.ch_store (n_chn n')) = Some b →
    Root (settled n') = b_StateRoot b.
Proof.
  intros Hs Hb n'. destruct (starts_ok _ _ _ _ Hs) as (Hn & _ & Et & Ec).
  apply (run_step es n Hn). unfold head_root. by rewrite Et, Ec.
Qed.

(** C4: a proposal is never committed by the node that handles it alone. An unexpected
    one (wrong height, proposer, epoch or committee, or a round already open) changes
    nothing. One with a failing transaction leaves rows, state tree, chain and rounds as
    they were and sends nothing. One that replays cleanly is voted for: the node signs the
    hash of the one block its own replay determines, opens the round with that single
    vote, which is below every quorum, and broadcasts the vote and nothing else. *)
Theorem proposal_is_voted_not_committed `{SHA : Sha256, M3 : Mode3, ED : Ed25519, SG : Mode3Signer,
    BR : BigRat, FR : Fr, MM : MiMC, GR : !Groth16, CD : Codec} n prop now :
  node_ok n →
  let n' := handleBlockProposal prop now n in
  let '(results, s) := replay n (bp_Batch prop) (bp_Epoch prop) (bp_Height prop) now in
  ledger_of n' = ledger_of n ∧
  (proposal_expected prop now n = false → n' = n) ∧
  (proposal_expected prop now n = true → firstFailure results ≠ None →
     core n' = core n ∧ n_sent n' = n_sent n) ∧
  (proposal_expected prop now n = true → firstFailure results = None → ∀ sig,
     DilithiumSign (n_sk n) (HashBlock (candidate_block prop s n)) = Ok sig →
     voted prop s sig now n n').
Proof.
  intros Hn n'. destruct (replay _ _ _ _ _) as [results s] eqn:E.
  assert (Hv : ∀ sig, proposal_expected prop now n = true → firstFailure results = None →
    DilithiumSign (n_sk n) (HashBlock (candidate_block prop s n)) = Ok sig → voted prop s sig now n n').
  { intros sig Hx Ef Es. by eapply handleBlockProposal_votes. }
  assert (Hrej : proposal_expected prop now n = true → firstFailure results ≠ None →
    core n' = core n ∧ n_sent n' = n_sent n).
  { intros Hx Ef. unfold n'. destruct (handleBlockProposal_expected prop now n Hx) as [-> Eno].
    unfold process_proposal. rewrite Eno, E.
    pose proof (discard_core n (bp_Batch prop) (bp_Epoch prop) (bp_Height prop) now Hn) as Hd.
    rewrite E in Hd. destruct (firstFailure results); [|done].
    rewrite reinsert_core, reinsert_sent. split; [exact Hd|reflexivity]. }
  assert (Hun : proposal_expected prop now n = false → n' = n).
  { apply handleBlockProposal_unexpected. }
  split_and!; [|exact Hun|exact Hrej|auto].
  destruct (proposal_expected prop now n) eqn:Hx; [|by rewrite Hun].
  destruct (firstFailure results) eqn:Ef.
  { destruct Hrej as [Hc _]; [done|congruence|]. unfold core in Hc. unfold ledger_of. by injection Hc as -> _ _ ->. }
  destruct (DilithiumSign (n_sk n) (HashBlock (candidate_block prop s n))) as [sig|e] eqn:Es.
  - destruct (Hv sig) as [_ Hsh Hch _]; [done..|]. unfold ledger_of, rows_of. rewrite Hsh, Hch. reflexivity.
  - unfold n'. destruct (handleBlockProposal_expected prop now n Hx) as [-> Eno].
    unfold process_proposal. rewrite Eno, E, Ef, Es. reflexivity.
Qed.

(** C5: adoption verifies. A block is adopted exactly when it is for the next height, the
    node's own replay of its batch has no failure and ends in the announced state root,
    and a majority of the committee the node itself computes signed it under keys the
    node knows; the ledger is then extended by that block. Otherwise the rows and the
    chain do not change. *)
Theorem adoption_verifies `{SHA : Sha256, M3 : Mode3, ED : Ed25519, SG : Mode3Signer,
    BR : BigRat, FR : Fr, MM : MiMC, GR : !Groth16, CD : Codec} n b now :
  node_ok n →
  let '(res, n') := tryAdoptBlockLocked b now n in
  (is_ok res = true ↔ adoptable b now n) ∧
  (is_ok res = true → extends (ledger_of n) b (ledger_of n') ∧ n_rounds n' = ∅) ∧
  (is_ok res = false → ledger_of n' = ledger_of n).
Proof.
  intros Hn. unfold tryAdoptBlockLocked, adoptable.
  destruct (Z.eqb_spec (b_Height b) (Chain.NextHeight (n_chn n))) as [Eh|Hne]; cbn [negb];
    [|split_and!; [naive_solver|naive_solver|reflexivity]].
  destruct (supersede_step n) as [Hs Hs']. rewrite <-Eh in Hs, Hs'. destruct (Hs' Hn) as (Hr0 & Hrows & Hchn).
  destruct (supersede_frame (b_Height b) n) as (_ & Hon & _ & _).
  destruct (Hs Hn) as [Hn1 _ _]. set (n1 := supersede (b_Height b) n) in *.
  assert (El : ledger_of n1 = ledger_of n) by (unfold ledger_of; congruence).
  assert (Hlu : pubKeyLookup n1 = pubKeyLookup n) by (unfold pubKeyLookup; by rewrite Hon).
  destruct (replay n1 _ _ _ _) as [results s] eqn:E.
  assert (Hdl : ledger_of (discard n1 s (tree_len (tree_of n1))) = ledger_of n).
  { etrans; [reflexivity|exact El]. }
  destruct (firstFailure results) as [f|] eqn:Ef; [split_and!; [naive_solver|naive_solver|intros _; exact Hdl]|].
  case_bool_decide as Eroot; cbn [negb]; [|split_and!; [naive_solver|naive_solver|intros _; exact Hdl]].
  rewrite Hlu, Hchn. destruct (Chain.Append _ _ _ _) as [chn|e] eqn:Ea;
    [|split_and!; [naive_solver|naive_solver|intros _; exact Hdl]].
  split_and!; [naive_solver| |done]. intros _. cbv zeta.
  set (n2 := noteCommittedBlock b _). assert (E2 : core n2 = (st_Store s, st_StateTree s, ∅, chn, ∅)).
  { unfold n2. rewrite note_core, prune_core. unfold core. cbn. rewrite Hr0. reflexivity. }
  unfold core in E2. injection E2 as F1 _ _ F4 F5. split; [|exact F5].
  unfold ledger_of. rewrite F1, F4. econstructor; [|exact Ea]. rewrite <-Eroot, <-Hrows.
  eapply replay_replays; [exact E|exact Ef].
Qed.
(** C6: voters and adopters agree. Take two nodes with the same chain and the same shared
    state, but each its own rate monitor and its own oracle. One votes for a proposal, and
    some time later, with nothing else applied in between, commits its round on a quorum of
    votes. The other opened no round and receives the announced block, at a later instant
    of its own. If it then computes the same committee and knows the same keys, it adopts
    the block exactly when its own checks of the batch pass at its own instant: its rate
    monitor lets every signer through, its oracle confirms every price, and no
    attestation of a mint has expired. Nothing else can make it disagree; and once it adopts, both
    nodes have the same chain, rows, trees, root histories, treasury and parameters. *)
Theorem voter_and_adopter_agree `{SHA : Sha256, M3 : Mode3, ED : Ed25519, SG : Mode3Signer,
    BR : BigRat, FR : Fr, MM : MiMC, GR : !Groth16, CD : Codec} na na2 nb prop now later now' results s sig votes :
  node_ok na → proposal_expected prop now na = true →
  replay na (bp_Batch prop) (bp_Epoch prop) (bp_Height prop) now = (results, s) →
  firstFailure results = None →
  (* the voter, some votes later *)
  let r := open_round prop s sig now na in
  let b := rd_block r in
  let b := b <| b_Votes := votes |> in
  n_shared na2 = hold na s → n_chn na2 = n_chn na →
  n_rounds na2 !! bp_Height prop = Some (r <| rd_votes := votes |>) →
  let na3 := tryFinalizeLocked (bp_Height prop) later na2 in
  n_chn na3 ≠ n_chn na2 →
  (* the adopter, at its own instant *)
  same_replica na nb → n_rounds nb = ∅ →
  committee_at nb (bp_Height prop) now' = rd_committee r → pubKeyLookup nb = pubKeyLookup na2 →
  let passed := locally_passes nb (bp_Batch prop) (bp_Epoch prop) (bp_Height prop) now' in
  let '(res, nb') := tryAdoptBlockLocked b now' nb in
  (res = Ok tt ↔ is_Some passed) ∧
  (res = Ok tt → n_chn nb' = n_chn na3 ∧ same_core (n_shared na3) (n_shared nb') ∧
     passed = Some (local_of (n_shared nb'))).
Proof.
  intros Hn Hx E Ef r b0 b Hsh Hch Er na3 Hne Hsame Hr0 Hcom Hlu passed.
  destruct (tryFinalize_commits _ _ later na2 Er Hne) as [Ha Hs3]. cbv zeta in Ha. fold na3 in Ha, Hs3.
  destruct (rounds_of_expected prop now na Hn Hx) as (_ & Eh & _).
  pose proof Hsame as (Hs & Hc & _).
  assert (Eb : b_Height b = Chain.NextHeight (n_chn na)) by reflexivity.
  unfold tryAdoptBlockLocked. rewrite Hc, Eb, Z.eqb_refl. cbn [negb]. cbv zeta.
  assert (Hsup : supersede (Chain.NextHeight (n_chn na)) nb = nb) by (unfold supersede; by rewrite Hr0, lookup_empty).
  rewrite Hsup, <-Eh. change (b_Batch b) with (bp_Batch prop). change (b_Epoch b) with (bp_Epoch prop).
  pose proof (local_replay na nb _ _ _ now now' _ _ Hsame E Ef) as Hl. fold passed in Hl.
  destruct passed as [l|].
  2:{ destruct (replay nb _ _ _ now') as [rs s']. cbn [fst] in Hl. destruct (firstFailure rs); [|done].
      split; [|done]. split; [done|by intros []]. }
  rewrite Hl, Ef. rewrite bool_decide_eq_true_2 by reflexivity. cbn [negb].
  rewrite Hcom, Hlu, Hc, <-Hch.
  match type of Ha with ?l = _ => match goal with |- context [Chain.Append ?c ?blk ?cm ?lk] =>
    change (Chain.Append c blk cm lk) with l end end. rewrite Ha.
  split; [done|]. intros _.
  match goal with |- n_chn (noteCommittedBlock ?x ?m) = _ ∧ _ =>
    pose proof (note_core x m) as Ec; pose proof (note_shared x m) as Es2 end.
  split; [|split].
  - unfold core in Ec. injection Ec as _ _ _ Ec _. exact Ec.
  - rewrite Es2, Hs3. unfold commit. cbn. rewrite Hsh. by split.
  - rewrite Es2. by destruct l.
Qed.
End AgreementSpec.

Module AgreementWitness.
Import NodeModel.
Lemma boot_starts k : starts (boot k) Rows.empty NewMerkleTree chn0.
Proof. apply starts_intro. Qed.
Lemma joined_ok k : node_ok (joined k).
Proof. apply (core_ok (boot k)); [reflexivity|]. apply (starts_ok _ _ _ _ (boot_starts k)). Qed.

(** The validators differ in their keys only. *)
Lemma recordOnline_shared id pk sentinel now n : n_shared (recordOnline id pk sentinel now n) = n_shared n.
Proof. reflexivity. Qed.
Lemma joined_shared k : n_shared (joined k) = n_shared (boot 0).
Proof.
  unfold joined. cbn [foldl]. rewrite !recordOnline_shared. unfold boot, NewNode. cbv zeta. cbv iota.
  rewrite !recordOnline_shared. reflexivity.
Qed.

Lemma recordOnline_deps id pk sentinel now n e h t :
  deps_for (recordOnline id pk sentinel now n) e h t = deps_for n e h t.
Proof. reflexivity. Qed.
Lemma joined_deps k e h t : deps_for (joined k) e h t = deps_for (boot 0) e h t.
Proof.
  unfold joined. cbn [foldl]. rewrite !recordOnline_deps. unfold boot, NewNode. cbv zeta. cbv iota.
  rewrite !recordOnline_deps. reflexivity.
Qed.

(** Validator 1 hears from 2 and 3, votes for 2's proposal and receives 2's vote. *)
Definition life (batch : list ShieldedTx) : list node_event :=
  [message MsgHeartbeat 2 clock; message MsgHeartbeat 3 clock; message MsgBlockProposal 0 clock;
   message MsgStageVote 0 clock].
Definition wire (batch : list ShieldedTx) : Codec :=
  codec_of [proposal batch 0] [vote_for 2 (candidate_of (propose batch 0 clock (joined 1)))] [].

Lemma node_implements_ledger_witness :
  let n' := run_node (CD := wire [pay]) (boot 1) (life [pay]) in
  Chain.headHeight (n_chn n') = 1 ∧ ∃ bs, ledger_run (CD := wire [pay]) (Rows.empty, chn0) bs (ledger_of n').
Proof.
  intros n'. split; [vm_compute; reflexivity|].
  exact (proj1 (AgreementSpec.node_implements_ledger (CD := wire [pay]) (boot 1) Rows.empty NewMerkleTree chn0
    (life [pay]) (boot_starts 1))).
Defined.

Lemma chain_never_double_spends_witness :
  let n' := run_node (CD := wire [pay]) (boot 1) (life [pay]) in
  Rows.IsNullifierSpent (replicate 32 5) (rows_of n') = true ∧
  ∃ bs, NoDup (concat (block_nullifiers <$> bs)).
Proof.
  intros n'. split; [vm_compute; reflexivity|].
  destruct (AgreementSpec.chain_never_double_spends (CD := wire [pay]) (boot 1) Rows.empty NewMerkleTree chn0
    (life [pay]) (boot_starts 1)) as (bs & H & _). exists bs. exact H.
Defined.

Lemma state_root_tracks_head_witness :
  let n' := run_node (CD := wire [pay]) (boot 1) (life [pay]) in
  let head := ChainRows.GetBlock (Chain.headHeight (n_chn n')) (Chain.ch_store (n_chn n')) in
  option_map b_Height head = Some 1 ∧ option_map b_StateRoot head = Some (Root (settled n')).
Proof.
  cbv zeta. pose proof (AgreementSpec.state_root_tracks_head (CD := wire [pay]) (boot 1) Rows.empty NewMerkleTree chn0
    (life [pay]) (boot_starts 1)) as H. cbv zeta in H.
  assert (H0 : ∀ b, ChainRows.GetBlock (Chain.headHeight chn0) (Chain.ch_store chn0) = Some b →
    Root NewMerkleTree = b_StateRoot b) by (intros b0 E0; vm_compute in E0; injection E0 as <-; reflexivity).
  specialize (H H0). clear H0.
  assert (Eh : let n' := run_node (CD := wire [pay]) (boot 1) (life [pay]) in option_map b_Height
    (ChainRows.GetBlock (Chain.headHeight (n_chn n')) (Chain.ch_store (n_chn n'))) = Some 1) by (vm_compute; reflexivity).
  cbv zeta in Eh. split; [exact Eh|].
  destruct (ChainRows.GetBlock _ _) as [b|]; [|discriminate Eh].
  rewrite (H b eq_refl). reflexivity.
Defined.

Lemma proposal_is_voted_not_committed_witness :
  proposal_expected (proposal [pay] 0) clock (joined 1) = true ∧
  size (n_rounds (propose [pay] 0 clock (joined 1))) = 1%nat ∧
  ledger_of (propose [pay] 0 clock (joined 1)) = ledger_of (joined 1).
Proof.
  split; [vm_compute; reflexivity|]. split; [vm_compute; reflexivity|].
  pose proof (AgreementSpec.proposal_is_voted_not_committed (joined 1) (proposal [pay] 0) clock (joined_ok 1)) as H.
  cbv zeta in H. destruct (replay _ _ _ _ _) as [results s]. exact (proj1 H).
Defined.

(** The block validator 3 commits on its own vote and validator 2's. *)
Definition other_votes : Node :=
  let n := propose [pay] 0 clock (joined 3) in handleStageVote (vote_for 2 (candidate_of n)) clock n.
Definition announced : Block :=
  default (Chain.genesis 0) (ChainRows.GetBlock 1 (Chain.ch_store (n_chn other_votes))).

Lemma adoption_verifies_witness :
  is_ok (tryAdoptBlockLocked announced clock (joined 1)).1 = true ∧ adoptable announced clock (joined 1).
Proof.
  assert (E : is_ok (tryAdoptBlockLocked announced clock (joined 1)).1 = true) by (vm_compute; reflexivity).
  split; [exact E|].
  pose proof (AgreementSpec.adoption_verifies (joined 1) announced clock (joined_ok 1)) as H.
  destruct (tryAdoptBlockLocked announced clock (joined 1)) as [res n']. apply H. exact E.
Defined.

(** Validator 3 as it commits, from its own round, and validator 1 as it adopts. *)
Definition replayed := replay (joined 3) [pay] (CurrentEpoch 0 clock) 1 clock.
Definition first_round : round := open_round (proposal [pay] 0) replayed.2 [80] clock (joined 3).
Definition two_votes : list Vote :=
  (λ k, {| v_Validator := id_of k; v_StateRoot := rd_candidate first_round;
           v_Sig := sv_Sig (vote_for k (rd_candidate first_round)) |}) <$> [3; 2].
Definition voter : Node :=
  let n := joined 3 in
  n <| n_shared := hold n replayed.2 |>
    <| n_rounds := {[1 := first_round <| rd_votes := two_votes |>]} |>.

(** The adopter, a second later, with a rate monitor of its own. *)
Definition later_clock : Time := clock + Second.
Definition with_monitor (m : Silent.RateMonitor) (n : Node) : Node :=
  n <| n_shared ::= λ s, s <| st_Silent := Some m |> |>.
Definition adopter : Node := with_monitor (Silent.RecordTx Silent.NewRateMonitor [99] clock) (joined 1).

Lemma with_monitor_replica m na nb : same_replica na nb → same_replica na (with_monitor m nb).
Proof. intros (Hs & Hc & Hd). split; [by destruct Hs; split|]. split; [exact Hc|exact Hd]. Qed.

Lemma voter_and_adopter_agree_witness :
  let b := rd_block first_round in
  let b := b <| b_Votes := two_votes |> in
  let '(res, nb') := tryAdoptBlockLocked b later_clock adopter in
  let na3 := tryFinalizeLocked 1 clock voter in
  Chain.headHeight (n_chn na3) = 1 ∧ res = Ok tt ∧ n_chn nb' = n_chn na3 ∧ same_core (n_shared na3) (n_shared nb').
Proof.
  pose proof (AgreementSpec.voter_and_adopter_agree (joined 3) voter adopter (proposal [pay] 0) clock clock later_clock
    replayed.1 replayed.2 [80] two_votes (joined_ok 3)) as H.
  assert (E1 : proposal_expected (proposal [pay] 0) clock (joined 3) = true) by (vm_compute; reflexivity).
  assert (E2 : replay (joined 3) [pay] (CurrentEpoch 0 clock) 1 clock = (replayed.1, replayed.2))
    by (unfold replayed; apply surjective_pairing).
  assert (E3 : firstFailure replayed.1 = None) by (vm_compute; reflexivity).
  specialize (H E1). specialize (H E2). specialize (H E3). cbv zeta in H.
  assert (E4 : n_shared voter = hold (joined 3) replayed.2) by reflexivity.
  assert (E5 : n_chn voter = n_chn (joined 3)) by (vm_compute; reflexivity).
  assert (E6 : n_rounds voter !! 1 = Some (first_round <| rd_votes := two_votes |>)) by apply lookup_singleton_eq.
  specialize (H E4). specialize (H E5). specialize (H E6).
  assert (Eh : Chain.headHeight (n_chn (tryFinalizeLocked 1 clock voter)) = 1) by (vm_compute; reflexivity).
  assert (E7 : n_chn (tryFinalizeLocked 1 clock voter) ≠ n_chn voter).
  { intros E. apply (f_equal Chain.headHeight) in E. rewrite Eh in E. vm_compute in E. discriminate E. }
  specialize (H E7).
  assert (E8 : same_replica (joined 3) adopter).
  { apply with_monitor_replica. split; [by rewrite !joined_shared|]. split; [vm_compute; reflexivity|].
    intros e h t. by rewrite !joined_deps. }
  specialize (H E8). specialize (H eq_refl).
  assert (E9 : committee_at adopter 1 later_clock = committee_at (joined 3) 1 clock) by (vm_compute; reflexivity).
  specialize (H E9).
  assert (E10 : pubKeyLookup adopter = pubKeyLookup voter).
  { unfold pubKeyLookup. assert (Eo : n_online adopter = n_online voter) by (vm_compute; reflexivity).
    rewrite Eo. reflexivity. }
  specialize (H E10).
  cbv zeta. change (open_round (proposal [pay] 0) replayed.2 [80] clock (joined 3)) with first_round in H.
  assert (Ep : is_Some (locally_passes adopter [pay] (CurrentEpoch 0 clock) 1 later_clock)).
  { assert (E0 : match locally_passes adopter [pay] (CurrentEpoch 0 clock) 1 later_clock with
                 | Some _ => true | None => false end = true) by (vm_compute; reflexivity).
    destruct (locally_passes _ _ _ _ _) as [l|]; [by exists l|discriminate E0]. }
  destruct (tryAdoptBlockLocked _ later_clock adopter) as [res nb']. destruct H as [Hiff Hok].
  apply Hiff in Ep. split; [exact Eh|]. split; [exact Ep|]. destruct (Hok Ep) as (Hc & Hs & _). split; [exact Hc|exact Hs].
Defined.
End AgreementWitness.
