(* ===== verification/Ast.v ===== *)
(** ast: the syntax tree of ShadowRust programs (ast.go) and its construction from the
    parse trees of grammar/ShadowRustExt.g4 (builder.go). The parser is generated; its
    trees are modelled as the grammar defines them. [Parse] hands over error-free trees
    only, so the fallbacks of the builder for missing children have no counterpart. *)
From S2P Require Import Prelude Words Decimal.
From Stdlib Require Import Ascii.

(** ** Strings: the verbs of fmt and what strconv does *)

Definition backslash : ascii := "092".
Definition dquote : ascii := "034".
Definition str1 (c : ascii) : string := String c EmptyString.
Definition hex_digit (n : nat) : ascii := ascii_of_nat (if (n <? 10)%nat then 48 + n else 87 + n).

(** [%q], strconv.Quote, on ASCII strings. *)
Definition quote_char (c : ascii) : string :=
  let n := nat_of_ascii c in
  if Ascii.eqb c dquote || Ascii.eqb c backslash then String backslash (str1 c)
  else if (32 <=? n)%nat && (n <? 127)%nat then str1 c
  else
    match n with
    | 7%nat => String backslash "a" | 8%nat => String backslash "b" | 9%nat => String backslash "t"
    | 10%nat => String backslash "n" | 11%nat => String backslash "v" | 12%nat => String backslash "f"
    | 13%nat => String backslash "r"
    | _ => String backslash (String "x" (String (hex_digit (n / 16)) (str1 (hex_digit (n mod 16)))))
    end.
Fixpoint quote_chars (s : string) : string :=
  match s with EmptyString => EmptyString | String c s => quote_char c +:+ quote_chars s end.
Definition quote (s : string) : string := String dquote (quote_chars s +:+ str1 dquote).

Definition is_digit (c : ascii) : bool := let n := nat_of_ascii c in (48 <=? n)%nat && (n <=? 57)%nat.
Definition is_letter (c : ascii) : bool :=
  let n := nat_of_ascii c in ((97 <=? n)%nat && (n <=? 122)%nat) || ((65 <=? n)%nat && (n <=? 90)%nat).
Definition is_word (c : ascii) : bool := is_letter c || is_digit c || Ascii.eqb c "_".
Fixpoint all_chars (p : ascii → bool) (s : string) : bool :=
  match s with EmptyString => true | String c s => p c && all_chars p s end.

(** [strconv.Atoi] of a string of digits: the value, or the largest [int] when it does not
    fit; 0 for anything else (the error is dropped by the only caller, and a NUMBER token
    has no sign). *)
Fixpoint digits_value (acc : Z) (s : string) : Z :=
  match s with
  | EmptyString => acc
  | String c s => digits_value (acc * 10 + (Z.of_nat (nat_of_ascii c) - 48)) s
  end.
Definition Atoi (s : string) : Z :=
  if all_chars is_digit s then Z.min (digits_value 0 s) (2 ^ 63 - 1) else 0.

Module Ast.
(** ** ast.go *)

(** Go's nil interface is [NilExpr]: an absent epoch or count. *)
Inductive Expr : Type :=
| NilExpr
| Ident (Name : string)
| NumberLit (Text : string)
| Binary (Op : string) (Left Right : Expr)
| FeeRoute (Value : Expr) (To : string).

Record Field := { fld_Key : string; fld_Value : Expr }.

Inductive Statement : Type :=
| IfStatement (Condition : Expr) (Body : list Statement)
| TxStatement (Name From To : string) (Amount : Expr) (Body : list Statement)
| MintStatement (Name : string) (Amount Epoch : Expr)
| ValidateStatement (Name : string) (Stage : Z) (Body : list Statement)
| QueueInsertStatement (Name : string) (Positions : list Expr)
| BankDepositStatement (Name : string) (ATR : Expr)
| Assignment (Name : string) (Value : Expr)
| ContainerStatement (Fields : list Field)
| NetworkStatement (Fields : list Field)
| ResilienceStatement (Condition : Expr) (Body : list Statement)
| ActivateSentinelsStatement
| UpdateTraitStatement (Target Key Op : string) (Value : Expr)
| VoteStatement (Proposal Commitment : string)
| ShardStatement (Name : string) (Count : Expr)
| AsyncStaggerStatement (Fields : list Field).

Record Program := { Statements : list Statement }.

(** [%T]: the dynamic type of a node. *)
Definition expr_type (e : Expr) : string :=
  match e with
  | NilExpr => "<nil>" | Ident _ => "*ast.Ident" | NumberLit _ => "*ast.NumberLit"
  | Binary _ _ _ => "*ast.Binary" | FeeRoute _ _ => "*ast.FeeRoute"
  end.
Definition kindName (s : Statement) : string :=
  match s with
  | IfStatement _ _ => "*ast.IfStatement" | TxStatement _ _ _ _ _ => "*ast.TxStatement"
  | MintStatement _ _ _ => "*ast.MintStatement" | ValidateStatement _ _ _ => "*ast.ValidateStatement"
  | QueueInsertStatement _ _ => "*ast.QueueInsertStatement"
  | BankDepositStatement _ _ => "*ast.BankDepositStatement" | Assignment _ _ => "*ast.Assignment"
  | ContainerStatement _ => "*ast.ContainerStatement" | NetworkStatement _ => "*ast.NetworkStatement"
  | ResilienceStatement _ _ => "*ast.ResilienceStatement"
  | ActivateSentinelsStatement => "*ast.ActivateSentinelsStatement"
  | UpdateTraitStatement _ _ _ _ => "*ast.UpdateTraitStatement"
  | VoteStatement _ _ => "*ast.VoteStatement" | ShardStatement _ _ => "*ast.ShardStatement"
  | AsyncStaggerStatement _ => "*ast.AsyncStaggerStatement"
  end.

(** The statements nested in a statement. *)
Definition body_of (s : Statement) : list Statement :=
  match s with
  | IfStatement _ b | TxStatement _ _ _ _ b | ValidateStatement _ _ b | ResilienceStatement _ b => b
  | _ => []
  end.

Section statement_ind.
Context (P : Statement → Prop) (step : ∀ s, Forall P (body_of s) → P s).
(** Induction on a statement, with the hypothesis for every statement of its body. *)
Fixpoint Statement_nested_ind (s : Statement) : P s :=
  let all := fix all (l : list Statement) : Forall P l :=
    match l with
    | [] => @List.Forall_nil _ P
    | x :: l => @List.Forall_cons _ P x l (Statement_nested_ind x) (all l)
    end in
  step s
    match s return Forall P (body_of s) with
    | IfStatement _ b | TxStatement _ _ _ _ b | ValidateStatement _ _ b | ResilienceStatement _ b => all b
    | _ => @List.Forall_nil _ P
    end.
End statement_ind.
End Ast.
Export Ast (Expr, Statement, Program).

(** ** Parse trees of grammar/ShadowRustExt.g4 *)

Module Tree.
(** [expr: relExpr (TO ID)?] over three levels of left-to-right operator chains, down to
    [factor: ID | AMOUNT | NUMBER | '(' expr ')']. A chain is its first operand and the
    operators with the operands they precede. *)
Inductive expr : Set := Expr (rel : relExpr) (to : option string)
with relExpr : Set := Rel (first : arithExpr) (rest : list (string * arithExpr))
with arithExpr : Set := Arith (first : term) (rest : list (string * term))
with term : Set := Term (first : factor) (rest : list (string * factor))
with factor : Set := ID (text : string) | AMOUNT | NUMBER (text : string) | Paren (e : expr).

Inductive statement :=
| ifStatement (condition : expr) (body : list statement)
| txStatement (id from to : string) (amount : expr) (body : list statement)
| mintStatement (id : string) (amount : expr) (epoch : option expr)
| validateStatement (id stage : string) (body : list statement)
| queueStatement (id : string) (position : expr) (positions : list expr)
| bankStatement (id : string) (atr : expr)
| containerStatement (fields : list (string * expr))
| networkStatement (fields : list (string * expr))
| resilienceStatement (condition : expr) (body : list statement)
| activateStatement
| updateTraitStatement (id key op : string) (value : expr)
| voteStatement (proposal commitment : string)
| shardStatement (id : string) (count : option expr)
| asyncStaggerStatement (fields : list (string * expr))
| assignment (id : string) (value : expr).
End Tree.

(** ** builder.go *)

Fixpoint chain_from (result : Expr) (operands : list Expr) (ops : list string) : Expr :=
  match ops, operands with
  | op :: ops, operand :: operands => chain_from (Ast.Binary op result operand) operands ops
  | _, _ => result
  end.
Definition leftAssoc (operands : list Expr) (ops : list string) : Expr :=
  match operands with
  | [] => Ast.NilExpr
  | first :: operands => chain_from first operands ops
  end.

(** The operands and the [operatorsOf] a chain, built by [build]. *)
Definition build_chain {A} (build : A → Expr) (first : A) (rest : list (string * A)) : Expr :=
  leftAssoc (build first :: map (λ p, build p.2) rest) (map fst rest).

Fixpoint buildExpr (e : Tree.expr) : Expr :=
  match e with
  | Tree.Expr rel (Some to) => Ast.FeeRoute (buildRelExpr rel) to
  | Tree.Expr rel None => buildRelExpr rel
  end
with buildRelExpr (e : Tree.relExpr) : Expr :=
  match e with Tree.Rel first rest => build_chain buildArithExpr first rest end
with buildArithExpr (e : Tree.arithExpr) : Expr :=
  match e with Tree.Arith first rest => build_chain buildTerm first rest end
with buildTerm (e : Tree.term) : Expr :=
  match e with Tree.Term first rest => build_chain buildFactor first rest end
with buildFactor (f : Tree.factor) : Expr :=
  match f with
  | Tree.ID text => Ast.Ident text
  | Tree.AMOUNT => Ast.Ident "amount"
  | Tree.NUMBER text => Ast.NumberLit text
  | Tree.Paren e => buildExpr e
  end.

Definition buildOptional (e : option Tree.expr) : Expr :=
  match e with Some e => buildExpr e | None => Ast.NilExpr end.
Definition buildFields (fields : list (string * Tree.expr)) : list Ast.Field :=
  map (λ f, {| Ast.fld_Key := f.1; Ast.fld_Value := buildExpr f.2 |}) fields.

Fixpoint buildStatement (s : Tree.statement) : Statement :=
  match s with
  | Tree.ifStatement c body => Ast.IfStatement (buildExpr c) (map buildStatement body)
  | Tree.txStatement id from to amount body =>
      Ast.TxStatement id from to (buildExpr amount) (map buildStatement body)
  | Tree.mintStatement id amount epoch =>
      Ast.MintStatement id (buildExpr amount) (buildOptional epoch)
  | Tree.validateStatement id stage body =>
      Ast.ValidateStatement id (Atoi stage) (map buildStatement body)
  | Tree.queueStatement id p ps => Ast.QueueInsertStatement id (map buildExpr (p :: ps))
  | Tree.bankStatement id atr => Ast.BankDepositStatement id (buildExpr atr)
  | Tree.containerStatement fields => Ast.ContainerStatement (buildFields fields)
  | Tree.networkStatement fields => Ast.NetworkStatement (buildFields fields)
  | Tree.resilienceStatement c body => Ast.ResilienceStatement (buildExpr c) (map buildStatement body)
  | Tree.activateStatement => Ast.ActivateSentinelsStatement
  | Tree.updateTraitStatement id key op v => Ast.UpdateTraitStatement id key op (buildExpr v)
  | Tree.voteStatement p c => Ast.VoteStatement p c
  | Tree.shardStatement id count => Ast.ShardStatement id (buildOptional count)
  | Tree.asyncStaggerStatement fields => Ast.AsyncStaggerStatement (buildFields fields)
  | Tree.assignment id v => Ast.Assignment id (buildExpr v)
  end.
Definition buildStatements (l : list Tree.statement) : list Statement := map buildStatement l.
Definition Build (tree : list Tree.statement) : Program := {| Ast.Statements := buildStatements tree |}.
