(* ===== verification/Interp.v ===== *)
(** interp: the sandbox interpreter of ShadowRust. A statement is a [call] over the
    interpreter's state: events recorded before a failure stay recorded. *)
From S2P Require Import Prelude Words Decimal Ast.

(** [fmt.Errorf] with a verb [%w]: the wrapped error ends the message. *)
Definition wrap {S A} (prefix : string) (m : call S A) : call S A := λ s,
  match m s with
  | (Ok a, s) => (Ok a, s)
  | (Err e, s) => (Err (prefix +:+ ": " +:+ e), s)
  end.

Definition is_relational (op : string) : bool :=
  bool_decide (op ∈ [">"; ">="; "<"; "<="; "=="; "!="]).

Module Interp.
Import Ast.
Record FeeRouteEvent := { fr_To : string; fr_Amount : Decimal }.
Record TxEvent := { te_Name : string; te_From : string; te_To : string; te_Amount : Decimal }.
Record BankDepositEvent := { bd_Name : string; bd_ATR : Decimal }.
Record QueueInsertEvent := { qi_Name : string; qi_Positions : list Decimal }.

(** [Env] is a flat map of variables; an [Oracle] answers for other names. *)
Record Interpreter := {
  it_Env : gmap string Decimal; it_Oracle : string → option Decimal;
  it_FeeRoutes : list FeeRouteEvent; it_Txs : list TxEvent;
  it_Deposits : list BankDepositEvent; it_QueueInsert : list QueueInsertEvent }.

Definition New (oracle : string → option Decimal) : Interpreter :=
  {| it_Env := ∅; it_Oracle := oracle; it_FeeRoutes := []; it_Txs := []; it_Deposits := [];
     it_QueueInsert := [] |}.

(** ** Values *)

Definition boolRat (b : bool) : Decimal := if b then Decimal.FromInt 1 else Decimal.Zero.

Definition compareRat (op : string) (l r : Decimal) : bool :=
  let c := Decimal.Cmp l r in
  if bool_decide (op = ">") then 0 <? c
  else if bool_decide (op = ">=") then 0 <=? c
  else if bool_decide (op = "<") then c <? 0
  else if bool_decide (op = "<=") then c <=? 0
  else if bool_decide (op = "==") then c =? 0
  else if bool_decide (op = "!=") then negb (c =? 0)
  else false.

Definition evalBinary (op : string) (l r : Decimal) : result Decimal :=
  if bool_decide (op = "+") then Ok (Decimal.Add l r)
  else if bool_decide (op = "-") then Ok (Decimal.Sub l r)
  else if bool_decide (op = "*") then Ok (Decimal.Mul l r)
  else if bool_decide (op = "/") then
    if Decimal.Sign r =? 0 then Err "division by zero" else Ok (l / r)%Qc
  else if is_relational op then Ok (boolRat (compareRat op l r))
  else Err ("unknown operator " +:+ quote op).

(** ** Expressions and statements *)

Section interp.
Context `{BigRat}.
Abbreviation run := (call Interpreter).

Definition lookup_name (name : string) (it : Interpreter) : option Decimal :=
  match it_Env it !! name with
  | Some v => Some v
  | None => it_Oracle it name
  end.
Definition set_var (name : string) (v : Decimal) : run unit :=
  modify (λ it, it <| it_Env ::= <[name := v]> |>).

Fixpoint eval (e : Expr) : run Decimal :=
  match e with
  | NumberLit text =>
      match SetString text with
      | Some v => mret v
      | None => fail ("invalid number literal " +:+ quote text)
      end
  | Ident name =>
      v ← gets (lookup_name name);
      match v with
      | Some v => mret v
      | None => fail ("undefined identifier " +:+ quote name)
      end
  | FeeRoute value to =>
      v ← eval value;
      _ ← modify (λ it, it <| it_FeeRoutes ::= λ l, l ++ [{| fr_To := to; fr_Amount := v |}] |>);
      mret v
  | Binary op lhs rhs =>
      l ← eval lhs;
      r ← eval rhs;
      lift (evalBinary op l r)
  | NilExpr => fail ("interp: unsupported expr " +:+ expr_type e)
  end.

(** An optional expression is evaluated for its errors. *)
Definition eval_optional (prefix : string) (e : Expr) : run unit :=
  match e with
  | NilExpr => mret tt
  | _ => _ ← wrap prefix (eval e); mret tt
  end.

Fixpoint eval_all (prefix : string) (es : list Expr) : run (list Decimal) :=
  match es with
  | [] => mret []
  | e :: es => v ← wrap prefix (eval e); vs ← eval_all prefix es; mret (v :: vs)
  end.

(** The value an update writes: [+=] and [-=] count a missing trait as zero. *)
Definition updated (op : string) (cur : option Decimal) (v : Decimal) : Decimal :=
  if bool_decide (op = "+=") then Decimal.Add (default Decimal.Zero cur) v
  else if bool_decide (op = "-=") then Decimal.Sub (default Decimal.Zero cur) v
  else v.

Fixpoint runStatement (s : Statement) : run unit :=
  let runStatements := fix runStatements (l : list Statement) : run unit :=
    match l with [] => mret tt | s :: l => _ ← runStatement s; runStatements l end in
  match s with
  | Assignment name value =>
      v ← wrap ("assignment " +:+ name) (eval value);
      set_var name v
  | IfStatement condition body =>
      v ← wrap "if condition" (eval condition);
      if Decimal.Sign v =? 0 then mret tt else runStatements body
  | TxStatement name from to amount body =>
      amt ← wrap ("tx " +:+ name +:+ " amount") (eval amount);
      _ ← set_var "amount" amt;
      _ ← modify (λ it, it <| it_Txs ::= λ l,
            l ++ [{| te_Name := name; te_From := from; te_To := to; te_Amount := amt |}] |>);
      runStatements body
  | MintStatement name amount epoch =>
      _ ← wrap ("mint " +:+ name +:+ " amount") (eval amount);
      eval_optional ("mint " +:+ name +:+ " epoch") epoch
  | ValidateStatement _ _ body => runStatements body
  | QueueInsertStatement name positions =>
      vals ← eval_all ("queue insert " +:+ name) positions;
      modify (λ it, it <| it_QueueInsert ::= λ l, l ++ [{| qi_Name := name; qi_Positions := vals |}] |>)
  | BankDepositStatement name atr =>
      v ← wrap ("bank deposit " +:+ name) (eval atr);
      modify (λ it, it <| it_Deposits ::= λ l, l ++ [{| bd_Name := name; bd_ATR := v |}] |>)
  | ContainerStatement _ | NetworkStatement _ | AsyncStaggerStatement _ => mret tt
  | ResilienceStatement condition body =>
      v ← wrap "resilience condition" (eval condition);
      if Decimal.Sign v =? 0 then mret tt else runStatements body
  | ActivateSentinelsStatement => mret tt
  | UpdateTraitStatement target key op value =>
      v ← wrap ("update_trait " +:+ target +:+ "." +:+ key) (eval value);
      let name := target +:+ "." +:+ key in
      cur ← gets (λ it, it_Env it !! name);
      set_var name (updated op cur v)
  | VoteStatement _ _ => mret tt
  | ShardStatement name count => eval_optional ("shard " +:+ name +:+ " count") count
  end.

Fixpoint runStatements (l : list Statement) : run unit :=
  match l with [] => mret tt | s :: l => _ ← runStatement s; runStatements l end.

Definition Run (prog : Program) : run unit := runStatements (Statements prog).
End interp.
End Interp.
