(* ===== verification/Sema.v ===== *)
(** sema: the semantic analyzer of ShadowRust. [Analyze] returns the diagnostics in the
    order the walk appends them. *)
From S2P Require Import Prelude Words Decimal Ast Interp.

Module Sema.
Import Ast.
Definition stageUnrestricted : Z := 0.

Fixpoint isRelational (e : Expr) : bool :=
  match e with
  | Binary op lhs rhs => is_relational op || isRelational lhs || isRelational rhs
  | _ => false
  end.

Fixpoint exprHasFeeRoute (e : Expr) : bool :=
  match e with
  | FeeRoute _ _ => true
  | Binary _ lhs rhs => exprHasFeeRoute lhs || exprHasFeeRoute rhs
  | _ => false
  end.

Fixpoint exprBoundToIdent (e : Expr) : bool :=
  match e with
  | Ident _ => true
  | Binary _ lhs rhs => exprBoundToIdent lhs || exprBoundToIdent rhs
  | FeeRoute value _ => exprBoundToIdent value
  | _ => false
  end.

Fixpoint stmtHasFeeRoute (s : Statement) : bool :=
  match s with
  | Assignment _ value => exprHasFeeRoute value
  | IfStatement _ body => existsb stmtHasFeeRoute body
  | _ => false
  end.
Definition bodyHasFeeRoute (stmts : list Statement) : bool := existsb stmtHasFeeRoute stmts.

Definition allowedInStage (stage : Z) (s : Statement) : bool :=
  if (stage =? 1) || (stage =? 2) then
    match s with IfStatement _ _ | Assignment _ _ => true | _ => false end
  else if stage =? 3 then
    match s with IfStatement _ _ | Assignment _ _ | VoteStatement _ _ => true | _ => false end
  else if stage =? 4 then
    match s with
    | IfStatement _ _ | Assignment _ _ | BankDepositStatement _ _ | UpdateTraitStatement _ _ _ _
    | TxStatement _ _ _ _ _ | MintStatement _ _ _ | QueueInsertStatement _ _ => true
    | _ => false
    end
  else if stage =? 5 then
    match s with IfStatement _ _ | VoteStatement _ _ => true | _ => false end
  else true.

Definition checkNumericAmount (where_ : string) (e : Expr) : list string :=
  match e with
  | NilExpr => [where_ +:+ ": amount is required"]
  | _ =>
      if isRelational e
      then [where_ +:+ ": amount must be numeric, not a relational (comparison) expression"]
      else []
  end.

Definition diagnose (b : bool) (message : string) : list string := if b then [message] else [].

Fixpoint checkStatement (stage : Z) (s : Statement) : list string :=
  diagnose (negb (stage =? stageUnrestricted) && negb (allowedInStage stage s))
    ("statement " +:+ kindName s +:+ " is not legal in validate stage " +:+ Decimal.int_string stage +:+
     " (spec 5.3)") ++
  match s with
  | TxStatement name _ _ amount body =>
      checkNumericAmount ("tx " +:+ name) amount ++
      diagnose (negb (bodyHasFeeRoute body) && negb (exprHasFeeRoute amount))
        ("tx " +:+ name +:+ " moves value but has no fee route (`expr TO address`); every value-moving statement must route a fee (spec 14.4)") ++
      flat_map (checkStatement stage) body
  | MintStatement name amount _ => checkNumericAmount ("mint " +:+ name) amount
  | IfStatement _ body => flat_map (checkStatement stage) body
  | ValidateStatement name st body =>
      diagnose ((st <? 1) || (5 <? st))
        ("validate " +:+ name +:+ ": stage " +:+ Decimal.int_string st +:+
         " is out of range; the pipeline has exactly 5 stages (spec 5.3)") ++
      flat_map (checkStatement st) body
  | ResilienceStatement _ body => flat_map (checkStatement stage) body
  | BankDepositStatement name atr =>
      diagnose (negb (exprBoundToIdent atr))
        ("bank deposit " +:+ name +:+ ": atr operand must be bound to an identifier (an oracle mock or client), not a bare literal (spec 14.4)")
  | QueueInsertStatement name positions =>
      diagnose (bool_decide (positions = [])) ("queue insert " +:+ name +:+ ": at least one position is required")
  | _ => []
  end.

Definition checkStatements (stage : Z) (stmts : list Statement) : list string :=
  flat_map (checkStatement stage) stmts.
Definition Analyze (prog : Program) : list string :=
  checkStatements stageUnrestricted (Statements prog).
End Sema.
