(* ===== verification/Codegen.v ===== *)
(** codegen: the Go emitter of ShadowRust, as text, and the runtime package the emitted
    code calls. [go/format.Source] is a parameter. *)
From S2P Require Import Prelude Words Decimal Ast Interp.
From Stdlib Require Import Ascii.

Definition tab : string := str1 "009".
Definition nl : string := str1 "010".

Fixpoint string_le (a b : string) : bool :=
  match a, b with
  | EmptyString, _ => true
  | _, EmptyString => false
  | String c a, String d b =>
      let c := nat_of_ascii c in let d := nat_of_ascii d in
      (c <? d)%nat || ((c =? d)%nat && string_le a b)
  end.

Fixpoint join (sep : string) (parts : list string) : string :=
  match parts with
  | [] => EmptyString
  | [p] => p
  | p :: parts => p +:+ sep +:+ join sep parts
  end.

(** ** codegen/runtime: the helpers generated code calls; a panic is an error *)

Module Runtime.
Section runtime.
Context `{BigRat}.
Definition N (s : string) : result Decimal :=
  match SetString s with
  | Some r => Ok r
  | None => Err ("runtime.N: invalid numeric literal " +:+ s)
  end.
Definition Add (a b : Decimal) : Decimal := Decimal.Add a b.
Definition Sub (a b : Decimal) : Decimal := Decimal.Sub a b.
Definition Mul (a b : Decimal) : Decimal := Decimal.Mul a b.
Definition Div (a b : Decimal) : result Decimal :=
  if Decimal.Sign b =? 0 then Err "runtime.Div: division by zero" else Ok (a / b)%Qc.
Definition Bool (b : bool) : Decimal := if b then Decimal.FromInt 1 else Decimal.Zero.
Definition Cmp (op : string) (a b : Decimal) : result Decimal :=
  let c := Decimal.Cmp a b in
  if bool_decide (op = ">") then Ok (Bool (0 <? c))
  else if bool_decide (op = ">=") then Ok (Bool (0 <=? c))
  else if bool_decide (op = "<") then Ok (Bool (c <? 0))
  else if bool_decide (op = "<=") then Ok (Bool (c <=? 0))
  else if bool_decide (op = "==") then Ok (Bool (c =? 0))
  else if bool_decide (op = "!=") then Ok (Bool (negb (c =? 0)))
  else Err ("runtime.Cmp: unknown operator " +:+ op).
End runtime.
End Runtime.

Module Codegen.
Import Ast.

(** [sanitize] ranges over the runes of an ASCII string. *)
Fixpoint sanitize_chars (s : string) : string :=
  match s with
  | EmptyString => EmptyString
  | String c s => String (if is_word c then c else "_"%char) (sanitize_chars s)
  end.
Definition sanitize (s : string) : string :=
  match sanitize_chars s with EmptyString => "anon" | s => s end.
Definition goVar (name : string) : string := sanitize name.
Definition funcName (kind : string) (idx : Z) (name : string) : string :=
  kind +:+ Decimal.int_string idx +:+ "_" +:+ sanitize name.

(** ** Scopes *)

Record scope := { bound : gset string; free : gset string }.
Definition newScope (initial : list string) : scope := {| bound := list_to_set initial; free := ∅ |}.
Definition use (name : string) : call scope unit :=
  modify (λ sc, if bool_decide (name ∈ bound sc) then sc else sc <| free ::= λ f, {[name]} ∪ f |>).
Definition bind (name : string) : call scope unit :=
  modify (λ sc, sc <| bound ::= λ b, {[name]} ∪ b |>).
Definition sortedFree (sc : scope) : list string := merge_sort string_le (elements (free sc)).

(** ** Expressions *)

Definition binaryGo (op l r : string) : result string :=
  if bool_decide (op = "+") then Ok ("runtime.Add(" +:+ l +:+ ", " +:+ r +:+ ")")
  else if bool_decide (op = "-") then Ok ("runtime.Sub(" +:+ l +:+ ", " +:+ r +:+ ")")
  else if bool_decide (op = "*") then Ok ("runtime.Mul(" +:+ l +:+ ", " +:+ r +:+ ")")
  else if bool_decide (op = "/") then Ok ("runtime.Div(" +:+ l +:+ ", " +:+ r +:+ ")")
  else if is_relational op
  then Ok ("runtime.Cmp(" +:+ quote op +:+ ", " +:+ l +:+ ", " +:+ r +:+ ")")
  else Err ("unknown operator " +:+ quote op).

Fixpoint exprGo (e : Expr) : call scope string :=
  match e with
  | NumberLit text => mret ("runtime.N(" +:+ quote text +:+ ")")
  | Ident name => _ ← use name; mret (goVar name)
  | Binary op lhs rhs => l ← exprGo lhs; r ← exprGo rhs; lift (binaryGo op l r)
  | FeeRoute value _ => exprGo value
  | NilExpr => fail ("codegen: unsupported expr " +:+ expr_type e)
  end.

Definition paramSig (free : list string) : string :=
  match free with
  | [] => EmptyString
  | _ => ", " +:+ join ", " (map (λ f, goVar f +:+ " *big.Rat") free)
  end.

(** ** One function per statement: the text, over the scope its expressions build *)

Definition dquotes : string := String dquote (str1 dquote).

(** The fee a transfer passes: two Go expressions. *)
Record fee := { feeTo : string; feeAmt : string }.
Definition no_fee : fee := {| feeTo := dquotes; feeAmt := "nil" |}.
Definition routed (bs_Name : string) (value : Expr) (f : fee) : fee :=
  match value with
  | FeeRoute _ to => {| feeTo := quote to; feeAmt := goVar bs_Name |}
  | _ => f
  end.

(** The loop over a transfer's body. *)
Fixpoint tx_body (name : string) (stmts : list Statement) (f : fee) : call scope (string * fee) :=
  match stmts with
  | [] => mret (EmptyString, f)
  | Assignment bs_Name value :: stmts =>
      ex ← wrap ("tx " +:+ name +:+ ": " +:+ bs_Name) (exprGo value);
      _ ← bind bs_Name;
      rest ← tx_body name stmts (routed bs_Name value f);
      mret (tab +:+ goVar bs_Name +:+ " := " +:+ ex +:+ nl +:+ rest.1, rest.2)
  | st :: _ =>
      fail ("tx " +:+ name +:+ ": codegen v0.1 does not support nested " +:+ kindName st +:+ " in a tx body")
  end.

Definition genTx (idx : Z) (name from to : string) (amount : Expr) (body : list Statement) : call scope string :=
  amtExpr ← wrap ("tx " +:+ name +:+ ": amount") (exprGo amount);
  b ← tx_body name body no_fee;
  sig ← gets (λ sc, paramSig (sortedFree sc));
  mret ("func " +:+ funcName "Tx" idx name +:+ "(node runtime.Node" +:+ sig +:+ ") (string, error) {" +:+ nl +:+
        tab +:+ "amount := " +:+ amtExpr +:+ nl +:+ b.1 +:+
        tab +:+ "return node.Transfer(" +:+ quote from +:+ ", " +:+ quote to +:+ ", amount, " +:+
        feeTo b.2 +:+ ", " +:+ feeAmt b.2 +:+ ")" +:+ nl +:+ "}" +:+ nl).

Definition genMint (idx : Z) (name : string) (amount epoch : Expr) : call scope string :=
  amtExpr ← wrap ("mint " +:+ name +:+ ": amount") (exprGo amount);
  epochExpr ← match epoch with
              | NilExpr => mret "nil"
              | _ => wrap ("mint " +:+ name +:+ ": epoch") (exprGo epoch)
              end;
  sig ← gets (λ sc, paramSig (sortedFree sc));
  mret ("func " +:+ funcName "Mint" idx name +:+ "(node runtime.Node" +:+ sig +:+ ") error {" +:+ nl +:+
        tab +:+ "return node.MintProposal(" +:+ quote name +:+ ", " +:+ amtExpr +:+ ", " +:+ epochExpr +:+ ")" +:+
        nl +:+ "}" +:+ nl).

Definition genBank (idx : Z) (name : string) (atr : Expr) : call scope string :=
  atrExpr ← wrap ("bank deposit " +:+ name) (exprGo atr);
  sig ← gets (λ sc, paramSig (sortedFree sc));
  mret ("func " +:+ funcName "Bank" idx name +:+ "(node runtime.Node" +:+ sig +:+ ") (string, error) {" +:+ nl +:+
        tab +:+ "return node.BankDeposit(" +:+ quote name +:+ ", " +:+ atrExpr +:+ ")" +:+ nl +:+ "}" +:+ nl).

(** Positions are literals, cut at the decimal point. *)
Fixpoint before_dot (s : string) : string :=
  match s with
  | EmptyString => EmptyString
  | String c s => if Ascii.eqb c "." then EmptyString else String c (before_dot s)
  end.
Definition intLiterals (nums : list string) : list string := map before_dot nums.
Fixpoint literals (name : string) (positions : list Expr) : result (list string) :=
  match positions with
  | [] => Ok []
  | NumberLit text :: positions => lits ← literals name positions; Ok (text :: lits)
  | p :: _ =>
      Err ("queue insert " +:+ name +:+ ": codegen v0.1 requires literal positions, got " +:+ expr_type p)
  end.
Definition genQueue (idx : Z) (name : string) (positions : list Expr) : call scope string :=
  lits ← lift (literals name positions);
  mret ("func " +:+ funcName "Queue" idx name +:+ "(node runtime.Node) error {" +:+ nl +:+
        tab +:+ "return node.QueueInsert(" +:+ quote name +:+ ", []int{" +:+ join ", " (intLiterals lits) +:+ "})" +:+
        nl +:+ "}" +:+ nl).

Definition genUpdateTrait (idx : Z) (target key op : string) (value : Expr) : call scope string :=
  valExpr ← wrap ("update_trait " +:+ target +:+ "." +:+ key) (exprGo value);
  sig ← gets (λ sc, paramSig (sortedFree sc));
  mret ("func " +:+ funcName "Trait" idx (target +:+ "_" +:+ key) +:+ "(node runtime.Node" +:+ sig +:+ ") error {" +:+ nl +:+
        tab +:+ "return node.UpdateTrait(" +:+ quote target +:+ ", " +:+ quote key +:+ ", " +:+ quote op +:+ ", " +:+
        valExpr +:+ ")" +:+ nl +:+ "}" +:+ nl).

(** ** The program *)

(** The functions a top-level statement adds. *)
Definition topLevel (idx : Z) (s : Statement) : result (list string) :=
  let emit (initial : list string) (m : call scope string) : result (list string) :=
    f ← (m (newScope initial)).1; Ok [f] in
  match s with
  | TxStatement name from to amount body => emit ["amount"] (genTx idx name from to amount body)
  | MintStatement name amount epoch => emit [] (genMint idx name amount epoch)
  | BankDepositStatement name atr => emit [] (genBank idx name atr)
  | QueueInsertStatement name positions => emit [] (genQueue idx name positions)
  | UpdateTraitStatement target key op value => emit [] (genUpdateTrait idx target key op value)
  | ContainerStatement _ | NetworkStatement _ | ResilienceStatement _ _ | VoteStatement _ _
  | ShardStatement _ _ | AsyncStaggerStatement _ | ValidateStatement _ _ _ | IfStatement _ _
  | Assignment _ _ => Ok []
  | ActivateSentinelsStatement => Err ("codegen: unsupported top-level statement " +:+ kindName s)
  end.

Fixpoint functions (idx : Z) (stmts : list Statement) : result (list string) :=
  match stmts with
  | [] => Ok []
  | s :: stmts => f ← topLevel idx s; fs ← functions (idx + 1) stmts; Ok (f ++ fs)
  end.

Definition render (pkgName : string) (funcs : list string) : string :=
  "// Code generated by shadowc (ShadowRust codegen). DO NOT EDIT." +:+ nl +:+
  "package " +:+ pkgName +:+ nl +:+ nl +:+
  match funcs with
  | [] => EmptyString
  | _ =>
      "import (" +:+ nl +:+ tab +:+ quote "math/big" +:+ nl +:+ nl +:+ tab +:+
      quote "github.com/shadowforge/shadowforge-l1/codegen/runtime" +:+ nl +:+ ")" +:+ nl +:+ nl +:+
      "var _ = big.NewRat" +:+ nl +:+ "var _ runtime.Node" +:+ nl +:+ nl
  end +:+
  foldr (λ f rest, f +:+ nl +:+ rest) EmptyString funcs.

Definition Generate (format_Source : string → result string) (pkgName : string) (prog : Program) : result string :=
  funcs ← functions 0 (Statements prog);
  let src := render pkgName funcs in
  match format_Source src with
  | Ok formatted => Ok formatted
  | Err e => Err ("codegen produced invalid Go: " +:+ e +:+ nl +:+ "---" +:+ nl +:+ src)
  end.
End Codegen.
