(* ===== verification/Emitted.v ===== *)
(** The functions codegen emits, as terms: what their text is, what the Go compiler asks
    of them, and what they do when they run against [runtime.Node]. *)
From S2P Require Import Prelude Words Decimal Ast Interp Sema Codegen.

Module Go.
Inductive expr :=
| Lit (text : string)
| Var (x : string)
| Add (a b : expr) | Sub (a b : expr) | Mul (a b : expr) | Div (a b : expr)
| Cmp (op : string) (a b : expr).

Fixpoint print (g : expr) : string :=
  let call f a b := ("runtime." +:+ f +:+ "(" +:+ a +:+ ", " +:+ b +:+ ")") in
  match g with
  | Lit text => "runtime.N(" +:+ quote text +:+ ")"
  | Var x => x
  | Add a b => call "Add" (print a) (print b)
  | Sub a b => call "Sub" (print a) (print b)
  | Mul a b => call "Mul" (print a) (print b)
  | Div a b => call "Div" (print a) (print b)
  | Cmp op a b => "runtime.Cmp(" +:+ quote op +:+ ", " +:+ print a +:+ ", " +:+ print b +:+ ")"
  end.

(** The names an expression mentions, the qualifier of its calls among them. *)
Fixpoint vars (g : expr) : gset string :=
  match g with
  | Lit _ => {["runtime"]}
  | Var x => {[x]}
  | Add a b | Sub a b | Mul a b | Div a b | Cmp _ a b => {["runtime"]} ∪ (vars a ∪ vars b)
  end.

(** A transfer function: its parameters, its declarations [x := e] in order, and the
    fee it passes (an address and the variable holding the amount). *)
Record transfer := {
  t_name : string; t_params : list string; t_from : string; t_to : string;
  t_amount : expr; t_decls : list (string * expr); t_fee : option (string * string) }.

Definition all_decls (f : transfer) : list (string * expr) := ("amount", t_amount f) :: t_decls f.

Definition print_decls (ds : list (string * expr)) : string :=
  foldr (λ d rest, tab +:+ d.1 +:+ " := " +:+ print d.2 +:+ nl +:+ rest) EmptyString ds.

Definition print_params (ps : list string) : string :=
  match ps with [] => EmptyString | _ => ", " +:+ join ", " (map (λ p, p +:+ " *big.Rat") ps) end.

Definition print_fee (f : option (string * string)) : Codegen.fee :=
  match f with
  | Some (to, x) => {| Codegen.feeTo := quote to; Codegen.feeAmt := x |}
  | None => Codegen.no_fee
  end.

Definition print_transfer (f : transfer) : string :=
  "func " +:+ t_name f +:+ "(node runtime.Node" +:+ print_params (t_params f) +:+ ") (string, error) {" +:+ nl +:+
  print_decls (all_decls f) +:+
  tab +:+ "return node.Transfer(" +:+ quote (t_from f) +:+ ", " +:+ quote (t_to f) +:+ ", amount, " +:+
  Codegen.feeTo (print_fee (t_fee f)) +:+ ", " +:+ Codegen.feeAmt (print_fee (t_fee f)) +:+ ")" +:+ nl +:+ "}" +:+ nl.

(** ** What the Go compiler asks *)

Definition keywords : list string :=
  ["break"; "case"; "chan"; "const"; "continue"; "default"; "defer"; "else"; "fallthrough"; "for";
   "func"; "go"; "goto"; "if"; "import"; "interface"; "map"; "package"; "range"; "return";
   "select"; "struct"; "switch"; "type"; "var"].
(** A name that a declaration can introduce and an expression use: not a keyword, not blank. *)
Definition identifier (x : string) : bool :=
  match x with EmptyString => false | String c _ => negb (is_digit c) end &&
  all_chars is_word x && negb (bool_decide (x ∈ keywords)) && negb (bool_decide (x = "_")).

(** An expression is a [*big.Rat] where these names are declared. The package [runtime]
    has all the helpers; a local [runtime] is a [*big.Rat], which has methods [Add],
    [Sub] and [Mul] that take two operands, but no [N], no [Div], and a [Cmp] that does
    not take these arguments. *)
Fixpoint typed (declared : gset string) (g : expr) : bool :=
  let package := bool_decide ("runtime" ∉ declared) in
  match g with
  | Lit _ => package
  | Var x => bool_decide (x ∈ declared)
  | Add a b | Sub a b | Mul a b => typed declared a && typed declared b
  | Div a b | Cmp _ a b => package && typed declared a && typed declared b
  end.

(** Each declaration is typed in the scope of those before it. *)
Fixpoint scoped (declared : gset string) (ds : list (string * expr)) : bool :=
  match ds with
  | [] => true
  | d :: ds => typed declared d.2 && scoped ({[d.1]} ∪ declared) ds
  end.

(** What the return statement mentions: without a fee, the identifier [nil]. *)
Definition returned (f : transfer) : gset string :=
  {["amount"; match t_fee f with Some (_, x) => x | None => "nil" end]}.
(** Every local is mentioned after its declaration. *)
Fixpoint all_used (ret : gset string) (ds : list (string * expr)) : bool :=
  match ds with
  | [] => true
  | d :: ds => bool_decide (d.1 ∈ foldr (λ d u, vars d.2 ∪ u) ret ds) && all_used ret ds
  end.

(** The parameters and the body are one scope, which declares a name once; [node] is a
    parameter too. *)
Definition names (f : transfer) : list string := t_params f ++ map fst (all_decls f).
Definition compiles (f : transfer) : bool :=
  bool_decide (NoDup ("node" :: names f)) && forallb identifier (names f) &&
  scoped (list_to_set (t_params f)) (all_decls f) && all_used (returned f) (all_decls f).

(** No local hides the package, or the [nil] of a transfer without a fee. *)
Definition unshadowed (f : transfer) : bool :=
  bool_decide ("runtime" ∉ names f) &&
  match t_fee f with Some _ => true | None => bool_decide ("nil" ∉ names f) end.

(** ** What it does *)

(** The [big.Rat]s a function can reach, by address. A variable holds an address, so a
    declaration [x := y] makes two names of one number. *)
Abbreviation loc := nat.
Abbreviation heap := (list Decimal).
Abbreviation scope := (gmap string loc).

Definition alloc (v : Decimal) : call heap loc := λ h, (Ok (length h), h ++ [v]).
Definition deref (l : loc) : call heap Decimal := λ h,
  (match h !! l with Some v => Ok v | None => Err "invalid memory address or nil pointer dereference" end, h).

Section semantics.
Context `{BigRat}.

(** [runtime.Add(x, y)] and its like: the function of the package, whose result is new,
    or the method of a local [runtime], which sets the local's own number and returns it. *)
Definition arith (f : Decimal → Decimal → Decimal) (env : scope) (x y : loc) : call heap loc :=
  a ← deref x; b ← deref y;
  match env !! "runtime" with
  | None => alloc (f a b)
  | Some z => _ ← modify (<[z := f a b]>); mret z
  end.

Fixpoint eval (env : scope) (g : expr) : call heap loc :=
  match g with
  | Lit text => v ← lift (Runtime.N text); alloc v
  | Var x => match env !! x with Some l => mret l | None => fail "undefined" end
  | Add a b => x ← eval env a; y ← eval env b; arith Runtime.Add env x y
  | Sub a b => x ← eval env a; y ← eval env b; arith Runtime.Sub env x y
  | Mul a b => x ← eval env a; y ← eval env b; arith Runtime.Mul env x y
  | Div a b =>
      x ← eval env a; y ← eval env b; a ← deref x; b ← deref y;
      v ← lift (Runtime.Div a b); alloc v
  | Cmp op a b =>
      x ← eval env a; y ← eval env b; a ← deref x; b ← deref y;
      v ← lift (Runtime.Cmp op a b); alloc v
  end.

Fixpoint declare (env : scope) (ds : list (string * expr)) : call heap scope :=
  match ds with
  | [] => mret env
  | d :: ds => l ← eval env d.2; declare (<[d.1 := l]> env) ds
  end.

(** The call a transfer function makes on its node, [feeAmount] being nil without a fee:
    what its arguments point to at that moment. *)
Record TransferCall := {
  c_from : string; c_to : string; c_amount : Decimal; c_feeTo : string; c_feeAmount : option Decimal }.

Definition deref_opt (l : option loc) : call heap (option Decimal) :=
  match l with Some l => v ← deref l; mret (Some v) | None => mret None end.

(** The function's arguments are addresses, in the order of its parameters. *)
Definition run_transfer (f : transfer) (args : list loc) : call heap TransferCall :=
  env ← declare (list_to_map (zip (t_params f) args)) (all_decls f);
  amt ← match env !! "amount" with Some l => deref l | None => fail "undefined" end;
  fee ← deref_opt (env !! match t_fee f with Some (_, x) => x | None => "nil" end);
  mret {| c_from := t_from f; c_to := t_to f; c_amount := amt;
          c_feeTo := match t_fee f with Some (to, _) => to | None => EmptyString end; c_feeAmount := fee |}.
End semantics.
End Go.

(** * The translation *)

Module Compile.
Import Ast.
Fixpoint idents (e : Expr) : gset string :=
  match e with
  | Ident name => {[name]}
  | Binary _ l r => idents l ∪ idents r
  | FeeRoute value _ => idents value
  | NumberLit _ | NilExpr => ∅
  end.

Definition binary (op : string) (l r : Go.expr) : option Go.expr :=
  if bool_decide (op = "+") then Some (Go.Add l r)
  else if bool_decide (op = "-") then Some (Go.Sub l r)
  else if bool_decide (op = "*") then Some (Go.Mul l r)
  else if bool_decide (op = "/") then Some (Go.Div l r)
  else if is_relational op then Some (Go.Cmp op l r)
  else None.

Fixpoint expr (e : Expr) : option Go.expr :=
  match e with
  | NumberLit text => Some (Go.Lit text)
  | Ident name => Some (Go.Var (Codegen.goVar name))
  | Binary op l r => l ← expr l; r ← expr r; binary op l r
  | FeeRoute value _ => expr value
  | NilExpr => None
  end.

(** The declarations of a transfer's body, and the fee of its last routed assignment. *)
Definition route (name : string) (value : Expr) (fee : option (string * string)) : option (string * string) :=
  match value with FeeRoute _ to => Some (to, Codegen.goVar name) | _ => fee end.
Fixpoint body (stmts : list Statement) (fee : option (string * string))
    : option (list (string * Go.expr) * option (string * string)) :=
  match stmts with
  | [] => Some ([], fee)
  | Assignment name value :: stmts =>
      g ← expr value;
      rest ← body stmts (route name value fee);
      Some ((Codegen.goVar name, g) :: rest.1, rest.2)
  | _ :: _ => None
  end.

(** The names a body uses before it has assigned them. *)
Fixpoint free_names (bound : gset string) (stmts : list Statement) : gset string :=
  match stmts with
  | Assignment name value :: stmts => (idents value ∖ bound) ∪ free_names ({[name]} ∪ bound) stmts
  | _ => ∅
  end.

Definition params (free : gset string) : list string :=
  map Codegen.goVar (merge_sort string_le (elements free)).

Definition transfer (idx : Z) (name from to : string) (amount : Expr) (stmts : list Statement) : option Go.transfer :=
  a ← expr amount;
  b ← body stmts None;
  Some {| Go.t_name := Codegen.funcName "Tx" idx name;
          Go.t_params := params ((idents amount ∖ {["amount"]}) ∪ free_names {["amount"]} stmts);
          Go.t_from := from; Go.t_to := to; Go.t_amount := a; Go.t_decls := b.1; Go.t_fee := b.2 |}.
End Compile.
