(* ===== verification/Compiled.v ===== *)
(** The emitter is correct: its text is that of a Go function which, whenever the Go
    compiler accepts it, does what the interpreter does. *)
From S2P Require Import Prelude Words Decimal Ast Interp Sema Codegen Emitted.

Lemma string_app_assoc (a b c : string) : (a +:+ b) +:+ c = a +:+ (b +:+ c).
Proof. induction a as [|x a IH]; [done|]. change (String x ((a +:+ b) +:+ c) = String x (a +:+ (b +:+ c))). by rewrite IH. Qed.

(** ** Identifiers the lexer produces *)

Definition lexical (s : string) : bool := negb (bool_decide (s = EmptyString)) && all_chars is_word s.

Lemma goVar_lexical s : lexical s = true → Codegen.goVar s = s.
Proof.
  unfold lexical, Codegen.goVar, Codegen.sanitize. intros [Hne Hall]%andb_true_iff.
  assert (E : Codegen.sanitize_chars s = s).
  { clear Hne. induction s as [|c s IH]; [done|]. cbn in *. apply andb_true_iff in Hall as [Hc Hs].
    by rewrite Hc, IH. }
  rewrite E. destruct s; [discriminate Hne|done].
Qed.

(** ** The text *)

Section text.
Import Ast.
Implicit Types (e : Expr) (sc : Codegen.scope).

Definition add_free (xs : gset string) sc : Codegen.scope :=
  {| Codegen.bound := Codegen.bound sc; Codegen.free := (xs ∖ Codegen.bound sc) ∪ Codegen.free sc |}.

Lemma add_free_empty sc : add_free ∅ sc = sc.
Proof. destruct sc as [b f]. unfold add_free. cbn. f_equal. set_solver. Qed.
Lemma add_free_twice xs ys sc : add_free ys (add_free xs sc) = add_free (xs ∪ ys) sc.
Proof. unfold add_free. cbn. f_equal. set_solver. Qed.

Lemma binaryGo_text op a b t :
  Codegen.binaryGo op (Go.print a) (Go.print b) = Ok t →
  ∃ g, Compile.binary op a b = Some g ∧ t = Go.print g.
Proof.
  unfold Codegen.binaryGo, Compile.binary. intros H.
  repeat case_match; try discriminate H; injection H as <-; eexists; split; reflexivity.
Qed.

Lemma exprGo_text e sc t sc' : Codegen.exprGo e sc = (Ok t, sc') →
  ∃ g, Compile.expr e = Some g ∧ t = Go.print g ∧ sc' = add_free (Compile.idents e) sc.
Proof.
  revert sc t sc'. induction e as [|x|x|op l IHl r IHr|v IHv to]; intros sc t sc' H; cbn in H.
  - discriminate H.
  - injection H as <- <-. eexists. split_and!; [reflexivity..|]. unfold Codegen.use, modify, add_free. cbn.
    destruct sc as [b f]. cbn.
    case_bool_decide as Hx; cbn; [replace ({[x]} ∖ b ∪ f) with f|replace ({[x]} ∖ b ∪ f) with ({[x]} ∪ f)];
      first [reflexivity|apply set_eq; intros y; clear -Hx; set_solver].
  - injection H as <- <-. eexists. split_and!; [reflexivity..|]. symmetry. apply add_free_empty.
  - apply call_bind_Ok in H as (tl & sc1 & Hl & H). apply call_bind_Ok in H as (tr & sc2 & Hr & H).
    destruct (IHl _ _ _ Hl) as (gl & Egl & -> & ->). destruct (IHr _ _ _ Hr) as (gr & Egr & -> & ->).
    unfold lift in H. injection H as Ht <-. destruct (binaryGo_text _ _ _ _ Ht) as (g & Eg & ->).
    exists g. cbn. rewrite Egl, Egr. cbn. split_and!; [exact Eg|done|]. apply add_free_twice.
  - apply IHv in H. exact H.
Qed.

(** The names a body leaves bound. *)
Fixpoint bound_after (b : gset string) (stmts : list Statement) : gset string :=
  match stmts with
  | Assignment name _ :: stmts => bound_after ({[name]} ∪ b) stmts
  | _ => b
  end.

Lemma wrap_Ok {S A} prefix (m : call S A) s a s' : wrap prefix m s = (Ok a, s') → m s = (Ok a, s').
Proof. unfold wrap. destruct (m s) as [[x|err] s1]; [done|discriminate]. Qed.

Lemma print_route name value fee :
  Codegen.routed name value (Go.print_fee fee) = Go.print_fee (Compile.route name value fee).
Proof. destruct value; reflexivity. Qed.

Lemma tx_body_text name stmts fee sc text f sc' :
  Codegen.tx_body name stmts (Go.print_fee fee) sc = (Ok (text, f), sc') →
  ∃ ds fee', Compile.body stmts fee = Some (ds, fee') ∧ text = Go.print_decls ds ∧ f = Go.print_fee fee' ∧
    Codegen.free sc' = Compile.free_names (Codegen.bound sc) stmts ∪ Codegen.free sc.
Proof.
  revert fee sc text f sc'. induction stmts as [|s stmts IH]; intros fee sc text f sc' H.
  { injection H as <- <- <-. exists [], fee. split_and!; [done..|]. cbn. set_solver. }
  destruct s; try discriminate H. cbn [Codegen.tx_body] in H.
  apply call_bind_Ok in H as (ex & sc1 & Hx & H). apply wrap_Ok in Hx.
  destruct (exprGo_text _ _ _ _ Hx) as (g & Eg & -> & ->).
  apply call_bind_Ok in H as ([] & sc2 & Hb & H). injection Hb as <-.
  apply call_bind_Ok in H as ([rt rf] & sc3 & Hr & H). injection H as <- <- <-.
  rewrite print_route in Hr. destruct (IH _ _ _ _ _ Hr) as (ds & fee' & E & -> & -> & Ef).
  exists ((Codegen.goVar Name, g) :: ds), fee'. cbn [Compile.body]. rewrite Eg. cbn. rewrite E. cbn.
  split_and!; [done|done|done|]. cbn in Ef. rewrite Ef. set_solver.
Qed.

Lemma params_print free : Codegen.paramSig (merge_sort string_le (elements free)) = Go.print_params (Compile.params free).
Proof.
  unfold Codegen.paramSig, Go.print_params, Compile.params. destruct (merge_sort _ _) as [|x l]; [done|].
  cbn [map]. f_equal. f_equal. rewrite map_map. reflexivity.
Qed.

Lemma genTx_text idx name from to amount body text sc :
  Codegen.genTx idx name from to amount body (Codegen.newScope ["amount"]) = (Ok text, sc) →
  ∃ f, Compile.transfer idx name from to amount body = Some f ∧ text = Go.print_transfer f.
Proof.
  unfold Codegen.genTx. intros H. apply call_bind_Ok in H as (a & sc1 & Ha & H). apply wrap_Ok in Ha.
  destruct (exprGo_text _ _ _ _ Ha) as (g & Eg & -> & ->).
  apply call_bind_Ok in H as ([bt bf] & sc2 & Hb & H).
  destruct (tx_body_text _ _ None _ _ _ _ Hb) as (ds & fee & Eb & -> & -> & Ef).
  apply call_bind_Ok in H as (sig & sc3 & Hs & H). injection Hs as <- <-. injection H as <- <-.
  unfold Compile.transfer. rewrite Eg. cbn. rewrite Eb. cbn. eexists. split; [reflexivity|].
  unfold Go.print_transfer, Go.all_decls. cbn [Go.t_name Go.t_params Go.t_from Go.t_to Go.t_amount Go.t_decls Go.t_fee].
  unfold Codegen.sortedFree. rewrite params_print. unfold Go.print_decls at 2. cbn [foldr fst snd].
  rewrite !string_app_assoc.
  assert (Efree : Codegen.free sc2 = (Compile.idents amount ∖ {["amount"]}) ∪ Compile.free_names {["amount"]} body).
  { rewrite Ef. cbn. replace (list_to_set ["amount"] : gset string) with ({["amount"]} : gset string) by set_solver.
    set_solver. }
  rewrite Efree. reflexivity.
Qed.
End text.

(** ** Values instead of addresses *)

(** What the emitted code computes where the package is not shadowed: then no number is
    ever changed, and an environment of values says it all. *)
Module Values.
Import Go.
Section values.
Context `{BigRat}.

Fixpoint eval (env : gmap string Decimal) (g : expr) : result Decimal :=
  match g with
  | Lit text => Runtime.N text
  | Var x => match env !! x with Some v => Ok v | None => Err "undefined" end
  | Add a b => x ← eval env a; y ← eval env b; Ok (Runtime.Add x y)
  | Sub a b => x ← eval env a; y ← eval env b; Ok (Runtime.Sub x y)
  | Mul a b => x ← eval env a; y ← eval env b; Ok (Runtime.Mul x y)
  | Div a b => x ← eval env a; y ← eval env b; Runtime.Div x y
  | Cmp op a b => x ← eval env a; y ← eval env b; Runtime.Cmp op x y
  end.

Fixpoint declare (env : gmap string Decimal) (ds : list (string * expr)) : result (gmap string Decimal) :=
  match ds with
  | [] => Ok env
  | d :: ds => v ← eval env d.2; declare (<[d.1 := v]> env) ds
  end.

(** Every name in scope holds the address of its value. *)
Definition holds (env : scope) (h : heap) (vals : gmap string Decimal) : Prop := ∀ x,
  match env !! x with Some l => ∃ v, h !! l = Some v ∧ vals !! x = Some v | None => vals !! x = None end.

Lemma holds_app env h h' vals : holds env h vals → holds env (h ++ h') vals.
Proof.
  intros Hh x. specialize (Hh x). destruct (env !! x) as [l|]; [|done]. destruct Hh as (v & Hl & Hv).
  exists v. split; [by apply lookup_app_l_Some|done].
Qed.
Lemma holds_bind env h vals x l v : holds env h vals → h !! l = Some v → holds (<[x := l]> env) h (<[x := v]> vals).
Proof.
  intros Hh Hl y. destruct (decide (y = x)) as [->|]; [rewrite !lookup_insert_eq; eauto|].
  rewrite !lookup_insert_ne by done. apply Hh.
Qed.

(** [computes m h r]: the computation only adds numbers to the heap; it gives the address
    of the value, or panics where there is none. *)
Definition computes (m : call heap loc) (h : heap) (r : result Decimal) : Prop :=
  match r with
  | Ok v => ∃ l ext, m h = (Ok l, h ++ ext) ∧ (h ++ ext) !! l = Some v
  | Err _ => ∃ err h', m h = (Err err, h')
  end.

Lemma computes_alloc h v : computes (alloc v) h (Ok v).
Proof. exists (length h), [v]. split; [done|]. by rewrite lookup_app_r, Nat.sub_diag by lia. Qed.
Lemma computes_lift h r : computes (v ← lift r; alloc v) h r.
Proof. destruct r as [v|]; [apply computes_alloc|]. cbn. by eexists _, _. Qed.

Lemma computes_two (m n : call heap loc) h (r s : result Decimal) k (f : Decimal → Decimal → result Decimal) :
  computes m h r → (∀ h', computes n (h ++ h') s) →
  (∀ x y a b h', h' !! x = Some a → h' !! y = Some b → computes (k x y) h' (f a b)) →
  computes (x ← m; y ← n; k x y) h (a ← r; b ← s; f a b).
Proof.
  intros Hm Hn Hk. destruct r as [a|].
  2:{ destruct Hm as (err & h1 & Em). exists err, h1. unfold mbind, call_bind. by rewrite Em. }
  destruct Hm as (x & e1 & Em & Hx). specialize (Hn e1). cbn. destruct s as [b|].
  2:{ destruct Hn as (err & h1 & En). exists err, h1. unfold mbind, call_bind. by rewrite Em, En. }
  destruct Hn as (y & e2 & En & Hy). cbn.
  specialize (Hk x y a b _ (lookup_app_l_Some _ _ _ _ Hx) Hy). unfold computes in *. destruct (f a b) as [v|].
  - destruct Hk as (l & e3 & Ek & Hl). exists l, (e1 ++ e2 ++ e3). rewrite !app_assoc. split; [|done].
    unfold mbind, call_bind. by rewrite Em, En, Ek.
  - destruct Hk as (err & h' & Ek). exists err, h'. unfold mbind, call_bind. by rewrite Em, En, Ek.
Qed.

Lemma computes_operands x y a b h (k : Decimal → Decimal → call heap loc) r :
  h !! x = Some a → h !! y = Some b → computes (k a b) h r →
  computes (a ← deref x; b ← deref y; k a b) h r.
Proof.
  intros Hx Hy Hk. unfold computes, mbind, call_bind, deref in *. by rewrite Hx, Hy.
Qed.

Lemma eval_values env h vals g :
  env !! "runtime" = None → holds env h vals → computes (Go.eval env g) h (eval vals g).
Proof.
  intros Hr. revert h. induction g as [text|x|a IHa b IHb|a IHa b IHb|a IHa b IHb|a IHa b IHb|op a IHa b IHb];
    intros h Hh; cbn [Go.eval eval].
  - apply computes_lift.
  - specialize (Hh x). destruct (env !! x) as [l|].
    + destruct Hh as (v & Hl & ->). exists l, []. by rewrite app_nil_r.
    + rewrite Hh. by eexists _, _.
  - apply computes_two; [auto|intros; by apply IHb, holds_app|]. intros x y v w h' Hx Hy. unfold arith.
    rewrite Hr. apply (computes_operands x y v w); [done..|]. apply computes_alloc.
  - apply computes_two; [auto|intros; by apply IHb, holds_app|]. intros x y v w h' Hx Hy. unfold arith.
    rewrite Hr. apply (computes_operands x y v w); [done..|]. apply computes_alloc.
  - apply computes_two; [auto|intros; by apply IHb, holds_app|]. intros x y v w h' Hx Hy. unfold arith.
    rewrite Hr. apply (computes_operands x y v w); [done..|]. apply computes_alloc.
  - apply computes_two; [auto|intros; by apply IHb, holds_app|]. intros x y v w h' Hx Hy.
    apply (computes_operands x y v w); [done..|]. apply computes_lift.
  - apply computes_two; [auto|intros; by apply IHb, holds_app|]. intros x y v w h' Hx Hy.
    apply (computes_operands x y v w); [done..|]. apply computes_lift.
Qed.

Lemma declare_values env h vals ds :
  env !! "runtime" = None → "runtime" ∉ ds.*1 → holds env h vals →
  match declare vals ds with
  | Ok vals' => ∃ env' ext, Go.declare env ds h = (Ok env', h ++ ext) ∧ holds env' (h ++ ext) vals' ∧
      ∀ x, x ∉ ds.*1 → env' !! x = env !! x
  | Err _ => ∃ err h', Go.declare env ds h = (Err err, h')
  end.
Proof.
  revert env h vals. induction ds as [|d ds IH]; intros env h vals Hr Hd Hh; cbn [declare Go.declare].
  { exists env, []. rewrite app_nil_r. done. }
  cbn [fmap list_fmap] in Hd. pose proof (eval_values env h vals d.2 Hr Hh) as He.
  destruct (eval vals d.2) as [v|]; cbn.
  2:{ destruct He as (err & h' & E). exists err, h'. unfold mbind, call_bind. by rewrite E. }
  destruct He as (l & e1 & E & Hl). unfold mbind, call_bind. rewrite E.
  specialize (IH (<[d.1 := l]> env) (h ++ e1) (<[d.1 := v]> vals)).
  destruct (declare (<[d.1 := v]> vals) ds) as [vals'|].
  - destruct IH as (env' & e2 & E2 & Hh' & Hf); [rewrite lookup_insert_ne; set_solver|set_solver| |].
    { by apply holds_bind; [apply holds_app|]. }
    exists env', (e1 ++ e2). rewrite app_assoc. split_and!; [done..|]. intros x Hx.
    rewrite Hf by set_solver. apply lookup_insert_ne. set_solver.
  - apply IH; [rewrite lookup_insert_ne; set_solver|set_solver|]. by apply holds_bind; [apply holds_app|].
Qed.

Definition run_transfer (f : transfer) (args : gmap string Decimal) : result TransferCall :=
  env ← declare args (all_decls f);
  match env !! "amount" with
  | None => Err "undefined"
  | Some amt =>
      Ok {| c_from := t_from f; c_to := t_to f; c_amount := amt;
            c_feeTo := match t_fee f with Some (to, _) => to | None => EmptyString end;
            c_feeAmount := match t_fee f with Some (_, x) => env !! x | None => None end |}
  end.

(** A function that nothing shadows makes the call its values say, and leaves the numbers
    its caller holds alone. *)
Lemma run_transfer_values f args h vals :
  unshadowed f = true → holds (list_to_map (zip (t_params f) args)) h vals →
  match run_transfer f vals with
  | Ok c => ∃ ext, Go.run_transfer f args h = (Ok c, h ++ ext)
  | Err _ => ∃ err h', Go.run_transfer f args h = (Err err, h')
  end.
Proof.
  unfold unshadowed, names. intros [Hr Hn]%andb_true_iff Hh. apply bool_decide_eq_true in Hr.
  rewrite elem_of_app in Hr. unfold run_transfer, Go.run_transfer.
  set (env := list_to_map (zip (t_params f) args) : scope) in *.
  assert (Hfresh : ∀ x, x ∉ t_params f → env !! x = None).
  { intros x Hx. apply not_elem_of_list_to_map_1. contradict Hx. apply list_elem_of_fmap in Hx as ([y l] & -> & Hy).
    by apply elem_of_zip_l in Hy. }
  pose proof (declare_values env h vals (all_decls f) (Hfresh _ (λ Hx, Hr (or_introl Hx))) (λ Hx, Hr (or_intror Hx)) Hh) as Hd.
  unfold mbind, call_bind, result_bind.
  destruct (declare vals (all_decls f)) as [vals'|].
  2:{ destruct Hd as (err & h' & E). exists err, h'. by rewrite E. }
  destruct Hd as (env' & ext & E & Hh' & Hf). rewrite E.
  assert (Hfee : deref_opt (env' !! match t_fee f with Some (_, x) => x | None => "nil" end) (h ++ ext) =
    (Ok (match t_fee f with Some (_, x) => vals' !! x | None => None end), h ++ ext)).
  { destruct (t_fee f) as [[to x]|].
    - specialize (Hh' x). destruct (env' !! x) as [l|]; [|by rewrite Hh'].
      destruct Hh' as (v & Hl & ->). cbn. unfold mbind, call_bind, deref. by rewrite Hl.
    - apply bool_decide_eq_true in Hn. rewrite elem_of_app in Hn. by rewrite Hf, Hfresh by (intros Hx; apply Hn; auto). }
  specialize (Hh' "amount"). destruct (env' !! "amount") as [l|].
  - destruct Hh' as (v & Hl & ->). unfold deref at 1. rewrite Hl, Hfee. by exists ext.
  - rewrite Hh'. by eexists _, _.
Qed.
End values.
End Values.

(** ** Expressions *)

Section expressions.
Context `{BigRat}.
Import Ast Interp.
Implicit Types (e : Expr) (it : Interpreter) (env : gmap string Decimal).

(** What evaluation and the events it records leave alone. *)
Definition same_vars it it' : Prop :=
  it_Env it' = it_Env it ∧ it_Oracle it' = it_Oracle it ∧ it_Txs it' = it_Txs it ∧
  it_Deposits it' = it_Deposits it ∧ it_QueueInsert it' = it_QueueInsert it.

#[export] Instance same_vars_trans : Transitive same_vars.
Proof. intros x y z (?&?&?&?&?) (?&?&?&?&?). unfold same_vars. split_and!; congruence. Qed.
#[export] Instance same_vars_refl : Reflexive same_vars.
Proof. done. Qed.

Lemma same_lookup it it' x : same_vars it it' → lookup_name x it' = lookup_name x it.
Proof. intros (E1 & E2 & _). unfold lookup_name. by rewrite E1, E2. Qed.

Lemma eval_same e it r it' : eval e it = (r, it') → same_vars it it'.
Proof.
  revert it r it'. induction e as [|x|x|op l IHl r IHr|v IHv to]; intros it res it' E; cbn in E.
  - injection E as _ <-. done.
  - unfold mbind, call_bind, gets in E. destruct (lookup_name x it); injection E as _ <-; done.
  - destruct (SetString x); injection E as _ <-; done.
  - unfold mbind, call_bind in E. destruct (eval l it) as [[vl|el] it1] eqn:El; [|injection E as _ <-; eauto].
    destruct (eval r it1) as [[vr|er] it2] eqn:Er; [|injection E as _ <-; etrans; eauto].
    unfold lift in E. injection E as _ <-. etrans; eauto.
  - unfold mbind, call_bind in E. destruct (eval v it) as [[vv|ev] it1] eqn:Ev; [|injection E as _ <-; eauto].
    injection E as _ <-. apply IHv in Ev. exact Ev.
Qed.

(** An expression that routes no fee records nothing. *)
Lemma eval_quiet e it r it' : Sema.exprHasFeeRoute e = false → eval e it = (r, it') → it' = it.
Proof.
  revert it r it'. induction e as [|x|x|op l IHl r IHr|v IHv to]; intros it res it' Hf E; cbn in E, Hf.
  - by injection E as _ <-.
  - unfold mbind, call_bind, gets in E. destruct (lookup_name x it); by injection E as _ <-.
  - destruct (SetString x); by injection E as _ <-.
  - apply orb_false_iff in Hf as [Hl Hr].
    unfold mbind, call_bind in E. destruct (eval l it) as [[vl|el] it1] eqn:El; [|injection E as _ <-; eauto].
    apply IHl in El; [subst it1|done].
    destruct (eval r it) as [[vr|er] it2] eqn:Er; injection E as _ <-; eauto.
  - discriminate Hf.
Qed.

Lemma binary_correct op a b g env x y :
  Compile.binary op a b = Some g → Values.eval env a = Ok x → Values.eval env b = Ok y →
  match evalBinary op x y with
  | Ok v => Values.eval env g = Ok v
  | Err _ => ∃ err, Values.eval env g = Err err
  end.
Proof.
  unfold Compile.binary, evalBinary. intros E Ea Eb.
  repeat (case_bool_decide; [injection E as <-; cbn; rewrite Ea, Eb; cbn; try reflexivity|]).
  { unfold Runtime.Div. destruct (Decimal.Sign y =? 0); [eexists; reflexivity|reflexivity]. }
  destruct (is_relational op) eqn:Er; [|discriminate E]. injection E as <-. cbn. rewrite Ea, Eb. cbn.
  unfold Runtime.Cmp, compareRat. repeat (case_bool_decide; [reflexivity|]).
  unfold is_relational in Er. apply bool_decide_eq_true in Er. set_solver.
Qed.

Lemma binary_strict op a b g env :
  Compile.binary op a b = Some g →
  (is_ok (Values.eval env a) = false ∨ is_ok (Values.eval env b) = false) → ∃ err, Values.eval env g = Err err.
Proof.
  unfold Compile.binary. intros E Hf.
  assert (Hb : ∀ (k : Decimal → Decimal → result Decimal),
    ∃ err, (x ← Values.eval env a; y ← Values.eval env b; k x y) = Err err).
  { intros k. destruct (Values.eval env a) as [x|err]; [|eexists; reflexivity].
    destruct (Values.eval env b) as [y|err]; [|eexists; reflexivity]. destruct Hf as [Hf|Hf]; discriminate Hf. }
  repeat case_match; try discriminate E; injection E as <-; apply Hb.
Qed.

(** The emitted expression computes what the interpreter does and panics when it fails,
    on an environment that answers for the names the expression mentions. *)
Lemma eval_correct e g it env : Compile.expr e = Some g →
  (∀ x, x ∈ Compile.idents e → env !! Codegen.goVar x = lookup_name x it) →
  match (eval e it).1 with
  | Ok v => Values.eval env g = Ok v
  | Err _ => ∃ err, Values.eval env g = Err err
  end.
Proof.
  revert g it. induction e as [|x|x|op l IHl r IHr|v IHv to]; intros g it Eg Henv; cbn in Eg.
  - discriminate Eg.
  - injection Eg as <-. cbn. rewrite (Henv x) by set_solver. unfold mbind, call_bind, gets.
    destruct (lookup_name x it); [reflexivity|]. cbn. eexists. reflexivity.
  - injection Eg as <-. cbn. unfold Runtime.N. destruct (SetString x); [reflexivity|]. cbn. eexists. reflexivity.
  - destruct (Compile.expr l) as [gl|] eqn:El; [|discriminate Eg].
    destruct (Compile.expr r) as [gr|] eqn:Er; [|discriminate Eg]. cbn in Eg, Henv |- *.
    specialize (IHl gl it eq_refl ltac:(set_solver)). unfold mbind, call_bind.
    destruct (eval l it) as [[vl|el] it1] eqn:E1; cbn in IHl.
    2:{ apply (binary_strict _ _ _ _ _ Eg). left. destruct IHl as [? ->]. reflexivity. }
    assert (Hr : ∀ x, x ∈ Compile.idents r → env !! Codegen.goVar x = lookup_name x it1).
    { intros x Hx. rewrite (same_lookup it it1 x) by (by eapply eval_same). set_solver. }
    specialize (IHr gr it1 eq_refl Hr). destruct (eval r it1) as [[vr|er] it2]; cbn in IHr.
    2:{ apply (binary_strict _ _ _ _ _ Eg). right. destruct IHr as [? ->]. reflexivity. }
    cbn. exact (binary_correct _ _ _ _ _ _ _ Eg IHl IHr).
  - cbn in Henv |- *. specialize (IHv g it Eg Henv). unfold mbind, call_bind.
    destruct (eval v it) as [[vv|ev] it1]; exact IHv.
Qed.

Lemma expr_vars e g x : Compile.expr e = Some g → x ∈ Compile.idents e → Codegen.goVar x ∈ Go.vars g.
Proof.
  revert g. induction e as [|y|y|op l IHl r IHr|v IHv to]; intros g E Hx; cbn in E, Hx.
  - discriminate E.
  - injection E as <-. cbn. set_solver.
  - set_solver.
  - destruct (Compile.expr l) as [gl|]; [|discriminate E]. destruct (Compile.expr r) as [gr|]; [|discriminate E].
    assert (Hg : Go.vars gl ∪ Go.vars gr ⊆ Go.vars g).
    { cbn in E. unfold Compile.binary in E. repeat case_match; try discriminate E; injection E as <-; cbn; set_solver. }
    apply elem_of_union in Hx as [Hx|Hx]; [specialize (IHl gl eq_refl Hx)|specialize (IHr gr eq_refl Hx)]; set_solver.
  - eauto.
Qed.
End expressions.

(** ** Bodies and transfers *)

Section bodies.
Context `{BigRat}.
Import Ast Interp.
Implicit Types (e : Expr) (it : Interpreter) (env : gmap string Decimal).

(** Fee routes at the top of an assignment's value, where the emitter looks for them. *)
Definition plain_value e : bool :=
  match e with FeeRoute w _ => negb (Sema.exprHasFeeRoute w) | _ => negb (Sema.exprHasFeeRoute e) end.
Definition plain_body (stmts : list Statement) : bool :=
  forallb (λ s, match s with Assignment _ v => plain_value v | _ => false end) stmts.

Definition lexical_expr e : Prop := ∀ x, x ∈ Compile.idents e → lexical x = true.
Definition lexical_stmt (s : Statement) : Prop :=
  match s with Assignment name v => lexical name = true ∧ lexical_expr v | _ => True end.

Lemma free_names_lexical b stmts x :
  Forall lexical_stmt stmts → x ∈ Compile.free_names b stmts → lexical x = true.
Proof.
  intros Hl. revert b. induction Hl as [|s stmts Hs Hl IH]; intros b Hx; cbn in Hx; [set_solver|].
  destruct s; set_solver.
Qed.

Lemma declare_frame env ds env' x :
  Values.declare env ds = Ok env' → x ∉ ds.*1 → env' !! x = env !! x.
Proof.
  revert env. induction ds as [|d ds IH]; intros env E Hx; cbn in E; [by injection E as <-|].
  destruct (Values.eval env d.2) as [v|err]; [|discriminate E]. cbn in E, Hx.
  rewrite (IH _ E) by set_solver. apply lookup_insert_ne. set_solver.
Qed.

Lemma eval_plain e it v it' : plain_value e = true → eval e it = (Ok v, it') →
  it_FeeRoutes it' = it_FeeRoutes it ++ match e with FeeRoute _ to => [{| fr_To := to; fr_Amount := v |}] | _ => [] end.
Proof.
  intros Hp E. unfold plain_value in Hp. destruct e as [|x|x|op l r|w to]; apply negb_true_iff in Hp;
    try (rewrite (eval_quiet _ _ _ _ Hp E), app_nil_r; reflexivity).
  cbn in E. apply call_bind_Ok in E as (vw & it1 & Ew & E). apply (eval_quiet _ _ _ _ Hp) in Ew as ->.
  injection E as <- <-. reflexivity.
Qed.

(** What the last of some recorded fees means for the fee the function passes. *)
Definition fee_passed (fee fee' : option (string * string)) env (rs : list FeeRouteEvent) : Prop :=
  match last rs with
  | None => fee' = fee
  | Some r => ∃ x, fee' = Some (fr_To r, x) ∧ env !! x = Some (fr_Amount r)
  end.

Lemma fee_passed_cons fee fee' name v value env rs :
  fee_passed (Compile.route name value fee) fee' env rs → env !! Codegen.goVar name = Some v →
  fee_passed fee fee' env (match value with FeeRoute _ to => [{| fr_To := to; fr_Amount := v |}] | _ => [] end ++ rs).
Proof.
  unfold fee_passed. intros Hf Hx. destruct value as [|x|x|op l r|w to]; try exact Hf.
  cbn [app]. destruct rs as [|r rs]; [cbn in *; eauto|].
  change (last (_ :: r :: rs)) with (last (r :: rs)). destruct (last (r :: rs)) eqn:E; [exact Hf|].
  by apply last_None in E.
Qed.

Definition agrees (names : gset string) it env : Prop :=
  ∀ x, x ∈ names → env !! Codegen.goVar x = lookup_name x it.

Lemma agrees_set names name v it env :
  lexical name = true → (∀ x, x ∈ names → lexical x = true) → agrees (names ∖ {[name]}) it env →
  agrees names (it <| it_Env ::= <[name := v]> |>) (<[Codegen.goVar name := v]> env).
Proof.
  intros Hn Hl Ha x Hx. unfold lookup_name. cbn. destruct (decide (x = name)) as [->|Hne].
  - by rewrite !lookup_insert_eq.
  - rewrite (goVar_lexical name Hn), (goVar_lexical x) by auto. rewrite !lookup_insert_ne by done.
    assert (E : env !! Codegen.goVar x = lookup_name x it) by (apply Ha; set_solver).
    rewrite (goVar_lexical x) in E by auto. exact E.
Qed.

Lemma body_correct stmts fee ds fee' b it env :
  Compile.body stmts fee = Some (ds, fee') → Forall lexical_stmt stmts → (∀ x, x ∈ b → lexical x = true) →
  agrees (b ∪ Compile.free_names b stmts) it env →
  match runStatements stmts it with
  | (Ok _, it') => ∃ env', Values.declare env ds = Ok env' ∧
      it_Txs it' = it_Txs it ∧ it_Deposits it' = it_Deposits it ∧ it_QueueInsert it' = it_QueueInsert it ∧
      (plain_body stmts = true → NoDup ds.*1 → ∃ rs,
        it_FeeRoutes it' = it_FeeRoutes it ++ rs ∧ fee_passed fee fee' env' rs)
  | (Err _, _) => ∃ err, Values.declare env ds = Err err
  end.
Proof.
  revert fee ds b it env. induction stmts as [|s stmts IH]; intros fee ds b it env Eb Hl Hb Ha; cbn in Eb.
  { injection Eb as <- <-. cbn. exists env. split_and!; [done..|]. intros _ _. exists [].
    split; [by rewrite app_nil_r|done]. }
  destruct s; try discriminate Eb. cbn in Ha.
  destruct (Compile.expr Value) as [g|] eqn:Eg; [|discriminate Eb]. cbn in Eb.
  destruct (Compile.body stmts _) as [[ds1 fee1]|] eqn:Es; [|discriminate Eb]. injection Eb as <- <-.
  apply Forall_cons in Hl as [[Hn Hv] Hl].
  assert (Hg : agrees (Compile.idents Value) it env).
  { intros x Hx. apply Ha. destruct (decide (x ∈ b)); set_solver. }
  pose proof (eval_correct _ g it env Eg Hg) as He. cbn [runStatements runStatement].
  unfold mbind, call_bind, wrap. destruct (eval Value it) as [[v|err] it1] eqn:Ev; cbn in He.
  2:{ cbn. destruct He as [err' ->]. eexists. reflexivity. }
  unfold set_var, modify. cbn [Values.declare fst snd]. rewrite He. cbn [mbind result_bind].
  pose proof (eval_same _ _ _ _ Ev) as Hs.
  specialize (IH _ _ ({[Name]} ∪ b) (it1 <| it_Env ::= <[Name := v]> |>) (<[Codegen.goVar Name := v]> env) Es Hl).
  assert (Hb' : ∀ x, x ∈ {[Name]} ∪ b → lexical x = true) by set_solver.
  specialize (IH Hb'). assert (Ha' : agrees (({[Name]} ∪ b) ∪ Compile.free_names ({[Name]} ∪ b) stmts)
    (it1 <| it_Env ::= <[Name := v]> |>) (<[Codegen.goVar Name := v]> env)).
  { apply agrees_set; [done| |].
    - intros x [Hx|Hx]%elem_of_union; [auto|by eapply free_names_lexical].
    - intros x Hx. rewrite (same_lookup it it1) by done. apply Ha. set_solver. }
  specialize (IH Ha'). destruct (runStatements stmts _) as [[u|err] it'] eqn:Er; [|exact IH].
  destruct IH as (env' & Ed & E1 & E2 & E3 & Hf). destruct Hs as (_ & _ & S1 & S2 & S3).
  exists env'. split_and!; [exact Ed|etrans; [exact E1|exact S1]|etrans; [exact E2|exact S2]|etrans; [exact E3|exact S3]|].
  intros Hp Hnd. cbn in Hp. apply andb_true_iff in Hp as [Hpv Hp]. apply NoDup_cons in Hnd as [Hni Hnd].
  destruct (Hf Hp Hnd) as (rs & Ers & Hrs). eexists. split.
  - rewrite Ers. cbn [it_FeeRoutes]. change (it_FeeRoutes (it1 <| it_Env ::= <[Name := v]> |>)) with (it_FeeRoutes it1).
    rewrite (eval_plain _ _ _ _ Hpv Ev), <-app_assoc. reflexivity.
  - eapply fee_passed_cons; [exact Hrs|]. rewrite (declare_frame _ _ _ (Codegen.goVar Name) Ed Hni). apply lookup_insert_eq.
Qed.
End bodies.

Section transfers.
Context `{BigRat}.
Import Ast Interp.

Lemma run_tx name from to amount body it :
  runStatement (TxStatement name from to amount body) it =
  (amt ← wrap ("tx " +:+ name +:+ " amount") (eval amount);
   _ ← set_var "amount" amt;
   _ ← modify (λ it, it <| it_Txs ::= λ l,
         l ++ [{| te_Name := name; te_From := from; te_To := to; te_Amount := amt |}] |>);
   runStatements body) it.
Proof. reflexivity. Qed.

Lemma elem_params free x : x ∈ free → Codegen.goVar x ∈ Compile.params free.
Proof.
  intros Hx. unfold Compile.params. apply list_elem_of_fmap. exists x. split; [done|].
  rewrite merge_sort_Permutation. by apply elem_of_elements.
Qed.

Lemma typed_vars declared g : Go.typed declared g = true → Go.vars g ⊆ {["runtime"]} ∪ declared.
Proof.
  induction g; cbn; rewrite ?andb_true_iff, ?bool_decide_eq_true; set_solver.
Qed.

Lemma amount_undeclared f :
  Go.compiles f = true → "amount" ∉ Go.vars (Go.t_amount f) ∧ NoDup (Go.t_decls f).*1 ∧
    "amount" ∉ (Go.t_decls f).*1.
Proof.
  unfold Go.compiles, Go.names. intros Hc. rewrite !andb_true_iff in Hc. destruct Hc as [[[Hn _] Hs] _].
  apply bool_decide_eq_true in Hn. unfold Go.all_decls in *. cbn [map fst Go.scoped snd] in *.
  rewrite app_comm_cons in Hn.
  apply NoDup_app in Hn as (_ & Hd & Hn). apply NoDup_cons in Hn as [Ha Hn].
  split_and!; [|exact Hn|exact Ha]. apply andb_true_iff in Hs as [Hs _]. apply typed_vars in Hs.
  intros Hv. apply Hs in Hv. apply (Hd "amount"); [|set_solver]. set_solver.
Qed.

(** A transfer function and the statement it was compiled from, run on the same names. *)
Lemma transfer_values idx name from to amount body f it args :
  Compile.transfer idx name from to amount body = Some f → Go.compiles f = true →
  lexical_expr amount → Forall lexical_stmt body →
  (∀ x, x ∈ Go.t_params f → args !! x = lookup_name x it) →
  match runStatement (TxStatement name from to amount body) it, Values.run_transfer f args with
  | (Ok _, it'), Ok c =>
      c = {| Go.c_from := from; Go.c_to := to; Go.c_amount := Go.c_amount c;
             Go.c_feeTo := Go.c_feeTo c; Go.c_feeAmount := Go.c_feeAmount c |} ∧
      it_Txs it' = it_Txs it ++ [{| te_Name := name; te_From := from; te_To := to; te_Amount := Go.c_amount c |}] ∧
      it_Deposits it' = it_Deposits it ∧ it_QueueInsert it' = it_QueueInsert it ∧
      (Sema.exprHasFeeRoute amount = false → plain_body body = true → ∃ rs,
         it_FeeRoutes it' = it_FeeRoutes it ++ rs ∧
         (Go.c_feeTo c, Go.c_feeAmount c) =
           match last rs with None => (EmptyString, None) | Some r => (fr_To r, Some (fr_Amount r)) end)
  | (Err _, _), Err _ => True
  | _, _ => False
  end.
Proof.
  intros Ef Hc Hla Hlb Hargs. pose proof (amount_undeclared f Hc) as (Hamt & Hnd & Hna).
  unfold Compile.transfer in Ef. destruct (Compile.expr amount) as [g|] eqn:Eg; [|discriminate Ef]. cbn in Ef.
  destruct (Compile.body body None) as [[ds fee]|] eqn:Eb; [|discriminate Ef]. cbn in Ef. injection Ef as <-.
  cbn [Go.t_params Go.t_amount Go.t_decls] in *. rewrite run_tx. unfold Values.run_transfer, Go.all_decls.
  cbn [Go.t_params Go.t_amount Go.t_decls Go.t_from Go.t_to Go.t_fee Values.declare fst snd].
  assert (Hg : agrees (Compile.idents amount) it args).
  { intros x Hx. rewrite Hargs; [by rewrite goVar_lexical by auto|]. apply elem_params.
    apply elem_of_union_l, elem_of_difference. split; [done|]. intros ->%elem_of_singleton.
    apply Hamt. by apply (expr_vars _ _ _ Eg) in Hx. }
  pose proof (eval_correct _ _ it args Eg Hg) as He. unfold mbind, call_bind, result_bind, wrap.
  destruct (eval amount it) as [[v|err] it1] eqn:Ev; cbn [fst] in He.
  2:{ destruct He as [err' ->]. exact I. }
  rewrite He. unfold set_var, modify.
  set (it2 := it1 <| it_Env ::= _ |> <| it_Txs ::= _ |>).
  pose proof (eval_same _ _ _ _ Ev) as Hs. destruct Hs as (S0 & S1 & S2 & S3 & S4).
  assert (Ha : agrees ({["amount"]} ∪ Compile.free_names {["amount"]} body) it2 (<["amount" := v]> args)).
  { apply (agrees_set _ "amount" v it1 args); [done| |].
    - intros x [->%elem_of_singleton|Hx]%elem_of_union; [done|by eapply free_names_lexical].
    - intros x Hx. rewrite (same_lookup it it1) by done.
      assert (Hf : x ∈ Compile.free_names {["amount"]} body) by set_solver.
      rewrite Hargs; [by rewrite goVar_lexical by (by eapply free_names_lexical)|].
      apply elem_params. by apply elem_of_union_r. }
  pose proof (body_correct body None ds fee {["amount"]} it2 (<["amount" := v]> args) Eb Hlb ltac:(set_solver) Ha) as Hb.
  destruct (runStatements body it2) as [[u|err] it'] eqn:Er.
  2:{ destruct Hb as [err' ->]. exact I. }
  destruct Hb as (env' & Ed & E1 & E2 & E3 & Hf). rewrite Ed, (declare_frame _ _ _ "amount" Ed Hna), lookup_insert_eq.
  cbn [Go.c_from Go.c_to Go.c_amount Go.c_feeTo Go.c_feeAmount].
  split_and!; [reflexivity|rewrite E1; cbn; by rewrite S2|rewrite E2; exact S3|rewrite E3; exact S4|].
  intros Hq Hp. destruct (Hf Hp Hnd) as (rs & Ers & Hrs). exists rs. apply (eval_quiet _ _ _ _ Hq) in Ev. subst it1.
  split; [exact Ers|]. unfold fee_passed in Hrs. destruct (last rs) as [r|].
  - destruct Hrs as (x & -> & Hx). by rewrite Hx.
  - subst fee. reflexivity.
Qed.

(** [args] are the addresses of what the interpreter would look up. *)
Definition passes (f : Go.transfer) (args : list Go.loc) (h : Go.heap) it : Prop :=
  Forall2 (λ x l, ∃ v, h !! l = Some v ∧ lookup_name x it = Some v) (Go.t_params f) args.

Lemma passes_holds f args h it : passes f args h it →
  let env := list_to_map (zip (Go.t_params f) args) : Go.scope in
  let vals := omap (λ l, h !! l) env in
  Values.holds env h vals ∧ ∀ x, x ∈ Go.t_params f → vals !! x = lookup_name x it.
Proof.
  intros Hp env vals.
  assert (He : ∀ x l, env !! x = Some l → ∃ v, h !! l = Some v ∧ lookup_name x it = Some v).
  { intros x l Hx. apply elem_of_list_to_map_2 in Hx. unfold passes in Hp. clear env vals.
    induction Hp as [|y m ys ms Hy _ IH]; cbn in Hx; [set_solver|].
    apply elem_of_cons in Hx as [[= -> ->]|Hx]; auto. }
  split.
  - intros x. unfold vals. rewrite lookup_omap. destruct (env !! x) as [l|] eqn:Ex; [|done].
    destruct (He x l Ex) as (v & Hl & _). by exists v.
  - intros x Hx. unfold vals. rewrite lookup_omap. destruct (env !! x) as [l|] eqn:Ex.
    + destruct (He x l Ex) as (v & Hl & Hv). cbn. congruence.
    + exfalso. apply not_elem_of_list_to_map_2 in Ex. apply Ex. rewrite fst_zip; [done|].
      by rewrite (Forall2_length _ _ _ Hp).
Qed.

(** The pointers of the emitted code included. *)
Lemma transfer_correct idx name from to amount body f it args h :
  Compile.transfer idx name from to amount body = Some f → Go.compiles f = true → Go.unshadowed f = true →
  lexical_expr amount → Forall lexical_stmt body → passes f args h it →
  match runStatement (TxStatement name from to amount body) it, Go.run_transfer f args h with
  | (Ok _, it'), (Ok c, h') =>
      Go.c_from c = from ∧ Go.c_to c = to ∧ h `prefix_of` h' ∧
      it_Txs it' = it_Txs it ++ [{| te_Name := name; te_From := from; te_To := to; te_Amount := Go.c_amount c |}] ∧
      (Sema.exprHasFeeRoute amount = false → plain_body body = true → ∃ rs,
         it_FeeRoutes it' = it_FeeRoutes it ++ rs ∧
         (Go.c_feeTo c, Go.c_feeAmount c) =
           match last rs with None => (EmptyString, None) | Some r => (fr_To r, Some (fr_Amount r)) end)
  | (Err _, _), (Err _, _) => True
  | _, _ => False
  end.
Proof.
  intros Ef Hc Hu Hla Hlb Hp. destruct (passes_holds _ _ _ _ Hp) as [Hh Hv].
  pose proof (transfer_values idx name from to amount body f it _ Ef Hc Hla Hlb Hv) as H1.
  pose proof (Values.run_transfer_values f args h _ Hu Hh) as H2.
  destruct (Values.run_transfer f _) as [c|err'], (runStatement _ it) as [[u|err] it']; try done.
  - destruct H2 as [ext ->]. destruct H1 as (-> & Ht & _ & _ & Hf).
    split_and!; [done|done|by apply prefix_app_r|done|done].
  - by destruct H2 as (e & h' & ->).
Qed.
End transfers.
