(* ===== verification/Typing.v ===== *)
(** What the static side of ShadowRust guarantees: programs the builder makes are well
    typed, and what the analyzer accepts respects the stages of the pipeline. *)
From S2P Require Import Prelude Words Decimal Ast Interp Sema Codegen Emitted Compiled.
From Stdlib Require Import Ascii.

(** * Well-formed programs *)

Definition digits1 (s : string) : bool := negb (bool_decide (s = EmptyString)) && all_chars is_digit s.
Fixpoint cut_dot (s : string) : string * option string :=
  match s with
  | EmptyString => (EmptyString, None)
  | String c s => if Ascii.eqb c "." then (EmptyString, Some s) else let (a, b) := cut_dot s in (String c a, b)
  end.
(** The token [NUMBER: [0-9]+ ('.' [0-9]+)?]. *)
Definition number_token (s : string) : bool :=
  match cut_dot s with (a, None) => digits1 a | (a, Some b) => digits1 a && digits1 b end.

Definition known_op (op : string) : bool := bool_decide (op ∈ ["+"; "-"; "*"; "/"]) || is_relational op.

Section wf.
Import Ast.
Fixpoint wf_expr (e : Expr) : bool :=
  match e with
  | NilExpr => false
  | Ident name => lexical name
  | NumberLit text => number_token text
  | Binary op l r => known_op op && wf_expr l && wf_expr r
  | FeeRoute v to => wf_expr v && lexical to
  end.
Definition wf_optional (e : Expr) : bool := match e with NilExpr => true | _ => wf_expr e end.
Fixpoint wf_stmt (s : Statement) : bool :=
  match s with
  | IfStatement c b | ResilienceStatement c b => wf_expr c && forallb wf_stmt b
  | TxStatement n f t a b => lexical n && lexical f && lexical t && wf_expr a && forallb wf_stmt b
  | MintStatement n a e => lexical n && wf_expr a && wf_optional e
  | ValidateStatement n _ b => lexical n && forallb wf_stmt b
  | QueueInsertStatement n ps => lexical n && forallb wf_expr ps
  | BankDepositStatement n a => lexical n && wf_expr a
  | Assignment n v => lexical n && wf_expr v
  | UpdateTraitStatement t k _ v => lexical t && lexical k && wf_expr v
  | ShardStatement n c => lexical n && wf_optional c
  | _ => true
  end.
End wf.

(** ** Token by token, a parse tree is what the grammar says *)

Definition op_in (ops : list string) (op : string) : bool := bool_decide (op ∈ ops).
Definition rel_op := op_in [">="; ">"; "<="; "<"; "=="; "!="].
Definition add_op := op_in ["+"; "-"].
Definition mul_op := op_in ["*"; "/"].

Fixpoint expr_ok (e : Tree.expr) : bool :=
  match e with
  | Tree.Expr r to => relExpr_ok r && match to with Some id => lexical id | None => true end
  end
with relExpr_ok (e : Tree.relExpr) : bool :=
  match e with Tree.Rel a l => arithExpr_ok a && forallb (λ p, rel_op p.1 && arithExpr_ok p.2) l end
with arithExpr_ok (e : Tree.arithExpr) : bool :=
  match e with Tree.Arith a l => term_ok a && forallb (λ p, add_op p.1 && term_ok p.2) l end
with term_ok (e : Tree.term) : bool :=
  match e with Tree.Term a l => factor_ok a && forallb (λ p, mul_op p.1 && factor_ok p.2) l end
with factor_ok (f : Tree.factor) : bool :=
  match f with
  | Tree.ID s => lexical s
  | Tree.AMOUNT => true
  | Tree.NUMBER s => number_token s
  | Tree.Paren e => expr_ok e
  end.

Definition optional_ok (e : option Tree.expr) : bool := match e with Some e => expr_ok e | None => true end.
Fixpoint statement_ok (s : Tree.statement) : bool :=
  match s with
  | Tree.ifStatement c b | Tree.resilienceStatement c b => expr_ok c && forallb statement_ok b
  | Tree.txStatement n f t a b => lexical n && lexical f && lexical t && expr_ok a && forallb statement_ok b
  | Tree.mintStatement n a e => lexical n && expr_ok a && optional_ok e
  | Tree.validateStatement n _ b => lexical n && forallb statement_ok b
  | Tree.queueStatement n p ps => lexical n && expr_ok p && forallb expr_ok ps
  | Tree.bankStatement n a => lexical n && expr_ok a
  | Tree.assignment n v => lexical n && expr_ok v
  | Tree.updateTraitStatement t k _ v => lexical t && lexical k && expr_ok v
  | Tree.shardStatement n c => lexical n && optional_ok c
  | _ => true
  end.

Section tree_ind.
Context (P0 : Tree.expr → Prop) (P1 : Tree.relExpr → Prop) (P2 : Tree.arithExpr → Prop)
  (P3 : Tree.term → Prop) (P4 : Tree.factor → Prop).
Context (H0 : ∀ r to, P1 r → P0 (Tree.Expr r to))
  (H1 : ∀ a l, P2 a → Forall (λ p, P2 p.2) l → P1 (Tree.Rel a l))
  (H2 : ∀ a l, P3 a → Forall (λ p, P3 p.2) l → P2 (Tree.Arith a l))
  (H3 : ∀ a l, P4 a → Forall (λ p, P4 p.2) l → P3 (Tree.Term a l))
  (Hid : ∀ s, P4 (Tree.ID s)) (Hamt : P4 Tree.AMOUNT) (Hnum : ∀ s, P4 (Tree.NUMBER s))
  (Hpar : ∀ e, P0 e → P4 (Tree.Paren e)).
Fixpoint expr_tree_ind (e : Tree.expr) : P0 e :=
  match e with Tree.Expr r to => H0 r to (rel_tree_ind r) end
with rel_tree_ind (e : Tree.relExpr) : P1 e :=
  match e with
  | Tree.Rel a l => H1 a l (arith_tree_ind a)
      ((fix all (l : list (string * Tree.arithExpr)) : Forall (λ p, P2 p.2) l :=
        match l with
        | [] => @List.Forall_nil _ _
        | p :: l => @List.Forall_cons _ (λ p, P2 p.2) p l (let (o, x) as p return P2 p.2 := p in arith_tree_ind x) (all l)
        end) l)
  end
with arith_tree_ind (e : Tree.arithExpr) : P2 e :=
  match e with
  | Tree.Arith a l => H2 a l (term_tree_ind a)
      ((fix all (l : list (string * Tree.term)) : Forall (λ p, P3 p.2) l :=
        match l with
        | [] => @List.Forall_nil _ _
        | p :: l => @List.Forall_cons _ (λ p, P3 p.2) p l (let (o, x) as p return P3 p.2 := p in term_tree_ind x) (all l)
        end) l)
  end
with term_tree_ind (e : Tree.term) : P3 e :=
  match e with
  | Tree.Term a l => H3 a l (factor_tree_ind a)
      ((fix all (l : list (string * Tree.factor)) : Forall (λ p, P4 p.2) l :=
        match l with
        | [] => @List.Forall_nil _ _
        | p :: l => @List.Forall_cons _ (λ p, P4 p.2) p l (let (o, x) as p return P4 p.2 := p in factor_tree_ind x) (all l)
        end) l)
  end
with factor_tree_ind (f : Tree.factor) : P4 f :=
  match f with
  | Tree.ID s => Hid s
  | Tree.AMOUNT => Hamt
  | Tree.NUMBER s => Hnum s
  | Tree.Paren e => Hpar e (expr_tree_ind e)
  end.
End tree_ind.

Lemma build_chain_wf {A} (build : A → Expr) first rest :
  wf_expr (build first) = true → Forall (λ p, known_op p.1 = true ∧ wf_expr (build p.2) = true) rest →
  wf_expr (build_chain build first rest) = true.
Proof.
  unfold build_chain, leftAssoc. generalize (build first). intros e He Hr. revert e He.
  induction Hr as [|[op a] rest [Ho Ha] Hr IH]; intros e He; [exact He|]. cbn [map fst snd chain_from] in *.
  apply IH. cbn. by rewrite Ho, He, Ha.
Qed.

Lemma chain_ops {A} (op : string → bool) (ok : A → bool) (build : A → Expr) l :
  (∀ o, op o = true → known_op o = true) → Forall (λ p, ok p.2 = true → wf_expr (build p.2) = true) l →
  forallb (λ p, op p.1 && ok p.2) l = true →
  Forall (λ p, known_op p.1 = true ∧ wf_expr (build p.2) = true) l.
Proof.
  intros Hop Hl. induction Hl as [|p l Hp Hl IH]; intros Hok; [constructor|]. cbn in Hok.
  rewrite !andb_true_iff in Hok. destruct Hok as [[Ho Hk] Hok]. constructor; auto.
Qed.

Lemma ops_known o : (rel_op o = true → known_op o = true) ∧ (add_op o = true → known_op o = true) ∧
  (mul_op o = true → known_op o = true).
Proof.
  unfold rel_op, add_op, mul_op, op_in, known_op, is_relational. rewrite orb_true_iff, !bool_decide_eq_true.
  set_solver.
Qed.

Lemma buildExpr_wf e : expr_ok e = true → wf_expr (buildExpr e) = true.
Proof.
  pattern e. apply (expr_tree_ind _ (λ e, relExpr_ok e = true → wf_expr (buildRelExpr e) = true)
    (λ e, arithExpr_ok e = true → wf_expr (buildArithExpr e) = true)
    (λ e, term_ok e = true → wf_expr (buildTerm e) = true)
    (λ f, factor_ok f = true → wf_expr (buildFactor f) = true)); clear e.
  - intros r [id|] IH Hk; cbn in *; apply andb_true_iff in Hk as [Hr Hid]; [by rewrite (IH Hr), Hid|auto].
  - intros a l IHa IHl Hk. cbn in *. apply andb_true_iff in Hk as [Ha Hl]. apply build_chain_wf; [auto|].
    eapply (chain_ops rel_op); [apply ops_known|exact IHl|exact Hl].
  - intros a l IHa IHl Hk. cbn in *. apply andb_true_iff in Hk as [Ha Hl]. apply build_chain_wf; [auto|].
    eapply (chain_ops add_op); [apply ops_known|exact IHl|exact Hl].
  - intros a l IHa IHl Hk. cbn in *. apply andb_true_iff in Hk as [Ha Hl]. apply build_chain_wf; [auto|].
    eapply (chain_ops mul_op); [apply ops_known|exact IHl|exact Hl].
  - done.
  - done.
  - done.
  - done.
Qed.

(** ** Statements *)

Section statement_tree_ind.
Context (P : Tree.statement → Prop).
Definition tree_body (s : Tree.statement) : list Tree.statement :=
  match s with
  | Tree.ifStatement _ b | Tree.resilienceStatement _ b | Tree.txStatement _ _ _ _ b
  | Tree.validateStatement _ _ b => b
  | _ => []
  end.
Context (step : ∀ s, Forall P (tree_body s) → P s).
Fixpoint statement_tree_ind (s : Tree.statement) : P s :=
  let all := fix all (l : list Tree.statement) : Forall P l :=
    match l with
    | [] => @List.Forall_nil _ P
    | x :: l => @List.Forall_cons _ P x l (statement_tree_ind x) (all l)
    end in
  step s
    match s return Forall P (tree_body s) with
    | Tree.ifStatement _ b | Tree.resilienceStatement _ b | Tree.txStatement _ _ _ _ b
    | Tree.validateStatement _ _ b => all b
    | _ => @List.Forall_nil _ P
    end.
End statement_tree_ind.

Lemma forallb_map_impl {A B} (ok : A → bool) (wf : B → bool) (f : A → B) l :
  Forall (λ x, ok x = true → wf (f x) = true) l → forallb ok l = true → forallb wf (map f l) = true.
Proof.
  intros Hl. induction Hl as [|x l Hx Hl IH]; [done|]. cbn. rewrite !andb_true_iff. intros [? ?]. auto.
Qed.

Lemma buildOptional_wf e : optional_ok e = true → wf_optional (buildOptional e) = true.
Proof.
  destruct e as [e|]; [|done]. cbn. intros H%buildExpr_wf. unfold wf_optional. by destruct (buildExpr e).
Qed.

Lemma buildStatement_wf s : statement_ok s = true → wf_stmt (buildStatement s) = true.
Proof.
  induction s as [s IH] using statement_tree_ind. intros Hk.
  destruct s; cbn in *; rewrite ?andb_true_iff in *; try done;
    repeat match goal with H : _ ∧ _ |- _ => destruct H end;
    repeat match goal with |- _ ∧ _ => split end;
    auto using buildExpr_wf, buildOptional_wf;
    try (eapply forallb_map_impl; [exact IH|done]).
  eapply forallb_map_impl; [|eassumption]. apply Forall_true. apply buildExpr_wf.
Qed.

Lemma Build_wf tree : forallb statement_ok tree = true → forallb wf_stmt (Ast.Statements (Build tree)) = true.
Proof. apply forallb_map_impl, Forall_true, buildStatement_wf. Qed.

(** * What can go wrong when a well-formed program runs *)

Section errors.
Context `{BigRat}.
Import Ast Interp.

(** ** A reference semantics of expressions *)

Definition compares (op : string) (l r : Decimal) : Prop :=
  op = ">" ∧ (r < l)%Qc ∨ op = ">=" ∧ (r <= l)%Qc ∨ op = "<" ∧ (l < r)%Qc ∨ op = "<=" ∧ (l <= r)%Qc ∨
  op = "==" ∧ l = r ∨ op = "!=" ∧ l ≠ r.
(** What an operator gives: a comparison counts as one or zero, and nothing is divided by zero. *)
Inductive operates : string → Decimal → Decimal → Decimal → Prop :=
| operates_add l r : operates "+" l r (l + r)%Qc
| operates_sub l r : operates "-" l r (l - r)%Qc
| operates_mul l r : operates "*" l r (l * r)%Qc
| operates_div l r : r ≠ 0%Qc → operates "/" l r (l / r)%Qc
| operates_yes op l r : compares op l r → operates op l r 1%Qc
| operates_no op l r : is_relational op = true → ¬ compares op l r → operates op l r 0%Qc.

(** [value it e v it']: the expression has the value [v] where the names are those of [it];
    a fee route in it is recorded in [it']. *)
Inductive value : Interpreter → Expr → Decimal → Interpreter → Prop :=
| value_number it s v : SetString s = Some v → value it (NumberLit s) v it
| value_bound it x v : it_Env it !! x = Some v → value it (Ident x) v it
| value_oracle it x v : it_Env it !! x = None → it_Oracle it x = Some v → value it (Ident x) v it
| value_fee it e to v it' : value it e v it' →
    value it (FeeRoute e to) v (it' <| it_FeeRoutes ::= λ l, l ++ [{| fr_To := to; fr_Amount := v |}] |>)
| value_binary it op l r a b c it1 it2 : value it l a it1 → value it1 r b it2 → operates op a b c →
    value it (Binary op l r) c it2.

(** [faulty it e c it']: evaluating the expression where the names are those of [it] meets,
    first of all, a name with no binding or a divisor that is zero; [c] says which. *)
Inductive faulty : Interpreter → Expr → string → Interpreter → Prop :=
| faulty_name it x : it_Env it !! x = None → it_Oracle it x = None →
    faulty it (Ident x) ("undefined identifier " +:+ quote x) it
| faulty_divisor it l r a it1 it2 : value it l a it1 → value it1 r 0%Qc it2 →
    faulty it (Binary "/" l r) "division by zero" it2
| faulty_left it op l r c it' : faulty it l c it' → faulty it (Binary op l r) c it'
| faulty_right it op l r a c it1 it' : value it l a it1 → faulty it1 r c it' →
    faulty it (Binary op l r) c it'
| faulty_fee it e to c it' : faulty it e c it' → faulty it (FeeRoute e to) c it'.

Definition outcome (e : Expr) (it : Interpreter) (r : result Decimal) (it' : Interpreter) : Prop :=
  match r with Ok v => value it e v it' | Err c => faulty it e c it' end.

(** ** The interpreter's expressions are the reference's *)

Lemma compareRat_spec op l r : compareRat op l r = true ↔ compares op l r.
Proof.
  unfold compareRat, compares.
  repeat (case_bool_decide; [subst op;
    rewrite ?Z.ltb_lt, ?Z.leb_le, ?Z.eqb_eq, ?negb_true_iff, ?Z.eqb_neq,
      ?Decimal.Cmp_lt, ?Decimal.Cmp_gt, ?Decimal.Cmp_le, ?Decimal.Cmp_ge, ?Decimal.Cmp_eq;
    intuition congruence|]).
  intuition congruence.
Qed.
Lemma compares_relational op l r : compares op l r → is_relational op = true.
Proof. unfold compares, is_relational. intros Hc. apply bool_decide_eq_true. set_solver. Qed.

Lemma evalBinary_Ok op l r v : known_op op = true → evalBinary op l r = Ok v → operates op l r v.
Proof.
  unfold evalBinary. intros _ E.
  case_bool_decide; [subst; injection E as <-; constructor|].
  case_bool_decide; [subst; injection E as <-; constructor|].
  case_bool_decide; [subst; injection E as <-; constructor|].
  case_bool_decide.
  - subst. destruct (Z.eqb_spec (Decimal.Sign r) 0) as [|Hs]; [done|]. injection E as <-. constructor.
    intros Hr. by apply Hs, Decimal.Sign_zero.
  - destruct (is_relational op) eqn:Er; [|done]. injection E as <-. unfold boolRat.
    destruct (compareRat op l r) eqn:Ec.
    + by apply (operates_yes op), compareRat_spec.
    + apply (operates_no op); [done|]. rewrite <-compareRat_spec. congruence.
Qed.
Lemma evalBinary_Err op l r c :
  known_op op = true → evalBinary op l r = Err c → op = "/" ∧ r = 0%Qc ∧ c = "division by zero".
Proof.
  unfold evalBinary, known_op. intros Hk E.
  do 3 (case_bool_decide; [discriminate E|]). case_bool_decide.
  - destruct (Z.eqb_spec (Decimal.Sign r) 0) as [Hs|]; [|done]. injection E as <-.
    split; [done|]. split; [by apply Decimal.Sign_zero|done].
  - destruct (is_relational op) eqn:Er; [done|]. rewrite orb_false_r in Hk.
    apply bool_decide_eq_true in Hk. set_solver.
Qed.
Lemma operates_evalBinary op l r v : operates op l r v → evalBinary op l r = Ok v.
Proof.
  intros Ho. destruct Ho as [| | |l r Hr|op l r Hc|op l r Hop Hc]; try reflexivity.
  - unfold evalBinary. cbn -[Qcdiv]. destruct (Z.eqb_spec (Decimal.Sign r) 0) as [Hs|]; [|done].
    by apply Decimal.Sign_zero in Hs.
  - pose proof (compares_relational _ _ _ Hc) as Hop. apply compareRat_spec in Hc.
    unfold evalBinary. rewrite Hop, Hc. unfold is_relational in Hop. apply bool_decide_eq_true in Hop.
    do 4 (case_bool_decide; [set_solver|]). reflexivity.
  - destruct (compareRat op l r) eqn:Ec; [by apply compareRat_spec in Ec|].
    unfold evalBinary. rewrite Hop, Ec. unfold is_relational in Hop. apply bool_decide_eq_true in Hop.
    do 4 (case_bool_decide; [set_solver|]). reflexivity.
Qed.

Lemma value_eval it e v it' : value it e v it' → eval e it = (Ok v, it').
Proof.
  intros Hv. induction Hv as [it s v Hs|it x v Hx|it x v Hx Ho|it e to v it' _ IH|it op l r a b c it1 it2 _ IHl _ IHr Ho];
    cbn [eval].
  - by rewrite Hs.
  - unfold lookup_name, gets, mbind, call_bind. by rewrite Hx.
  - unfold lookup_name, gets, mbind, call_bind. by rewrite Hx, Ho.
  - unfold mbind, call_bind. by rewrite IH.
  - unfold mbind, call_bind, lift. rewrite IHl, IHr. by rewrite (operates_evalBinary _ _ _ _ Ho).
Qed.

Lemma faulty_eval it e c it' : faulty it e c it' → eval e it = (Err c, it').
Proof.
  intros Hf. induction Hf as [it x Hx Ho|it l r a it1 it2 Hl Hr|it op l r c it' _ IH
    |it op l r a c it1 it' Hl _ IH|it e to c it' _ IH]; cbn [eval]; unfold mbind, call_bind.
  - unfold lookup_name, gets. by rewrite Hx, Ho.
  - by rewrite (value_eval _ _ _ _ Hl), (value_eval _ _ _ _ Hr).
  - by rewrite IH.
  - by rewrite (value_eval _ _ _ _ Hl), IH.
  - by rewrite IH.
Qed.

Context (HR : ∀ s, number_token s = true → is_Some (SetString s)).

Lemma eval_outcome e it r it' : wf_expr e = true → eval e it = (r, it') → outcome e it r it'.
Proof.
  revert it r it'. induction e as [|x|x|op a IHa b IHb|v IHv to]; intros it r it'; cbn [wf_expr eval];
    rewrite ?andb_true_iff; intros Hw E.
  - discriminate Hw.
  - unfold mbind, call_bind, gets, lookup_name in E. destruct (it_Env it !! x) as [w|] eqn:Ex.
    { injection E as <- <-. by constructor. }
    destruct (it_Oracle it x) as [w|] eqn:Eo; injection E as <- <-; by constructor.
  - destruct (HR x Hw) as [w Ew]. rewrite Ew in E. injection E as <- <-. by constructor.
  - destruct Hw as [[Ho Ha] Hb]. unfold mbind, call_bind in E.
    destruct (eval a it) as [[va|c] it1] eqn:Ea; [|injection E as <- <-; by apply faulty_left, (IHa _ _ _ Ha Ea)].
    destruct (eval b it1) as [[vb|c] it2] eqn:Eb;
      [|injection E as <- <-; by apply (faulty_right _ _ _ _ va _ it1); [apply (IHa _ _ _ Ha Ea)|apply (IHb _ _ _ Hb Eb)]].
    apply (IHa _ _ _ Ha) in Ea. apply (IHb _ _ _ Hb) in Eb. injection E as <- <-.
    destruct (evalBinary op va vb) as [w|c] eqn:Ew.
    + eapply value_binary; [exact Ea|exact Eb|by apply evalBinary_Ok].
    + apply evalBinary_Err in Ew as (-> & -> & ->); [|done]. by eapply faulty_divisor.
  - destruct Hw as [Hw _]. unfold mbind, call_bind in E.
    destruct (eval v it) as [[w|c] it1] eqn:Ev; apply (IHv _ _ _ Hw) in Ev; injection E as <- <-;
      [by apply value_fee|by apply faulty_fee].
Qed.

(** The evaluator computes the reference semantics: the same values and the same faults. *)
Lemma eval_reference e it r it' : wf_expr e = true → eval e it = (r, it') ↔ outcome e it r it'.
Proof. intros Hw. split; [by apply eval_outcome|]. destruct r; [apply value_eval|apply faulty_eval]. Qed.

(** ** Statements *)

(** Two states in which every name means the same. *)
Definition same_names (it it' : Interpreter) : Prop := it_Env it' = it_Env it ∧ it_Oracle it' = it_Oracle it.

Lemma value_names it e v it' : value it e v it' → same_names it it'.
Proof. intros Hv. induction Hv; unfold same_names in *; cbn; naive_solver congruence. Qed.
Lemma faulty_names it e c it' : faulty it e c it' → same_names it it'.
Proof.
  intros Hf. induction Hf;
    repeat match goal with H : value _ _ _ _ |- _ => apply value_names in H end; unfold same_names in *; naive_solver congruence.
Qed.

(** The expressions a statement evaluates itself, and those of a program. *)
Definition own_exprs (s : Statement) : list Expr :=
  match s with
  | IfStatement e _ | ResilienceStatement e _ | TxStatement _ _ _ e _ | BankDepositStatement _ e
  | Assignment _ e | UpdateTraitStatement _ _ _ e | ShardStatement _ e => [e]
  | MintStatement _ a e => [a; e]
  | QueueInsertStatement _ ps => ps
  | _ => []
  end.
Inductive occurs : Statement → Expr → Prop :=
| occurs_own s e : e ∈ own_exprs s → occurs s e
| occurs_body s s' e : s' ∈ body_of s → occurs s' e → occurs s e.

(** A run fails only at an expression that is at fault in the state the failure leaves,
    whose message ends the error; and it never changes the oracle. *)
Definition fails_at {A} (P : Expr → Prop) (m : call Interpreter A) : Prop := ∀ it r it', m it = (r, it') →
  it_Oracle it' = it_Oracle it ∧
  match r with
  | Ok _ => True
  | Err err => ∃ e it1 c prefix, P e ∧ faulty it1 e c it' ∧ err = prefix +:+ c
  end.

Section fails.
Context (P : Expr → Prop).
Lemma fails_ret {A} (a : A) : fails_at P (mret a).
Proof. intros it r it' E. unfold mret, call_ret in E. by injection E as <- <-. Qed.
Lemma fails_modify f : (∀ it, it_Oracle (f it) = it_Oracle it) → fails_at P (modify f).
Proof. intros Hf it r it' E. unfold modify in E. by injection E as <- <-. Qed.
Lemma fails_gets {A} (f : Interpreter → A) : fails_at P (gets f).
Proof. intros it r it' E. unfold gets in E. by injection E as <- <-. Qed.
Lemma fails_bind {A B} (m : call Interpreter A) (k : A → call Interpreter B) :
  fails_at P m → (∀ a, fails_at P (k a)) → fails_at P (m ≫= k).
Proof.
  intros Hm Hk it r it' E. unfold mbind, call_bind in E. destruct (m it) as [[a|c] it1] eqn:Em.
  - apply Hm in Em as [Eo _]. apply Hk in E as [Eo' HE]. split; [congruence|done].
  - injection E as <- <-. exact (Hm _ _ _ Em).
Qed.
Lemma fails_eval prefix e : wf_expr e = true → P e → fails_at P (wrap prefix (eval e)).
Proof.
  intros Hw HP it r it' E. unfold wrap in E. destruct (eval e it) as [[v|c] it1] eqn:Ee; injection E as <- <-;
    apply eval_outcome in Ee; [|done| |done].
  - split; [by apply value_names in Ee as [_ ?]|done].
  - split; [by apply faulty_names in Ee as [_ ?]|]. exists e, it, c, (prefix +:+ ": ").
    by rewrite string_app_assoc.
Qed.
Lemma fails_optional prefix e : wf_optional e = true → P e → fails_at P (eval_optional prefix e).
Proof.
  intros Hw HP. destruct e; cbn [eval_optional];
    first [apply fails_ret|apply fails_bind; [by apply fails_eval|intros; apply fails_ret]].
Qed.
Lemma fails_all prefix es : forallb wf_expr es = true → (∀ e, e ∈ es → P e) → fails_at P (eval_all prefix es).
Proof.
  induction es as [|e es IH]; cbn; rewrite ?andb_true_iff; intros Hw HP; [apply fails_ret|].
  destruct Hw as [He Hs]. apply fails_bind; [apply fails_eval; [done|apply HP; set_solver]|].
  intros v. apply fails_bind; [apply IH; [done|intros; apply HP; set_solver]|]. intros; apply fails_ret.
Qed.
Lemma fails_statements l : Forall (λ s, fails_at P (runStatement s)) l → fails_at P (runStatements l).
Proof. intros Hl. induction Hl; cbn [runStatements]; [apply fails_ret|]. by apply fails_bind. Qed.
End fails.

Lemma fails_mono {A} (P Q : Expr → Prop) (m : call Interpreter A) :
  (∀ e, P e → Q e) → fails_at P m → fails_at Q m.
Proof.
  intros HPQ Hm it r it' E. destruct (Hm _ _ _ E) as [? HE]. split; [done|]. destruct r as [|err]; [done|].
  destruct HE as (x & it1 & c & prefix & Hx & ? & ?). exists x, it1, c, prefix. auto.
Qed.

Lemma runStatement_fails s : wf_stmt s = true → fails_at (occurs s) (runStatement s).
Proof.
  induction s as [s IH] using Statement_nested_ind. intros Hw.
  assert (Hb : forallb wf_stmt (body_of s) = true → fails_at (occurs s) (runStatements (body_of s))).
  { intros Hwb. apply fails_statements. rewrite forallb_forall in Hwb. rewrite Forall_forall in IH |- *.
    intros x Hx. eapply fails_mono; [|apply IH; [done|by apply Hwb, list_elem_of_In]].
    intros y Hy. by apply (occurs_body s x). }
  assert (Ho : ∀ e, e ∈ own_exprs s → occurs s e) by (intros; by apply occurs_own).
  destruct s; cbn [wf_stmt body_of own_exprs] in *; rewrite ?andb_true_iff in *;
    repeat match goal with H : _ ∧ _ |- _ => destruct H end; cbn [runStatement]; unfold set_var;
    repeat first
      [ apply fails_ret | by apply fails_modify | apply fails_gets | exact (Hb ltac:(done))
      | apply fails_eval; [done|apply Ho; set_solver] | apply fails_optional; [done|apply Ho; set_solver]
      | apply fails_all; done | apply fails_bind; [|intros ?] | case_match ].
Qed.

(** An expression of a program: one that some statement of it, at any depth, evaluates. *)
Definition in_program (prog : Program) (e : Expr) : Prop := ∃ s, s ∈ Statements prog ∧ occurs s e.

Lemma Run_fails prog : forallb wf_stmt (Statements prog) = true → fails_at (in_program prog) (Run prog).
Proof.
  intros Hw. apply fails_statements, Forall_forall. intros s Hs. rewrite forallb_forall in Hw.
  eapply fails_mono; [|apply runStatement_fails, Hw, list_elem_of_In, Hs]. intros x Hx. by exists s.
Qed.

(** ** No fault is missed *)

(** A statement whose first expression is at fault fails with that fault. *)
Lemma head_fault s e it c it' :
  head (own_exprs s) = Some e → e ≠ NilExpr → faulty it e c it' →
  ∃ prefix, runStatement s it = (Err (prefix +:+ c), it').
Proof.
  intros Hh Hne Hf%faulty_eval.
  assert (Hw : ∀ prefix, wrap prefix (eval e) it = (Err (prefix +:+ ": " +:+ c), it')) by (intros; unfold wrap; by rewrite Hf).
  destruct s; cbn [own_exprs head] in Hh; try discriminate Hh; cbn [runStatement];
    try (injection Hh as ->; unfold mbind, call_bind; rewrite Hw, <-string_app_assoc; eexists; reflexivity).
  - destruct Positions as [|p ps]; [discriminate Hh|]. injection Hh as ->. cbn [eval_all].
    unfold mbind, call_bind. rewrite Hw, <-string_app_assoc. eexists. reflexivity.
  - injection Hh as ->. unfold eval_optional. destruct e; try done;
      unfold mbind, call_bind; rewrite Hw, <-string_app_assoc; eexists; reflexivity.
Qed.

Lemma runStatements_app l1 l2 it :
  runStatements (l1 ++ l2) it = (_ ← runStatements l1; runStatements l2) it.
Proof.
  revert it. induction l1 as [|s l1 IH]; intros it; [done|]. cbn [app runStatements].
  unfold mbind, call_bind in *. destruct (runStatement s it) as [[[]|] it1]; [apply IH|done].
Qed.

(** A program that reaches a statement whose first expression is at fault fails with it. *)
Lemma reached_fault prog l1 s l2 it it1 e c it2 :
  Statements prog = l1 ++ s :: l2 → runStatements l1 it = (Ok tt, it1) →
  head (own_exprs s) = Some e → e ≠ NilExpr → faulty it1 e c it2 →
  ∃ prefix, Run prog it = (Err (prefix +:+ c), it2).
Proof.
  intros E E1 Hh Hne Hf. destruct (head_fault _ _ _ _ _ Hh Hne Hf) as [prefix Es]. exists prefix.
  unfold Run. rewrite E, runStatements_app. unfold mbind, call_bind. rewrite E1. cbn [runStatements].
  unfold mbind, call_bind. by rewrite Es.
Qed.

Lemma occurs_wf s e : wf_stmt s = true → occurs s e → wf_optional e = true.
Proof.
  intros Hw Ho. induction Ho as [s e He|s s' e Hs _ IH].
  - assert (Hopt : ∀ x, wf_expr x = true → wf_optional x = true) by (by intros []).
    destruct s; cbn [own_exprs wf_stmt] in *; rewrite ?andb_true_iff, ?forallb_forall in *;
      rewrite ?list_elem_of_In in *; cbn [In] in *; naive_solver.
  - apply IH. assert (Hb : forallb wf_stmt (body_of s) = true).
    { destruct s; cbn [body_of wf_stmt] in *; rewrite ?andb_true_iff in *; naive_solver. }
    rewrite forallb_forall in Hb. by apply Hb, list_elem_of_In.
Qed.
End errors.
