(* ===== verification/Stages.v ===== *)
(** What the analyzer accepts: the statements it visits with the stage each is checked
    against, and what an accepted validation block can do when it runs. *)
From S2P Require Import Prelude Words Decimal Ast Interp Sema Codegen Emitted Compiled.

Section stages.
Import Ast Sema.
Implicit Types (s : Statement) (stage : Z) (prog : Program).

(** The stage a statement's body is checked against. *)
Definition inner_stage stage s : Z := match s with ValidateStatement _ st _ => st | _ => stage end.

(** The walk of the analyzer. *)
Inductive visited prog : Z → Statement → Prop :=
| visited_top s : s ∈ Statements prog → visited prog stageUnrestricted s
| visited_body stage s s' : visited prog stage s → s' ∈ body_of s → visited prog (inner_stage stage s) s'.

(** What the walk asks of one statement. *)
Definition sound_at stage s : Prop :=
  (stage ≠ stageUnrestricted → allowedInStage stage s = true) ∧
  match s with
  | TxStatement _ _ _ amount body =>
      amount ≠ NilExpr ∧ isRelational amount = false ∧ (bodyHasFeeRoute body = true ∨ exprHasFeeRoute amount = true)
  | MintStatement _ amount _ => amount ≠ NilExpr ∧ isRelational amount = false
  | ValidateStatement _ st _ => 1 ≤ st ≤ 5
  | BankDepositStatement _ atr => exprBoundToIdent atr = true
  | QueueInsertStatement _ positions => positions ≠ []
  | _ => True
  end.

Lemma diagnose_nil b m : diagnose b m = [] ↔ b = false.
Proof. destruct b; naive_solver. Qed.

Lemma checkNumericAmount_nil w e : checkNumericAmount w e = [] ↔ e ≠ NilExpr ∧ isRelational e = false.
Proof. destruct e; cbn [checkNumericAmount]; try case_match; naive_solver. Qed.

Lemma flat_map_nil {A B} (f : A → list B) l : flat_map f l = [] ↔ Forall (λ x, f x = []) l.
Proof.
  induction l as [|x l IH]; cbn; [split; [constructor|done]|]. rewrite Forall_cons, <-IH. apply app_nil.
Qed.

Lemma checkStatement_nil stage s :
  checkStatement stage s = [] ↔
  sound_at stage s ∧ Forall (λ s', checkStatement (inner_stage stage s) s' = []) (body_of s).
Proof.
  assert (Ha : (negb (stage =? stageUnrestricted) && negb (allowedInStage stage s) = false) ↔
    (stage ≠ stageUnrestricted → allowedInStage stage s = true)).
  { destruct (Z.eqb_spec stage stageUnrestricted), (allowedInStage stage s); cbn; naive_solver. }
  unfold sound_at. rewrite <-Ha.
  destruct s; cbn [checkStatement body_of inner_stage];
    rewrite ?app_nil, ?diagnose_nil, ?checkNumericAmount_nil, ?flat_map_nil, ?Forall_nil;
    match goal with |- ?P ∧ _ ↔ _ => generalize P; intros P0 | |- ?P ↔ _ => generalize P; intros P0 end; try tauto.
  - rewrite andb_false_iff, !negb_false_iff. tauto.
  - rewrite orb_false_iff, !Z.ltb_ge. tauto.
  - rewrite bool_decide_eq_false. tauto.
  - rewrite negb_false_iff. tauto.
Qed.

Lemma analyze_visited prog : Analyze prog = [] ↔ ∀ stage s, visited prog stage s → sound_at stage s.
Proof.
  unfold Analyze, checkStatements. rewrite flat_map_nil, Forall_forall. split.
  - intros Hall. assert (Hv : ∀ stage s, visited prog stage s → checkStatement stage s = []).
    { intros stage s Hv. induction Hv as [s Hs|stage s s' _ IH Hs]; [auto|].
      apply checkStatement_nil in IH as [_ IH]. rewrite Forall_forall in IH. auto. }
    intros stage s Hs. by apply checkStatement_nil, Hv.
  - intros Hall. assert (Hv : ∀ s stage, visited prog stage s → checkStatement stage s = []).
    { intros s. induction s as [s IH] using Statement_nested_ind. intros stage Hs. apply checkStatement_nil.
      split; [auto|]. rewrite Forall_forall in IH |- *. intros s' Hin. apply IH; [done|].
      by apply (visited_body _ _ s). }
    intros s Hs. apply Hv. by constructor.
Qed.
End stages.

(** ** Running a validation block *)

Section isolation.
Context `{BigRat}.
Import Ast Sema Interp.

(** Only variables without a dot change: no event is recorded and no trait is written. *)
Definition isolated (it it' : Interpreter) : Prop :=
  it_Txs it' = it_Txs it ∧ it_Deposits it' = it_Deposits it ∧ it_QueueInsert it' = it_QueueInsert it ∧
  ∀ target key, it_Env it' !! (target +:+ "." +:+ key) = it_Env it !! (target +:+ "." +:+ key).
#[export] Instance isolated_refl : Reflexive isolated.
Proof. done. Qed.
#[export] Instance isolated_trans : Transitive isolated.
Proof.
  intros x y z (E1 & E2 & E3 & E4) (F1 & F2 & F3 & F4). unfold isolated.
  split_and!; [congruence..|]. intros t k. by rewrite F4, E4.
Qed.

Lemma lexical_no_dot target key : lexical (target +:+ "." +:+ key) = false.
Proof.
  unfold lexical. apply andb_false_iff. right.
  induction target as [|c t IH]; [reflexivity|].
  change (is_word c && all_chars is_word (t +:+ "." +:+ key) = false). rewrite IH. apply andb_false_r.
Qed.

Lemma same_isolated it it' : same_vars it it' → isolated it it'.
Proof. intros (E & _ & E1 & E2 & E3). unfold isolated. by rewrite E, E1, E2, E3. Qed.

Lemma eval_isolated prefix e it r it' : wrap prefix (eval e) it = (r, it') → same_vars it it'.
Proof.
  unfold wrap. destruct (eval e it) as [[v|err] it1] eqn:E; intros [= _ <-]; by eapply eval_same.
Qed.

Lemma run_statements_rel (R : Interpreter → Interpreter → Prop) `{!Reflexive R, !Transitive R} l :
  Forall (λ s, ∀ it r it', runStatement s it = (r, it') → R it it') l →
  ∀ it r it', runStatements l it = (r, it') → R it it'.
Proof.
  intros Hl. induction Hl as [|s l Hs Hl IH]; intros it r it' E; cbn [runStatements] in E; [by injection E as _ <-|].
  unfold mbind, call_bind in E. destruct (runStatement s it) as [[u|err] it1] eqn:E1.
  - etrans; [by eapply Hs|by eapply IH].
  - injection E as _ <-. by eapply Hs.
Qed.

(** The statements stages 1, 2, 3 and 5 allow; stage 5 does not even assign. *)
Lemma light_stages stage s : stage ∈ [1; 2; 3; 5] → allowedInStage stage s = true →
  match s with
  | IfStatement _ _ | VoteStatement _ _ => True
  | Assignment _ _ => stage ≠ 5
  | _ => False
  end.
Proof.
  rewrite !elem_of_cons. intros [->|[->|[->|[->|[]%elem_of_nil]]]]; destruct s; try done.
Qed.

Definition computes stage (it it' : Interpreter) : Prop :=
  isolated it it' ∧ (stage = 5 → it_Env it' = it_Env it).
#[export] Instance computes_refl stage : Reflexive (computes stage).
Proof. split; done. Qed.
#[export] Instance computes_trans stage : Transitive (computes stage).
Proof. intros x y z [A B] [C D]. split; [by etrans|]. intros H5. rewrite D, B; done. Qed.
Lemma same_computes stage it it' : same_vars it it' → computes stage it it'.
Proof. intros Hs. split; [by apply same_isolated|]. by destruct Hs as [-> _]. Qed.

Lemma stage_isolated prog stage s :
  Analyze prog = [] → visited prog stage s → stage ∈ [1; 2; 3; 5] →
  (∀ st n v, visited prog st (Assignment n v) → lexical n = true) →
  ∀ it r it', runStatement s it = (r, it') → computes stage it it'.
Proof.
  intros Ha Hv Hst Hlex. pose proof (proj1 (analyze_visited prog) Ha) as Hs. clear Ha. revert Hv.
  induction s as [s IH] using Statement_nested_ind. intros Hv it r it' E.
  pose proof (Hs _ _ Hv) as [Hal _]. apply light_stages in Hal as Hlight; [|done|unfold stageUnrestricted; set_solver by lia].
  assert (Hb : inner_stage stage s = stage → ∀ it r it', runStatements (body_of s) it = (r, it') → computes stage it it').
  { intros Hin. apply (run_statements_rel (computes stage)).
    rewrite Forall_forall in IH |- *. intros s' Hs'. apply IH; [done|]. rewrite <-Hin. by apply (visited_body _ _ s). }
  destruct s; try contradiction; cbn [runStatement] in E.
  - unfold mbind, call_bind in E. destruct (wrap _ _ it) as [[v|err] it1] eqn:Ev.
    + apply eval_isolated in Ev. etrans; [by apply same_computes|].
      destruct (Decimal.Sign v =? 0); [by injection E as _ <-|]. exact (Hb eq_refl _ _ _ E).
    + injection E as _ <-. by eapply same_computes, eval_isolated.
  - unfold mbind, call_bind in E. destruct (wrap _ _ it) as [[v|err] it1] eqn:Ev.
    + apply eval_isolated in Ev. etrans; [by apply same_computes|]. injection E as _ <-.
      split; [|done]. split_and!; [done..|]. intros t k. cbn. apply lookup_insert_ne. intros ->.
      pose proof (Hlex _ _ _ Hv) as Hl. by rewrite lexical_no_dot in Hl.
    + injection E as _ <-. by eapply same_computes, eval_isolated.
  - by injection E as _ <-.
Qed.
End isolation.
