(* ===== verification/Shadow.v ===== *)
(** What the ShadowRust tools guarantee: the emitter against the interpreter, the analyzer
    against the stages, the builder against both; and where they disagree. *)
From S2P Require Import Prelude Words Decimal Ast Interp Sema Codegen Emitted Compiled Typing Stages.
From Stdlib Require Import Ascii.

(** Every expression of a well-formed program is emitted. *)
Lemma exprGo_total e sc : wf_expr e = true → is_ok (Codegen.exprGo e sc).1 = true.
Proof.
  revert sc. induction e as [|x|x|op l IHl r IHr|v IHv to]; intros sc; cbn [wf_expr]; rewrite ?andb_true_iff; intros Hw;
    try done.
  - destruct Hw as [[Ho Hl] Hr]. cbn [Codegen.exprGo]. unfold mbind, call_bind.
    specialize (IHl sc Hl). destruct (Codegen.exprGo l sc) as [[tl|]sc1]; [|discriminate IHl].
    specialize (IHr sc1 Hr). destruct (Codegen.exprGo r sc1) as [[tr|]sc2]; [|discriminate IHr].
    unfold lift, Codegen.binaryGo. cbn [fst]. repeat (case_bool_decide; [reflexivity|]).
    unfold known_op in Ho. destruct (is_relational op); [reflexivity|]. rewrite orb_false_r in Ho.
    apply bool_decide_eq_true in Ho. set_solver.
  - destruct Hw as [Hw _]. exact (IHv sc Hw).
Qed.

Module ShadowSpec.
Import Ast Interp.

(** C35: the emitter implements the interpreter. When it compiles a [tx] statement, the
    text it emits is that of a Go function; and whenever the Go compiler accepts that
    function and none of its names hides the package [runtime], or the [nil] of a transfer
    without a fee, then on arguments that point to what the interpreter would look up, any
    of them possibly the same number, the function returns exactly when the statement runs
    without an error; it changes no number of its caller's, and it transfers from, to and
    how much the recorded event says. With fee routes where the emitter looks for them,
    the fee it passes is the last one the interpreter recorded. *)
Theorem emitted_transfer_refines `{BigRat} idx name from to amount body text sc :
  Codegen.genTx idx name from to amount body (Codegen.newScope ["amount"]) = (Ok text, sc) →
  lexical_expr amount → Forall lexical_stmt body →
  ∃ f, Compile.transfer idx name from to amount body = Some f ∧ text = Go.print_transfer f ∧
    (Go.compiles f = true → Go.unshadowed f = true → ∀ it args h, passes f args h it →
      match runStatement (TxStatement name from to amount body) it, Go.run_transfer f args h with
      | (Ok _, it'), (Ok c, h') =>
          Go.c_from c = from ∧ Go.c_to c = to ∧ h `prefix_of` h' ∧
          it_Txs it' = it_Txs it ++ [{| te_Name := name; te_From := from; te_To := to; te_Amount := Go.c_amount c |}] ∧
          (Sema.exprHasFeeRoute amount = false → plain_body body = true → ∃ rs,
             it_FeeRoutes it' = it_FeeRoutes it ++ rs ∧
             (Go.c_feeTo c, Go.c_feeAmount c) =
               match last rs with None => (EmptyString, None) | Some r => (fr_To r, Some (fr_Amount r)) end)
      | (Err _, _), (Err _, _) => True
      | _, _ => False
      end).
Proof.
  intros E Hla Hlb. destruct (genTx_text _ _ _ _ _ _ _ _ E) as (f & Ef & ->). exists f. split_and!; [done..|].
  intros Hc Hu it args h Hp. by apply (transfer_correct idx name from to amount body f it args h Ef Hc Hu Hla Hlb).
Qed.

(** C36: the analyzer enforces the stages. It reports nothing exactly when every statement
    it visits is sound where it stands: allowed in the validation stage around it, amounts
    present and numeric, a fee route for every transfer, an ATR that names something, at
    least one queue position, stages from 1 to 5. And in an accepted program a validation
    block of any stage but 4, run in any state, records no transfer, deposit or queue
    insertion and writes no trait; a block of stage 5 changes no variable at all. *)
Theorem analyzer_enforces_stages `{BigRat} prog :
  (Sema.Analyze prog = [] ↔ ∀ stage s, visited prog stage s → sound_at stage s) ∧
  (Sema.Analyze prog = [] → (∀ st n v, visited prog st (Assignment n v) → lexical n = true) →
   ∀ k name stage body it r it', visited prog k (ValidateStatement name stage body) → stage ≠ 4 →
     runStatement (ValidateStatement name stage body) it = (r, it') →
     isolated it it' ∧ (stage = 5 → it_Env it' = it_Env it)).
Proof.
  split; [apply analyze_visited|]. intros Ha Hlex k name stage body it r it' Hv Hne E.
  pose proof (proj1 (analyze_visited prog) Ha _ _ Hv) as [_ Hr]. cbn in Hr.
  apply (run_statements_rel (computes stage) body) with (r := r); [|exact E].
  apply Forall_forall. intros s Hs. apply (stage_isolated prog); [done| | |done].
  - by apply (visited_body _ k (ValidateStatement name stage body)).
  - set_solver by lia.
Qed.

End ShadowSpec.

(** * A concrete program *)

Module ShadowWitness.
Import Ast Interp.
(** [big.Rat.SetString] on the number tokens of the grammar. *)
#[local] Instance number_literal : BigRat := λ s,
  if number_token s then
    match cut_dot s with
    | (a, None) => Some (Decimal.FromInt (digits_value 0 a))
    | (a, Some b) => Some (Decimal.lit (digits_value 0 (a +:+ b)) (10 ^ Pos.of_nat (String.length b)))
    end
  else None.

Lemma number_literal_total s : number_token s = true → is_Some (SetString s).
Proof.
  intros H. unfold SetString, number_literal. rewrite H. destruct (cut_dot s) as [a [b|]]; eexists; reflexivity.
Qed.

Definition amount_expr (e : Tree.factor) : Tree.expr := Tree.Expr (Tree.Rel (Tree.Arith (Tree.Term e []) []) []) None.
Definition times (a b : Tree.factor) (to : option string) : Tree.expr :=
  Tree.Expr (Tree.Rel (Tree.Arith (Tree.Term a [("*", b)]) []) []) to.

(** The shape of examples/sample_transfer.sr. *)
Definition fee_value : Expr := Binary "*" (Ident "amount") (NumberLit "0.05").
Definition sample_body : list Statement := [Assignment "project_fee" (FeeRoute fee_value "vault_address")].

(** A transfer of a name's value, whose fee mentions the name: its function has a parameter. *)
Definition rated_body : list Statement := [Assignment "fee" (FeeRoute (Binary "*" (Ident "amount") (Ident "rate")) "vault")].
Definition rated_tree : list Tree.statement :=
  [Tree.txStatement "x" "sender" "receiver" (amount_expr (Tree.ID "rate"))
    [Tree.assignment "fee" (times Tree.AMOUNT (Tree.ID "rate") (Some "vault"))]].
Definition seven (x : string) : option Decimal := Some (Decimal.FromInt 7).

Lemma emitted_transfer_refines_witness :
  let tx := TxStatement "x" "sender" "receiver" (Ident "rate") rated_body in
  Statements (Build rated_tree) = [tx] ∧
  match Compile.transfer 0 "x" "sender" "receiver" (Ident "rate") rated_body with
  | Some f =>
      Go.compiles f = true ∧ Go.unshadowed f = true ∧ Go.t_params f = ["rate"] ∧
      match runStatement tx (New seven), Go.run_transfer f [0%nat] [Decimal.FromInt 7] with
      | (Ok _, it), (Ok c, _) =>
          Go.c_feeTo c = "vault" ∧
          it_Txs it = [{| te_Name := "x"; te_From := "sender"; te_To := "receiver"; te_Amount := Go.c_amount c |}]
      | _, _ => False
      end
  | None => False
  end.
Proof.
  cbv zeta. split; [reflexivity|].
  pose proof (ShadowSpec.emitted_transfer_refines 0 "x" "sender" "receiver" (Ident "rate") rated_body) as H.
  destruct (Codegen.genTx 0 "x" "sender" "receiver" (Ident "rate") rated_body (Codegen.newScope ["amount"]))
    as [[text|err] sc] eqn:E; [|vm_compute in E; discriminate E].
  specialize (H text sc eq_refl).
  assert (Hx : lexical_expr (Ident "rate")) by (intros x Hx; cbn in Hx; apply elem_of_singleton in Hx as ->; reflexivity).
  assert (Hl : Forall lexical_stmt rated_body).
  { repeat constructor; try done. intros x. cbn. by intros [->%elem_of_singleton| ->%elem_of_singleton]%elem_of_union. }
  destruct (H Hx Hl) as (f & Ef & _ & Hf). rewrite Ef.
  assert (Hc : (Go.compiles f, Go.unshadowed f, Go.t_params f) = (true, true, ["rate"]))
    by (vm_compute in Ef; injection Ef as <-; vm_compute; reflexivity).
  injection Hc as Hc Hu Hps. split; [exact Hc|]. split; [exact Hu|]. split; [exact Hps|].
  assert (Hp : passes f [0%nat] [Decimal.FromInt 7] (New seven)).
  { unfold passes. rewrite Hps. repeat constructor. eexists. split; reflexivity. }
  specialize (Hf Hc Hu (New seven) [0%nat] [Decimal.FromInt 7] Hp).
  destruct (runStatement _ (New seven)) as [[u|err] it] eqn:Er; [|vm_compute in Er; discriminate Er].
  destruct (Go.run_transfer f _ _) as [[c|err] h']; [|contradiction Hf].
  destruct Hf as (_ & _ & _ & Ht & Hr). split; [|exact Ht].
  destruct (Hr eq_refl eq_refl) as (rs & Ers & Hrs).
  assert (Eto : last (it_FeeRoutes it) = last rs ∧ fr_To <$> last (it_FeeRoutes it) = Some "vault").
  { rewrite Ers. split; [reflexivity|]. rewrite <-Ers. vm_compute in Er. injection Er as _ <-. reflexivity. }
  destruct Eto as [El Eto]. rewrite <-El in Hrs. destruct (last (it_FeeRoutes it)) as [r|]; [|discriminate Eto].
  injection Eto as Eto. injection Hrs as -> _. exact Eto.
Defined.

(** A program with a validation block, and a run of that block. *)
Definition guarded : Program := {| Statements := [ValidateStatement "check" 2 sample_body] |}.

Lemma analyzer_enforces_stages_witness :
  Sema.Analyze guarded = [] ∧
  let '(r, it') := runStatement (ValidateStatement "check" 2 sample_body)
    (New (λ _, Some (Decimal.FromInt 7))) in
  is_ok r = true ∧ isolated (New (λ _, Some (Decimal.FromInt 7))) it'.
Proof.
  assert (Ha : Sema.Analyze guarded = []) by reflexivity. split; [exact Ha|].
  destruct (runStatement _ _) as [r it'] eqn:E. split; [by vm_compute in E; injection E as <- _|].
  destruct (ShadowSpec.analyzer_enforces_stages guarded) as [_ H].
  assert (Hlex : ∀ st n v, visited guarded st (Assignment n v) → lexical n = true).
  { assert (Hv : ∀ st s, visited guarded st s →
      s = ValidateStatement "check" 2 sample_body ∨ s = Assignment "project_fee" (FeeRoute fee_value "vault_address")).
    { intros st s Hs. induction Hs as [s Hs|st s s' Hs IH Hin]; [set_solver|].
      destruct IH as [->| ->]; cbn in Hin; set_solver. }
    intros st n v Hs. destruct (Hv _ _ Hs) as [Eq|Eq]; [discriminate Eq|]. by injection Eq as -> _. }
  apply (H Ha Hlex 0 "check" 2 sample_body _ r it'); [|lia|exact E].
  constructor. set_solver.
Defined.

(** A division by zero two blocks down, and a name bound nowhere. *)
Definition failing_tree : list Tree.statement :=
  [Tree.ifStatement (amount_expr (Tree.NUMBER "1"))
    [Tree.assignment "y" (Tree.Expr (Tree.Rel (Tree.Arith (Tree.Term (Tree.NUMBER "1") [("/", Tree.NUMBER "0.0")]) []) []) None)]].
Definition unbound_tree : list Tree.statement :=
  [Tree.assignment "x" (amount_expr (Tree.NUMBER "1")); Tree.assignment "y" (amount_expr (Tree.ID "z"))].

End ShadowWitness.

(** * Where the tools disagree *)

Module ShadowFaults.
Import Ast Interp ShadowWitness.
#[local] Existing Instance number_literal.
Abbreviation empty_oracle := (λ _ : string, @None Decimal).

Definition transfer_of (amount : Expr) (body : list Statement) : Statement :=
  TxStatement "x" "a" "b" amount body.
Definition accepted (s : Statement) : Prop := Sema.Analyze {| Statements := [s] |} = [].
Definition emitted (s : Statement) : option Go.transfer :=
  match s with TxStatement n f t a b => Compile.transfer 0 n f t a b | _ => None end.
Definition fees (s : Statement) : list (string * Decimal) :=
  (λ r, (fr_To r, fr_Amount r)) <$> it_FeeRoutes (runStatement s (New empty_oracle)).2.

(** A fee routed in the amount passes the analyzer and is recorded by the interpreter;
    the emitted transfer pays none. *)
Definition fee_in_amount : Statement := transfer_of (FeeRoute (NumberLit "5") "vault") [].
Lemma amount_fee_is_dropped :
  accepted fee_in_amount ∧ fees fee_in_amount = [("vault", Decimal.FromInt 5)] ∧
  option_map Go.t_fee (emitted fee_in_amount) = Some None ∧
  option_map Go.compiles (emitted fee_in_amount) = Some true.
Proof. split_and!; vm_compute; reflexivity. Qed.

(** Of two routed fees the emitted transfer pays the last only. *)
Definition two_fees : Statement :=
  transfer_of (NumberLit "5")
    [Assignment "f" (FeeRoute (NumberLit "1") "vault"); Assignment "g" (FeeRoute (Ident "f") "bank")].
Lemma first_fee_is_dropped :
  accepted two_fees ∧ length (fees two_fees) = 2%nat ∧
  option_map Go.t_fee (emitted two_fees) = Some (Some ("bank", "g")) ∧
  option_map Go.compiles (emitted two_fees) = Some true.
Proof. split_and!; vm_compute; reflexivity. Qed.

(** A fee routed under a condition satisfies the analyzer and need never be paid; and the
    emitter rejects the program the analyzer declared safe. *)
Definition guarded_fee : Statement :=
  transfer_of (NumberLit "5") [IfStatement (NumberLit "0") [Assignment "f" (FeeRoute (Ident "amount") "vault")]].
Lemma conditional_fee_is_never_paid :
  accepted guarded_fee ∧
  (let '(r, it) := runStatement guarded_fee (New empty_oracle) in
   is_ok r = true ∧ length (it_Txs it) = 1%nat ∧ it_FeeRoutes it = []) ∧
  Codegen.Generate Ok "p" {| Statements := [guarded_fee] |} =
    Err "tx x: codegen v0.1 does not support nested *ast.IfStatement in a tx body".
Proof. split_and!; vm_compute; try split_and!; reflexivity. Qed.

(** Accepted programs whose emitted function the Go compiler rejects: a local assigned
    twice, a local never used, an amount that mentions [amount]. *)
Definition fee_assign : Statement := Assignment "f" (FeeRoute (Ident "amount") "vault").
Lemma emitted_is_not_go :
  Forall (λ s, accepted s ∧ is_ok (Codegen.Generate Ok "p" {| Statements := [s] |}) = true ∧
               option_map Go.compiles (emitted s) = Some false)
    [transfer_of (NumberLit "5") [fee_assign; fee_assign];
     transfer_of (NumberLit "5") [fee_assign; Assignment "y" (NumberLit "3")];
     transfer_of (Binary "*" (Ident "amount") (NumberLit "2")) [fee_assign]].
Proof. repeat constructor; vm_compute; reflexivity. Qed.

(** A local called [runtime] takes the place of the package: the emitted function adds into
    the number that [runtime] and [amount] share, and transfers twice the amount. *)
Definition runtime_local : Statement :=
  transfer_of (NumberLit "5")
    [Assignment "runtime" (Ident "amount");
     Assignment "fee" (FeeRoute (Binary "+" (Ident "runtime") (Ident "amount")) "vault")].
Definition go_call (s : Statement) (args : list Go.loc) (h : Go.heap) : option (Qc * option Qc) :=
  f ← emitted s;
  match (Go.run_transfer f args h).1 with
  | Ok c => Some (Go.c_amount c, Go.c_feeAmount c)
  | Err _ => None
  end.
Definition interpreted (s : Statement) (it : Interpreter) : list Q * list Q :=
  let it := (runStatement s it).2 in
  ((λ e, Qcanon.this (te_Amount e)) <$> it_Txs it, (λ r, Qcanon.this (fr_Amount r)) <$> it_FeeRoutes it).
Definition raw (c : Qc * option Qc) : Q * option Q := (Qcanon.this c.1, Qcanon.this <$> c.2).
Lemma runtime_local_doubles_amount :
  accepted runtime_local ∧ option_map Go.compiles (emitted runtime_local) = Some true ∧
  interpreted runtime_local (New empty_oracle) = ([inject_Z 5], [inject_Z 10]) ∧
  option_map raw (go_call runtime_local [] []) = Some (inject_Z 10, Some (inject_Z 10)).
Proof. split_and!; vm_compute; reflexivity. Qed.

(** And a free name called [nil] becomes a parameter that a transfer without a fee passes as
    its fee. *)
Definition nil_amount : Statement := transfer_of (Ident "nil") [].
Lemma nil_parameter_is_a_fee :
  option_map Go.compiles (emitted nil_amount) = Some true ∧
  interpreted nil_amount (New seven) = ([inject_Z 7], []) ∧
  option_map raw (go_call nil_amount [0%nat] [Decimal.FromInt 7]) = Some (inject_Z 7, Some (inject_Z 7)).
Proof. split_and!; vm_compute; reflexivity. Qed.

(** A position with a leading zero is decimal to the interpreter; the emitted literal is
    octal to Go. *)
Lemma leading_zero_is_octal :
  (qi_Positions <$> it_QueueInsert (runStatement (QueueInsertStatement "q" [NumberLit "010"]) (New empty_oracle)).2)
    = [[Decimal.FromInt 10]] ∧
  Codegen.topLevel 0 (QueueInsertStatement "q" [NumberLit "010"]) =
    Ok [("func Queue0_q(node runtime.Node) error {" +:+ nl +:+ tab +:+ "return node.QueueInsert(" +:+ quote "q" +:+
         ", []int{010})" +:+ nl +:+ "}" +:+ nl)%string].
Proof. split; vm_compute; reflexivity. Qed.

(** A run that fails keeps what its earlier statements did. *)
Lemma failed_run_commits_partially :
  let '(r, it) := Run {| Statements := [two_fees; Assignment "z" (Ident "nowhere")] |} (New empty_oracle) in
  is_ok r = false ∧ length (it_Txs it) = 1%nat ∧ length (it_FeeRoutes it) = 2%nat.
Proof. vm_compute. split_and!; reflexivity. Qed.
End ShadowFaults.
