(* ===== verification/Prover.v ===== *)
(** The client halves of pkg/crypto and pkg/zk: signing, and the provers of the five
    circuits. gnark's Groth16 prover is a parameter; [completes] is the documented completeness of a proving
    key, [keypair] and [classical_keypair] what key generation promises. *)
From S2P Require Import Prelude Words Decimal Hashing Types Field ZkTree Circuit Groth NFT.

(** * Signing (pkg/crypto) *)

(** What a generated key pair satisfies: the sizes of the scheme, and signatures that
    verify. *)
Record keypair `{Mode3, Mode3Signer} (pk sk : bytes) : Prop := {
  kp_sk : len sk = mode3_PrivateKeySize;
  kp_pk : len pk = mode3_PublicKeySize; kp_pk_pos : 0 < mode3_PublicKeySize;
  kp_sig : ∀ msg, len (mode3_SignTo sk msg) = mode3_SignatureSize;
  kp_sig_pos : 0 < mode3_SignatureSize;
  kp_verify : ∀ msg, mode3_Verify pk msg (mode3_SignTo sk msg) = true }.

Record classical_keypair `{Ed25519, Ed25519Signer} (pk sk : bytes) : Prop := {
  ck_sk : len sk = ed25519_PrivateKeySize;
  ck_pk : len pk = ed25519_PublicKeySize; ck_pk_pos : 0 < ed25519_PublicKeySize;
  ck_sig : ∀ msg, len (ed25519_Sign sk msg) = ed25519_SignatureSize;
  ck_sig_pos : 0 < ed25519_SignatureSize;
  ck_verify : ∀ msg, ed25519_Verify pk msg (ed25519_Sign sk msg) = true }.

Lemma len_pos_nonempty (b : bytes) : 0 < len b → b ≠ [].
Proof. by destruct b. Qed.

Lemma keypair_signs `{Mode3, Mode3Signer} pk sk msg :
  keypair pk sk →
  ∃ sig, DilithiumSign sk msg = Ok sig ∧ DilithiumVerify pk msg sig = Ok true ∧ sig ≠ [] ∧ pk ≠ [].
Proof.
  intros []. exists (mode3_SignTo sk msg). unfold DilithiumSign, DilithiumVerify.
  rewrite kp_sk0, kp_pk0, kp_sig0, kp_verify0, !Z.eqb_refl. cbn.
  split_and!; [done|done|apply len_pos_nonempty..]; rewrite ?kp_sig0, ?kp_pk0; done.
Qed.

Lemma classical_signs `{Ed25519, Ed25519Signer} pk sk msg :
  classical_keypair pk sk →
  ∃ sig, ClassicalSign sk msg = Ok sig ∧ ClassicalVerify pk msg sig = Ok true ∧ sig ≠ [] ∧ pk ≠ [].
Proof.
  intros []. exists (ed25519_Sign sk msg). unfold ClassicalSign, ClassicalVerify.
  rewrite ck_sk0, ck_pk0, ck_sig0, ck_verify0, !Z.eqb_refl. cbn.
  split_and!; [done|done|apply len_pos_nonempty..]; rewrite ?ck_sig0, ?ck_pk0; done.
Qed.

(** * The Groth16 prover *)

(** [groth16.Prove] on a full witness, the variables of the circuit in the order of its
    fields, public ones first; [None] is its error. *)
Class Groth16Prover `{Fr, !Groth16} := {
  ProvingKey : Type;
  groth16_Prove : ProvingKey → list FieldElement → option GProof;
  proof_WriteTo : GProof → bytes }.

(** A proof survives its serialization, which is never empty. *)
Class ProverLaws `{Groth16Prover} : Prop := {
  ReadFrom_WriteTo : ∀ p, proof_ReadFrom (proof_WriteTo p) = Some p;
  WriteTo_nonempty : ∀ p, proof_WriteTo p ≠ [] }.

Section provers.
Context `{FR : Fr, !MimcField, GR : !Groth16, PR : !Groth16Prover}.

(** [System] and its siblings: the keys of one circuit. *)
Record System := { sys_pk : ProvingKey; sys_vk : VerifyingKey }.

(** Writing to a bytes.Buffer does not fail. *)
Definition ProofToBytes (p : GProof) : bytes := proof_WriteTo p.

(** The paths fill the circuit's [[MerkleDepth + 1]] array, whose unset entries
    [frontend.NewWitness] refuses. *)
Definition full_path (p : ZkTree.Proof) : bool :=
  bool_decide (length (ZkTree.pf_Path p) = S MerkleDepth).

Definition transfer_witness (c : TransferCircuit) : list FieldElement :=
  transfer_public c ++ tc_InValue c ++ tc_InOwnerSK c ++ tc_InRho c ++ tc_InLeafIndex c ++
  concat (tc_InPath c) ++ tc_OutValue c ++ tc_OutOwnerPK c ++ tc_OutRho c.
Definition mint_public (c : MintCircuit) : list FieldElement := [mc_Amount c; mc_OutCommit c].
Definition mint_witness (c : MintCircuit) : list FieldElement :=
  mint_public c ++ [mc_OwnerPK c; mc_Rho c].
Definition stake_public (c : StakeCircuit) : list FieldElement :=
  [sc_Principal c; sc_StartEpoch c; sc_PositionCommit c].
Definition stake_witness (c : StakeCircuit) : list FieldElement :=
  stake_public c ++ [sc_OwnerPK c; sc_Rho c].
Definition unstake_witness (c : UnstakeCircuit) : list FieldElement :=
  unstake_public c ++ [uc_OwnerSK c; uc_Rho c; uc_LeafIndex c] ++ uc_Path c ++
  [uc_OutOwnerPK c; uc_OutRho c].
Definition eligibility_public (c : EligibilityCircuit) : list FieldElement :=
  [ec_MerkleRoot c; ec_Nullifier c; ec_ProposalScope c].
Definition eligibility_witness (c : EligibilityCircuit) : list FieldElement :=
  eligibility_public c ++ [ec_VoterSK c; ec_LeafIndex c] ++ ec_Path c.

Definition prove_with (pk : ProvingKey) (w : list FieldElement) (e : string) : result GProof :=
  match groth16_Prove pk w with Some p => Ok p | None => Err e end.

Definition System_Prove (sys : System) (inp : TransferInput) : result GProof :=
  assignment ← buildAssignment inp;
  _ ← require (forallb full_path (ti_InProofs inp)) "zk: build witness";
  prove_with (sys_pk sys) (transfer_witness assignment) "zk: prove".
Definition MintSystem_Prove (sys : System) (secret : NoteSecret) : result GProof :=
  prove_with (sys_pk sys) (mint_witness (buildMintAssignment secret)) "zk: prove mint".
Definition StakeSystem_Prove (sys : System) (secret : StakeSecret) : result GProof :=
  prove_with (sys_pk sys) (stake_witness (buildStakeAssignment secret)) "zk: prove stake".
Definition UnstakeSystem_Prove (sys : System) (inp : UnstakeInput) : result GProof :=
  _ ← require (full_path (ui_Proof inp)) "zk: build unstake witness";
  prove_with (sys_pk sys) (unstake_witness (buildUnstakeAssignment inp)) "zk: prove unstake".
Definition EligibilitySystem_Prove (sys : System) (inp : EligibilityInput) : result GProof :=
  _ ← require (full_path (ei_Proof inp)) "zk: build eligibility witness";
  prove_with (sys_pk sys) (eligibility_witness (buildEligibilityAssignment inp))
    "zk: prove eligibility".

(** The public projections of the inputs. *)
Definition UnstakeInput_Nullifier (inp : UnstakeInput) : FieldElement :=
  StakeSecret_Nullifier (ui_Position inp).
Definition UnstakeInput_OutCommitment (inp : UnstakeInput) : FieldElement :=
  NoteSecret_Commitment (ui_Out inp).
Definition UnstakeInput_Public (inp : UnstakeInput) : UnstakePublic :=
  {| up_MerkleRoot := ui_MerkleRoot inp; up_Nullifier := UnstakeInput_Nullifier inp;
     up_Principal := ss_Principal (ui_Position inp);
     up_StartEpoch := ss_StartEpoch (ui_Position inp);
     up_FinalAmount := ns_Value (ui_Out inp); up_OutCommit := UnstakeInput_OutCommitment inp |}.
Definition EligibilityInput_Nullifier (inp : EligibilityInput) : FieldElement :=
  mimcHash [ei_VoterSK inp; ei_ProposalScope inp].
Definition EligibilityInput_Public (inp : EligibilityInput) : EligibilityPublic :=
  {| ep_MerkleRoot := ei_MerkleRoot inp; ep_Nullifier := EligibilityInput_Nullifier inp;
     ep_ProposalScope := ei_ProposalScope inp |}.

(** The prover's own check of a proof. *)
Definition PublicWitness (inp : TransferInput) : result (list FieldElement) :=
  PublicWitnessFromPublic (Public inp).
Definition VerifyProofBytes (sys : System) (proofBytes : bytes) (inp : TransferInput) : result unit :=
  VerifyPublicProofBytes (sys_vk sys) proofBytes (Public inp).
End provers.

(** * Completeness *)

Section completeness.
Context `{FR : Fr, FL : !FrLaws, MM : MiMC, ML : !MiMCLaws, MF : !MimcField, FE : !Frontend,
          L : !FrontendLaws, GR : !Groth16, PR : !Groth16Prover, PL : !ProverLaws}.

(** A satisfying assignment has a proof, and the system's own key accepts it. *)
Definition completes {C} (define : C → Prop) (wit pub : C → list FieldElement) (sys : System) : Prop :=
  ∀ c, define c →
    ∃ p, groth16_Prove (sys_pk sys) (wit c) = Some p ∧ groth16_Verify (sys_vk sys) p (pub c) = true.

(** The array sizes of the transfer circuit. *)
Definition transfer_arrays (c : TransferCircuit) : Prop :=
  Forall (λ l, length l = NumInputs) [tc_Nullifiers c; tc_InValue c; tc_InOwnerSK c; tc_InRho c; tc_InLeafIndex c] ∧
  Forall (λ l, length l = NumOutputs) [tc_OutCommits c; tc_OutValue c; tc_OutOwnerPK c; tc_OutRho c] ∧
  length (tc_InPath c) = NumInputs ∧ Forall (λ p, length p = S MerkleDepth) (tc_InPath c).

Definition complete_transfer : System → Prop :=
  completes (λ c, Define c ∧ transfer_arrays c) transfer_witness transfer_public.
Definition complete_mint : System → Prop := completes DefineMint mint_witness mint_public.
Definition complete_stake : System → Prop := completes DefineStake stake_witness stake_public.
Definition complete_unstake : System → Prop :=
  completes (λ c, DefineUnstake c ∧ length (uc_Path c) = S MerkleDepth) unstake_witness unstake_public.
Definition complete_eligibility : System → Prop :=
  completes (λ c, DefineEligibility c ∧ length (ec_Path c) = S MerkleDepth)
    eligibility_witness eligibility_public.

Lemma prove_verifies {C} define wit pub sys (c : C) e :
  completes define wit pub sys → define c →
  ∃ p, prove_with (sys_pk sys) (wit c) e = Ok p ∧
       ProofFromBytes (ProofToBytes p) = Ok p ∧ ProofToBytes p ≠ [] ∧
       Verify (sys_vk sys) p (pub c) = Ok tt.
Proof.
  intros Hc Hd. destruct (Hc c Hd) as (p & Hp & Hv). exists p.
  unfold prove_with, ProofFromBytes, ProofToBytes, Verify. rewrite Hp, Hv, ReadFrom_WriteTo.
  split_and!; try done. apply WriteTo_nonempty.
Qed.

Lemma Prove_full_path t i p :
  ZkTree.Prove t i = Ok p → Z.of_nat (length (ZkTree.leaves t)) ≤ TreeSize → full_path p = true.
Proof.
  intros E Hcap. destruct (Prove_spec t i p E Hcap) as (j & leaf & sibs & _ & _ & _ & -> & Hs & _).
  unfold full_path. apply bool_decide_eq_true. cbn [ZkTree.pf_Path length]. by rewrite length_fmap, Hs.
Qed.

Lemma Prove_root t i p :
  ZkTree.Prove t i = Ok p → Z.of_nat (length (ZkTree.leaves t)) ≤ TreeSize →
  ZkTree.pf_Root p = ZkTree.Root t.
Proof.
  intros E Hcap. by destruct (Prove_spec t i p E Hcap) as (j & leaf & sibs & _ & _ & _ & -> & _).
Qed.

(** The tree proves every leaf it holds. *)
Lemma Prove_Ok t (i : Z) leaf :
  0 ≤ i → ZkTree.leaves t !! Z.to_nat i = Some leaf → ∃ p, ZkTree.Prove t i = Ok p.
Proof.
  intros Hi Hl. apply lookup_lt_Some in Hl. unfold ZkTree.Prove.
  replace ((i <? 0) || _) with false by (symmetry; bools; lia).
  destruct (ZkTree.fold t _). eauto.
Qed.

(** ** The transfer prover *)

Lemma prove_transfer sys t s0 s1 o0 o1 fee i0 i1 p0 p1 :
  complete_transfer sys → Z.of_nat (length (ZkTree.leaves t)) ≤ TreeSize →
  ZkTree.leaves t !! Z.to_nat i0 = Some (Bytes (NoteSecret_Commitment s0)) →
  ZkTree.leaves t !! Z.to_nat i1 = Some (Bytes (NoteSecret_Commitment s1)) →
  ZkTree.Prove t i0 = Ok p0 → ZkTree.Prove t i1 = Ok p1 →
  Forall (λ v, 0 ≤ v < 2 ^ 64) [ns_Value s0; ns_Value s1; ns_Value o0; ns_Value o1; fee] →
  ns_Value s0 + ns_Value s1 = ns_Value o0 + ns_Value o1 + fee →
  let inp := {| ti_MerkleRoot := ZkTree.Root t; ti_Fee := fee; ti_InSecrets := [s0; s1];
                ti_InProofs := [p0; p1]; ti_OutSecrets := [o0; o1] |} in
  ∃ p, System_Prove sys inp = Ok p ∧ VerifyProofBytes sys (ProofToBytes p) inp = Ok tt.
Proof.
  intros Hsys Hcap L0 L1 P0 P1 HF Hsum inp.
  destruct (honest_satisfies t s0 s1 o0 o1 fee i0 i1 p0 p1 Hcap L0 L1 P0 P1 HF Hsum) as (c & Hb & Hd).
  fold inp in Hb.
  assert (Hfull := Prove_full_path _ _ _ P0 Hcap). assert (Hfull' := Prove_full_path _ _ _ P1 Hcap).
  assert (Hc : c = match buildAssignment inp with Ok c => c | Err _ => c end) by by rewrite Hb.
  assert (Harr : transfer_arrays c).
  { rewrite Hc. unfold full_path in *. bools. repeat constructor; done. }
  destruct (prove_verifies _ _ _ sys c "zk: prove" Hsys (conj Hd Harr)) as (p & Hp & Hr & _ & Hv).
  exists p. unfold System_Prove, VerifyProofBytes, VerifyPublicProofBytes. rewrite Hb, Hr. cbn [mbind result_bind].
  cbn [inp ti_InProofs forallb]. rewrite Hfull, Hfull'. split; [done|].
  rewrite <-Hv. unfold PublicWitnessFromPublic. cbn. f_equal. by rewrite Hc.
Qed.

(** ** The other provers *)

Lemma prove_mint sys secret :
  complete_mint sys → 0 ≤ ns_Value secret < 2 ^ 64 →
  ∃ p, MintSystem_Prove sys secret = Ok p ∧ ProofToBytes p ≠ [] ∧
       VerifyMintProofBytes (sys_vk sys) (ProofToBytes p)
         {| mp_Amount := ns_Value secret; mp_OutCommit := NoteSecret_Commitment secret |} = Ok tt.
Proof.
  intros Hsys Hv.
  assert (Hd : DefineMint (buildMintAssignment secret)).
  { split; [by apply value_in_range|]. apply AssertIsEqual_spec. by rewrite HSum_mimcHash. }
  destruct (prove_verifies _ _ _ sys _ "zk: prove mint" Hsys Hd) as (p & Hp & Hr & Hne & Hok).
  exists p. unfold MintSystem_Prove, VerifyMintProofBytes. by rewrite Hr.
Qed.

Lemma epoch_in_range v : 0 ≤ v < 2 ^ 32 → ToBinary (ValueElement v) epochBits.
Proof.
  intros Hv. apply ToBinary_spec; [done|]. unfold ValueElement, epochBits. rewrite SetUint64_val; lia.
Qed.

Lemma prove_stake sys secret :
  complete_stake sys → 0 ≤ ss_Principal secret < 2 ^ 64 → 0 ≤ ss_StartEpoch secret < 2 ^ 32 →
  ∃ p, StakeSystem_Prove sys secret = Ok p ∧ ProofToBytes p ≠ [] ∧
       VerifyStakeProofBytes (sys_vk sys) (ProofToBytes p)
         {| sp_Principal := ss_Principal secret; sp_StartEpoch := ss_StartEpoch secret;
            sp_PositionCommit := StakeSecret_Commitment secret |} = Ok tt.
Proof.
  intros Hsys Hv He.
  assert (Hd : DefineStake (buildStakeAssignment secret)).
  { split; [by apply value_in_range|]. split; [by apply epoch_in_range|].
    apply AssertIsEqual_spec. by rewrite HSum_mimcHash. }
  destruct (prove_verifies _ _ _ sys _ "zk: prove stake" Hsys Hd) as (p & Hp & Hr & Hne & Hok).
  exists p. unfold StakeSystem_Prove, VerifyStakeProofBytes. by rewrite Hr.
Qed.

Lemma prove_unstake sys t i mp position out :
  complete_unstake sys → Z.of_nat (length (ZkTree.leaves t)) ≤ TreeSize →
  ZkTree.leaves t !! Z.to_nat i = Some (Bytes (StakeSecret_Commitment position)) →
  ZkTree.Prove t i = Ok mp →
  0 ≤ ss_Principal position < 2 ^ 64 → 0 ≤ ss_StartEpoch position < 2 ^ 32 →
  0 ≤ ns_Value out < 2 ^ 64 →
  let inp := {| ui_MerkleRoot := ZkTree.Root t; ui_Position := position; ui_Proof := mp; ui_Out := out |} in
  ∃ p, UnstakeSystem_Prove sys inp = Ok p ∧ ProofToBytes p ≠ [] ∧
       VerifyUnstakeProofBytes (sys_vk sys) (ProofToBytes p) (UnstakeInput_Public inp) = Ok tt.
Proof.
  intros Hsys Hcap Hl Hp Hv He Ho inp. pose proof (Prove_full_path _ _ _ Hp Hcap) as Hfull.
  destruct (Prove_verifies t i mp _ Hp Hcap Hl) as [Hleaf Hmem].
  assert (Hd : DefineUnstake (buildUnstakeAssignment inp)).
  { split; [by apply value_in_range|]. split; [by apply epoch_in_range|].
    split; [by apply value_in_range|]. cbv zeta. rewrite !HSum_mimcHash.
    split; [by apply AssertIsEqual_spec|]. split; [exact Hmem|].
    split; by apply AssertIsEqual_spec. }
  assert (Hlen : length (uc_Path (buildUnstakeAssignment inp)) = S MerkleDepth)
    by (by apply bool_decide_eq_true in Hfull).
  destruct (prove_verifies _ _ _ sys _ "zk: prove unstake" Hsys (conj Hd Hlen)) as (p & Hpr & Hr & Hne & Hok).
  exists p. unfold UnstakeSystem_Prove, VerifyUnstakeProofBytes. cbn [ui_Proof inp].
  by rewrite Hfull, Hr.
Qed.

Lemma prove_eligibility sys t i mp voterSK scope :
  complete_eligibility sys → Z.of_nat (length (ZkTree.leaves t)) ≤ TreeSize →
  ZkTree.leaves t !! Z.to_nat i = Some (Bytes (VoterCommitment voterSK)) →
  ZkTree.Prove t i = Ok mp →
  let inp := {| ei_MerkleRoot := ZkTree.Root t; ei_ProposalScope := scope; ei_VoterSK := voterSK;
                ei_Proof := mp |} in
  ∃ p, EligibilitySystem_Prove sys inp = Ok p ∧
       VerifyEligibilityProofBytes (sys_vk sys) (ProofToBytes p) (EligibilityInput_Public inp) = Ok tt.
Proof.
  intros Hsys Hcap Hl Hp inp. pose proof (Prove_full_path _ _ _ Hp Hcap) as Hfull.
  destruct (Prove_verifies t i mp _ Hp Hcap Hl) as [Hleaf Hmem].
  assert (Hd : DefineEligibility (buildEligibilityAssignment inp)).
  { unfold DefineEligibility. cbv zeta. rewrite !HSum_mimcHash.
    split; [by apply AssertIsEqual_spec|]. split; [exact Hmem|]. by apply AssertIsEqual_spec. }
  assert (Hlen : length (ec_Path (buildEligibilityAssignment inp)) = S MerkleDepth)
    by (by apply bool_decide_eq_true in Hfull).
  destruct (prove_verifies _ _ _ sys _ "zk: prove eligibility" Hsys (conj Hd Hlen)) as (p & Hpr & Hr & Hne & Hok).
  exists p. unfold EligibilitySystem_Prove, VerifyEligibilityProofBytes. cbn [ei_Proof inp].
  by rewrite Hfull, Hr.
Qed.
End completeness.

(** * Concrete signers for the witnesses *)

(** The signature is made of the message's length. *)
Module SignerModel.
#[export] Existing Instance CryptoModel.mode3.
#[export] Instance signer : Mode3Signer :=
  {| mode3_PrivateKeySize := 1; mode3_SignTo sk msg := [len msg mod 256] |}.
#[export] Instance ed_signer : Ed25519Signer :=
  {| ed25519_PrivateKeySize := 1; ed25519_Sign sk msg := [len msg mod 256] |}.

Lemma keys k : keypair [k] [k].
Proof. split; try done. intros msg. cbn. by apply bool_decide_eq_true. Qed.
End SignerModel.

(** A prover whose proofs the key [AnyKey] of [GrothModel] accepts. *)
Module ProverModel.
Import FrModel GrothModel.
#[export] Instance prover : Groth16Prover :=
  { ProvingKey := unit; groth16_Prove _ _ := Some tt; proof_WriteTo _ := [1] }.
#[export] Instance prover_laws : ProverLaws.
Proof. split; [by intros []|done]. Qed.
Definition sys : System := {| sys_pk := tt; sys_vk := AnyKey |}.

Lemma complete {C} (define : C → Prop) wit pub : completes define wit pub sys.
Proof. intros c _. by exists tt. Qed.
End ProverModel.
