(* ===== verification/Accept.v ===== *)
(** The stages of pkg/tx/pipeline.go from the side of whoever builds a transaction: what a
    transaction and a node have to satisfy for the stages to accept it. The converse of
    [Admission], whose lemmas start from an accepted run. *)
From S2P Require Import Prelude Words Decimal Hashing Types Epoch Mempool Governance Bank Merkle.
From S2P Require Import Field ZkTree Circuit Groth NFT Silent Store Pipeline Admission.

Section accept.
Context `{SHA : Sha256, M3 : Mode3, ED : Ed25519, BR : BigRat, FR : Fr, MM : MiMC, GR : !Groth16}.
Context (json_marshal : ShieldedTx → result bytes) (deps : Deps).
Implicit Types (s : State) (t : ShieldedTx).

(** ** Calls that succeed *)

Lemma bind_accepts {A B} (m : call State A) (f : A → call State B) s a s1 r :
  m s = (Ok a, s1) → f a s1 = r → (m ≫= f) s = r.
Proof. intros E1 E2. unfold mbind, call_bind. by rewrite E1. Qed.

Lemma check_accepts (b : bool) e s : b = true → check b e s = (Ok tt, s).
Proof. by intros ->. Qed.

(** ** A transaction in order *)

(** What its builder answers for: the identifier, the signatures and the inputs of its
    kind. *)
Record well_formed t : Prop := {
  wf_kind : ∀ k, tx_Kind t ≠ TxUnknown k;
  wf_id : tx_TxID t = ComputeTxID (tx_Proof t) (tx_Commitments t) (tx_Nullifier t);
  wf_sig : tx_Sig t ≠ [] ∧ tx_SignerPubKey t ≠ [];
  wf_verify : DilithiumVerify (tx_SignerPubKey t) (tx_TxID t) (tx_Sig t) = Ok true;
  wf_classical :
    (tx_ClassicalSig t = [] ∧ tx_ClassicalPubKey t = []) ∨
    (tx_ClassicalSig t ≠ [] ∧ tx_ClassicalPubKey t ≠ [] ∧
     ClassicalVerify (tx_ClassicalPubKey t) (tx_TxID t) (tx_ClassicalSig t) = Ok true);
  wf_inputs : check_inputs t = Ok tt;
  wf_container : tx_ContainerID t = None;
  wf_outputs : ∀ pub, tx_Kind t = TxTransfer → tx_Transfer t = Some pub → tpi_OutCommits pub ≠ [] }.

(** What the node answers for: the transaction is fresh and small enough, its signer is
    not held for a spike, and a classical co-signature is still allowed. *)
Record admits t (at_ : Time) s : Prop := {
  ad_fresh : time_is_zero at_ || (time_sub (d_Now deps) at_ <=? TxTTL) = true;
  ad_size : ∀ size, Mempool.jsonSize json_marshal (with_stage 1 t) = Ok size → size ≤ MaxTxSize;
  ad_rate : is_ok (check_rate deps t s).1 = true;
  ad_dual : tx_ClassicalSig t = [] ∨
            (∀ g, st_Governance s = Some g → Governance.DualSignEnabled g = true) }.

(** The spike check looks at the monitor and the signer only. *)
Lemma check_rate_silent t t' s s' :
  st_Silent s' = st_Silent s → tx_SignerPubKey t' = tx_SignerPubKey t →
  (check_rate deps t' s').1 = (check_rate deps t s).1.
Proof.
  intros Es Et. unfold check_rate, mbind, call_bind, gets, modify, check, lift, fail, mret, call_ret.
  rewrite Es, Et. destruct (st_Silent s) as [m|]; [|done].
  destruct (Silent.IsHeld _ _ _) as [held m1]. unfold require. destruct (negb held); [|done].
  by destruct (Silent.EvaluateSpike _ _ _) as [[a|] m2].
Qed.

Lemma check_dual_sign_accepts t s :
  well_formed t →
  tx_ClassicalSig t = [] ∨ (∀ g, st_Governance s = Some g → Governance.DualSignEnabled g = true) →
  check_dual_sign t s = (Ok tt, s).
Proof.
  intros [_ _ _ _ Hc _ _ _] Hd. unfold check_dual_sign.
  destruct Hc as [[-> ->]|(Hs & Hk & Hv)]; [done|].
  destruct Hd as [?|Hd]; [done|].
  rewrite !bool_decide_false by done. cbn [negb orb andb].
  eapply bind_accepts; [done|].
  eapply bind_accepts; [apply check_accepts; destruct (st_Governance s); [by apply Hd|done]|].
  eapply bind_accepts; [done|]. by rewrite Hv.
Qed.

(** ** The stages *)

Lemma stage2_accepts t at_ s s1 :
  well_formed t → admits t at_ s → st_Silent s1 = st_Silent s → st_Governance s1 = st_Governance s →
  ∃ s2, stage2TxOffer json_marshal deps (with_stage 1 t) at_ s1 = (Ok (with_stage 2 (with_stage 1 t)), s2) ∧
        quiet s1 s2.
Proof.
  intros W [Hf Hsz Hr Hd] Es Eg.
  assert (W1 : well_formed (with_stage 1 t)) by (destruct W; by split).
  pose proof (stage2_quiet json_marshal deps (with_stage 1 t) at_ s1) as Hq.
  assert (Hex : ∃ s2, stage2TxOffer json_marshal deps (with_stage 1 t) at_ s1 =
                      (Ok (with_stage 2 (with_stage 1 t)), s2)).
  { pose proof W1 as [Hk Hid [Hs1 Hs2] Hv Hc Hi _ _].
    unfold stage2TxOffer.
    eapply ex_intro. eapply bind_accepts.
    { apply check_accepts. destruct (tx_Kind (with_stage 1 t)) eqn:E; try done. by destruct (Hk k). }
    eapply bind_accepts; [by apply check_accepts|].
    eapply bind_accepts.
    { apply check_accepts. destruct (Mempool.jsonSize _ _) eqn:E; [|done]. apply Z.leb_le. by apply Hsz. }
    eapply bind_accepts; [apply check_accepts; by apply bool_decide_eq_true|].
    eapply bind_accepts; [apply check_accepts; by rewrite !bool_decide_false|].
    rewrite Hv. eapply bind_accepts; [done|].
    eapply bind_accepts; [apply check_dual_sign_accepts; [done|]; by rewrite Eg|].
    pose proof (check_rate_silent t (with_stage 1 t) s s1 Es eq_refl) as Er.
    eapply bind_accepts.
    { rewrite (surjective_pairing (check_rate deps (with_stage 1 t) s1)), Er.
      destruct (check_rate deps t s).1 as [[]|]; [reflexivity|done]. }
    unfold lift. eapply bind_accepts; [by rewrite Hi|]. done. }
  destruct Hex as [s2 E]. exists s2. split; [done|]. by rewrite E in Hq.
Qed.

Lemma stage3_accepts t s :
  well_formed t → (tx_Kind t = TxTransfer → is_Some (tx_Transfer t)) →
  stage3ReceiverCheck (with_stage 2 (with_stage 1 t)) s =
    (Ok (with_stage 3 (with_stage 2 (with_stage 1 t))), s).
Proof.
  intros [] Ht. unfold stage3ReceiverCheck. cbn [with_stage tx_Kind tx_Transfer tx_ContainerID].
  eapply bind_accepts.
  { apply check_accepts. destruct (tx_Kind t) eqn:E; try done.
    destruct (Ht eq_refl) as [pub Hp]. rewrite Hp. apply negb_true_iff, bool_decide_eq_false.
    by eapply wf_outputs0. }
  eapply bind_accepts; [by rewrite wf_container0|]. done.
Qed.

Lemma processOne_accepts t at_ s s1 s2 s4 s5 t5 :
  stage1SenderLeave deps t s = (Ok (with_stage 1 t), s1) →
  stage2TxOffer json_marshal deps (with_stage 1 t) at_ s1 = (Ok (with_stage 2 (with_stage 1 t)), s2) →
  stage3ReceiverCheck (with_stage 2 (with_stage 1 t)) s2 =
    (Ok (with_stage 3 (with_stage 2 (with_stage 1 t))), s2) →
  stage4SendExec deps (with_stage 3 (with_stage 2 (with_stage 1 t))) s2 =
    (Ok (with_stage 4 (with_stage 3 (with_stage 2 (with_stage 1 t)))), s4) →
  stage5PlaceFinal (with_stage 4 (with_stage 3 (with_stage 2 (with_stage 1 t)))) s4 = (Ok t5, s5) →
  processOne json_marshal deps t at_ s = (t5, None, (finalize t5 s5).2).
Proof. intros E1 E2 E3 E4 E5. unfold processOne, stage. by rewrite E1, E2, E3, E4, E5. Qed.

(** A transaction whose proof passes stage 1 and whose effect passes stage 4 is accepted when
    its nullifiers are distinct and unspent. *)
Lemma spend_accepts t at_ s s1 :
  well_formed t → admits t at_ s → (tx_Kind t = TxTransfer → is_Some (tx_Transfer t)) →
  stage1SenderLeave deps t s = (Ok (with_stage 1 t), s1) → st_Silent s1 = st_Silent s →
  (∀ s2, quiet s1 s2 → ∃ s4,
     stage4SendExec deps (with_stage 3 (with_stage 2 (with_stage 1 t))) s2 =
       (Ok (with_stage 4 (with_stage 3 (with_stage 2 (with_stage 1 t)))), s4)) →
  NoDup (txNullifiers t) → Forall (λ n, n ∉ Rows.nullifiers (st_Store s)) (txNullifiers t) →
  ∃ t' s', processOne json_marshal deps t at_ s = (t', None, s').
Proof.
  intros W A Ht E1 Esil H4 Hnd Hun. destruct (stage1_Ok _ _ _ _ _ E1) as (_ & C1 & _).
  destruct (stage2_accepts t at_ s s1 W A Esil (sc_gov _ _ C1)) as (s2 & E2 & Q2).
  destruct (H4 s2 Q2) as [s4 E4].
  pose proof (stage4_keeps deps (with_stage 3 (with_stage 2 (with_stage 1 t))) s2) as [_ K4].
  rewrite E4 in K4. cbn [snd] in K4.
  set (t4 := with_stage 4 (with_stage 3 (with_stage 2 (with_stage 1 t)))) in *.
  assert (Hun4 : Forall (λ n, n ∉ Rows.nullifiers (st_Store s4)) (txNullifiers t4)).
  { by rewrite K4, (sc_store _ _ (proj1 Q2)), (sc_store _ _ C1). }
  pose proof (stage5_spec t4 s4) as H5. destruct (stage5PlaceFinal t4 s4) as [[t5|e] s5] eqn:E5.
  - eexists t5, _. eapply processOne_accepts; eauto. by apply stage3_accepts.
  - destruct H5 as (_ & _ & Herr & _). destruct Herr as [[Hk Hn]|Hd]; [by eexists| |by destruct Hd].
    cbn in Hk, Hn. destruct (Ht Hk) as [pub Hp]. congruence.
Qed.

(** ** Kinds without a spend *)

(** A transaction that spends nothing passes when its own effect in stage 4 does. *)
Lemma plain_accepts t at_ s :
  well_formed t → admits t at_ s → tx_Kind t ≠ TxTransfer → tx_Kind t ≠ TxUnstake →
  ∃ s2, quiet s s2 ∧ ∀ s4,
    stage4SendExec deps (with_stage 3 (with_stage 2 (with_stage 1 t))) s2 =
      (Ok (with_stage 4 (with_stage 3 (with_stage 2 (with_stage 1 t)))), s4) →
    ∃ t', processOne json_marshal deps t at_ s = (t', None, s4).
Proof.
  intros W A Hk1 Hk2. destruct (stage2_accepts t at_ s s W A eq_refl eq_refl) as (s2 & E2 & Q).
  exists s2. split; [done|]. intros s4 E4.
  set (t4 := with_stage 4 (with_stage 3 (with_stage 2 (with_stage 1 t)))) in *.
  exists (with_stage 5 t4).
  assert (E5 : stage5PlaceFinal t4 s4 = (Ok (with_stage 5 t4), s4)).
  { unfold stage5PlaceFinal, t4. cbn [with_stage tx_Kind]. by destruct (tx_Kind t). }
  rewrite (processOne_accepts t at_ s s s2 s4 s4 (with_stage 5 t4)); [|..|exact E5].
  - f_equal. unfold finalize, release, txNullifiers, t4. cbn [with_stage tx_Kind]. by destruct (tx_Kind t).
  - unfold stage1SenderLeave. by destruct (tx_Kind t).
  - exact E2.
  - by apply stage3_accepts.
  - exact E4.
Qed.

(** Its own effect is also all that can reject it. *)
Lemma plain_reaches_execution t at_ s t' err s' :
  well_formed t → admits t at_ s → tx_Kind t ≠ TxTransfer → tx_Kind t ≠ TxUnstake →
  processOne json_marshal deps t at_ s = (t', Some err, s') → se_Stage err = 4.
Proof.
  intros W A Hk1 Hk2 E. destruct (stage2_accepts t at_ s s W A eq_refl eq_refl) as (s2 & E2 & Q).
  assert (E1 : stage1SenderLeave deps t s = (Ok (with_stage 1 t), s))
    by (unfold stage1SenderLeave; by destruct (tx_Kind t)).
  assert (E3 := stage3_accepts t s2 W ltac:(done)).
  unfold processOne, stage in E. rewrite E1, E2, E3 in E.
  destruct (stage4SendExec _ _ s2) as [[t4|e] s4] eqn:E4; [|by injection E as _ <- _].
  exfalso. assert (t4 = with_stage 4 (with_stage 3 (with_stage 2 (with_stage 1 t)))) as ->.
  { unfold stage4SendExec in E4. by apply call_bind_Ok in E4 as (u & s3 & _ & [= <- _]). }
  unfold stage5PlaceFinal in E. cbn [with_stage tx_Kind] in E. by destruct (tx_Kind t).
Qed.
End accept.
