(* ===== verification/Builder.v ===== *)
(** pkg/txbuilder: the signed transactions a wallet builds for every kind but a shielded
    transfer. Random draws (nullifiers, note secrets) are arguments. [Built] states what a
    built transaction satisfies; the pipeline's side is [Accept]. *)
From S2P Require Import Prelude Words Decimal Hashing Types Epoch Mempool Governance Bank Merkle.
From S2P Require Import Field ZkTree Circuit Groth NFT Silent Store Pipeline Admission Prover Accept.

Module Builder.
(** A key that is not set is nil, the empty slice. *)
Record Builder := {
  b_pk : bytes; b_sk : bytes; b_classicalPK : bytes; b_classicalSK : bytes }.

Definition New (pk sk : bytes) : Builder :=
  {| b_pk := pk; b_sk := sk; b_classicalPK := []; b_classicalSK := [] |}.
Definition WithClassicalKey (b : Builder) (pk sk : bytes) : Builder :=
  b <| b_classicalPK := pk |> <| b_classicalSK := sk |>.

Section builder.
Context `{SHA : Sha256, M3 : Mode3, SG : Mode3Signer, ED : Ed25519, ES : Ed25519Signer}.

Definition Identity (b : Builder) : NFTID := SumHash [b_pk b].
Definition PublicKey (b : Builder) : bytes := b_pk b.

Definition finalize (b : Builder) (t : ShieldedTx) : result ShieldedTx :=
  let t := t <| tx_TxID := ComputeTxID (tx_Proof t) (tx_Commitments t) (tx_Nullifier t) |> in
  match DilithiumSign (b_sk b) (tx_TxID t) with
  | Err _ => Err "txbuilder: sign"
  | Ok sig =>
      let t := t <| tx_Sig := sig |> <| tx_SignerPubKey := b_pk b |> in
      if negb (bool_decide (b_classicalSK b = [])) then
        match ClassicalSign (b_classicalSK b) (tx_TxID t) with
        | Err _ => Err "txbuilder: classical co-sign"
        | Ok classicalSig =>
            Ok (t <| tx_ClassicalSig := classicalSig |> <| tx_ClassicalPubKey := b_classicalPK b |>)
        end
      else Ok t
  end.

(** A fresh transaction of a kind; its nullifier is a random hash unless it is derived. *)
Definition draft (kind : TxKind) (nullifier : Hash) : ShieldedTx :=
  let t := zero_tx hash_zero kind in t <| tx_Nullifier := nullifier |>.

(** ** mint.go, bank.go, nft*.go *)

Definition Mint (b : Builder) (nullifier : Hash) : result ShieldedTx :=
  finalize b (draft TxMint nullifier).

Definition bankPublicInputsFromQuote (kind : TxKind) (asset : string) (quote : Oracle.Quote)
    : BankPublicInputs :=
  let multiple := if bool_decide (kind = TxBankWithdraw) then Bank.WithdrawATRMultiple
                  else Bank.DepositATRMultiple in
  {| bpi_Asset := asset; bpi_OraclePriceUSD := Oracle.qt_PriceUSD quote;
     bpi_ATRUSD := Oracle.qt_ATRUSD quote;
     bpi_BufferUSD := Decimal.Mul multiple (Oracle.qt_ATRUSD quote) |}.

Definition BankDepositFromQuote (b : Builder) (asset : string) (quote : Oracle.Quote) (nullifier : Hash)
    : result ShieldedTx :=
  let t := draft TxBankDeposit nullifier in
  finalize b (t <| tx_Bank := Some (bankPublicInputsFromQuote TxBankDeposit asset quote) |>).
Definition BankWithdrawFromQuote (b : Builder) (asset : string) (quote : Oracle.Quote) (nullifier : Hash)
    : result ShieldedTx :=
  let t := draft TxBankWithdraw nullifier in
  finalize b (t <| tx_Bank := Some (bankPublicInputsFromQuote TxBankWithdraw asset quote) |>).

(** Asking a quorum updates its last-good cache. *)
Definition BankDeposit (b : Builder) (quorum : Oracle.Quorum) (asset : string) (nullifier : Hash)
    : result ShieldedTx * Oracle.Quorum :=
  let '(r, quorum) := Oracle.quote quorum asset in
  (match r with
   | Err _ => Err "txbuilder: fetch oracle quote for deposit"
   | Ok quote => BankDepositFromQuote b asset quote nullifier
   end, quorum).
Definition BankWithdraw (b : Builder) (quorum : Oracle.Quorum) (asset : string) (nullifier : Hash)
    : result ShieldedTx * Oracle.Quorum :=
  let '(r, quorum) := Oracle.quote quorum asset in
  (match r with
   | Err _ => Err "txbuilder: fetch oracle quote for withdraw"
   | Ok quote => BankWithdrawFromQuote b asset quote nullifier
   end, quorum).

Definition traitCommitmentDomain : bytes := string_bytes "shadowforge-txbuilder-trait-delta-v1".
Definition ComputeTraitDeltaCommitment (key : string) (delta : Z) (salt : bytes) : Hash :=
  SumHash [traitCommitmentDomain; string_bytes key; be64 (u64 delta); salt].

Definition NFTTrait (b : Builder) (target : NFTID) (key : string) (delta : Z) (salt : bytes)
    (nullifier : Hash) : result ShieldedTx :=
  _ ← require (negb (bool_decide (key = EmptyString))) "txbuilder: trait key must not be empty";
  _ ← require (negb (bool_decide (salt = []))) "txbuilder: salt must not be empty";
  let t := draft TxNFTTrait nullifier in
  finalize b (t <| tx_Commitments := [target] |>
                <| tx_Trait := Some {| trpi_Key := key;
                     trpi_DeltaCommitment := ComputeTraitDeltaCommitment key delta salt |} |>).

Definition NFTTransfer (b : Builder) (target : NFTID) (newOwner : Address) (nullifier : Hash)
    : result ShieldedTx :=
  _ ← require (negb (IsZero target)) "txbuilder: transfer target must not be empty";
  let t := draft TxNFTTransfer nullifier in
  finalize b (t <| tx_Commitments := [target] |>
                <| tx_NFTTransfer := Some {| ntpi_Target := target; ntpi_NewOwner := newOwner |} |>).

(** ** vote.go: ballots *)

Definition voteNonceDomain : bytes := string_bytes "shadowforge-txbuilder-vote-nonce-v1".
Definition voteNonce (proposalID : string) (voterNullifier : Hash) : Hash :=
  SumHash [voteNonceDomain; string_bytes proposalID; voterNullifier].

(** The inputs of a sealed ballot that binds no claim. *)
Definition sealed (proposalID : string) (approve : bool) (eligibility : VoteEligibilityProof)
    : VotePublicInputs :=
  let nonce := voteNonce proposalID (vep_Nullifier eligibility) in
  {| vpi_ProposalID := proposalID;
     vpi_Commitment := ComputeVoteCommitment (vep_Nullifier eligibility) approve nonce;
     vpi_ParamKey := EmptyString; vpi_NewValue := EmptyString; vpi_MintAmount := 0;
     vpi_MintOutCommit := hash_zero; vpi_MintProof := []; vpi_MintStaked := false;
     vpi_StakePositionCommit := hash_zero; vpi_StakeProof := []; vpi_SlashTargetNFT := hash_zero;
     vpi_SlashBurn := false; vpi_UnlockTransferTarget := hash_zero;
     vpi_ContainerAssetTarget := EmptyString; vpi_UnwindDualSign := false |}.

(** The nullifier of a ballot transaction is derived from the signing key. *)
Definition ballotNullifier (b : Builder) (proposalID tag : string) : Hash :=
  SumHash [b_sk b; voteNonceDomain; string_bytes proposalID; string_bytes tag].

(** The transaction every proposing method ends with. *)
Definition cast (b : Builder) (pub : VotePublicInputs) (eligibility : VoteEligibilityProof)
    (tag : string) : result ShieldedTx :=
  let t := draft TxVote (ballotNullifier b (vpi_ProposalID pub) tag) in
  finalize b (t <| tx_Vote := Some pub |> <| tx_VoteEligibility := Some eligibility |>).

Definition needs_proposal (proposalID : string) : result unit :=
  require (negb (bool_decide (proposalID = EmptyString))) "txbuilder: proposal id must not be empty".

Definition Vote (b : Builder) (proposalID : string) (approve : bool) (paramKey newValue : string)
    (eligibility : VoteEligibilityProof) : result ShieldedTx :=
  _ ← needs_proposal proposalID;
  let pub := sealed proposalID approve eligibility in
  cast b (pub <| vpi_ParamKey := paramKey |> <| vpi_NewValue := newValue |>) eligibility "commit".

Definition ProposeSlash (b : Builder) (proposalID : string) (approve : bool) (target : NFTID)
    (burn : bool) (eligibility : VoteEligibilityProof) : result ShieldedTx :=
  _ ← needs_proposal proposalID;
  _ ← require (negb (IsZero target)) "txbuilder: slash target must not be empty";
  let pub := sealed proposalID approve eligibility in
  cast b (pub <| vpi_SlashTargetNFT := target |> <| vpi_SlashBurn := burn |>) eligibility "slash-commit".

Definition ProposeUnlockTransfer (b : Builder) (proposalID : string) (approve : bool) (target : NFTID)
    (eligibility : VoteEligibilityProof) : result ShieldedTx :=
  _ ← needs_proposal proposalID;
  _ ← require (negb (IsZero target)) "txbuilder: unlock-transfer target must not be empty";
  let pub := sealed proposalID approve eligibility in
  cast b (pub <| vpi_UnlockTransferTarget := target |>) eligibility "unlock-transfer-commit".

Definition ProposeAuthorizeAsset (b : Builder) (proposalID : string) (approve : bool) (asset : string)
    (eligibility : VoteEligibilityProof) : result ShieldedTx :=
  _ ← needs_proposal proposalID;
  _ ← require (negb (bool_decide (asset = EmptyString)))
        "txbuilder: container-asset target must not be empty";
  let pub := sealed proposalID approve eligibility in
  cast b (pub <| vpi_ContainerAssetTarget := asset |>) eligibility "container-asset-commit".

Definition ProposeUnwindDualSign (b : Builder) (proposalID : string) (approve : bool)
    (eligibility : VoteEligibilityProof) : result ShieldedTx :=
  _ ← needs_proposal proposalID;
  let pub := sealed proposalID approve eligibility in
  cast b (pub <| vpi_UnwindDualSign := true |>) eligibility "unwind-dual-sign-commit".

Definition VoteReveal (b : Builder) (proposalID : string) (approve : bool)
    (eligibility : VoteEligibilityProof) : result ShieldedTx :=
  _ ← needs_proposal proposalID;
  let nonce := voteNonce proposalID (vep_Nullifier eligibility) in
  let t := draft TxVoteReveal (ballotNullifier b proposalID "reveal") in
  finalize b (t <| tx_VoteReveal :=
                     Some {| vrpi_ProposalID := proposalID; vrpi_Approve := approve; vrpi_Nonce := nonce |} |>
                <| tx_VoteEligibility := Some eligibility |>).

(** ** vote.go and nftmint.go: the proving kinds *)

Section proving.
Context `{FR : Fr, !MimcField, GR : !Groth16, PR : !Groth16Prover}.

(** [ownerSK] and [rho] are the secrets it draws; the note they open is returned. *)
Definition ProposeMint (b : Builder) (proposalID : string) (approve : bool) (amount : Z) (sys : System)
    (eligibility : VoteEligibilityProof) (ownerSK rho : FieldElement)
    : result (ShieldedTx * NoteSecret) :=
  _ ← needs_proposal proposalID;
  _ ← require (negb (amount =? 0)) "txbuilder: mint amount must be greater than 0";
  let secret := {| ns_Value := MintNetAmount amount; ns_OwnerSK := ownerSK; ns_Rho := rho |} in
  proof ← MintSystem_Prove sys secret;
  let pub := sealed proposalID approve eligibility in
  t ← cast b (pub <| vpi_MintAmount := amount |>
                  <| vpi_MintOutCommit := ToBytes32 (NoteSecret_Commitment secret) |>
                  <| vpi_MintProof := ProofToBytes proof |>) eligibility "mint-commit";
  Ok (t, secret).

Definition ProposeMintStaked (b : Builder) (proposalID : string) (approve : bool) (amount currentEpoch : Z)
    (sys : System) (eligibility : VoteEligibilityProof) (ownerSK rho : FieldElement)
    : result (ShieldedTx * StakeSecret) :=
  _ ← needs_proposal proposalID;
  _ ← require (negb (amount =? 0)) "txbuilder: mint amount must be greater than 0";
  let secret := {| ss_Principal := amount; ss_StartEpoch := currentEpoch; ss_OwnerSK := ownerSK;
                   ss_Rho := rho |} in
  proof ← StakeSystem_Prove sys secret;
  let pub := sealed proposalID approve eligibility in
  t ← cast b (pub <| vpi_MintAmount := amount |> <| vpi_MintStaked := true |>
                  <| vpi_StakePositionCommit := ToBytes32 (StakeSecret_Commitment secret) |>
                  <| vpi_StakeProof := ProofToBytes proof |>) eligibility "stake-mint-commit";
  Ok (t, secret).

Definition Unstake (b : Builder) (position : StakeSecret) (merkleProof : ZkTree.Proof)
    (merkleRoot : FieldElement) (currentEpoch : Z) (sys : System) (outOwnerSK outRho : FieldElement)
    : result (ShieldedTx * NoteSecret) :=
  let finalAmount := FinalAmount (ss_Principal position) (ss_StartEpoch position) currentEpoch in
  let out := {| ns_Value := finalAmount; ns_OwnerSK := outOwnerSK; ns_Rho := outRho |} in
  let inp := {| ui_MerkleRoot := merkleRoot; ui_Position := position; ui_Proof := merkleProof;
                ui_Out := out |} in
  proof ← UnstakeSystem_Prove sys inp;
  let t := draft TxUnstake (ToBytes32 (UnstakeInput_Nullifier inp)) in
  t ← finalize b (t <| tx_Proof := ProofToBytes proof |>
                    <| tx_Commitments := [ToBytes32 (NoteSecret_Commitment out)] |>
                    <| tx_Unstake := Some {| upi_MerkleRoot := ToBytes32 merkleRoot;
                         upi_Principal := ss_Principal position;
                         upi_StartEpoch := ss_StartEpoch position;
                         upi_FinalAmount := finalAmount |} |>);
  Ok (t, out).

Definition NFTMint (b : Builder) (nonce attestationIssuedAtMs : Z) (attestor attestationSig : bytes)
    (nullifier : Hash) : result ShieldedTx :=
  _ ← require (negb (bool_decide (attestor = []) || bool_decide (attestationSig = [])))
        "txbuilder: attestor public key and attestation signature are required";
  let voterSK := DeriveVoterSK (b_sk b) in
  let t := draft TxNFTMint nullifier in
  finalize b (t <| tx_NFTMint := Some {| nmpi_Owner := AddressFromPubkey (b_pk b); nmpi_Nonce := nonce;
                     nmpi_AttestationIssuedAtMs := attestationIssuedAtMs; nmpi_Attestor := attestor;
                     nmpi_AttestationSig := attestationSig;
                     nmpi_VoterCommitment := ToBytes32 (VoterCommitment voterSK) |} |>).
End proving.
End builder.
End Builder.

(** * What is built is well formed *)

Section built.
Context `{SHA : Sha256, M3 : Mode3, SG : Mode3Signer, ED : Ed25519, ES : Ed25519Signer,
          FR : Fr, MF : !MimcField, GR : !Groth16, PR : !Groth16Prover, PL : !ProverLaws}.
Import Builder.

(** The builder's keys are pairs. *)
Record builder_keys (b : Builder) : Prop := {
  bk_pair : keypair (b_pk b) (b_sk b);
  bk_classical : b_classicalSK b = [] ∨ classical_keypair (b_classicalPK b) (b_classicalSK b) }.

(** What [finalize] is given: everything but the identifier and the signatures. *)
Record drafted (t : ShieldedTx) : Prop := {
  dr_kind : ∀ k, tx_Kind t ≠ TxUnknown k ∧ tx_Kind t ≠ TxTransfer;
  dr_classical : tx_ClassicalSig t = [] ∧ tx_ClassicalPubKey t = [];
  dr_inputs : check_inputs t = Ok tt;
  dr_container : tx_ContainerID t = None }.

(** Signing changes the identifier and the signatures only. *)
Definition signed (b : Builder) (t t' : ShieldedTx) : Prop :=
  ∃ id sig csig cpk, t' = t <| tx_TxID := id |> <| tx_Sig := sig |> <| tx_SignerPubKey := b_pk b |>
                            <| tx_ClassicalSig := csig |> <| tx_ClassicalPubKey := cpk |>.

Lemma finalize_signed b t t' : finalize b t = Ok t' → signed b t t'.
Proof.
  unfold finalize, signed. intros E. destruct (DilithiumSign _ _) as [sig|]; [|done].
  case_match.
  - destruct (ClassicalSign _ _) as [cs|]; [|done]. injection E as <-. eexists _, _, _, _. reflexivity.
  - injection E as <-. eexists _, _, (tx_ClassicalSig t), (tx_ClassicalPubKey t). reflexivity.
Qed.

Lemma finalize_well_formed b t :
  builder_keys b → drafted t → ∃ t', finalize b t = Ok t' ∧ well_formed t' ∧ signed b t t'.
Proof.
  intros [Hk Hc] [Hkind [Ec Ep] Hi Hcont].
  assert (Hok : ∃ t', finalize b t = Ok t' ∧ well_formed t').
  { unfold finalize.
    set (id := ComputeTxID (tx_Proof t) (tx_Commitments t) (tx_Nullifier t)).
    destruct (keypair_signs _ _ id Hk) as (sig & Es & Ev & Hs1 & Hs2).
    change (tx_TxID (t <| tx_TxID := id |>)) with id. rewrite Es.
    case_bool_decide as Hn; cbn [negb].
    - eexists. split; [done|]. split; try done; cbn; auto; [apply Hkind|].
      intros pub E. by destruct (Hkind 0) as [_ []].
    - destruct Hc as [?|Hc]; [done|].
      destruct (classical_signs _ _ id Hc) as (cs & Ecs & Ecv & Hcs1 & Hcs2).
      match goal with |- context [ClassicalSign _ ?m] => change m with id end. rewrite Ecs.
      eexists. split; [done|]. split; try done; cbn; auto; [apply Hkind|].
      intros pub E. by destruct (Hkind 0) as [_ []]. }
  destruct Hok as (t' & E & W). exists t'. split; [done|]. split; [done|]. by apply finalize_signed.
Qed.

Lemma built_from b t0 t :
  builder_keys b → drafted t0 → finalize b t0 = Ok t → well_formed t ∧ signed b t0 t.
Proof.
  intros Hb Hd E. destruct (finalize_well_formed b t0 Hb Hd) as (t' & E' & W & S).
  rewrite E in E'. by injection E' as <-.
Qed.

(** A claimed commitment, or the nullifier of a redemption, that is the empty hash: the
    stages take it for one that is missing. *)
Definition binds_zero (t : ShieldedTx) : bool :=
  match tx_Kind t with
  | TxVote =>
      match tx_Vote t with
      | Some pub =>
          negb (vpi_MintAmount pub =? 0) &&
          IsZero (if vpi_MintStaked pub then vpi_StakePositionCommit pub else vpi_MintOutCommit pub)
      | None => false
      end
  | TxUnstake => IsZero (tx_Nullifier t)
  | _ => false
  end.

Lemma finalize_binds b t t' : finalize b t = Ok t' → binds_zero t' = binds_zero t.
Proof. by intros (id & sig & cs & cp & ->)%finalize_signed. Qed.

(** The transactions the builder's methods return. *)
Inductive builds (b : Builder) : ShieldedTx → Prop :=
| build_mint n t : Mint b n = Ok t → builds b t
| build_deposit asset q n t : BankDepositFromQuote b asset q n = Ok t → builds b t
| build_withdraw asset q n t : BankWithdrawFromQuote b asset q n = Ok t → builds b t
| build_trait target key d salt n t : NFTTrait b target key d salt n = Ok t → builds b t
| build_nft_transfer target o n t : NFTTransfer b target o n = Ok t → builds b t
| build_nft_mint nonce ms a sig n t : NFTMint b nonce ms a sig n = Ok t → builds b t
| build_vote id a k v e t : Vote b id a k v e = Ok t → builds b t
| build_slash id a target burn e t : ProposeSlash b id a target burn e = Ok t → builds b t
| build_unlock id a target e t : ProposeUnlockTransfer b id a target e = Ok t → builds b t
| build_authorize id a asset e t : ProposeAuthorizeAsset b id a asset e = Ok t → builds b t
| build_unwind id a e t : ProposeUnwindDualSign b id a e = Ok t → builds b t
| build_reveal id a e t : VoteReveal b id a e = Ok t → builds b t
| build_propose_mint id a amt sys e sk rho t n :
    ProposeMint b id a amt sys e sk rho = Ok (t, n) → builds b t
| build_propose_staked id a amt ep sys e sk rho t n :
    ProposeMintStaked b id a amt ep sys e sk rho = Ok (t, n) → builds b t
| build_unstake pos mp root ep sys sk rho t n :
    Unstake b pos mp root ep sys sk rho = Ok (t, n) → builds b t.

Lemma drafted_plain t :
  (∀ k, tx_Kind t ≠ TxUnknown k ∧ tx_Kind t ≠ TxTransfer) → tx_ClassicalSig t = [] →
  tx_ClassicalPubKey t = [] → tx_ContainerID t = None → check_inputs t = Ok tt → drafted t.
Proof. by split. Qed.

(** The inputs of a draft whose claim or nullifier is not the empty hash. *)
Lemma claim_inputs t pub e :
  tx_Kind t = TxVote → tx_Vote t = Some pub → tx_VoteEligibility t = Some e → binds_zero t = false →
  (vpi_MintStaked pub = false → vpi_MintProof pub ≠ []) → (vpi_MintStaked pub = true → vpi_StakeProof pub ≠ []) →
  check_inputs t = Ok tt.
Proof.
  unfold binds_zero, check_inputs. intros -> -> -> Hz Hm Hs. destruct (vpi_MintAmount pub =? 0); [done|].
  cbn [negb andb] in Hz. destruct (vpi_MintStaked pub);
    [rewrite bool_decide_false by auto|rewrite bool_decide_false by auto]; cbn [negb require mbind result_bind];
    by rewrite Hz.
Qed.

(** The draft behind a built transaction. *)
Lemma builds_drafted b t :
  builds b t → binds_zero t = false → ∃ t0, finalize b t0 = Ok t ∧ drafted t0.
Proof.
  intros H Hz.
  assert (Hpl : ∀ t0, finalize b t0 = Ok t → (binds_zero t0 = false → drafted t0) →
            ∃ t0, finalize b t0 = Ok t ∧ drafted t0).
  { intros t0 E Hd. exists t0. split; [done|]. apply Hd. by rewrite <-(finalize_binds b t0 t E). }
  destruct H as [n t H|? ? ? t H|? ? ? t H|? ? ? ? ? t H|? ? ? t H|? ? ? ? ? t H|? ? ? ? ? t H|
    ? ? ? ? ? t H|? ? ? ? t H|? ? ? ? t H|? ? ? t H|? ? ? t H|id a amt sys e sk rho t n H|id a amt ep sys e sk rho t n H|
    pos mp root ep sys sk rho t n H].
  all: unfold Mint, BankDepositFromQuote, BankWithdrawFromQuote, NFTTrait, NFTTransfer, NFTMint, Vote,
    ProposeSlash, ProposeUnlockTransfer, ProposeAuthorizeAsset, ProposeUnwindDualSign, VoteReveal,
    ProposeMint, ProposeMintStaked, Unstake, needs_proposal, cast in H; ok_inv.
  all: try (eapply Hpl; [eassumption|]; intros _; by apply drafted_plain).
  - eapply Hpl; [eassumption|]. intros _. apply drafted_plain; try done. cbn. by rewrite H.
  - eapply Hpl; [eassumption|]. intros Hz0. apply drafted_plain; try done.
    eapply claim_inputs; [reflexivity..|exact Hz0| |done]. intros _. apply WriteTo_nonempty.
  - eapply Hpl; [eassumption|]. intros Hz0. apply drafted_plain; try done.
    eapply claim_inputs; [reflexivity..|exact Hz0|done|]. intros _. apply WriteTo_nonempty.
  - eapply Hpl; [eassumption|]. intros Hz0. apply drafted_plain; try done.
    unfold binds_zero in Hz0. unfold check_inputs. cbn -[IsZero ToBytes32] in Hz0 |- *.
    rewrite bool_decide_false by apply WriteTo_nonempty. cbn -[IsZero ToBytes32]. by rewrite Hz0.
Qed.

(** Every built transaction is well formed. *)
Lemma builds_well_formed b t :
  builder_keys b → builds b t → binds_zero t = false → well_formed t ∧ tx_Kind t ≠ TxTransfer.
Proof.
  intros Hb H Hz. destruct (builds_drafted b t H Hz) as (t0 & E & Hd).
  destruct (built_from b t0 t Hb Hd E) as [W (id & sig & cs & cp & ->)]. split; [done|].
  by destruct (dr_kind _ Hd 0).
Qed.
End built.
