(* ===== verification/Query.v ===== *)
(** pkg/query and pkg/queryclient: the read-only endpoints a node serves over its store,
    its chain and its pool, and the client that asks them. A request is the path the
    router matched, with its values as strings; a response its status code and its body,
    which encoding/json carries unchanged. *)
From S2P Require Import Prelude Words Decimal Hashing Types Mempool NFT Store Chain.
From stdpp Require Import pretty.
Local Open Scope Z_scope.

(** * Decimal heights *)


Definition digit_value (c : Ascii.ascii) : option Z :=
  let d := Z.of_nat (Ascii.nat_of_ascii c) - 48 in
  if (0 <=? d) && (d <=? 9) then Some d else None.

(** The loop of strconv.ParseUint in base 10, with its range check for 64 bits. *)
Fixpoint parse_digits (s : string) (acc : Z) : result Z :=
  match s with
  | EmptyString => Ok acc
  | String c s =>
      match digit_value c with
      | None => Err "strconv.ParseUint: invalid syntax"
      | Some d =>
          let acc := 10 * acc + d in
          if MaxUint64 <? acc then Err "strconv.ParseUint: value out of range" else parse_digits s acc
      end
  end.
Definition ParseUint (s : string) : result Z :=
  match s with
  | EmptyString => Err "strconv.ParseUint: invalid syntax"
  | _ => parse_digits s 0
  end.

(** [fmt.Sprintf] of a height with the decimal verb. *)
Definition format_uint (h : Z) : string := pretty (Z.to_N h).

(** * Responses *)

Module Query.

Record proposalResponse := {
  p_ProposalID : string; p_Epoch : Z; p_ParamKey : string; p_NewValue : string;
  p_Tallied : bool; p_Approve : Z; p_Reject : Z; p_Passed : bool; p_Applied : bool;
  p_MintAmount : Z; p_MintOutCommit : string; p_MintApplied : bool;
  p_MintStaked : bool; p_StakePositionCommit : string;
  p_SlashTargetNFT : string; p_SlashBurn : bool; p_SlashApplied : bool;
  p_UnlockTransferTarget : string; p_UnlockTransferApplied : bool;
  p_ContainerAssetTarget : string; p_ContainerAssetApplied : bool;
  p_UnwindDualSign : bool; p_UnwindDualSignApplied : bool }.

Inductive Body :=
| BStatus (height : Z) (headHash : string) (genesisMs : Z)
| BBlock (b : Block)
| BTx (status : string) (height : option Z)
| BNullifier (spent : bool)
| BNote (exists_ : bool)
| BNFT (nft : ValidatorNFT)
| BHold (hold : BankHold)
| BProposal (p : proposalResponse)
| BProposals (ps : list proposalResponse)
| BError (msg : string).
Record Response := { r_code : Z; r_body : Body }.

Definition StatusOK : Z := 200.
Definition StatusBadRequest : Z := 400.
Definition StatusNotFound : Z := 404.

Definition writeJSON (status : Z) (v : Body) : Response := {| r_code := status; r_body := v |}.
Definition writeError (status : Z) (msg : string) : Response := writeJSON status (BError msg).

Definition parseHash (s : string) : result Hash :=
  match hex_decode s with
  | Err _ => Err "not valid hex"
  | Ok b => if bool_decide (length b = 32%nat) then Ok b else Err "expected bytes"
  end.
Definition parseNFTID (s : string) : result NFTID := parseHash s.

(** ** The server *)

(** [s_notes] are the commitments [GetNote] finds, the rows of [PutNote]. *)
Record Server := {
  s_store : Rows; s_notes : gset Hash; s_chn : Chain.Chain; s_mempool : Mempool.Mempool; s_genesis : Z }.
Implicit Type s : Server.

Definition handleStatus s : Response :=
  writeJSON StatusOK
    (BStatus (Chain.headHeight (s_chn s)) (hex_encode (Chain.headHash (s_chn s))) (s_genesis s)).

Definition handleBlock s (raw : string) : Response :=
  match ParseUint raw with
  | Err _ => writeError StatusBadRequest "height must be a non-negative integer"
  | Ok height =>
      match ChainRows.GetBlock height (Chain.ch_store (s_chn s)) with
      | None => writeError StatusNotFound "no block at that height"
      | Some b => writeJSON StatusOK (BBlock b)
      end
  end.

Definition handleTx s (raw : string) : Response :=
  match parseHash raw with
  | Err _ => writeError StatusBadRequest "txid must be 32 bytes of hex"
  | Ok txid =>
      match ChainRows.GetTxHeight txid (Chain.ch_store (s_chn s)) with
      | Some height => writeJSON StatusOK (BTx "committed" (Some height))
      | None =>
          if Mempool.Contains (s_mempool s) txid then writeJSON StatusOK (BTx "pending" None)
          else writeJSON StatusOK (BTx "unknown" None)
      end
  end.

Definition handleNullifier s (raw : string) : Response :=
  match parseHash raw with
  | Err _ => writeError StatusBadRequest "hash must be 32 bytes of hex"
  | Ok n => writeJSON StatusOK (BNullifier (Rows.IsNullifierSpent n (s_store s)))
  end.

Definition handleNote s (raw : string) : Response :=
  match parseHash raw with
  | Err _ => writeError StatusBadRequest "commitment must be 32 bytes of hex"
  | Ok c => writeJSON StatusOK (BNote (bool_decide (c ∈ s_notes s)))
  end.

Definition handleNFT s (raw : string) : Response :=
  match parseNFTID raw with
  | Err _ => writeError StatusBadRequest "id must be 32 bytes of hex"
  | Ok id =>
      match Rows.GetNFT id (s_store s) with
      | None => writeError StatusNotFound "no NFT with that id"
      | Some nft => writeJSON StatusOK (BNFT nft)
      end
  end.

Definition handleHold s (raw : string) : Response :=
  match parseHash raw with
  | Err _ => writeError StatusBadRequest "id must be 32 bytes of hex"
  | Ok id =>
      match Rows.GetHold id (s_store s) with
      | None => writeError StatusNotFound "no hold with that id"
      | Some hold => writeJSON StatusOK (BHold hold)
      end
  end.

(** ** Proposals, projected *)

Definition slashTargetJSON (p : ProposalRecord) : string :=
  if IsZero (pr_SlashTargetNFT p) then EmptyString else hex_encode (pr_SlashTargetNFT p).
Definition unlockTransferTargetJSON (p : ProposalRecord) : string :=
  if IsZero (pr_UnlockTransferTarget p) then EmptyString else hex_encode (pr_UnlockTransferTarget p).
Definition mintOutCommitJSON (p : ProposalRecord) : string :=
  if (pr_MintAmount p =? 0) || pr_MintStaked p then EmptyString else hex_encode (pr_MintOutCommit p).
Definition stakePositionCommitJSON (p : ProposalRecord) : string :=
  if (pr_MintAmount p =? 0) || negb (pr_MintStaked p) then EmptyString
  else hex_encode (pr_StakePositionCommit p).

Definition project (p : ProposalRecord) : proposalResponse :=
  {| p_ProposalID := pr_ProposalID p; p_Epoch := pr_Epoch p; p_ParamKey := pr_ParamKey p;
     p_NewValue := pr_NewValue p; p_Tallied := pr_Tallied p; p_Approve := pr_Approve p;
     p_Reject := pr_Reject p; p_Passed := pr_Passed p; p_Applied := pr_Applied p;
     p_MintAmount := pr_MintAmount p; p_MintOutCommit := mintOutCommitJSON p;
     p_MintApplied := pr_MintApplied p; p_MintStaked := pr_MintStaked p;
     p_StakePositionCommit := stakePositionCommitJSON p; p_SlashTargetNFT := slashTargetJSON p;
     p_SlashBurn := pr_SlashBurn p; p_SlashApplied := pr_SlashApplied p;
     p_UnlockTransferTarget := unlockTransferTargetJSON p;
     p_UnlockTransferApplied := pr_UnlockTransferApplied p;
     p_ContainerAssetTarget := pr_ContainerAssetTarget p;
     p_ContainerAssetApplied := pr_ContainerAssetApplied p;
     p_UnwindDualSign := pr_UnwindDualSign p; p_UnwindDualSignApplied := pr_UnwindDualSignApplied p |}.

Definition handleProposal s (id : string) : Response :=
  if bool_decide (id = EmptyString) then writeError StatusBadRequest "id must not be empty"
  else match Rows.GetProposal id (s_store s) with
       | None => writeError StatusNotFound "no proposal with that id"
       | Some p => writeJSON StatusOK (BProposal (project p))
       end.

Definition handleProposals s : Response :=
  writeJSON StatusOK (BProposals (project <$> Rows.ListProposals (s_store s))).

(** The routes of [NewServer], and the requests they serve. *)
Inductive Request :=
| GetStatus | GetBlocks (height : string) | GetTx (txid : string) | GetNullifier (hash : string)
| GetNote (commitment : string) | GetNFT (id : string) | GetHold (id : string) | GetProposal (id : string) | GetProposals.
Definition serve s (r : Request) : Response :=
  match r with
  | GetStatus => handleStatus s
  | GetBlocks h => handleBlock s h
  | GetTx id => handleTx s id
  | GetNullifier n => handleNullifier s n
  | GetNote c => handleNote s c
  | GetNFT id => handleNFT s id
  | GetHold id => handleHold s id
  | GetProposal id => handleProposal s id
  | GetProposals => handleProposals s
  end.
End Query.

(** * The client (pkg/queryclient) *)

Module QueryClient.
Import Query.

Definition ErrNotFound : string := "queryclient: not found".

(** What the client is connected to: a response, or a transport error. *)
Abbreviation Transport := (Request → result Response).

Definition get (tr : Transport) (r : Request) : result Body :=
  resp ← tr r;
  if r_code resp =? StatusNotFound then Err ErrNotFound
  else if negb (r_code resp =? StatusOK) then Err "queryclient: returned HTTP"
  else Ok (r_body resp).

Definition decode_error {A} : result A := Err "queryclient: decode response".

Record Status_t := { st_Height : Z; st_HeadHash : Hash; st_GenesisMs : Z }.
Definition Status (tr : Transport) : result Status_t :=
  body ← get tr GetStatus;
  match body with
  | BStatus h headHash g =>
      match ParseHash headHash with
      | Err _ => Err "queryclient: parse head_hash"
      | Ok hh => Ok {| st_Height := h; st_HeadHash := hh; st_GenesisMs := g |}
      end
  | _ => decode_error
  end.
Definition Block_ (tr : Transport) (height : Z) : result Block :=
  body ← get tr (GetBlocks (format_uint height));
  match body with BBlock b => Ok b | _ => decode_error end.
Definition TxStatus (tr : Transport) (txid : Hash) : result (string * option Z) :=
  body ← get tr (GetTx (hex_encode txid));
  match body with BTx status height => Ok (status, height) | _ => decode_error end.
Definition NullifierSpent (tr : Transport) (nullifier : Hash) : result bool :=
  body ← get tr (GetNullifier (hex_encode nullifier));
  match body with BNullifier b => Ok b | _ => decode_error end.
Definition NoteExists (tr : Transport) (commitment : Hash) : result bool :=
  body ← get tr (GetNote (hex_encode commitment));
  match body with BNote b => Ok b | _ => decode_error end.
Definition NFT (tr : Transport) (id : NFTID) : result ValidatorNFT :=
  body ← get tr (GetNFT (hex_encode id));
  match body with BNFT nft => Ok nft | _ => decode_error end.
Definition Hold (tr : Transport) (id : Hash) : result BankHold :=
  body ← get tr (GetHold (hex_encode id));
  match body with BHold h => Ok h | _ => decode_error end.
(** [Proposal] is the response type under another name. *)
Definition Proposal_ (tr : Transport) (id : string) : result proposalResponse :=
  body ← get tr (GetProposal id);
  match body with BProposal p => Ok p | _ => decode_error end.
Definition Proposals (tr : Transport) : result (list proposalResponse) :=
  body ← get tr GetProposals;
  match body with BProposals ps => Ok ps | _ => decode_error end.
End QueryClient.

(** * Lemmas *)

Section text_lemmas.
Lemma digit_value_pretty n : (n < 10)%N → digit_value (pretty_N_char n) = Some (Z.of_N n).
Proof.
  intros Hn. unfold pretty_N_char. assert (n = 0 ∨ n = 1 ∨ n = 2 ∨ n = 3 ∨ n = 4 ∨ n = 5 ∨ n = 6 ∨ n = 7 ∨ n = 8 ∨ n = 9)%N by lia.
  by repeat (destruct H as [->|H]; [done|]); subst.
Qed.

(** Digits are read from the left: the text of [n] before [s] shifts what is read after. *)
Lemma parse_pretty_go n s :
  (0 < n)%N → Z.of_N n ≤ MaxUint64 → parse_digits (pretty_N_go n s) 0 = parse_digits s (Z.of_N n).
Proof.
  revert s. induction n as [n IH] using (well_founded_ind N.lt_wf_0); intros s Hn0 Hn.
  rewrite pretty_N_go_step by lia.
  assert (Hlt : (n `div` 10 < n)%N) by (apply N.div_lt; lia).
  assert (Hdm := N.div_mod n 10 ltac:(lia)). assert (Hmod := N.mod_lt n 10 ltac:(lia)).
  assert (Hstep : ∀ a, 10 * a + Z.of_N (n `mod` 10) = Z.of_N n →
    parse_digits (String (pretty_N_char (n `mod` 10)) s) a = parse_digits s (Z.of_N n)).
  { intros a Ha. cbn [parse_digits]. rewrite digit_value_pretty, Ha by done.
    by replace (MaxUint64 <? Z.of_N n) with false by (symmetry; apply Z.ltb_ge; lia). }
  destruct (decide (n `div` 10 = 0)%N) as [E|E].
  - rewrite E, pretty_N_go_0. apply Hstep. lia.
  - rewrite IH by lia. apply Hstep. lia.
Qed.

Lemma ParseUint_format h : 0 ≤ h < 2 ^ 64 → ParseUint (format_uint h) = Ok h.
Proof.
  intros Hh. unfold format_uint, pretty, pretty_N. case_decide as E.
  { by replace h with 0 by lia. }
  assert (Hp := parse_pretty_go (Z.to_N h) EmptyString ltac:(lia) ltac:(unfold MaxUint64; lia)).
  cbn [parse_digits] in Hp. rewrite Z2N.id in Hp by lia.
  unfold ParseUint. destruct (pretty_N_go _ _); [|done].
  cbn [parse_digits] in Hp. injection Hp as Hp. lia.
Qed.
End text_lemmas.

Lemma parseHash_encode h :
  is_bytes h → length h = 32%nat → Query.parseHash (hex_encode h) = Ok h.
Proof. intros Hb Hl. unfold Query.parseHash. rewrite hex_decode_encode by done. by rewrite bool_decide_true. Qed.
