(* ===== verification/Canonical.v ===== *)
(** The two MiMC trees a batch of accepted transactions builds, as functions of the
    transactions alone: what a client that replays committed blocks has to recompute. *)
From S2P Require Import Prelude Words Decimal Hashing Types Epoch Mempool Governance Bank Merkle.
From S2P Require Import Field ZkTree Circuit Groth NFT Silent Store Pipeline Admission Batch.

Section canonical.
Context `{FR : Fr}.
Implicit Types (tree : ZkTree.Tree) (t : ShieldedTx).

(** Inserting a commitment, and keeping the tree when it is full. *)
Definition insert_or_keep tree (c : Hash) : ZkTree.Tree :=
  match ZkTree.Insert tree (FieldElementFromBytes32 c) with Ok (_, tree') => tree' | Err _ => tree end.
Definition insert_list tree (cs : list Hash) : ZkTree.Tree := foldl insert_or_keep tree cs.

(** The commitments a committed transaction puts in the note tree: a transfer's outputs,
    or the proceeds of an unstake. *)
Definition note_commitments t : list Hash :=
  match tx_Kind t with
  | TxTransfer => match tx_Transfer t with Some pub => tpi_OutCommits pub | None => [] end
  | TxUnstake => match tx_Commitments t with c :: _ => [c] | [] => [] end
  | _ => []
  end.
(** And in the eligibility tree: the voter commitment of a mint. *)
Definition voter_commitments t : list Hash :=
  match tx_Kind t with
  | TxNFTMint => match tx_NFTMint t with Some pub => [nmpi_VoterCommitment pub] | None => [] end
  | _ => []
  end.

(** A tree whose counter is its number of leaves, within its capacity. *)
Definition tree_ok tree : Prop :=
  ZkTree.used tree = Z.of_nat (length (ZkTree.leaves tree)) ∧ ZkTree.used tree ≤ TreeSize.

Lemma tree_ok_new : tree_ok ZkTree.NewTree.
Proof. done. Qed.

Lemma tree_ok_insert tree e i tree' :
  tree_ok tree → ZkTree.Insert tree e = Ok (i, tree') →
  tree_ok tree' ∧ i = Z.of_nat (length (ZkTree.leaves tree)) ∧
  ZkTree.leaves tree' = ZkTree.leaves tree ++ [Bytes e].
Proof.
  intros [Hu Hc] E. unfold ZkTree.Insert in E. case_match eqn:Ef; [done|]. injection E as <- <-.
  apply Z.leb_gt in Ef. unfold tree_ok. cbn [ZkTree.leaves ZkTree.used]. rewrite length_app. cbn [length].
  split_and!; lia || done.
Qed.

Lemma tree_ok_room tree : tree_ok tree → Z.of_nat (length (ZkTree.leaves tree)) ≤ TreeSize.
Proof. intros [<- ?]. done. Qed.

Lemma insert_or_keep_ok tree c : tree_ok tree → tree_ok (insert_or_keep tree c).
Proof.
  intros H. unfold insert_or_keep. destruct (ZkTree.Insert _ _) as [[i tree']|] eqn:E; [|done].
  by apply (tree_ok_insert _ _ _ _ H) in E as [? _].
Qed.
Lemma insert_list_ok tree cs : tree_ok tree → tree_ok (insert_list tree cs).
Proof. revert tree. induction cs as [|c cs IH]; intros tree H; [done|]. by apply IH, insert_or_keep_ok. Qed.
End canonical.

(** ** The node's side *)

Section node_trees.
Context `{SHA : Sha256, M3 : Mode3, ED : Ed25519, BR : BigRat, FR : Fr, MM : MiMC, GR : !Groth16}.
Context (json_marshal : ShieldedTx → result bytes) (deps : Deps).
Implicit Types (s : State) (t : ShieldedTx).

(** Calls that leave a tree alone. *)
Definition keeps_notes s s' : Prop := st_ZKTree s' = st_ZKTree s.
Definition keeps_voters s s' : Prop := st_EligibilityTree s' = st_EligibilityTree s.
#[local] Instance keeps_notes_refl : Reflexive keeps_notes.
Proof. by intros s. Qed.
#[local] Instance keeps_notes_trans : Transitive keeps_notes.
Proof. unfold keeps_notes. intros s1 s2 s3 ??. congruence. Qed.
#[local] Instance keeps_voters_refl : Reflexive keeps_voters.
Proof. by intros s. Qed.
#[local] Instance keeps_voters_trans : Transitive keeps_voters.
Proof. unfold keeps_voters. intros s1 s2 s3 ??. congruence. Qed.

Lemma quiet_notes {A} (m : call State A) : preserves quiet m → preserves keeps_notes m.
Proof. intros H s. by destruct (H s) as [[] _]. Qed.
Lemma quiet_voters {A} (m : call State A) : preserves quiet m → preserves keeps_voters m.
Proof. intros H s. by destruct (H s) as [[] _]. Qed.

Lemma mark_spent_notes ns : preserves keeps_notes (mark_spent ns).
Proof. induction ns as [|n ns IH]; cbn [mark_spent]; call_auto. Qed.
Lemma mark_spent_voters ns : preserves keeps_voters (mark_spent ns).
Proof. induction ns as [|n ns IH]; cbn [mark_spent]; call_auto. Qed.

Ltac keep :=
  repeat first
    [ apply mark_spent_notes | apply mark_spent_voters
    | apply quiet_notes, oracle_quiet | apply quiet_notes, require_voter_quiet
    | apply quiet_voters, oracle_quiet | apply quiet_voters, require_voter_quiet
    | call_step; try done ].

Lemma stage5_notes t : preserves keeps_notes (stage5PlaceFinal t).
Proof. unfold stage5PlaceFinal, with_inputs. keep. Qed.
Lemma stage5_voters t : preserves keeps_voters (stage5PlaceFinal t).
Proof. unfold stage5PlaceFinal, with_inputs. keep. Qed.
Lemma release_notes t : preserves keeps_notes (release t).
Proof. unfold release. keep. Qed.
Lemma release_voters t : preserves keeps_voters (release t).
Proof. unfold release. keep. Qed.

Lemma insert_zk_notes c s u s' :
  insert_zk c s = (Ok u, s') → st_ZKTree s' = (λ tree, insert_or_keep tree c) <$> st_ZKTree s.
Proof.
  cbv [insert_zk insert_or_keep mbind call_bind gets modify fail mret call_ret]. cbn beta iota.
  destruct (st_ZKTree s) as [tree|] eqn:Et; [|intros [= _ <-]; by rewrite Et].
  destruct (ZkTree.Insert _ _) as [[i tree']|] eqn:Ei; [|done]. intros [= _ <-]. cbn. by rewrite Ei.
Qed.
Lemma insert_all_notes cs s u s' :
  insert_all_zk cs s = (Ok u, s') → st_ZKTree s' = (λ tree, insert_list tree cs) <$> st_ZKTree s.
Proof.
  revert s. induction cs as [|c cs IH]; intros s; cbn [insert_all_zk].
  - intros [= _ <-]. by destruct (st_ZKTree s).
  - intros E. apply call_bind_Ok in E as (v & s1 & E1 & E2).
    rewrite (IH _ E2), (insert_zk_notes _ _ _ _ E1). by destruct (st_ZKTree s).
Qed.
Lemma record_root_notes : preserves keeps_notes record_zk_root.
Proof. unfold record_zk_root. call_auto. Qed.
Lemma append_state_notes cs : preserves keeps_notes (append_state cs).
Proof. unfold append_state. call_auto. Qed.

(** Stage 4 puts the transaction's note commitments in the note tree, in order. *)
Lemma stage4_notes t s t' s' :
  stage4SendExec deps t s = (Ok t', s') →
  st_ZKTree s' = (λ tree, insert_list tree (note_commitments t)) <$> st_ZKTree s.
Proof.
  unfold stage4SendExec, note_commitments. intros E. apply call_bind_Ok in E as (u & s1 & E & Er).
  injection Er as _ <-.
  assert (Hid : ∀ m : call State unit, preserves keeps_notes m → m s = (Ok u, s1) →
    st_ZKTree s1 = (λ tree, insert_list tree []) <$> st_ZKTree s).
  { intros m Hm Em. specialize (Hm s). rewrite Em in Hm. cbn in Hm. rewrite Hm. by destruct (st_ZKTree s). }
  destruct (tx_Kind t); try (eapply Hid; [|exact E]; unfold with_inputs, exec_transfer, exec_bank, exec_trait, exec_vote, exec_reveal, exec_container_sync,
      exec_mint, exec_unstake, exec_nft_transfer; keep; fail).
  - unfold with_inputs in E. destruct (tx_Transfer t) as [pub|]; [|done].
    unfold exec_transfer in E. apply call_bind_Ok in E as (tr & s2 & [= <- <-] & E).
    apply call_bind_Ok in E as ([] & s2 & [_ ->]%check_Ok & E).
    apply call_bind_Ok in E as ([] & s2 & [= <-] & E).
    apply call_bind_Ok in E as ([] & s3 & Ei%insert_all_notes & E).
    pose proof (record_root_notes s3) as Hr. rewrite E in Hr. cbn in Hr. by rewrite Hr, Ei.
  - unfold with_inputs, nil_deref, fail in E. destruct (tx_Commitments t) as [|c cs]; cbn in E; [done|].
    unfold exec_unstake in E. apply call_bind_Ok in E as (tr & s2 & [= <- <-] & E).
    destruct (st_ZKTree s) as [tree|] eqn:Et; [|injection E as _ <-; by rewrite Et].
    apply call_bind_Ok in E as ([] & s2 & [_ ->]%check_Ok & E).
    apply call_bind_Ok in E as ([] & s2 & Ei%insert_zk_notes & E).
    apply call_bind_Ok in E as ([] & s3 & [= <-] & E).
    match type of E with record_zk_root ?z = _ => pose proof (record_root_notes z) as Hr end.
    rewrite E in Hr. cbn in Hr. rewrite Hr. cbn. by rewrite Ei, Et.
Qed.

Lemma stage4_voters t s t' s' :
  stage4SendExec deps t s = (Ok t', s') →
  st_EligibilityTree s' = (λ tree, insert_list tree (voter_commitments t)) <$> st_EligibilityTree s.
Proof.
  unfold stage4SendExec, voter_commitments. intros E. apply call_bind_Ok in E as (u & s1 & E & Er).
  injection Er as _ <-.
  assert (Hid : ∀ m : call State unit, preserves keeps_voters m → m s = (Ok u, s1) →
    st_EligibilityTree s1 = (λ tree, insert_list tree []) <$> st_EligibilityTree s).
  { intros m Hm Em. specialize (Hm s). rewrite Em in Hm. cbn in Hm. rewrite Hm.
    by destruct (st_EligibilityTree s). }
  assert (Hins : ∀ c, preserves keeps_voters (insert_zk c)).
  { intros c. unfold insert_zk. keep. }
  assert (Hall : ∀ cs, preserves keeps_voters (insert_all_zk cs)).
  { induction cs as [|c cs IH]; cbn [insert_all_zk]; keep; auto. }
  assert (Hrec : preserves keeps_voters record_zk_root).
  { unfold record_zk_root. keep. }
  assert (Happ : ∀ cs, preserves keeps_voters (append_state cs)) by (intros; unfold append_state; keep).
  destruct (tx_Kind t);
    try (eapply Hid; [|exact E]; unfold with_inputs, exec_transfer, exec_bank, exec_trait, exec_vote, exec_reveal, exec_container_sync,
      exec_mint, exec_unstake, exec_nft_transfer;
         repeat first [ apply Hall | apply Hins | apply Hrec | apply Happ | progress keep ]; fail).
  unfold with_inputs in E. destruct (tx_NFTMint t) as [pub|]; [|done]. unfold exec_mint in E.
  apply call_bind_Ok in E as (store & s2 & [= <- <-] & E).
  apply call_bind_Ok in E as (minted & s2 & [= _ <-] & E).
  apply call_bind_Ok in E as ([] & s2 & [= <-] & E).
  apply call_bind_Ok in E as (tr & s2 & [= <- <-] & E). cbn [st_EligibilityTree] in E.
  destruct (st_EligibilityTree s) as [tree|] eqn:Et; [|injection E as _ <-; cbn; by rewrite Et].
  unfold insert_list, insert_or_keep. cbn [fmap option_fmap option_map foldl].
  destruct (ZkTree.Insert _ _) as [[i tree']|]; [|done].
  apply call_bind_Ok in E as ([] & s2 & [= <-] & E). injection E as _ <-. by case_match.
Qed.

Lemma accepted_notes t at_ s t' s' s1 s2 s3 s4 s5 :
  accepted json_marshal deps t at_ s t' s' s1 s2 s3 s4 s5 →
  st_ZKTree s' = (λ tree, insert_list tree (note_commitments t)) <$> st_ZKTree s ∧
  st_EligibilityTree s' = (λ tree, insert_list tree (voter_commitments t)) <$> st_EligibilityTree s.
Proof.
  intros A. destruct (accepted_prefix _ _ _ _ _ _ _ _ _ _ _ _ A) as (C3 & _ & _).
  destruct A as [_ _ _ A4 A5 Et Es].
  pose proof (stage5_notes (with_stage 4 (with_stage 3 (with_stage 2 (with_stage 1 t)))) s4) as N5.
  pose proof (stage5_voters (with_stage 4 (with_stage 3 (with_stage 2 (with_stage 1 t)))) s4) as V5.
  rewrite A5 in N5, V5. cbn in N5, V5.
  pose proof (release_notes t' s5) as N6. pose proof (release_voters t' s5) as V6.
  unfold finalize in Es. rewrite <-Es in N6, V6.
  split.
  - rewrite N6, N5, (stage4_notes _ _ _ _ A4). by rewrite (sc_zk _ _ C3).
  - rewrite V6, V5, (stage4_voters _ _ _ _ A4). by rewrite (sc_elig _ _ C3).
Qed.

(** A batch all of whose transactions were accepted builds both trees from its
    transactions, in order. *)
Lemma ProcessBatch_trees entries s results s' :
  ProcessBatch json_marshal deps entries s = (results, s') →
  Forall (λ r, rs_Error r = None) results →
  st_ZKTree s' = (λ tree, insert_list tree (concat ((note_commitments ∘ e_Tx) <$> entries))) <$> st_ZKTree s ∧
  st_EligibilityTree s' =
    (λ tree, insert_list tree (concat ((voter_commitments ∘ e_Tx) <$> entries))) <$> st_EligibilityTree s.
Proof.
  revert s results. induction entries as [|e entries IH]; intros s results; cbn [ProcessBatch].
  { intros [= <- <-] _. by destruct (st_ZKTree s), (st_EligibilityTree s). }
  pose proof (processOne_cases json_marshal deps (e_Tx e) (e_SubmittedAt e) s) as H1.
  destruct (processOne _ _ _ _ s) as [[t err] s1]. destruct (ProcessBatch _ _ entries s1) as [rs s2] eqn:E2.
  intros [= <- <-] [He HF]%Forall_cons. cbn in He. subst err.
  destruct H1 as (? & ? & ? & ? & ? & [A1 A2]%accepted_notes).
  destruct (IH s1 rs E2 HF) as [-> ->]. rewrite A1, A2. unfold insert_list.
  destruct (st_ZKTree s), (st_EligibilityTree s); cbn [fmap option_fmap option_map list_fmap concat compose];
    by rewrite ?foldl_app.
Qed.
End node_trees.
