(* ===== verification/Mirrors.v ===== *)
(** pkg/govwallet and pkg/stakewallet: the clients that rebuild the eligibility tree from
    committed blocks and the stake tree from tallied proposals, and prove membership in
    them. The server they ask is a [QueryClient.Transport]. *)
From S2P Require Import Prelude Words Decimal Hashing Types Field ZkTree Circuit Groth NFT Mempool Store Chain.
From S2P Require Import Prover Query Canonical.

(** Go's [for height := start; height <= head; height++]. *)
Definition heights_from (start head : Z) : list Z := seqZ start (head + 1 - start).

(** * pkg/govwallet *)

Module GovWallet.
Section govwallet.
Context `{SHA : Sha256, FR : Fr, MM : MiMC, MF : !MimcField}.

Record Wallet := {
  w_voterSK : FieldElement; w_tree : ZkTree.Tree; w_syncedHeight : Z; w_synced : bool;
  w_myIndex : Z; w_haveIndex : bool }.
Implicit Type w : Wallet.

Definition New (sk : bytes) (queryBase : string) : result Wallet :=
  if bool_decide (queryBase = EmptyString) then Err "govwallet: Config.QueryBase must not be empty"
  else Ok {| w_voterSK := DeriveVoterSK sk; w_tree := ZkTree.NewTree; w_syncedHeight := 0;
             w_synced := false; w_myIndex := 0; w_haveIndex := false |}.

Definition VoterCommitment w : Hash := ToBytes32 (Circuit.VoterCommitment (w_voterSK w)).

(** One round of the loop of [replayBlock]. *)
Definition replayTx w (t : ShieldedTx) : Wallet :=
  match tx_Kind t, tx_NFTMint t with
  | TxNFTMint, Some pub =>
      let elem := FieldElementFromBytes32 (nmpi_VoterCommitment pub) in
      match ZkTree.Insert (w_tree w) elem with
      | Err _ => w
      | Ok (idx, tree) =>
          let w := w <| w_tree := tree |> in
          if decide (elem = Circuit.VoterCommitment (w_voterSK w))
          then w <| w_myIndex := idx |> <| w_haveIndex := true |> else w
      end
  | _, _ => w
  end.
Definition replayBlock w (b : Block) : Wallet := foldl replayTx w (b_Batch b).

Fixpoint sync_loop (tr : QueryClient.Transport) (heights : list Z) : call Wallet unit :=
  match heights with
  | [] => mret tt
  | height :: heights =>
      match QueryClient.Block_ tr height with
      | Err _ => fail "govwallet: fetch block"
      | Ok b =>
          _ ← modify (λ w, let w := replayBlock w b in w <| w_syncedHeight := height |> <| w_synced := true |>);
          sync_loop tr heights
      end
  end.
Definition Sync (tr : QueryClient.Transport) : call Wallet unit :=
  match QueryClient.Status tr with
  | Err _ => fail "govwallet: fetch status"
  | Ok status =>
      w ← gets id;
      let start := if w_synced w then u64 (w_syncedHeight w + 1) else w_syncedHeight w in
      sync_loop tr (heights_from start (QueryClient.st_Height status))
  end.

Definition Eligible w : bool := w_haveIndex w.
Definition CurrentRoot w : FieldElement := ZkTree.Root (w_tree w).

Definition BuildEligibilityProof `{GR : !Groth16, PR : !Groth16Prover} w (sys : System) (proposalID : string)
    : result VoteEligibilityProof :=
  if negb (w_haveIndex w)
  then Err "govwallet: this wallet's VoterCommitment was not found in any synced Kind NFTMint"
  else
    match ZkTree.Prove (w_tree w) (w_myIndex w) with
    | Err _ => Err "govwallet: build merkle proof"
    | Ok proof =>
        let scope := FieldElementFromBytes32 (VoteEligibilityScope proposalID) in
        let inp := {| ei_MerkleRoot := ZkTree.pf_Root proof; ei_ProposalScope := scope;
                      ei_VoterSK := w_voterSK w; ei_Proof := proof |} in
        match EligibilitySystem_Prove sys inp with
        | Err _ => Err "govwallet: prove eligibility"
        | Ok zproof =>
            Ok {| vep_Proof := ProofToBytes zproof; vep_MerkleRoot := ToBytes32 (ZkTree.pf_Root proof);
                  vep_Nullifier := ToBytes32 (EligibilityInput_Nullifier inp) |}
        end
    end.
End govwallet.
End GovWallet.

(** * pkg/stakewallet *)

Module StakeWallet.
Section stakewallet.
Context `{FR : Fr, MM : MiMC, MF : !MimcField}.

Record Wallet := {
  w_tree : ZkTree.Tree; w_synced : bool; w_remembered : gmap Hash StakeSecret;
  w_indices : gmap Hash Z }.
Implicit Type w : Wallet.

Definition New (queryBase : string) : result Wallet :=
  if bool_decide (queryBase = EmptyString) then Err "stakewallet: Config.QueryBase must not be empty"
  else Ok {| w_tree := ZkTree.NewTree; w_synced := false; w_remembered := ∅; w_indices := ∅ |}.

Definition commitment (secret : StakeSecret) : Hash := ToBytes32 (StakeSecret_Commitment secret).
Definition Remember w (secret : StakeSecret) : Wallet :=
  w <| w_remembered ::= <[commitment secret := secret]> |>.

Definition proposal_le (p q : Query.proposalResponse) : Prop :=
  string_le (Query.p_ProposalID p) (Query.p_ProposalID q).
#[export] Instance proposal_le_dec p q : Decision (proposal_le p q).
Proof. unfold proposal_le. apply _. Defined.

(** One round of the loop of [Sync]. *)
Definition replayProposal w (p : Query.proposalResponse) : Wallet :=
  if negb (Query.p_MintStaked p) || negb (Query.p_MintApplied p) ||
     bool_decide (Query.p_StakePositionCommit p = EmptyString) then w
  else
    match ParseHash (Query.p_StakePositionCommit p) with
    | Err _ => w
    | Ok commit =>
        match ZkTree.Insert (w_tree w) (FieldElementFromBytes32 commit) with
        | Err _ => w
        | Ok (idx, tree) =>
            let w := w <| w_tree := tree |> in
            if bool_decide (is_Some (w_remembered w !! commit))
            then w <| w_indices ::= <[commit := idx]> |> else w
        end
    end.
Definition Sync (tr : QueryClient.Transport) : call Wallet unit :=
  match QueryClient.Proposals tr with
  | Err _ => fail "stakewallet: fetch proposals"
  | Ok proposals =>
      let proposals := merge_sort proposal_le proposals in
      modify (λ w,
        let w := foldl replayProposal (w <| w_tree := ZkTree.NewTree |> <| w_indices := ∅ |>) proposals in
        w <| w_synced := true |>)
  end.

Definition Found w (secret : StakeSecret) : bool :=
  bool_decide (is_Some (w_indices w !! commitment secret)).
Definition CurrentRoot w : result FieldElement :=
  if negb (w_synced w) then Err "stakewallet: not yet synced" else Ok (ZkTree.Root (w_tree w)).
Definition ProofFor w (secret : StakeSecret) : result ZkTree.Proof :=
  match w_indices w !! commitment secret with
  | None => Err "stakewallet: position not found in any synced, passed, applied staked proposal"
  | Some idx => ZkTree.Prove (w_tree w) idx
  end.
End stakewallet.
End StakeWallet.

(** * Lemmas: the eligibility mirror *)

Section gov_lemmas.
Context `{SHA : Sha256, FR : Fr, FL : !FrLaws, MM : MiMC, ML : !MiMCLaws, MF : !MimcField}.
Import GovWallet.
Implicit Type w : Wallet.

(** A wallet that knows its place knows a place that holds its commitment. *)
Record gov_ok w : Prop := {
  go_tree : tree_ok (w_tree w);
  go_index : w_haveIndex w = true → 0 ≤ w_myIndex w ∧
    ZkTree.leaves (w_tree w) !! Z.to_nat (w_myIndex w) =
      Some (Bytes (Circuit.VoterCommitment (w_voterSK w))) }.

Lemma gov_New_ok sk base w : New sk base = Ok w → gov_ok w.
Proof. unfold New. intros E. case_match; [done|]. injection E as <-. by split. Qed.

Lemma gov_replayTx_ok w t : gov_ok w → gov_ok (replayTx w t) ∧ w_voterSK (replayTx w t) = w_voterSK w.
Proof.
  intros [Ht Hi]. unfold replayTx. destruct (tx_Kind t), (tx_NFTMint t) as [pub|]; try by split.
  destruct (ZkTree.Insert _ _) as [[idx tree]|] eqn:E; [|by split].
  destruct (tree_ok_insert _ _ _ _ Ht E) as (Ht' & -> & El). cbv zeta. cbn [w_voterSK].
  case_decide as Ee; cbn; (split; [|done]); split; cbn; try done.
  - intros _. split; [lia|]. rewrite El, Nat2Z.id, lookup_app_r, Nat.sub_diag by done. cbn. by rewrite Ee.
  - intros [H0 Hl]%Hi. split; [done|]. rewrite El. by apply lookup_app_l_Some.
Qed.

Lemma gov_replayTx_tree w t :
  w_tree (replayTx w t) = insert_list (w_tree w) (voter_commitments t).
Proof.
  unfold replayTx, voter_commitments. destruct (tx_Kind t), (tx_NFTMint t) as [pub|]; try done.
  unfold insert_list, insert_or_keep. cbn [foldl]. destruct (ZkTree.Insert _ _) as [[idx tree]|]; [|done].
  by case_match.
Qed.

Lemma gov_replay_tree w ts :
  w_tree (foldl replayTx w ts) = insert_list (w_tree w) (concat (voter_commitments <$> ts)).
Proof.
  revert w. induction ts as [|t ts IH]; intros w; [done|]. cbn [foldl fmap list_fmap concat].
  rewrite IH, gov_replayTx_tree. unfold insert_list. by rewrite foldl_app.
Qed.

Lemma gov_replay_ok w ts : gov_ok w → gov_ok (foldl replayTx w ts) ∧
  w_voterSK (foldl replayTx w ts) = w_voterSK w.
Proof.
  revert w. induction ts as [|t ts IH]; intros w Hw; [done|]. cbn [foldl].
  destruct (gov_replayTx_ok w t Hw) as [Hw' Ek]. destruct (IH _ Hw') as (H1 & H2). split; [done|congruence].
Qed.

(** Finding the commitment among the mints of a block, if the tree has room. *)
Lemma gov_replay_finds w ts t pub :
  gov_ok w → t ∈ ts → tx_Kind t = TxNFTMint → tx_NFTMint t = Some pub →
  nmpi_VoterCommitment pub = VoterCommitment w →
  ZkTree.used (w_tree w) + Z.of_nat (length ts) ≤ TreeSize →
  w_haveIndex (foldl replayTx w ts) = true.
Proof.
  assert (Hmono : ∀ ts w, w_haveIndex w = true → w_haveIndex (foldl replayTx w ts) = true).
  { intros us. induction us as [|u us IH]; intros v Hv; [done|]. apply IH. unfold replayTx.
    destruct (tx_Kind u), (tx_NFTMint u); try done. destruct (ZkTree.Insert _ _) as [[]|]; [|done].
    by case_match. }
  intros Hw Hin Hk Hp Hc. revert w Hw Hc. induction ts as [|u ts IH]; intros w Hw Hc Hroom; [set_solver|].
  cbn [foldl length] in *. apply elem_of_cons in Hin as [->|Hin].
  - apply Hmono. unfold replayTx. rewrite Hk, Hp. destruct (ZkTree.Insert _ _) as [[idx tree]|] eqn:E.
    + cbv zeta. cbn [w_voterSK]. rewrite Hc. unfold VoterCommitment, FieldElementFromBytes32, ToBytes32.
      rewrite SetBytes_Bytes. by rewrite decide_True.
    + exfalso. unfold ZkTree.Insert in E. case_match eqn:Ef; [|done]. apply Z.leb_le in Ef. lia.
  - destruct (gov_replayTx_ok w u Hw) as [Hw' Ek]. apply IH; [done|done|by unfold VoterCommitment; rewrite Ek|].
    assert (ZkTree.used (w_tree (replayTx w u)) ≤ ZkTree.used (w_tree w) + 1); [|lia].
    unfold replayTx. destruct (tx_Kind u), (tx_NFTMint u); try lia.
    destruct (ZkTree.Insert _ _) as [[idx tree]|] eqn:E; [|lia].
    unfold ZkTree.Insert in E. case_match; [done|]. injection E as <- <-. case_match; cbn; lia.
Qed.
End gov_lemmas.

(** * Lemmas: the stake mirror *)

Section stake_lemmas.
Context `{FR : Fr, FL : !FrLaws, MM : MiMC, ML : !MiMCLaws, MF : !MimcField}.
Import StakeWallet.
Implicit Type w : Wallet.

Record stake_ok w : Prop := {
  so_tree : tree_ok (w_tree w);
  so_remembered : ∀ c s, w_remembered w !! c = Some s → c = commitment s;
  so_index : ∀ c idx, w_indices w !! c = Some idx → is_Some (w_remembered w !! c) ∧ 0 ≤ idx ∧
    ZkTree.leaves (w_tree w) !! Z.to_nat idx = Some (Bytes (FieldElementFromBytes32 c)) }.

Lemma Remember_ok w secret : stake_ok w → stake_ok (Remember w secret).
Proof.
  intros [Ht Hr Hi]. split; [exact Ht| |].
  - intros c s. cbn. destruct (decide (c = commitment secret)) as [->|Hne].
    + rewrite lookup_insert_eq. by intros [= <-].
    + rewrite lookup_insert_ne by done. apply Hr.
  - intros c i Hc. destruct (Hi c i Hc) as ([s Hs] & H0 & Hl). split; [|by split]. cbn.
    destruct (decide (c = commitment secret)) as [->|Hne]; [rewrite lookup_insert_eq|rewrite lookup_insert_ne by done];
      by eexists.
Qed.

Lemma replayProposal_ok w p : stake_ok w → stake_ok (replayProposal w p).
Proof.
  intros [Ht Hr Hi]. unfold replayProposal. case_match; [done|].
  destruct (ParseHash _) as [c|]; [|done].
  destruct (ZkTree.Insert _ _) as [[idx tree]|] eqn:E; [|done].
  destruct (tree_ok_insert _ _ _ _ Ht E) as (Ht' & -> & El). cbv zeta.
  assert (Hold : ∀ c' i, w_indices w !! c' = Some i → is_Some (w_remembered w !! c') ∧ 0 ≤ i ∧
    ZkTree.leaves tree !! Z.to_nat i = Some (Bytes (FieldElementFromBytes32 c'))).
  { intros c' i (H1 & H2 & H3)%Hi. split_and!; [done..|]. rewrite El. by apply lookup_app_l_Some. }
  destruct (bool_decide (is_Some _)) eqn:Em; [apply bool_decide_eq_true in Em|];
    (split; cbn; [done|exact Hr|]); [|exact Hold].
  intros c' i. destruct (decide (c' = c)) as [->|Hne].
  - rewrite lookup_insert_eq. intros [= <-]. split_and!; [done|lia|].
    by rewrite El, Nat2Z.id, lookup_app_r, Nat.sub_diag by done.
  - rewrite lookup_insert_ne by done. apply Hold.
Qed.

Lemma stake_Sync_ok tr w w' :
  stake_ok w → Sync tr w = (Ok tt, w') →
  stake_ok w' ∧ w_synced w' = true ∧ w_remembered w' = w_remembered w.
Proof.
  intros Hw. unfold Sync. destruct (QueryClient.Proposals tr) as [ps|]; [|done]. intros [= <-].
  set (ps' := merge_sort _ _). clearbody ps'.
  set (w0 := w <| w_tree := _ |> <| w_indices := _ |>).
  assert (H0 : stake_ok w0) by (destruct Hw; split; done).
  assert (Hm : ∀ v p, w_remembered (replayProposal v p) = w_remembered v).
  { intros v p. unfold replayProposal. repeat case_match; done. }
  assert (Hfold : ∀ v, stake_ok v → stake_ok (foldl replayProposal v ps') ∧
            w_remembered (foldl replayProposal v ps') = w_remembered v).
  { induction ps' as [|p ps' IH]; intros v Hv; [done|]. cbn [foldl].
    destruct (IH _ (replayProposal_ok v p Hv)) as [H1 H2]. split; [done|]. by rewrite H2, Hm. }
  destruct (Hfold w0 H0) as [[] H2]. split_and!; [by split|done|]. cbn. exact H2.
Qed.

(** A found position has a membership proof at the current root. *)
Lemma ProofFor_Ok w secret :
  stake_ok w → Found w secret = true →
  ∃ idx p, ProofFor w secret = Ok p ∧ ZkTree.Prove (w_tree w) idx = Ok p ∧
    ZkTree.leaves (w_tree w) !! Z.to_nat idx = Some (Bytes (StakeSecret_Commitment secret)).
Proof.
  intros [Ht Hr Hi] Hf. apply bool_decide_eq_true in Hf as [idx Hidx].
  destruct (Hi _ _ Hidx) as (_ & H0 & Hl). unfold commitment, FieldElementFromBytes32, ToBytes32 in Hl.
  rewrite SetBytes_Bytes in Hl. destruct (Prove_Ok _ _ _ H0 Hl) as [p Hp].
  exists idx, p. unfold ProofFor. by rewrite Hidx.
Qed.
End stake_lemmas.
