(* ===== verification/Memo.v ===== *)
(** pkg/crypto/aead.go and pkg/shieldedwallet/memo.go: how the opening of a note reaches
    its receiver. X25519, HKDF-SHA256 and ChaCha20-Poly1305 are parameters with their
    documented laws; ephemeral keys and nonces are arguments. *)
From S2P Require Import Prelude Words Decimal Hashing Types Field ZkTree Circuit.

(** * Parameters *)

(** crypto/ecdh on X25519: the public key of a private one, and the shared secret, which
    is refused when it is all zeros. *)
Class X25519 := {
  x25519_public : bytes → bytes; x25519_ECDH : bytes → bytes → option bytes }.
Class X25519Laws `{X25519} : Prop := {
  public_length : ∀ sk, length (x25519_public sk) = 32%nat;
  ECDH_comm : ∀ a b, x25519_ECDH a (x25519_public b) = x25519_ECDH b (x25519_public a) }.

(** The first bytes of the HKDF stream of a secret, a salt and an info string. *)
Class Hkdf := hkdf_sha256 : bytes → bytes → bytes → nat → bytes.

(** chacha20poly1305 under a key and a nonce, with associated data. *)
Class Aead := {
  aead_Seal : bytes → bytes → bytes → bytes → bytes;
  aead_Open : bytes → bytes → bytes → bytes → option bytes }.
Definition aead_NonceSize : nat := 12.
Definition aead_Overhead : nat := 16.
Class AeadLaws `{Aead} : Prop := {
  Open_Seal : ∀ key nonce plain ad, length nonce = aead_NonceSize → is_bytes plain →
    aead_Open key nonce (aead_Seal key nonce plain ad) ad = Some plain;
  Seal_length : ∀ key nonce plain ad,
    length (aead_Seal key nonce plain ad) = (length plain + aead_Overhead)%nat;
  Open_bytes : ∀ key nonce ct ad plain, aead_Open key nonce ct ad = Some plain → is_bytes plain }.

Section memo.
Context `{FR : Fr, MF : !MimcField, XX : X25519, HK : Hkdf, AE : Aead}.

(** * pkg/crypto/aead.go *)

Definition Encrypt (key plaintext additionalData nonce : bytes) : bytes :=
  nonce ++ aead_Seal key nonce plaintext additionalData.
Definition Decrypt (key blob additionalData : bytes) : result bytes :=
  if (length blob <? aead_NonceSize)%nat then Err "crypto: ciphertext too short"
  else match aead_Open key (take aead_NonceSize blob) (drop aead_NonceSize blob) additionalData with
       | None => Err "crypto: decrypt"
       | Some pt => Ok pt
       end.

(** * memo.go *)

Definition memoHKDFInfo : bytes := string_bytes "shadowforge-shieldedwallet-memo-v1".
Definition noteOpeningSize : nat := 8 + 32 + 32.
Definition x25519PubLen : nat := 32.

Definition deriveMemoKey (sharedSecret : bytes) : bytes := hkdf_sha256 sharedSecret [] memoHKDFInfo 32.

Definition encodeNoteOpening (secret : NoteSecret) : bytes :=
  be64 (ns_Value secret) ++ Bytes (ns_OwnerSK secret) ++ Bytes (ns_Rho secret).
Definition decodeNoteOpening (plain : bytes) : result NoteSecret :=
  if negb (bool_decide (length plain = noteOpeningSize))
  then Err "shieldedwallet: decrypted note opening has the wrong size"
  else Ok {| ns_Value := be_value (take 8 plain);
             ns_OwnerSK := SetBytes (take 32 (drop 8 plain));
             ns_Rho := SetBytes (take 32 (drop 40 plain)) |}.

(** The ephemeral private key and the nonce one memo draws. *)
Record MemoDraw := { md_ephemeral : bytes; md_nonce : bytes }.

Definition EncryptMemo (receiverPub : bytes) (secret : NoteSecret) (draw : MemoDraw) : result bytes :=
  match x25519_ECDH (md_ephemeral draw) receiverPub with
  | None => Err "shieldedwallet: ECDH"
  | Some shared =>
      let key := deriveMemoKey shared in
      let ephemeralPubBytes := x25519_public (md_ephemeral draw) in
      Ok (ephemeralPubBytes ++ Encrypt key (encodeNoteOpening secret) ephemeralPubBytes (md_nonce draw))
  end.

Definition DecryptMemo (myPriv memo : bytes) : result NoteSecret :=
  if (length memo <? x25519PubLen)%nat
  then Err "shieldedwallet: memo too short to contain an ephemeral public key"
  else
    let ephemeralPubBytes := take x25519PubLen memo in
    let ciphertext := drop x25519PubLen memo in
    match x25519_ECDH myPriv ephemeralPubBytes with
    | None => Err "shieldedwallet: ECDH"
    | Some shared =>
        match Decrypt (deriveMemoKey shared) ciphertext ephemeralPubBytes with
        | Err _ => Err "shieldedwallet: memo not addressed to this identity"
        | Ok plain => decodeNoteOpening plain
        end
    end.

(** * The packed memo field (wallet.go) *)

Definition be16 (v : Z) : bytes := byte_at v <$> [1; 0].

(** The loop of [EncryptMemos]; the [i]-th memo draws [draws i]. *)
Fixpoint encrypt_loop (pubs : list bytes) (secrets : list NoteSecret) (draws : nat → MemoDraw) (i : nat)
    : result bytes :=
  match pubs, secrets with
  | pub :: pubs, secret :: secrets =>
      match EncryptMemo pub secret (draws i) with
      | Err _ => Err "shieldedwallet: encrypt memo"
      | Ok m =>
          if 65535 <? Z.of_nat (length m) then Err "shieldedwallet: memo too large to pack"
          else rest ← encrypt_loop pubs secrets draws (S i); Ok (be16 (Z.of_nat (length m)) ++ m ++ rest)
      end
  | _, _ => Ok []
  end.
Definition EncryptMemos (receiverPubs : list bytes) (secrets : list NoteSecret) (draws : nat → MemoDraw)
    : result bytes :=
  if negb (bool_decide (length receiverPubs = length secrets))
  then Err "shieldedwallet: receiver keys and secrets differ in number"
  else encrypt_loop receiverPubs secrets draws 0.

(** The loop of [UnpackMemos]; each round takes at least the two bytes of a length. *)
Fixpoint unpack_loop (fuel : nat) (packed : bytes) : result (list bytes) :=
  match packed, fuel with
  | [], _ => Ok []
  | _, O => Err "out of fuel"
  | [_], _ => Err "shieldedwallet: truncated memo length prefix"
  | a :: b :: packed, S fuel =>
      let n := Z.to_nat (be_value [a; b]) in
      if (length packed <? n)%nat then Err "shieldedwallet: truncated memo entry"
      else rest ← unpack_loop fuel (drop n packed); Ok (take n packed :: rest)
  end.
Definition UnpackMemos (packed : bytes) : result (list bytes) := unpack_loop (length packed) packed.
End memo.

(** * Lemmas *)

Section memo_lemmas.
Context `{FR : Fr, FL : !FrLaws, MF : !MimcField, XX : X25519, XL : !X25519Laws, HK : Hkdf, AE : Aead,
          AL : !AeadLaws}.

Lemma encodeNoteOpening_length secret : length (encodeNoteOpening secret) = noteOpeningSize.
Proof. unfold encodeNoteOpening. by rewrite !length_app, be64_length, !Bytes_length. Qed.

Lemma encodeNoteOpening_bytes secret : is_bytes (encodeNoteOpening secret).
Proof.
  unfold encodeNoteOpening, is_bytes. rewrite !Forall_app. split_and!; [|apply Bytes_canonical..].
  apply Forall_forall. intros x Hx. unfold be64 in Hx. apply list_elem_of_fmap in Hx as (i & -> & _).
  unfold byte_at. change 255 with (Z.ones 8). rewrite Z.land_ones by done. by apply Z.mod_pos_bound.
Qed.

Lemma decode_encode secret :
  0 ≤ ns_Value secret < 2 ^ 64 → decodeNoteOpening (encodeNoteOpening secret) = Ok secret.
Proof.
  intros Hv. unfold decodeNoteOpening. rewrite bool_decide_true by apply encodeNoteOpening_length.
  cbn [negb]. f_equal. unfold encodeNoteOpening.
  assert (H8 := be64_length (ns_Value secret)). assert (Hs := Bytes_length (ns_OwnerSK secret)).
  assert (Hr := Bytes_length (ns_Rho secret)).
  rewrite take_app_length' by done. rewrite be_value_be64 by done.
  rewrite (drop_app_length' _ _ 8) by done. rewrite take_app_length' by done.
  rewrite (app_assoc (be64 _)), (drop_app_length' _ _ 40) by (rewrite length_app; lia).
  rewrite take_ge by lia. rewrite !SetBytes_Bytes. by destruct secret.
Qed.

Lemma Decrypt_Encrypt key plain ad nonce :
  length nonce = aead_NonceSize → is_bytes plain → Decrypt key (Encrypt key plain ad nonce) ad = Ok plain.
Proof.
  intros Hn Hb. unfold Decrypt, Encrypt. rewrite length_app, Hn.
  replace (_ <? _)%nat with false by (symmetry; apply Nat.ltb_ge; lia).
  rewrite take_app_length', drop_app_length' by done. by rewrite Open_Seal.
Qed.

(** A draw of the sizes the code uses. *)
Definition draw_ok (d : MemoDraw) : Prop := length (md_nonce d) = aead_NonceSize.

Lemma EncryptMemo_length pub secret d m :
  draw_ok d → EncryptMemo pub secret d = Ok m → length m = 132%nat.
Proof.
  unfold EncryptMemo, Encrypt, draw_ok. intros Hd E. case_match; [|done]. injection E as <-.
  by rewrite !length_app, public_length, Seal_length, encodeNoteOpening_length, Hd.
Qed.

(** The receiver, and only its key is needed, recovers the opening. *)
Lemma DecryptMemo_EncryptMemo sk secret d m :
  draw_ok d → 0 ≤ ns_Value secret < 2 ^ 64 →
  EncryptMemo (x25519_public sk) secret d = Ok m → DecryptMemo sk m = Ok secret.
Proof.
  intros Hd Hv E. pose proof (EncryptMemo_length _ _ _ _ Hd E) as Hl.
  unfold EncryptMemo in E. destruct (x25519_ECDH (md_ephemeral d) _) as [shared|] eqn:Es; [|done].
  injection E as E. unfold DecryptMemo. rewrite Hl. cbn [Nat.ltb Nat.leb x25519PubLen]. cbv zeta.
  rewrite <-E. rewrite take_app_length', drop_app_length' by (symmetry; apply public_length).
  rewrite ECDH_comm, Es, Decrypt_Encrypt by (done || apply encodeNoteOpening_bytes). by apply decode_encode.
Qed.

Lemma be_value_range b : is_bytes b → 0 ≤ be_value b < 256 ^ Z.of_nat (length b).
Proof.
  unfold is_bytes. induction b as [|x b IH] using rev_ind; intros HF; [done|].
  apply Forall_app in HF as [HF [Hx _]%Forall_cons]. specialize (IH HF).
  rewrite FrModel.be_value_snoc, length_app, Nat2Z.inj_add, Z.pow_add_r by lia. cbn. lia.
Qed.

Lemma DecryptMemo_value sk m secret :
  DecryptMemo sk m = Ok secret → 0 ≤ ns_Value secret < 2 ^ 64.
Proof.
  unfold DecryptMemo, Decrypt. intros E. repeat (case_match; try done). simplify_eq.
  match goal with H : aead_Open _ _ _ _ = Some ?p |- _ => apply Open_bytes in H as Hb; set (pt := p) in * end.
  unfold decodeNoteOpening in E. case_bool_decide as Hl; [|done]. injection E as <-. cbn [ns_Value].
  assert (H8 : length (take 8 pt) = 8%nat) by (rewrite length_take, Hl; unfold noteOpeningSize; lia).
  pose proof (be_value_range (take 8 pt)) as Hr. rewrite H8 in Hr. apply Hr. by apply Forall_take.
Qed.

(** ** Packing *)

Lemma be16_value v : 0 ≤ v < 2 ^ 16 → be_value [byte_at v 1; byte_at v 0] = v.
Proof.
  intros Hv. unfold be_value, byte_at. cbn [foldl].
  change 255 with (Z.ones 8). rewrite !Z.land_ones, !Z.shiftr_div_pow2 by lia.
  cbn. Z.div_mod_to_equations; lia.
Qed.

(** [memos] are the memos of [secrets] for [pubs], from draw [i] on. *)
Definition memos_for (pubs : list bytes) (secrets : list NoteSecret) (draws : nat → MemoDraw) (i : nat)
    (memos : list bytes) : Prop :=
  length memos = length secrets ∧
  ∀ k pub secret, pubs !! k = Some pub → secrets !! k = Some secret →
    ∃ m, memos !! k = Some m ∧ EncryptMemo pub secret (draws (i + k)%nat) = Ok m.

Lemma unpack_fuel fuel packed : (length packed ≤ fuel)%nat → unpack_loop fuel packed ≠ Err "out of fuel".
Proof.
  revert packed. induction fuel as [|fuel IH]; intros packed Hf; [destruct packed; cbn in *; [done|lia]|].
  destruct packed as [|a [|b packed]]; cbn [unpack_loop]; [done..|]. case_match; [done|].
  specialize (IH (drop (Z.to_nat (be_value [a; b])) packed)).
  destruct (unpack_loop fuel _) as [rest|e]; [done|]. cbn. intros [= ->].
  apply IH; [rewrite length_drop; cbn in Hf; lia|done].
Qed.

Lemma unpack_encrypt pubs secrets draws i packed fuel :
  (∀ k, draw_ok (draws k)) → length pubs = length secrets →
  encrypt_loop pubs secrets draws i = Ok packed → (length packed ≤ fuel)%nat →
  ∃ memos, unpack_loop fuel packed = Ok memos ∧ memos_for pubs secrets draws i memos.
Proof.
  intros Hd. revert pubs i packed fuel. induction secrets as [|s secrets IH]; intros [|p pubs] i packed fuel Hl E Hf;
    cbn [encrypt_loop] in E; try done.
  { injection E as <-. exists []. split; [by destruct fuel|]. by split. }
  destruct (EncryptMemo p s (draws i)) as [m|] eqn:Em; [|done].
  case_match eqn:Emax; [done|]. destruct (encrypt_loop pubs secrets draws (S i)) as [rest|] eqn:Er; [|done].
  injection E as <-. pose proof (EncryptMemo_length _ _ _ _ (Hd i) Em) as Hm.
  assert (Ev := be16_value (Z.of_nat (length m)) ltac:(lia)). destruct fuel as [|fuel]; [cbn in Hf; lia|].
  cbn [unpack_loop]. rewrite Ev, Nat2Z.id.
  replace (length (m ++ rest) <? length m)%nat with false by (symmetry; apply Nat.ltb_ge; rewrite length_app; lia).
  rewrite take_app_length, drop_app_length.
  destruct (IH pubs (S i) rest fuel) as (memos & Eu & Hlen & Hmemos); [by injection Hl|done| |].
  { cbn in Hf. rewrite length_app in Hf. lia. }
  exists (m :: memos). rewrite Eu. split; [done|]. split; [cbn; by rewrite Hlen|].
  intros [|k] pub secret Hp Hs; cbn in Hp, Hs.
  - injection Hp as <-. injection Hs as <-. exists m. by rewrite Nat.add_0_r.
  - destruct (Hmemos k pub secret Hp Hs) as (m' & H1 & H2). exists m'. split; [done|].
    by replace (i + S k)%nat with (S i + k)%nat by lia.
Qed.

(** It succeeds when every key agreement does. *)
Lemma EncryptMemos_Ok pubs secrets draws :
  (∀ k, draw_ok (draws k)) → length pubs = length secrets →
  (∀ k pub, pubs !! k = Some pub → is_Some (x25519_ECDH (md_ephemeral (draws k)) pub)) →
  ∃ packed, EncryptMemos pubs secrets draws = Ok packed.
Proof.
  intros Hd Hl Hx. unfold EncryptMemos. rewrite bool_decide_true by done. cbn [negb].
  assert (Hloop : ∀ i, (∀ k pub, pubs !! k = Some pub → is_Some (x25519_ECDH (md_ephemeral (draws (i + k)%nat)) pub)) →
    ∃ packed, encrypt_loop pubs secrets draws i = Ok packed); [|by apply (Hloop 0%nat)].
  clear Hx. revert secrets Hl. induction pubs as [|p pubs IH]; intros [|s secrets] Hl i Hx; try done; [by eexists|].
  cbn [encrypt_loop]. destruct (Hx 0%nat p eq_refl) as [shared Es]. rewrite Nat.add_0_r in Es.
  destruct (EncryptMemo p s (draws i)) as [m|] eqn:Em; [|unfold EncryptMemo in Em; by rewrite Es in Em].
  rewrite (EncryptMemo_length _ _ _ _ (Hd i) Em). cbn [Z.ltb Z.of_nat Z.compare].
  destruct (IH secrets ltac:(by injection Hl) (S i)) as [rest ->]; [|by eexists].
  intros k pub Hk. replace (S i + k)%nat with (i + S k)%nat by lia. by apply Hx.
Qed.
End memo_lemmas.

(** * Concrete primitives for the witnesses *)

(** A key agreement that adds keys, and a cipher that tags the text with its key. *)
Module MemoModel.
Definition pad (b : bytes) : bytes := take 32 (b ++ replicate 32 0).
#[export] Instance x25519 : X25519 :=
  {| x25519_public := pad;
     x25519_ECDH sk pub := if bool_decide (length pub = 32%nat) then Some (zip_with Z.add (pad sk) pub) else None |}.
Lemma zip_add_comm (a b : bytes) : zip_with Z.add a b = zip_with Z.add b a.
Proof.
  revert b. induction a as [|x a IH]; intros [|y b]; [done..|]. cbn. by rewrite IH, Z.add_comm.
Qed.
Lemma pad_length b : length (pad b) = 32%nat.
Proof. unfold pad. rewrite length_take, length_app, length_replicate. lia. Qed.
#[export] Instance x25519_laws : X25519Laws.
Proof.
  split; [apply pad_length|]. intros a b. cbn. rewrite !bool_decide_true by apply pad_length.
  by rewrite zip_add_comm.
Qed.
#[export] Instance hkdf : Hkdf := λ secret _ _ n, take n (secret ++ replicate n 0).

Definition tag (key : bytes) : bytes := replicate aead_Overhead (FrModel.checksum key mod 256).
#[export] Instance aead : Aead :=
  {| aead_Seal key nonce plain ad := plain ++ tag key;
     aead_Open key nonce ct ad :=
       let plain := take (length ct - aead_Overhead) ct in
       if bool_decide (ct = plain ++ tag key ∧ is_bytes plain) then Some plain else None |}.
Lemma tag_length key : length (tag key) = aead_Overhead.
Proof. apply length_replicate. Qed.
#[export] Instance aead_laws : AeadLaws.
Proof.
  split; cbn [aead_Open aead_Seal aead].
  - intros key nonce plain ad _ Hb. cbv zeta.
    rewrite length_app, tag_length, Nat.add_sub, take_app_length. by rewrite bool_decide_true.
  - intros. by rewrite length_app, tag_length.
  - intros key nonce ct ad plain. cbv zeta. case_bool_decide as H; [|done]. intros [= <-]. apply H.
Qed.
End MemoModel.
