(* ===== verification/Wallet.v ===== *)
(** pkg/shieldedwallet: a wallet's mirror of the note tree, the notes it has found with its
    key, and the transfers it builds from them. The order in which Go visits the map of
    notes is an argument, as are the random draws; the server is a transport. *)
From S2P Require Import Prelude Words Decimal Hashing Types Field ZkTree Circuit Groth NFT Mempool Store Chain.
From S2P Require Import Prover Query Canonical Memo Mirrors.

Module Shielded.
Section wallet.
Context `{SHA : Sha256, SG : Mode3Signer, FR : Fr, MM : MiMC, MF : !MimcField, GR : !Groth16,
          PR : !Groth16Prover, XX : X25519, HK : Hkdf, AE : Aead}.

Record ownedNote := { on_secret : NoteSecret; on_index : Z; on_nullifier : Hash }.

Record Wallet := {
  w_pk : bytes; w_sk : bytes; w_shieldedPub : bytes; w_shieldedKey : bytes;
  w_tree : ZkTree.Tree; w_syncedHeight : Z; w_synced : bool; w_notes : gmap Hash ownedNote }.
Implicit Type w : Wallet.

Definition New (pk sk shieldedPub shieldedKey : bytes) (queryBase : string) : result Wallet :=
  if bool_decide (queryBase = EmptyString) then Err "shieldedwallet: Config.QueryBase must not be empty"
  else Ok {| w_pk := pk; w_sk := sk; w_shieldedPub := shieldedPub; w_shieldedKey := shieldedKey;
             w_tree := ZkTree.NewTree; w_syncedHeight := 0; w_synced := false; w_notes := ∅ |}.

Definition Identity w : NFTID := SumHash [w_pk w].
Definition ShieldedPublicKey w : bytes := w_shieldedPub w.

(** ** Scanning committed blocks *)

Definition own (secret : NoteSecret) (idx : Z) : ownedNote :=
  {| on_secret := secret; on_index := idx; on_nullifier := ToBytes32 (NoteSecret_Nullifier secret) |}.

(** One output of a transfer: commitment [c], with its memo if it has one. *)
Definition scanOutput w (c : Hash) (memo : option bytes) : Wallet :=
  let elem := FieldElementFromBytes32 c in
  match ZkTree.Insert (w_tree w) elem with
  | Err _ => w
  | Ok (idx, tree) =>
      let w := w <| w_tree := tree |> in
      match memo with
      | None => w
      | Some m =>
          match DecryptMemo (w_shieldedKey w) m with
          | Err _ => w
          | Ok secret =>
              if decide (NoteSecret_Commitment secret = elem)
              then w <| w_notes ::= <[c := own secret idx]> |> else w
          end
      end
  end.
Fixpoint scanOutputs w (cs : list Hash) (memos : list bytes) : Wallet :=
  match cs with
  | [] => w
  | c :: cs => scanOutputs (scanOutput w c (head memos)) cs (tail memos)
  end.

Definition replayTx w (t : ShieldedTx) : Wallet :=
  match tx_Kind t, tx_Transfer t with
  | TxTransfer, Some pub =>
      let memos := match UnpackMemos (tx_Memo t) with Ok memos => memos | Err _ => [] end in
      scanOutputs w (tpi_OutCommits pub) memos
  | _, _ => w
  end.
Definition replayBlock w (b : Block) : Wallet := foldl replayTx w (b_Batch b).

Definition fetchStatus (tr : QueryClient.Transport) : result Z :=
  resp ← tr Query.GetStatus;
  if negb (Query.r_code resp =? Query.StatusOK) then Err "HTTP"
  else match Query.r_body resp with Query.BStatus h _ _ => Ok h | _ => QueryClient.decode_error end.
Definition fetchBlock (tr : QueryClient.Transport) (height : Z) : result Block :=
  resp ← tr (Query.GetBlocks (format_uint height));
  if negb (Query.r_code resp =? Query.StatusOK) then Err "HTTP"
  else match Query.r_body resp with Query.BBlock b => Ok b | _ => QueryClient.decode_error end.

Fixpoint sync_loop (tr : QueryClient.Transport) (heights : list Z) : call Wallet unit :=
  match heights with
  | [] => mret tt
  | height :: heights =>
      match fetchBlock tr height with
      | Err _ => fail "shieldedwallet: fetch block"
      | Ok b =>
          _ ← modify (λ w, let w := replayBlock w b in w <| w_syncedHeight := height |> <| w_synced := true |>);
          sync_loop tr heights
      end
  end.
Definition Sync (tr : QueryClient.Transport) : call Wallet unit :=
  match fetchStatus tr with
  | Err _ => fail "shieldedwallet: fetch status"
  | Ok head =>
      w ← gets id;
      let start := if w_synced w then u64 (w_syncedHeight w + 1) else w_syncedHeight w in
      sync_loop tr (heights_from start head)
  end.

(** ** Notes known otherwise *)

Definition ImportCanonicalNote (secret : NoteSecret) : call Wallet Z := λ w,
  match ZkTree.Insert (w_tree w) (NoteSecret_Commitment secret) with
  | Err _ => (Err "shieldedwallet: import note", w)
  | Ok (idx, tree) =>
      let c := ToBytes32 (NoteSecret_Commitment secret) in
      (Ok idx, w <| w_tree := tree |> <| w_notes ::= <[c := own secret idx]> |>)
  end.
Definition SeedKnownCommitment (commitment : Hash) : call Wallet Z := λ w,
  match ZkTree.Insert (w_tree w) (FieldElementFromBytes32 commitment) with
  | Err _ => (Err "shieldedwallet: seed known commitment", w)
  | Ok (idx, tree) => (Ok idx, w <| w_tree := tree |>)
  end.

Definition sum_values (ns : list ownedNote) : Z :=
  foldl (λ total n, u64 (total + ns_Value (on_secret n))) 0 ns.
Definition Balance w : Z := sum_values (snd <$> map_to_list (w_notes w)).
Definition KnownNoteCount w : Z := Z.of_nat (size (w_notes w)).
Definition CurrentRoot w : FieldElement := ZkTree.Root (w_tree w).

(** ** Building a transfer (transfer.go) *)

Definition ErrInsufficientNotes : string :=
  "shieldedwallet: fewer than 2 known spendable notes (this build's circuit always spends exactly 2)".

(** A note with its key in the map, which stands for the pointer Go compares. *)
Abbreviation keyed := (Hash * ownedNote)%type.
Definition note_value (n : keyed) : Z := ns_Value (on_secret n.2).
Definition larger (a b : keyed) : Prop := note_value b ≤ note_value a.
#[export] Instance larger_dec a b : Decision (larger a b).
Proof. unfold larger. apply _. Defined.

(** [order] is the order the loop over the map visits the notes in. *)
Definition selectInputsLocked (order : list keyed) (amount fee : Z) : option (list keyed) :=
  let need := u64 (amount + fee) in
  let all := merge_sort larger order in
  if (length all <? NumInputs)%nat then None
  else
    let chosen := take NumInputs all in
    if sum_values (snd <$> chosen) <? need then None else Some chosen.

Record NoteDraw := { nd_sk : FieldElement; nd_rho : FieldElement }.
Definition freshNoteSecret (value : Z) (draw : NoteDraw) : NoteSecret :=
  {| ns_Value := value; ns_OwnerSK := nd_sk draw; ns_Rho := nd_rho draw |}.

(** What one call draws: the secrets of the change and of the payment, and the memos'
    ephemeral keys and nonces. *)
Record Draws := { dw_change : NoteDraw; dw_payment : NoteDraw; dw_memos : nat → MemoDraw }.

Fixpoint prove_inputs (tree : ZkTree.Tree) (selected : list keyed) : result (list ZkTree.Proof) :=
  match selected with
  | [] => Ok []
  | n :: selected =>
      match ZkTree.Prove tree (on_index n.2) with
      | Err _ => Err "shieldedwallet: build merkle proof for a known note"
      | Ok p => rest ← prove_inputs tree selected; Ok (p :: rest)
      end
  end.

Definition root_of (proofs : list ZkTree.Proof) : FieldElement :=
  match proofs with p :: _ => ZkTree.pf_Root p | [] => SetUint64 0 end.

(** The input of the proof, from what was selected under the lock. *)
Definition transfer_input (selected : list keyed) (proofs : list ZkTree.Proof) (amount fee : Z) (draws : Draws)
    : TransferInput :=
  let inSum := sum_values (snd <$> selected) in
  let change := u64 (inSum - amount - fee) in
  {| ti_MerkleRoot := root_of proofs; ti_Fee := fee;
     ti_InSecrets := (λ n, on_secret n.2) <$> selected; ti_InProofs := proofs;
     ti_OutSecrets := [freshNoteSecret amount (dw_payment draws); freshNoteSecret change (dw_change draws)] |}.

Definition public_inputs (inp : TransferInput) : TransferPublicInputs :=
  let pub := Public inp in
  {| tpi_MerkleRoot := ToBytes32 (tp_MerkleRoot pub); tpi_Nullifiers := ToBytes32 <$> tp_Nullifiers pub;
     tpi_OutCommits := ToBytes32 <$> tp_OutCommits pub; tpi_FeeAmount := tp_Fee pub |}.

(** Everything after the lock is released. *)
Definition finish_transfer w (sys : System) (receiverPub : bytes) (inp : TransferInput) (draws : Draws)
    : result ShieldedTx :=
  match System_Prove sys inp with
  | Err _ => Err "shieldedwallet: prove transfer"
  | Ok zproof =>
      let txPub := public_inputs inp in
      match EncryptMemos [receiverPub; w_shieldedPub w] (ti_OutSecrets inp) (dw_memos draws) with
      | Err _ => Err "shieldedwallet: encrypt output memos"
      | Ok memo =>
          let n0 := nth 0 (tpi_Nullifiers txPub) [] in
          let t := zero_tx hash_zero TxTransfer in
          let t := t <| tx_Nullifier := n0 |> <| tx_Commitments := tpi_OutCommits txPub |>
                     <| tx_Proof := ProofToBytes zproof |>
                     <| tx_FeeCommit := SumHash [string_bytes "shieldedwallet-fee"; tpi_MerkleRoot txPub; n0] |>
                     <| tx_Memo := memo |> <| tx_Transfer := Some txPub |> in
          let t := t <| tx_TxID := ComputeTxID (tx_Proof t) (tx_Commitments t) (tx_Nullifier t) |> in
          match DilithiumSign (w_sk w) (tx_TxID t) with
          | Err _ => Err "shieldedwallet: sign"
          | Ok sig => Ok (t <| tx_Sig := sig |> <| tx_SignerPubKey := w_pk w |>)
          end
      end
  end.

Definition delete_notes (selected : list keyed) (notes : gmap Hash ownedNote) : gmap Hash ownedNote :=
  foldl (λ m (n : keyed), delete n.1 m) notes selected.

Definition BuildTransfer (order : list keyed) (sys : System) (receiverPub : bytes) (amount fee : Z)
    (draws : Draws) : call Wallet ShieldedTx := λ w,
  if (size (w_notes w) <? NumInputs)%nat then (Err ErrInsufficientNotes, w)
  else match selectInputsLocked order amount fee with
  | None => (Err "shieldedwallet: no combination of known notes covers amount + fee", w)
  | Some selected =>
      match prove_inputs (w_tree w) selected with
      | Err e => (Err e, w)
      | Ok proofs =>
          (finish_transfer w sys receiverPub (transfer_input selected proofs amount fee draws) draws,
           w <| w_notes ::= delete_notes selected |>)
      end
  end.
End wallet.
End Shielded.
