(* ===== verification/Spend.v ===== *)
(** The shielded wallet against the node: its invariant over any sequence of operations,
    the acceptance of the transfers it builds, and the arrival of a payment. *)
From S2P Require Import Prelude Words Decimal Hashing Types Epoch Mempool Governance Bank Merkle.
From S2P Require Import Field ZkTree Circuit Groth NFT Silent Store Chain Pipeline Admission Batch.
From S2P Require Import Prover Accept Query Canonical Memo Mirrors Wallet.
Import Shielded.

(** * The wallet's invariant *)

Section invariant.
Context `{SHA : Sha256, SG : Mode3Signer, FR : Fr, FL : !FrLaws, MM : MiMC, ML : !MiMCLaws, MF : !MimcField,
          GR : !Groth16, PR : !Groth16Prover, XX : X25519, HK : Hkdf, AE : Aead, AL : !AeadLaws}.
Implicit Type w : Wallet.

(** A note the wallet holds under key [c] is at its place in the tree. *)
Record note_ok (tree : ZkTree.Tree) (c : Hash) (n : ownedNote) : Prop := {
  no_index : 0 ≤ on_index n;
  no_leaf : ZkTree.leaves tree !! Z.to_nat (on_index n) = Some (Bytes (NoteSecret_Commitment (on_secret n)));
  no_key : FieldElementFromBytes32 c = NoteSecret_Commitment (on_secret n);
  no_nullifier : on_nullifier n = ToBytes32 (NoteSecret_Nullifier (on_secret n));
  no_value : 0 ≤ ns_Value (on_secret n) < 2 ^ 64 }.

Record wallet_ok w : Prop := {
  wo_tree : tree_ok (w_tree w);
  wo_notes : map_Forall (note_ok (w_tree w)) (w_notes w) }.

Lemma note_ok_grow tree tree' c n :
  ZkTree.leaves tree `prefix_of` ZkTree.leaves tree' → note_ok tree c n → note_ok tree' c n.
Proof. intros [k E] []. split; try done. rewrite E. by apply lookup_app_l_Some. Qed.

Lemma wallet_ok_insert w e i tree :
  wallet_ok w → ZkTree.Insert (w_tree w) e = Ok (i, tree) → wallet_ok (w <| w_tree := tree |>).
Proof.
  intros [Ht Hn] E. destruct (tree_ok_insert _ _ _ _ Ht E) as (Ht' & _ & El).
  split; [done|]. cbn. eapply map_Forall_impl; [exact Hn|]. intros c n. apply note_ok_grow.
  rewrite El. by eexists.
Qed.

(** Recording a note that was just inserted. *)
Lemma wallet_ok_own w secret c i tree :
  wallet_ok w → ZkTree.Insert (w_tree w) (NoteSecret_Commitment secret) = Ok (i, tree) →
  FieldElementFromBytes32 c = NoteSecret_Commitment secret → 0 ≤ ns_Value secret < 2 ^ 64 →
  wallet_ok (w <| w_tree := tree |> <| w_notes ::= <[c := own secret i]> |>).
Proof.
  intros Hw E Hc Hv. pose proof (wallet_ok_insert _ _ _ _ Hw E) as [Ht' Hn'].
  destruct (tree_ok_insert _ _ _ _ (wo_tree _ Hw) E) as (_ & -> & El).
  split; [done|]. apply map_Forall_insert_2; [|exact Hn'].
  split; cbn; try done; [lia|]. rewrite El, Nat2Z.id, lookup_app_r, Nat.sub_diag by done. done.
Qed.

Lemma scanOutput_ok w c memo : wallet_ok w → wallet_ok (scanOutput w c memo).
Proof.
  intros Hw. unfold scanOutput. destruct (ZkTree.Insert _ _) as [[idx tree]|] eqn:E; [|done].
  pose proof (wallet_ok_insert _ _ _ _ Hw E) as Hw'. destruct memo as [m|]; [|done].
  destruct (DecryptMemo _ m) as [secret|] eqn:Ed; [|done]. case_decide as Ec; [|done].
  apply wallet_ok_own; try done; [by rewrite Ec|by eapply DecryptMemo_value].
Qed.

Lemma scanOutputs_ok w cs memos : wallet_ok w → wallet_ok (scanOutputs w cs memos).
Proof.
  revert w memos. induction cs as [|c cs IH]; intros w memos Hw; [done|]. by apply IH, scanOutput_ok.
Qed.

Lemma replayTx_ok w t : wallet_ok w → wallet_ok (replayTx w t).
Proof.
  intros Hw. unfold replayTx. destruct (tx_Kind t), (tx_Transfer t); try done. by apply scanOutputs_ok.
Qed.
Lemma replayBlock_ok w b : wallet_ok w → wallet_ok (replayBlock w b).
Proof.
  unfold replayBlock. generalize (b_Batch b) as ts. intros ts. revert w.
  induction ts as [|t ts IH]; intros w Hw; [done|]. by apply IH, replayTx_ok.
Qed.

Lemma sync_loop_ok tr heights w : wallet_ok w → wallet_ok (sync_loop tr heights w).2.
Proof.
  revert w. induction heights as [|h heights IH]; intros w Hw; [done|]. cbn [sync_loop].
  destruct (fetchBlock tr h) as [b|]; [|done]. apply IH. cbv zeta.
  destruct (replayBlock_ok w b Hw). by split.
Qed.
Lemma Sync_ok tr w : wallet_ok w → wallet_ok (Sync tr w).2.
Proof. intros Hw. unfold Sync. destruct (fetchStatus tr); [|done]. by apply sync_loop_ok. Qed.

Lemma delete_notes_sub selected notes : delete_notes selected notes ⊆ notes.
Proof.
  unfold delete_notes. revert notes. induction selected as [|n sel IH]; intros notes; [done|].
  cbn [foldl]. etrans; [apply IH|]. apply delete_subseteq.
Qed.

Lemma BuildTransfer_ok order sys pub amount fee draws w :
  wallet_ok w → wallet_ok (BuildTransfer order sys pub amount fee draws w).2.
Proof.
  intros [Ht Hn]. unfold BuildTransfer. repeat case_match; try done. split; [done|]. cbn.
  intros c n Hl. apply Hn. by eapply lookup_weaken; [|apply delete_notes_sub].
Qed.

(** Every operation that changes a wallet. *)
Inductive op :=
| OpSync (tr : QueryClient.Transport)
| OpImport (secret : NoteSecret)
| OpSeed (c : Hash)
| OpTransfer (order : list (Hash * ownedNote)) (sys : System) (pub : bytes) (amount fee : Z) (draws : Draws).
Definition apply_op w (o : op) : Wallet :=
  match o with
  | OpSync tr => (Sync tr w).2
  | OpImport secret => (ImportCanonicalNote secret w).2
  | OpSeed c => (SeedKnownCommitment c w).2
  | OpTransfer order sys pub amount fee draws => (BuildTransfer order sys pub amount fee draws w).2
  end.
(** An imported note's value is a uint64. *)
Definition op_ok (o : op) : Prop :=
  match o with OpImport secret => 0 ≤ ns_Value secret < 2 ^ 64 | _ => True end.

Lemma apply_op_ok w o : op_ok o → wallet_ok w → wallet_ok (apply_op w o).
Proof.
  intros Ho Hw. destruct o as [tr|secret|c|order sys pub amount fee draws]; cbn [apply_op].
  - by apply Sync_ok.
  - unfold ImportCanonicalNote. destruct (ZkTree.Insert _ _) as [[idx tree]|] eqn:E; [|done]. cbn [snd].
    apply wallet_ok_own; try done. unfold FieldElementFromBytes32, ToBytes32. apply SetBytes_Bytes.
  - unfold SeedKnownCommitment. destruct (ZkTree.Insert _ _) as [[idx tree]|] eqn:E; [|done]. cbn [snd].
    by eapply wallet_ok_insert.
  - by apply BuildTransfer_ok.
Qed.

Lemma New_wallet_ok pk sk xpub xsk base w : New pk sk xpub xsk base = Ok w → wallet_ok w.
Proof.
  unfold New. intros E. case_match; [done|]. injection E as <-. split; [done|]. apply map_Forall_empty.
Qed.

Lemma run_ops_ok w ops : Forall op_ok ops → wallet_ok w → wallet_ok (foldl apply_op w ops).
Proof.
  intros HF. revert w. induction HF as [|o ops Ho _ IH]; intros w Hw; [done|]. by apply IH, apply_op_ok.
Qed.

(** ** The tree of the mirror *)

(** The commitments a wallet replays: those of transfers only. *)
Definition replayed_commitments (t : ShieldedTx) : list Hash :=
  match tx_Kind t with
  | TxTransfer => match tx_Transfer t with Some pub => tpi_OutCommits pub | None => [] end
  | _ => []
  end.

Lemma scanOutputs_tree w cs memos : w_tree (scanOutputs w cs memos) = insert_list (w_tree w) cs.
Proof.
  revert w memos. induction cs as [|c cs IH]; intros w memos; [done|]. cbn [scanOutputs]. rewrite IH.
  unfold insert_list. cbn [foldl]. f_equal. unfold scanOutput, insert_or_keep.
  destruct (ZkTree.Insert _ _) as [[idx tree]|]; [|done]. destruct (head memos) as [m|]; [|done].
  destruct (DecryptMemo _ _); [|done]. by case_decide.
Qed.

Lemma wallet_replay_tree w ts :
  w_tree (foldl replayTx w ts) = insert_list (w_tree w) (concat (replayed_commitments <$> ts)).
Proof.
  revert w. induction ts as [|t ts IH]; intros w; [done|].
  cbn [foldl fmap list_fmap concat]. rewrite IH. unfold insert_list. rewrite foldl_app. f_equal.
  unfold replayTx, replayed_commitments. destruct (tx_Kind t), (tx_Transfer t); try done.
  apply scanOutputs_tree.
Qed.

Lemma replayed_is_canonical t : tx_Kind t ≠ TxUnstake → replayed_commitments t = note_commitments t.
Proof. unfold replayed_commitments, note_commitments. by destruct (tx_Kind t). Qed.
End invariant.

(** * Transfers *)

Section transfer.
Context `{SHA : Sha256, M3 : Mode3, SG : Mode3Signer, ED : Ed25519, BR : BigRat, FR : Fr, FL : !FrLaws,
          MM : MiMC, ML : !MiMCLaws, MF : !MimcField, FE : !Frontend, L : !FrontendLaws, GR : !Groth16,
          PR : !Groth16Prover, PL : !ProverLaws, XX : X25519, XL : !X25519Laws, HK : Hkdf, AE : Aead,
          AL : !AeadLaws}.
Context (json_marshal : ShieldedTx → result bytes) (deps : Deps).
Implicit Types (w : Wallet) (s : State).

Lemma select_covers w order amount fee selected :
  wallet_ok w → order ≡ₚ map_to_list (w_notes w) → selectInputsLocked order amount fee = Some selected →
  0 ≤ amount → 0 ≤ fee → amount + fee < 2 ^ 64 →
  (∀ a b, selected = [a; b] → note_value a + note_value b < 2 ^ 64) →
  ∃ a b, selected = [a; b] ∧ w_notes w !! a.1 = Some a.2 ∧ w_notes w !! b.1 = Some b.2 ∧
    sum_values (snd <$> selected) = note_value a + note_value b ∧ amount + fee ≤ note_value a + note_value b.
Proof.
  intros Hw Ho E Ha Hf Hlt Hsum. unfold selectInputsLocked in E. case_match eqn:Elen; [done|].
  apply Nat.ltb_ge in Elen. unfold NumInputs in *.
  assert (Hp : merge_sort larger order ≡ₚ map_to_list (w_notes w)).
  { etrans; [apply merge_sort_Permutation|done]. }
  destruct (merge_sort larger order) as [|a [|b rest]] eqn:Em; cbn in Elen; [lia..|].
  cbn [take] in E. case_match eqn:Ec; [done|]. injection E as <-. apply Z.ltb_ge in Ec.
  assert (Hin : ∀ x, x ∈ [a; b] → w_notes w !! x.1 = Some x.2).
  { intros [k n] Hx. apply elem_of_map_to_list. rewrite <-Hp. set_solver. }
  exists a, b. split; [done|]. split; [apply Hin; set_solver|]. split; [apply Hin; set_solver|].
  assert (Hva := no_value _ _ _ (wo_notes _ Hw _ _ (Hin a ltac:(set_solver)))).
  assert (Hvb := no_value _ _ _ (wo_notes _ Hw _ _ (Hin b ltac:(set_solver)))).
  specialize (Hsum a b eq_refl). unfold note_value in *.
  assert (Es : sum_values (snd <$> [a; b]) = ns_Value (on_secret a.2) + ns_Value (on_secret b.2)).
  { unfold sum_values. cbn [fmap list_fmap foldl]. rewrite Z.add_0_l, (u64_id (ns_Value _)), u64_id by lia. done. }
  split; [done|]. assert (Ec' : u64 (amount + fee) ≤ sum_values (snd <$> [a; b])) by exact Ec.
  rewrite u64_id in Ec' by lia. lia.
Qed.

(** The two notes selected are two, and the largest. *)
#[local] Instance larger_total : Total larger.
Proof. intros x y. unfold larger. lia. Qed.
#[local] Instance larger_trans : Transitive larger.
Proof. intros x y z. unfold larger. lia. Qed.
Record two_largest w (a b : Hash * ownedNote) : Prop := {
  tl_distinct : a.1 ≠ b.1;
  tl_order : note_value b ≤ note_value a;
  tl_rest : ∀ c n, w_notes w !! c = Some n → c ≠ a.1 → c ≠ b.1 → ns_Value (on_secret n) ≤ note_value b }.
Lemma select_largest w order amount fee a b :
  order ≡ₚ map_to_list (w_notes w) → selectInputsLocked order amount fee = Some [a; b] → two_largest w a b.
Proof.
  intros Ho E. unfold selectInputsLocked, NumInputs in E. case_match; [done|].
  assert (Hp : merge_sort larger order ≡ₚ map_to_list (w_notes w)) by (by rewrite merge_sort_Permutation).
  assert (Hs : StronglySorted larger (merge_sort larger order)).
  { apply Sorted_StronglySorted; [exact larger_trans|apply (Sorted_merge_sort _)]. }
  destruct (merge_sort larger order) as [|a' [|b' rest]]; [by case_match..|].
  cbn [take] in E. case_match; [done|]. injection E as <- <-.
  assert (Hnd : NoDup (fst <$> a' :: b' :: rest)) by (rewrite Hp; apply NoDup_fst_map_to_list).
  apply StronglySorted_inv in Hs as [Hs Ha]. apply StronglySorted_inv in Hs as [_ Hb].
  rewrite Forall_forall in Ha, Hb. split.
  - cbn in Hnd. apply NoDup_cons in Hnd as [Hn _]. intros E. apply Hn. rewrite E. by left.
  - apply Ha. by left.
  - intros c n Hc Hca Hcb. apply elem_of_map_to_list in Hc. rewrite <-Hp in Hc.
    apply elem_of_cons in Hc as [<-|Hc]; [done|]. apply elem_of_cons in Hc as [<-|Hc]; [done|]. by apply (Hb (c, n)).
Qed.

(** What [BuildTransfer] returns when the selection covers the payment. *)
Lemma BuildTransfer_proves sys w order receiverPub amount fee draws selected :
  complete_transfer sys → wallet_ok w → order ≡ₚ map_to_list (w_notes w) →
  selectInputsLocked order amount fee = Some selected →
  0 ≤ amount → 0 ≤ fee → amount + fee < 2 ^ 64 →
  (∀ a b, selected = [a; b] → note_value a + note_value b < 2 ^ 64) →
  ∃ a b inp proof, selected = [a; b] ∧
    w_notes w !! a.1 = Some a.2 ∧ w_notes w !! b.1 = Some b.2 ∧
    System_Prove sys inp = Ok proof ∧ VerifyProofBytes sys (ProofToBytes proof) inp = Ok tt ∧
    ti_MerkleRoot inp = CurrentRoot w ∧ ti_Fee inp = fee ∧
    Nullifiers inp = [NoteSecret_Nullifier (on_secret a.2); NoteSecret_Nullifier (on_secret b.2)] ∧
    ti_OutSecrets inp = [freshNoteSecret amount (dw_payment draws);
      freshNoteSecret (note_value a + note_value b - amount - fee) (dw_change draws)] ∧
    BuildTransfer order sys receiverPub amount fee draws w =
      (finish_transfer w sys receiverPub inp draws, w <| w_notes ::= delete_notes selected |>).
Proof.
  intros Hsys Hw Ho Hsel Ha Hf Hlt Hsum.
  destruct (select_covers w order amount fee selected Hw Ho Hsel Ha Hf Hlt Hsum)
    as (a & b & -> & La & Lb & Es & Hcov). specialize (Hsum a b eq_refl).
  destruct (wo_notes _ Hw _ _ La) as [Ia Fa Ka Na Va]. destruct (wo_notes _ Hw _ _ Lb) as [Ib Fb Kb Nb Vb].
  destruct (Prove_Ok _ _ _ Ia Fa) as [pa Pa]. destruct (Prove_Ok _ _ _ Ib Fb) as [pb Pb].
  pose proof (tree_ok_room _ (wo_tree _ Hw)) as Hcap.
  set (inp := {| ti_MerkleRoot := ZkTree.Root (w_tree w); ti_Fee := fee;
                 ti_InSecrets := [on_secret a.2; on_secret b.2]; ti_InProofs := [pa; pb];
                 ti_OutSecrets := [freshNoteSecret amount (dw_payment draws);
                   freshNoteSecret (note_value a + note_value b - amount - fee) (dw_change draws)] |}).
  unfold note_value in *.
  destruct (prove_transfer sys (w_tree w) (on_secret a.2) (on_secret b.2)
    (freshNoteSecret amount (dw_payment draws))
    (freshNoteSecret (ns_Value (on_secret a.2) + ns_Value (on_secret b.2) - amount - fee) (dw_change draws))
    fee (on_index a.2) (on_index b.2) pa pb Hsys Hcap Fa Fb Pa Pb) as (proof & Hp & Hv).
  { repeat constructor; cbn [freshNoteSecret ns_Value]; lia. }
  { cbn [freshNoteSecret ns_Value]. lia. }
  exists a, b, inp, proof. split_and!; try done.
  unfold BuildTransfer. rewrite Hsel. cbn [prove_inputs]. rewrite Pa, Pb. cbn [mbind result_bind].
  replace (size (w_notes w) <? NumInputs)%nat with false.
  2: { symmetry. apply Nat.ltb_ge. unfold selectInputsLocked in Hsel. case_match eqn:Elen; [done|].
       apply Nat.ltb_ge in Elen. rewrite merge_sort_Permutation, Ho, length_map_to_list in Elen. done. }
  f_equal. f_equal. unfold transfer_input, inp. rewrite Es. cbn [root_of fmap list_fmap].
  rewrite (Prove_root _ _ _ Pa Hcap). rewrite u64_id by lia. done.
Qed.

(** The same, for notes that cannot overflow together. *)
Lemma BuildTransfer_selects sys w order receiverPub amount fee draws selected :
  complete_transfer sys → wallet_ok w → order ≡ₚ map_to_list (w_notes w) →
  selectInputsLocked order amount fee = Some selected →
  0 ≤ amount → 0 ≤ fee → amount + fee < 2 ^ 64 →
  map_Forall (λ _ n, ns_Value (on_secret n) < 2 ^ 63) (w_notes w) →
  ∃ a b inp proof, selected = [a; b] ∧
    w_notes w !! a.1 = Some a.2 ∧ w_notes w !! b.1 = Some b.2 ∧
    amount + fee ≤ note_value a + note_value b ∧
    System_Prove sys inp = Ok proof ∧ VerifyProofBytes sys (ProofToBytes proof) inp = Ok tt ∧
    ti_MerkleRoot inp = CurrentRoot w ∧ ti_Fee inp = fee ∧
    Nullifiers inp = [NoteSecret_Nullifier (on_secret a.2); NoteSecret_Nullifier (on_secret b.2)] ∧
    ti_OutSecrets inp = [freshNoteSecret amount (dw_payment draws);
      freshNoteSecret (note_value a + note_value b - amount - fee) (dw_change draws)] ∧
    BuildTransfer order sys receiverPub amount fee draws w =
      (finish_transfer w sys receiverPub inp draws, w <| w_notes ::= delete_notes selected |>).
Proof.
  intros Hsys Hw Ho Hsel Ha Hf Hlt Hvals.
  assert (Hsum : ∀ a b, selected = [a; b] → note_value a + note_value b < 2 ^ 64).
  { intros a b ->. assert (Hin : ∀ x, x ∈ [a; b] → w_notes w !! x.1 = Some x.2).
    { intros [k n] Hx. apply elem_of_map_to_list. rewrite <-Ho, <-(merge_sort_Permutation larger order).
      unfold selectInputsLocked in Hsel. case_match; [done|]. case_match; [done|]. injection Hsel as Hsel.
      rewrite <-(take_drop NumInputs). apply elem_of_app. left. by rewrite Hsel. }
    pose proof (Hvals _ _ (Hin a ltac:(set_solver))). pose proof (Hvals _ _ (Hin b ltac:(set_solver))).
    unfold note_value. cbn beta in *. lia. }
  destruct (select_covers w order amount fee selected Hw Ho Hsel Ha Hf Hlt Hsum)
    as (a & b & -> & _ & _ & _ & Hcov).
  destruct (BuildTransfer_proves sys w order receiverPub amount fee draws [a; b] Hsys Hw Ho Hsel Ha Hf Hlt Hsum)
    as (a' & b' & inp & proof & Eab & H). injection Eab as <- <-. exists a, b, inp, proof. naive_solver.
Qed.

(** The sum of the two selected notes does not wrap. *)
Lemma sum_values_pair w a b :
  wallet_ok w → map_Forall (λ _ n, ns_Value (on_secret n) < 2 ^ 63) (w_notes w) →
  w_notes w !! a.1 = Some a.2 → w_notes w !! b.1 = Some b.2 →
  sum_values (snd <$> [a; b]) = note_value a + note_value b.
Proof.
  intros Hw Hvals La Lb. pose proof (Hvals _ _ La). pose proof (Hvals _ _ Lb). cbn beta in *.
  pose proof (no_value _ _ _ (wo_notes _ Hw _ _ La)). pose proof (no_value _ _ _ (wo_notes _ Hw _ _ Lb)).
  unfold sum_values, note_value. cbn [fmap list_fmap foldl].
  rewrite Z.add_0_l, (u64_id (ns_Value _)), u64_id by lia. done.
Qed.

(** ** The node's side *)

(** The built transaction, as the stages read it. *)
Lemma finish_transfer_fields w sys receiverPub inp draws t proof :
  System_Prove sys inp = Ok proof → finish_transfer w sys receiverPub inp draws = Ok t →
  keypair (w_pk w) (w_sk w) → Nullifiers inp ≠ [] → ti_OutSecrets inp ≠ [] →
  tx_Kind t = TxTransfer ∧ tx_Transfer t = Some (public_inputs inp) ∧ tx_Proof t = ProofToBytes proof ∧
  EncryptMemos [receiverPub; w_shieldedPub w] (ti_OutSecrets inp) (dw_memos draws) = Ok (tx_Memo t) ∧
  tx_Commitments t = tpi_OutCommits (public_inputs inp) ∧
  tx_Nullifier t = nth 0 (tpi_Nullifiers (public_inputs inp)) [] ∧
  (tx_FeeCommit t ≠ hash_zero → well_formed t).
Proof.
  intros Hp E Hk Hne Hout. unfold finish_transfer in E. rewrite Hp in E.
  destruct (EncryptMemos _ _ _) as [memo|] eqn:Em; [|done].
  match type of E with match DilithiumSign _ ?m with _ => _ end = _ => set (msg := m) in E end.
  destruct (keypair_signs _ _ msg Hk) as (sig & Es & Ev & Hs1 & Hs2). rewrite Es in E.
  injection E as <-. split_and!; try done.
  intros Hz. cbn in Hz.
  split; try done.
  - by left.
  - unfold check_inputs. cbn -[IsZero SumHash]. unfold require, IsZero. by rewrite bool_decide_false.
  - intros pub _ [= <-]. unfold public_inputs. cbn. unfold OutCommitments. by destruct (ti_OutSecrets inp).
Qed.

(** It succeeds when the key agreements of its memos do. *)
Lemma finish_transfer_Ok w sys receiverPub inp draws proof (o0 o1 : NoteSecret) :
  System_Prove sys inp = Ok proof → keypair (w_pk w) (w_sk w) → ti_OutSecrets inp = [o0; o1] →
  (∀ k, draw_ok (dw_memos draws k)) →
  (∀ k pub, [receiverPub; w_shieldedPub w] !! k = Some pub →
     is_Some (x25519_ECDH (md_ephemeral (dw_memos draws k)) pub)) →
  ∃ t, finish_transfer w sys receiverPub inp draws = Ok t.
Proof.
  intros Hp Hk Hos Hd Hx. unfold finish_transfer. rewrite Hp, Hos.
  destruct (EncryptMemos_Ok [receiverPub; w_shieldedPub w] [o0; o1] (dw_memos draws) Hd eq_refl Hx) as [memo ->].
  match goal with |- context [DilithiumSign _ ?m] => destruct (keypair_signs _ _ m Hk) as (sig & -> & _) end.
  by eexists.
Qed.

Lemma public_inputs_read inp : transfer_public_of (public_inputs inp) = Public inp.
Proof.
  assert (Hid : ∀ l : list FieldElement, FieldElementFromBytes32 <$> (ToBytes32 <$> l) = l).
  { intros l. rewrite <-list_fmap_compose. etrans; [|apply list_fmap_id].
    apply list_fmap_ext. intros i e _. apply SetBytes_Bytes. }
  unfold transfer_public_of, public_inputs, Public. cbn.
  rewrite !Hid. unfold FieldElementFromBytes32, ToBytes32. by rewrite SetBytes_Bytes.
Qed.

(** The node recognizes the root, has not seen the nullifiers, and has room for the outputs. *)
Record node_ready (sys : System) (root : FieldElement) (ns : list Hash) (outs : nat) s : Prop := {
  nr_key : d_ZK deps = Some (sys_vk sys);
  nr_root : ∀ h, st_ZKRoots s = Some h → RootHistory.Contains h root = true;
  nr_free : Forall (λ n, n ∉ pendingNullifiers s ∧ n ∉ Rows.nullifiers (st_Store s)) ns;
  nr_room : zk_room (Z.of_nat outs) (st_ZKTree s) = true }.

Lemma stage1_transfer_accepts sys t inp proof s :
  tx_Kind t = TxTransfer → tx_Transfer t = Some (public_inputs inp) → tx_Proof t = ProofToBytes proof →
  VerifyProofBytes sys (ProofToBytes proof) inp = Ok tt → Nullifiers inp ≠ [] →
  node_ready sys (ti_MerkleRoot inp) (tpi_Nullifiers (public_inputs inp)) (length (ti_OutSecrets inp)) s →
  ∃ s1, stage1SenderLeave deps t s = (Ok (with_stage 1 t), s1) ∧ st_Silent s1 = st_Silent s.
Proof.
  intros Hk Ht Hpr Hv Hne [Hkey Hroot Hfree _]. unfold stage1SenderLeave. rewrite Hk.
  unfold stage1Transfer. rewrite Ht, Hkey.
  exists (markReserved (tpi_Nullifiers (public_inputs inp)) s).2. split.
  - eapply bind_accepts.
    { apply check_accepts, negb_true_iff, bool_decide_eq_false. unfold public_inputs. cbn.
      by destruct (Nullifiers inp). }
    eapply (bind_accepts _ _ _ tt); [by apply reserve_Ok|].
    eapply bind_accepts; [done|]. eapply bind_accepts.
    { apply check_accepts. destruct (st_ZKRoots s) as [h|] eqn:Eh; [|done]. unfold public_inputs. cbn.
      unfold FieldElementFromBytes32, ToBytes32. rewrite SetBytes_Bytes. by apply Hroot. }
    eapply bind_accepts.
    { apply check_accepts. rewrite Hpr, public_inputs_read. unfold VerifyProofBytes in Hv. by rewrite Hv. }
    eapply bind_accepts; [done|]. reflexivity.
  - reflexivity.
Qed.

Lemma stage4_transfer_accepts t pub s :
  tx_Kind t = TxTransfer → tx_Transfer t = Some pub →
  zk_room (Z.of_nat (length (tpi_OutCommits pub))) (st_ZKTree s) = true →
  ∃ s4, stage4SendExec deps t s = (Ok (with_stage 4 t), s4).
Proof.
  intros Hk Ht Hr. unfold stage4SendExec. rewrite Hk, Ht. cbn [with_inputs].
  destruct (insert_all_room (tpi_OutCommits pub) (append_state (tpi_OutCommits pub) s).2) as [s3 E3]; [done|].
  eexists. eapply bind_accepts; [|reflexivity]. unfold exec_transfer.
  eapply bind_accepts; [done|]. eapply bind_accepts; [by apply check_accepts|].
  eapply bind_accepts; [reflexivity|]. eapply bind_accepts; [exact E3|]. reflexivity.
Qed.

(** A proved and signed transfer is accepted by a node that is ready for it. *)
Lemma finished_transfer_accepted w sys receiverPub inp draws t proof at_ s :
  System_Prove sys inp = Ok proof → VerifyProofBytes sys (ProofToBytes proof) inp = Ok tt →
  finish_transfer w sys receiverPub inp draws = Ok t → keypair (w_pk w) (w_sk w) →
  Nullifiers inp ≠ [] → NoDup (tpi_Nullifiers (public_inputs inp)) → ti_OutSecrets inp ≠ [] →
  node_ready sys (ti_MerkleRoot inp) (tpi_Nullifiers (public_inputs inp)) (length (ti_OutSecrets inp)) s →
  admits json_marshal deps t at_ s → tx_FeeCommit t ≠ hash_zero →
  ∃ t' s', processOne json_marshal deps t at_ s = (t', None, s') ∧
    Rows.nullifiers (st_Store s') =
      list_to_set (tpi_Nullifiers (public_inputs inp)) ∪ Rows.nullifiers (st_Store s) ∧
    st_ZKTree s' = (λ tree, insert_list tree (tpi_OutCommits (public_inputs inp))) <$> st_ZKTree s.
Proof.
  intros Hp Hv Hfin Hk Hne Hnd Hout Hready Hadm Hfee.
  destruct (finish_transfer_fields _ _ _ _ _ _ _ Hp Hfin Hk Hne Hout)
    as (Ek & Et & Epr & _ & _ & _ & W). specialize (W Hfee).
  destruct (stage1_transfer_accepts _ _ _ _ _ Ek Et Epr Hv Hne Hready) as (s1 & E1 & Esil).
  assert (En : txNullifiers t = tpi_Nullifiers (public_inputs inp)) by (unfold txNullifiers; by rewrite Ek, Et).
  pose proof (stage1_Ok _ _ _ _ _ E1) as (_ & C1 & _ & F1).
  destruct (spend_accepts json_marshal deps t at_ s s1 W Hadm) as (t' & s' & E);
    [intros _; by eexists|exact E1|exact Esil|..].
  - intros s2 [Q2 _]. eapply stage4_transfer_accepts; [done|done|].
    rewrite (sc_zk _ _ Q2), (sc_zk _ _ C1). pose proof (nr_room _ _ _ _ _ Hready) as Hroom.
    unfold public_inputs. cbn. unfold OutCommitments. by rewrite !length_fmap.
  - by rewrite En.
  - eapply Forall_impl; [exact F1|]. by intros n [_ ?].
  - exists t', s'. split; [done|]. pose proof (processOne_cases json_marshal deps t at_ s) as H.
    rewrite E in H. destruct H as (? & ? & ? & ? & ? & A).
    pose proof (accepted_notes _ _ _ _ _ _ _ _ _ _ _ _ A) as [Hz _].
    apply accepted_spends in A as (_ & Hs & _). rewrite En in Hs. split; [done|].
    rewrite Hz. unfold note_commitments. by rewrite Ek, Et.
Qed.
End transfer.

(** * Payments *)

Section payment.
Context `{SHA : Sha256, SG : Mode3Signer, FR : Fr, FL : !FrLaws, MM : MiMC, ML : !MiMCLaws, MF : !MimcField,
          FE : !Frontend, L : !FrontendLaws, GR : !Groth16, PR : !Groth16Prover,
          XX : X25519, XL : !X25519Laws, HK : Hkdf, AE : Aead, AL : !AeadLaws}.
Implicit Types (w : Wallet) (t : ShieldedTx).

Lemma insert_list_used tree cs : ZkTree.used (insert_list tree cs) ≤ ZkTree.used tree + Z.of_nat (length cs).
Proof.
  revert tree. induction cs as [|c cs IH]; intros tree; [cbn; lia|]. cbn [insert_list foldl length].
  etrans; [apply IH|]. unfold insert_or_keep, ZkTree.Insert. case_match eqn:E; [|lia].
  case_match; [done|]. destruct a as [i tree']. injection E as <- <-. cbn. lia.
Qed.

Lemma scanOutput_key w c memo : w_shieldedKey (scanOutput w c memo) = w_shieldedKey w.
Proof. unfold scanOutput. repeat case_match; done. Qed.
Lemma scanOutputs_key w cs memos : w_shieldedKey (scanOutputs w cs memos) = w_shieldedKey w.
Proof.
  revert w memos. induction cs as [|c cs IH]; intros w memos; [done|]. cbn [scanOutputs].
  by rewrite IH, scanOutput_key.
Qed.
Lemma replayTx_key w t : w_shieldedKey (replayTx w t) = w_shieldedKey w.
Proof. unfold replayTx. destruct (tx_Kind t), (tx_Transfer t); try done. apply scanOutputs_key. Qed.
Lemma replay_key w ts : w_shieldedKey (foldl replayTx w ts) = w_shieldedKey w.
Proof. revert w. induction ts as [|t ts IH]; intros w; [done|]. cbn [foldl]. by rewrite IH, replayTx_key. Qed.

(** Scanning writes the notes of what it scans only. *)
Lemma scanOutput_other w c memo c' : c' ≠ c → w_notes (scanOutput w c memo) !! c' = w_notes w !! c'.
Proof. intros Hne. unfold scanOutput. repeat case_match; try done. cbn. by rewrite lookup_insert_ne. Qed.
Lemma scanOutputs_other w cs memos c' : c' ∉ cs → w_notes (scanOutputs w cs memos) !! c' = w_notes w !! c'.
Proof.
  revert w memos. induction cs as [|c cs IH]; intros w memos Hn; [done|]. cbn [scanOutputs].
  rewrite IH, scanOutput_other by set_solver. done.
Qed.
Lemma replay_other w ts c :
  c ∉ concat (replayed_commitments <$> ts) → w_notes (foldl replayTx w ts) !! c = w_notes w !! c.
Proof.
  revert w. induction ts as [|t ts IH]; intros w Hn; [done|]. cbn [foldl fmap list_fmap concat] in *.
  rewrite IH by set_solver. unfold replayTx. unfold replayed_commitments at 1 in Hn.
  destruct (tx_Kind t), (tx_Transfer t); try done. apply scanOutputs_other. set_solver.
Qed.

(** An output whose memo opens it with the wallet's key becomes one of its notes. *)
Lemma scanOutput_finds w secret m :
  ZkTree.used (w_tree w) < TreeSize → DecryptMemo (w_shieldedKey w) m = Ok secret →
  w_notes (scanOutput w (ToBytes32 (NoteSecret_Commitment secret)) (Some m)) !!
    ToBytes32 (NoteSecret_Commitment secret) = Some (own secret (ZkTree.used (w_tree w))).
Proof.
  intros Hu Hd. unfold scanOutput, ZkTree.Insert.
  replace (TreeSize <=? _) with false by (symmetry; apply Z.leb_gt; done).
  cbv zeta. match goal with |- context [DecryptMemo ?k m] => change k with (w_shieldedKey w) end.
  rewrite Hd. unfold FieldElementFromBytes32, ToBytes32. rewrite SetBytes_Bytes, decide_True by done.
  cbn. by rewrite lookup_insert_eq.
Qed.

Lemma scanOutputs_finds w cs memos k secret m :
  ZkTree.used (w_tree w) + Z.of_nat (length cs) ≤ TreeSize →
  cs !! k = Some (ToBytes32 (NoteSecret_Commitment secret)) → memos !! k = Some m →
  ToBytes32 (NoteSecret_Commitment secret) ∉ drop (S k) cs →
  DecryptMemo (w_shieldedKey w) m = Ok secret →
  ∃ i, w_notes (scanOutputs w cs memos) !! ToBytes32 (NoteSecret_Commitment secret) = Some (own secret i).
Proof.
  revert w memos k. induction cs as [|c cs IH]; intros w memos k Hu Hc Hm Hn Hd; [done|].
  cbn [scanOutputs length] in *. destruct memos as [|m0 memos]; [done|]. destruct k as [|k]; cbn in Hc, Hm.
  - injection Hc as ->. injection Hm as ->. eexists. rewrite scanOutputs_other by exact Hn.
    cbn [head]. apply scanOutput_finds; [lia|done].
  - eapply (IH _ _ k); [|done|done|done|by rewrite scanOutput_key].
    pose proof (scanOutputs_tree w [c] [m0]) as Ht. cbn [scanOutputs tail] in Ht.
    change (head [m0]) with (head (m0 :: memos)) in Ht. rewrite Ht.
    pose proof (insert_list_used (w_tree w) [c]). cbn [length] in *. lia.
Qed.

(** After replaying a run of transactions with a built transfer in it, the wallet whose key
    one of its memos was sealed to holds exactly the note it was sent, unless the same
    commitment was put out again afterwards. *)
Lemma output_received w pre t post pub pubs secrets draws k secret :
  (∀ i, draw_ok (draws i)) →
  ZkTree.used (w_tree w) + Z.of_nat (length (concat (replayed_commitments <$> pre ++ t :: post))) ≤ TreeSize →
  tx_Kind t = TxTransfer → tx_Transfer t = Some pub →
  tpi_OutCommits pub = ToBytes32 <$> (NoteSecret_Commitment <$> secrets) →
  EncryptMemos pubs secrets draws = Ok (tx_Memo t) →
  pubs !! k = Some (x25519_public (w_shieldedKey w)) → secrets !! k = Some secret →
  0 ≤ ns_Value secret < 2 ^ 64 →
  ToBytes32 (NoteSecret_Commitment secret) ∉
    drop (S k) (tpi_OutCommits pub) ++ concat (replayed_commitments <$> post) →
  ∃ i, w_notes (foldl replayTx w (pre ++ t :: post)) !! ToBytes32 (NoteSecret_Commitment secret) =
         Some (own secret i).
Proof.
  intros Hd Hroom Hk Ep Hout Hm Hp Hs Hv Hnew.
  unfold EncryptMemos in Hm. case_bool_decide as Hl; [|done]. cbn [negb] in Hm.
  destruct (unpack_encrypt _ _ _ _ _ (length (tx_Memo t)) Hd Hl Hm (le_n _)) as (memos & Eu & _ & Hmemos).
  destruct (Hmemos k _ _ Hp Hs) as (m & Hmk & Em). cbn [Nat.add] in Em.
  pose proof (DecryptMemo_EncryptMemo _ _ _ _ (Hd k) Hv Em) as Hdec.
  rewrite foldl_app. cbn [foldl]. rewrite replay_other by set_solver. unfold replayTx at 1. rewrite Hk, Ep.
  unfold UnpackMemos. rewrite Eu.
  eapply (scanOutputs_finds _ _ _ k); [|..|done|set_solver|by rewrite replay_key].
  - rewrite wallet_replay_tree. pose proof (insert_list_used (w_tree w) (concat (replayed_commitments <$> pre))).
    rewrite fmap_app, concat_app, length_app in Hroom. cbn [fmap list_fmap concat] in Hroom.
    rewrite length_app in Hroom. unfold replayed_commitments at 2 in Hroom. rewrite Hk, Ep in Hroom. lia.
  - by rewrite Hout, !list_lookup_fmap, Hs.
Qed.
End payment.
