(* ===== verification/Ballot.v ===== *)
(** Ballots, proposals and redemptions built by the clients, against the node: an
    eligibility proof from the mirror opens the poll, a revealed ballot counts, a mint
    claim binds, and a found position redeems. *)
From S2P Require Import Prelude Words Decimal Hashing Types Epoch Mempool Governance Bank Merkle.
From S2P Require Import Field ZkTree Circuit Groth NFT Silent Store Chain Pipeline Admission Batch.
From S2P Require Import Prover Accept Builder Query Canonical Mirrors.

Section ballot.
Context `{SHA : Sha256, M3 : Mode3, SG : Mode3Signer, ED : Ed25519, ES : Ed25519Signer, BR : BigRat,
          FR : Fr, FL : !FrLaws, MM : MiMC, ML : !MiMCLaws, MF : !MimcField, FE : !Frontend,
          L : !FrontendLaws, GR : !Groth16, PR : !Groth16Prover, PL : !ProverLaws}.
Context (json_marshal : ShieldedTx → result bytes).
Implicit Types (s : State) (t : ShieldedTx) (deps : Deps).

(** ** Eligibility *)

(** What a built eligibility proof is: its root, its nullifier, and that it verifies. *)
Record eligible_proof (sys : System) (w : GovWallet.Wallet) (id : string) (e : VoteEligibilityProof) : Prop := {
  ep_root : FieldElementFromBytes32 (vep_MerkleRoot e) = GovWallet.CurrentRoot w;
  ep_null : vep_Nullifier e =
    ToBytes32 (mimcHash [GovWallet.w_voterSK w; FieldElementFromBytes32 (VoteEligibilityScope id)]);
  ep_verifies : VerifyEligibilityProofBytes (sys_vk sys) (vep_Proof e)
    {| ep_MerkleRoot := FieldElementFromBytes32 (vep_MerkleRoot e);
       ep_Nullifier := FieldElementFromBytes32 (vep_Nullifier e);
       ep_ProposalScope := FieldElementFromBytes32 (VoteEligibilityScope id) |} = Ok tt }.

Lemma BuildEligibilityProof_Ok sys w id :
  complete_eligibility sys → gov_ok w → GovWallet.Eligible w = true →
  ∃ e, GovWallet.BuildEligibilityProof w sys id = Ok e ∧ eligible_proof sys w id e.
Proof.
  intros Hsys [Ht Hi] He. destruct (Hi He) as [H0 Hl]. destruct (Prove_Ok _ _ _ H0 Hl) as [mp Hmp].
  pose proof (tree_ok_room _ Ht) as Hcap.
  set (scope := FieldElementFromBytes32 (VoteEligibilityScope id)).
  destruct (prove_eligibility sys (GovWallet.w_tree w) (GovWallet.w_myIndex w) mp (GovWallet.w_voterSK w) scope
    Hsys Hcap Hl Hmp) as (p & Hp & Hv).
  unfold GovWallet.BuildEligibilityProof. unfold GovWallet.Eligible in He. rewrite He, Hmp. cbn [negb].
  rewrite (Prove_root _ _ _ Hmp Hcap). fold scope. rewrite Hp. eexists. split; [reflexivity|].
  split; cbn [vep_MerkleRoot vep_Nullifier vep_Proof].
  - apply SetBytes_Bytes.
  - done.
  - unfold FieldElementFromBytes32, ToBytes32. rewrite !SetBytes_Bytes. exact Hv.
Qed.

(** A mirror that proves knows its place. *)
Lemma BuildEligibilityProof_eligible w sys id e :
  GovWallet.BuildEligibilityProof w sys id = Ok e → GovWallet.Eligible w = true.
Proof. unfold GovWallet.BuildEligibilityProof, GovWallet.Eligible. by destruct (GovWallet.w_haveIndex w). Qed.

(** The node runs this eligibility system and still recognizes the mirror's root. *)
Definition polls deps (sys : System) (w : GovWallet.Wallet) s : Prop :=
  d_EligibilityZK deps = Some (sys_vk sys) ∧
  ∃ h, st_EligibilityRoots s = Some h ∧ RootHistory.Contains h (GovWallet.CurrentRoot w) = true.

Lemma require_voter_accepts deps sys w id e s :
  eligible_proof sys w id e → polls deps sys w s →
  requireEligibleVoterZK deps (Some e) id s = (Ok (vep_Nullifier e), s).
Proof.
  intros [Hr _ Hv] [Hk (h & Hh & Hc)]. unfold requireEligibleVoterZK. rewrite Hk.
  eapply bind_accepts; [done|]. rewrite Hh.
  eapply bind_accepts; [apply check_accepts; by rewrite Hr|].
  eapply bind_accepts; [apply check_accepts; by rewrite Hv|]. done.
Qed.

Lemma polls_quiet deps sys w s s' : quiet s s' → polls deps sys w s → polls deps sys w s'.
Proof. intros [Q _] [? (h & ? & ?)]. split; [done|]. exists h. by rewrite (sc_eligroots _ _ Q). Qed.

(** ** Voting *)

(** The proposal takes a ballot with this nullifier, or does not exist and would bind. *)
Definition takes deps s (pub : VotePublicInputs) (voter : Hash) : Prop :=
  match Rows.GetProposal (vpi_ProposalID pub) (st_Store s) with
  | Some r => pr_ProposalID r = vpi_ProposalID pub ∧ pr_Tallied r = false ∧
              pr_Commitments r !! voter = None ∧ pr_Reveals r !! voter = None
  | None => check_proposal deps s pub = Ok tt
  end.

(** What the stored proposal holds after the ballot. *)
Record holds_ballot deps s (pub : VotePublicInputs) (voter : Hash) s' (r : ProposalRecord) : Prop := {
  hb_record : Rows.GetProposal (vpi_ProposalID pub) (st_Store s') = Some r;
  hb_open : pr_Tallied r = false;
  hb_sealed : pr_Commitments r !! voter = Some (vpi_Commitment pub);
  hb_unrevealed : pr_Reveals r !! voter = None;
  hb_binding : Rows.GetProposal (vpi_ProposalID pub) (st_Store s) = None →
    let r0 := new_proposal deps pub in r = r0 <| pr_Commitments := {[voter := vpi_Commitment pub]} |> }.

Lemma exec_vote_accepts deps t pub e s :
  tx_VoteEligibility t = Some e → tx_Vote t = Some pub → tx_Kind t = TxVote →
  requireEligibleVoterZK deps (Some e) (vpi_ProposalID pub) s = (Ok (vep_Nullifier e), s) →
  takes deps s pub (vep_Nullifier e) →
  ∃ s4 r, stage4SendExec deps t s = (Ok (with_stage 4 t), s4) ∧
    holds_ballot deps s pub (vep_Nullifier e) s4 r.
Proof.
  intros Ee Ev Ek Hreq Ht. unfold takes in Ht.
  set (r0 := match Rows.GetProposal (vpi_ProposalID pub) (st_Store s) with Some r => r | None => new_proposal deps pub end).
  assert (Hr0 : pr_Tallied r0 = false ∧ pr_Commitments r0 !! vep_Nullifier e = None ∧
                pr_Reveals r0 !! vep_Nullifier e = None ∧ pr_ProposalID r0 = vpi_ProposalID pub).
  { unfold r0. destruct (Rows.GetProposal _ _) as [r|] eqn:Er; [by destruct Ht as (? & ? & ? & ?)|].
    cbn. by rewrite !lookup_empty. }
  destruct Hr0 as (H1 & H2 & H3 & H4).
  set (r := r0 <| pr_Commitments ::= <[vep_Nullifier e := vpi_Commitment pub]> |>).
  exists (s <| st_Store ::= Rows.PutProposal r |>), r. split.
  - unfold stage4SendExec. rewrite Ek, Ev. cbn [with_inputs]. eapply bind_accepts; [|reflexivity].
    unfold exec_vote. rewrite Ee. eapply bind_accepts; [exact Hreq|]. eapply bind_accepts; [reflexivity|].
    eapply (bind_accepts _ _ _ r0).
    { unfold r0. cbn [id]. destruct (Rows.GetProposal _ _) as [r'|]; [done|].
      eapply bind_accepts; [unfold lift; by rewrite Ht|done]. }
    eapply bind_accepts; [apply check_accepts; by rewrite H1|].
    eapply bind_accepts.
    { apply check_accepts. rewrite H2. by rewrite bool_decide_false by by intros []. }
    reflexivity.
  - split.
    + cbn. unfold Rows.GetProposal, Rows.PutProposal. cbn. unfold r. cbn. rewrite H4. apply lookup_insert_eq.
    + done.
    + cbn. apply lookup_insert_eq.
    + done.
    + intros Hn. unfold r, r0. rewrite Hn. done.
Qed.

Lemma exec_reveal_accepts deps t pub e s r c :
  tx_VoteEligibility t = Some e → tx_VoteReveal t = Some pub → tx_Kind t = TxVoteReveal →
  requireEligibleVoterZK deps (Some e) (vrpi_ProposalID pub) s = (Ok (vep_Nullifier e), s) →
  Rows.GetProposal (vrpi_ProposalID pub) (st_Store s) = Some r → pr_ProposalID r = vrpi_ProposalID pub →
  pr_Tallied r = false → pr_Commitments r !! vep_Nullifier e = Some c → pr_Reveals r !! vep_Nullifier e = None →
  ComputeVoteCommitment (vep_Nullifier e) (vrpi_Approve pub) (vrpi_Nonce pub) = c →
  ∃ s4, stage4SendExec deps t s = (Ok (with_stage 4 t), s4) ∧
    Rows.GetProposal (vrpi_ProposalID pub) (st_Store s4) =
      Some (r <| pr_Reveals ::= <[vep_Nullifier e := vrpi_Approve pub]> |>).
Proof.
  intros Ee Ev Ek Hreq Hr Hid Ht Hc Hn Hcom.
  exists (s <| st_Store ::= Rows.PutProposal (r <| pr_Reveals ::= <[vep_Nullifier e := vrpi_Approve pub]> |>) |>).
  split.
  - unfold stage4SendExec. rewrite Ek, Ev. cbn [with_inputs]. eapply bind_accepts; [|reflexivity].
    unfold exec_reveal. rewrite Ee. eapply bind_accepts; [exact Hreq|]. eapply bind_accepts; [reflexivity|].
    rewrite Hr. eapply bind_accepts; [apply check_accepts; by rewrite Ht|]. rewrite Hc.
    eapply bind_accepts; [apply check_accepts; by rewrite Hn|].
    eapply bind_accepts; [apply check_accepts; by apply bool_decide_eq_true|]. reflexivity.
  - cbn. unfold Rows.GetProposal, Rows.PutProposal. cbn. rewrite Hid. apply lookup_insert_eq.
Qed.

Lemma takes_quiet deps s s' pub voter : quiet s s' → takes deps s pub voter → takes deps s' pub voter.
Proof.
  intros [Q _]. unfold takes, check_proposal. by rewrite (sc_store _ _ Q), (sc_gov _ _ Q).
Qed.

Lemma signed_fields b t t' : Builder.signed b t t' →
  tx_Kind t' = tx_Kind t ∧ tx_Vote t' = tx_Vote t ∧ tx_VoteReveal t' = tx_VoteReveal t ∧
  tx_VoteEligibility t' = tx_VoteEligibility t ∧ tx_Unstake t' = tx_Unstake t ∧
  tx_Commitments t' = tx_Commitments t ∧ tx_Nullifier t' = tx_Nullifier t ∧ tx_Proof t' = tx_Proof t ∧
  tx_SignerPubKey t' = Builder.b_pk b.
Proof. by intros (id & sig & cs & cp & ->). Qed.

(** A drafted ballot, signed, is accepted by a node that takes it. *)
Lemma ballot_accepted deps sys w b t0 t pub e at_ s :
  builder_keys b → drafted t0 → Builder.finalize b t0 = Ok t → tx_Kind t0 = TxVote →
  tx_Vote t0 = Some pub → tx_VoteEligibility t0 = Some e →
  eligible_proof sys w (vpi_ProposalID pub) e → polls deps sys w s → takes deps s pub (vep_Nullifier e) →
  admits json_marshal deps t at_ s →
  ∃ t' s' r, processOne json_marshal deps t at_ s = (t', None, s') ∧
    holds_ballot deps s pub (vep_Nullifier e) s' r.
Proof.
  intros Hb Hd E Hk Hv He Hel Hpo Hta Ha. destruct (built_from b t0 t Hb Hd E) as [W S].
  apply signed_fields in S as (Ek & Ev & _ & Ee & _). rewrite Hk in Ek. rewrite Hv in Ev. rewrite He in Ee.
  destruct (plain_accepts json_marshal deps t at_ s W Ha) as (s2 & Q & Hacc); [by rewrite Ek..|].
  destruct (exec_vote_accepts deps (with_stage 3 (with_stage 2 (with_stage 1 t))) pub e s2)
    as (s4 & r & E4 & Hh); [done..| |by eapply takes_quiet|].
  { eapply require_voter_accepts; [done|]. by eapply polls_quiet. }
  destruct (Hacc _ E4) as [t' Et]. exists t', s4, r. split; [done|].
  destruct Hh as [H1 H2 H3 H4 H5]. rewrite (sc_store _ _ (proj1 Q)) in H5. by split.
Qed.

(** A reveal of a ballot the proposal holds is accepted and recorded. *)
Lemma reveal_accepted deps sys w b t id approve e r at_ s :
  builder_keys b → Builder.VoteReveal b id approve e = Ok t →
  eligible_proof sys w id e → polls deps sys w s →
  Rows.GetProposal id (st_Store s) = Some r → pr_ProposalID r = id → pr_Tallied r = false →
  pr_Commitments r !! vep_Nullifier e =
    Some (ComputeVoteCommitment (vep_Nullifier e) approve (Builder.voteNonce id (vep_Nullifier e))) →
  pr_Reveals r !! vep_Nullifier e = None → admits json_marshal deps t at_ s →
  ∃ t' s', processOne json_marshal deps t at_ s = (t', None, s') ∧
    Rows.GetProposal id (st_Store s') = Some (r <| pr_Reveals ::= <[vep_Nullifier e := approve]> |>).
Proof.
  intros Hb E Hel Hpo Hr Hid Ht Hc Hn Ha. unfold Builder.VoteReveal in E. ok_inv.
  match goal with H : Builder.finalize b ?t0 = Ok t |- _ =>
    assert (Hd : drafted t0) by (by apply drafted_plain); destruct (built_from b t0 t Hb Hd H) as [W S] end.
  apply signed_fields in S as (Ek & _ & Ev & Ee & _). cbn in Ek, Ev, Ee.
  destruct (plain_accepts json_marshal deps t at_ s W Ha) as (s2 & Q & Hacc); [by rewrite Ek..|].
  match type of Ev with _ = Some ?pub => set (pub0 := pub) in Ev end.
  destruct (exec_reveal_accepts deps (with_stage 3 (with_stage 2 (with_stage 1 t))) pub0 e s2 r
    (ComputeVoteCommitment (vep_Nullifier e) approve (Builder.voteNonce id (vep_Nullifier e))))
    as (s4 & E4 & Hrec); try done.
  { eapply require_voter_accepts; [done|]. by eapply polls_quiet. }
  { by rewrite (sc_store _ _ (proj1 Q)). }
  destruct (Hacc _ E4) as [t' Et]. by exists t', s4.
Qed.

(** The draft of a plain ballot: it binds no claim, so any node's checks pass. *)
Lemma Vote_drafts b id approve key value e t :
  Builder.Vote b id approve key value e = Ok t →
  ∃ t0 pub, Builder.finalize b t0 = Ok t ∧ drafted t0 ∧ tx_Kind t0 = TxVote ∧ tx_Vote t0 = Some pub ∧
    tx_VoteEligibility t0 = Some e ∧ vpi_ProposalID pub = id ∧
    vpi_Commitment pub = ComputeVoteCommitment (vep_Nullifier e) approve (Builder.voteNonce id (vep_Nullifier e)) ∧
    ∀ deps s, check_proposal deps s pub = Ok tt.
Proof.
  intros E. unfold Builder.Vote, Builder.needs_proposal, Builder.cast in E. ok_inv.
  eexists _, _. split; [eassumption|]. split; [by apply drafted_plain|]. by split_and!.
Qed.
End ballot.

(** * Claims *)

Section claims.
Context `{SHA : Sha256, M3 : Mode3, SG : Mode3Signer, ED : Ed25519, ES : Ed25519Signer, BR : BigRat,
          FR : Fr, FL : !FrLaws, MM : MiMC, ML : !MiMCLaws, MF : !MimcField, FE : !Frontend,
          L : !FrontendLaws, GR : !Groth16, PR : !Groth16Prover, PL : !ProverLaws}.
Context (json_marshal : ShieldedTx → result bytes).
Implicit Types (s : State) (t : ShieldedTx) (deps : Deps).

(** A ballot that carries nothing but a checked mint claim passes the proposal checks. *)
Lemma check_proposal_mint deps s pub :
  check_mint_claim deps pub = Ok tt → IsZero (vpi_SlashTargetNFT pub) = true →
  IsZero (vpi_UnlockTransferTarget pub) = true → vpi_ContainerAssetTarget pub = EmptyString →
  vpi_UnwindDualSign pub = false → check_proposal deps s pub = Ok tt.
Proof. intros H1 H2 H3 H4 H5. unfold check_proposal. by rewrite H1, H2, H3, H4, H5. Qed.

(** A claimed mint: the node's mint system accepts it, and the returned note opens the
    commitment it binds. *)
Lemma ProposeMint_drafts deps b id approve amount sys e sk rho t n s :
  complete_mint sys → d_MintZK deps = Some (sys_vk sys) →
  Builder.ProposeMint b id approve amount sys e sk rho = Ok (t, n) → binds_zero t = false →
  ∃ t0 pub, Builder.finalize b t0 = Ok t ∧ drafted t0 ∧ tx_Kind t0 = TxVote ∧ tx_Vote t0 = Some pub ∧
    tx_VoteEligibility t0 = Some e ∧ vpi_ProposalID pub = id ∧ check_proposal deps s pub = Ok tt ∧
    vpi_MintAmount pub = amount ∧ vpi_MintStaked pub = false ∧
    vpi_MintOutCommit pub = ToBytes32 (NoteSecret_Commitment n) ∧ ns_Value n = MintNetAmount amount.
Proof.
  intros Hsys Hk E Hb. unfold Builder.ProposeMint, Builder.needs_proposal in E.
  destruct (prove_mint sys {| ns_Value := MintNetAmount amount; ns_OwnerSK := sk; ns_Rho := rho |} Hsys)
    as (p & Hp & Hne & Hv); [apply u64_range|].
  rewrite Hp in E. ok_inv.
  match goal with H : negb (amount =? 0) = true |- _ => apply negb_true_iff in H as Hz end.
  match goal with H : Builder.cast _ ?p _ _ = Ok t |- _ => set (pub := p) in *; unfold Builder.cast in H;
    rewrite (finalize_binds _ _ _ H) in Hb end.
  eexists _, pub. split; [eassumption|]. split; [|split_and!; try done].
  - apply drafted_plain; try done. by eapply claim_inputs; [reflexivity..|exact Hb| |]; intros ?; try apply WriteTo_nonempty.
  - apply check_proposal_mint; try done. unfold check_mint_claim, pub. cbn -[ToBytes32 FieldElementFromBytes32].
    rewrite Hz, Hk. unfold FieldElementFromBytes32, ToBytes32. rewrite SetBytes_Bytes. cbn in Hv. by rewrite Hv.
Qed.

(** A claimed staked mint, for the epoch the node is in. *)
Lemma ProposeMintStaked_drafts deps b id approve amount sys e sk rho t n s :
  complete_stake sys → d_StakeZK deps = Some (sys_vk sys) → 0 ≤ amount < 2 ^ 64 → 0 ≤ d_Epoch deps < 2 ^ 32 →
  Builder.ProposeMintStaked b id approve amount (d_Epoch deps) sys e sk rho = Ok (t, n) → binds_zero t = false →
  ∃ t0 pub, Builder.finalize b t0 = Ok t ∧ drafted t0 ∧ tx_Kind t0 = TxVote ∧ tx_Vote t0 = Some pub ∧
    tx_VoteEligibility t0 = Some e ∧ vpi_ProposalID pub = id ∧ check_proposal deps s pub = Ok tt ∧
    vpi_MintAmount pub = amount ∧ vpi_MintStaked pub = true ∧
    vpi_StakePositionCommit pub = StakeWallet.commitment n ∧
    n = {| ss_Principal := amount; ss_StartEpoch := d_Epoch deps; ss_OwnerSK := sk; ss_Rho := rho |}.
Proof.
  intros Hsys Hk Ha Hep E Hb. unfold Builder.ProposeMintStaked, Builder.needs_proposal in E.
  destruct (prove_stake sys {| ss_Principal := amount; ss_StartEpoch := d_Epoch deps; ss_OwnerSK := sk;
    ss_Rho := rho |} Hsys Ha Hep) as (p & Hp & Hne & Hv).
  rewrite Hp in E. ok_inv.
  match goal with H : negb (amount =? 0) = true |- _ => apply negb_true_iff in H as Hz end.
  match goal with H : Builder.cast _ ?p _ _ = Ok t |- _ => set (pub := p) in *; unfold Builder.cast in H;
    rewrite (finalize_binds _ _ _ H) in Hb end.
  eexists _, pub. split; [eassumption|]. split; [|split_and!; try done].
  - apply drafted_plain; try done. by eapply claim_inputs; [reflexivity..|exact Hb| |]; intros ?; try apply WriteTo_nonempty.
  - apply check_proposal_mint; try done. unfold check_mint_claim, pub. cbn -[ToBytes32 FieldElementFromBytes32].
    rewrite Hz, Hk. unfold FieldElementFromBytes32, ToBytes32. rewrite SetBytes_Bytes. cbn in Hv. by rewrite Hv.
Qed.

(** ** Redemptions *)

(** The node runs this unstake system, recognizes the root, has not seen the position's
    nullifier, and has room for the proceeds. *)
Record redeems deps (sys : System) (root : FieldElement) (n : Hash) s : Prop := {
  rd_key : d_UnstakeZK deps = Some (sys_vk sys);
  rd_root : ∃ h, st_StakeRoots s = Some h ∧ RootHistory.Contains h root = true;
  rd_free : n ∉ pendingNullifiers s ∧ n ∉ Rows.nullifiers (st_Store s);
  rd_room : zk_room 1 (st_ZKTree s) = true }.

(** The draft of a redemption, and that its proof verifies against its own inputs. *)
Lemma Unstake_drafts b w pos mp root epoch sys sk rho t n :
  complete_unstake sys → stake_ok w → StakeWallet.Found w pos = true →
  0 ≤ ss_Principal pos < 2 ^ 64 → 0 ≤ ss_StartEpoch pos < 2 ^ 32 →
  StakeWallet.ProofFor w pos = Ok mp → StakeWallet.CurrentRoot w = Ok root →
  Builder.Unstake b pos mp root epoch sys sk rho = Ok (t, n) → binds_zero t = false →
  ns_Value n = FinalAmount (ss_Principal pos) (ss_StartEpoch pos) epoch ∧
  (∃ t0 pub, Builder.finalize b t0 = Ok t ∧ drafted t0 ∧ tx_Kind t0 = TxUnstake ∧ tx_Unstake t0 = Some pub ∧
    tx_Commitments t0 = [ToBytes32 (NoteSecret_Commitment n)] ∧
    tx_Nullifier t0 = ToBytes32 (StakeSecret_Nullifier pos) ∧
    FieldElementFromBytes32 (upi_MerkleRoot pub) = root ∧
    upi_FinalAmount pub = FinalAmount (upi_Principal pub) (upi_StartEpoch pub) epoch ∧
    VerifyUnstakeProofBytes (sys_vk sys) (tx_Proof t0)
      (unstake_public_of pub (tx_Nullifier t0) (ToBytes32 (NoteSecret_Commitment n))) = Ok tt).
Proof.
  intros Hsys Hw Hf Hpr Hse Hmp Hroot E Hb.
  destruct (ProofFor_Ok w pos Hw Hf) as (idx & p & Hp & Hpt & Hl). rewrite Hmp in Hp. injection Hp as <-.
  pose proof (tree_ok_room _ (so_tree _ Hw)) as Hcap.
  unfold StakeWallet.CurrentRoot in Hroot. case_match; [done|]. injection Hroot as <-.
  set (out := {| ns_Value := FinalAmount (ss_Principal pos) (ss_StartEpoch pos) epoch; ns_OwnerSK := sk;
                 ns_Rho := rho |}) in *.
  destruct (prove_unstake sys (StakeWallet.w_tree w) idx mp pos out Hsys Hcap Hl Hpt Hpr Hse)
    as (proof & Hproof & Hne & Hv); [apply u64_range|].
  unfold Builder.Unstake in E. fold out in E. rewrite Hproof in E. ok_inv. split; [done|].
  match goal with H : Builder.finalize _ _ = Ok t |- _ => rewrite (finalize_binds _ _ _ H) in Hb end.
  eexists _, _. split; [eassumption|]. split; [|split_and!; try done].
  - apply drafted_plain; try done. unfold check_inputs. cbn -[IsZero ToBytes32].
    rewrite bool_decide_false by done. cbn -[IsZero ToBytes32] in Hb |- *. by rewrite Hb.
  - apply SetBytes_Bytes.
  - rewrite <-Hv. f_equal. unfold unstake_public_of, UnstakeInput_Public. cbn -[ToBytes32 FieldElementFromBytes32].
    unfold FieldElementFromBytes32, ToBytes32. by rewrite !SetBytes_Bytes.
Qed.

Lemma stage1_unstake_accepts deps sys t pub c s :
  tx_Kind t = TxUnstake → tx_Unstake t = Some pub → tx_Commitments t = [c] →
  upi_FinalAmount pub = FinalAmount (upi_Principal pub) (upi_StartEpoch pub) (d_Epoch deps) →
  VerifyUnstakeProofBytes (sys_vk sys) (tx_Proof t) (unstake_public_of pub (tx_Nullifier t) c) = Ok tt →
  redeems deps sys (FieldElementFromBytes32 (upi_MerkleRoot pub)) (tx_Nullifier t) s →
  ∃ s1, stage1SenderLeave deps t s = (Ok (with_stage 1 t), s1) ∧ st_Silent s1 = st_Silent s.
Proof.
  intros Hk Ht Hc Hf Hv [Hkey (h & Hh & Hroot) Hfree _]. unfold stage1SenderLeave. rewrite Hk.
  unfold stage1Unstake. rewrite Ht, Hc, Hkey.
  exists (markReserved [tx_Nullifier t] s).2. split; [|done].
  eapply (bind_accepts _ _ _ tt); [apply reserve_Ok; split; [done|by apply Forall_singleton]|].
  eapply bind_accepts; [done|]. rewrite Hh.
  eapply bind_accepts; [by apply check_accepts|].
  eapply bind_accepts; [apply check_accepts; by apply Z.eqb_eq|].
  eapply bind_accepts; [apply check_accepts; by rewrite Hv|].
  eapply bind_accepts; [done|]. reflexivity.
Qed.

Lemma stage4_unstake_accepts deps t c s :
  tx_Kind t = TxUnstake → tx_Commitments t = [c] → zk_room 1 (st_ZKTree s) = true →
  ∃ s4, stage4SendExec deps t s = (Ok (with_stage 4 t), s4).
Proof.
  intros Hk Hc Hr. unfold stage4SendExec. rewrite Hk, Hc. cbn [head with_inputs]. unfold exec_unstake.
  destruct (st_ZKTree s) as [tree|] eqn:Et.
  - destruct (insert_zk_room s c 0) as (s3 & E3 & _); [by rewrite Et|].
    eexists. eapply bind_accepts; [|reflexivity]. eapply bind_accepts; [done|]. rewrite Et.
    eapply bind_accepts; [by apply check_accepts|]. eapply bind_accepts; [exact E3|].
    eapply bind_accepts; [reflexivity|]. reflexivity.
  - eexists. eapply bind_accepts; [|reflexivity]. eapply bind_accepts; [done|]. by rewrite Et.
Qed.

(** A drafted redemption, signed, is accepted by a node that is ready for it. *)
Lemma redemption_accepted deps sys b t0 t pub c at_ s :
  builder_keys b → drafted t0 → Builder.finalize b t0 = Ok t → tx_Kind t0 = TxUnstake →
  tx_Unstake t0 = Some pub → tx_Commitments t0 = [c] →
  upi_FinalAmount pub = FinalAmount (upi_Principal pub) (upi_StartEpoch pub) (d_Epoch deps) →
  VerifyUnstakeProofBytes (sys_vk sys) (tx_Proof t0) (unstake_public_of pub (tx_Nullifier t0) c) = Ok tt →
  redeems deps sys (FieldElementFromBytes32 (upi_MerkleRoot pub)) (tx_Nullifier t0) s →
  admits json_marshal deps t at_ s →
  ∃ t' s', processOne json_marshal deps t at_ s = (t', None, s') ∧
    Rows.nullifiers (st_Store s') = {[tx_Nullifier t0]} ∪ Rows.nullifiers (st_Store s) ∧
    st_ZKTree s' = (λ tree, insert_list tree [c]) <$> st_ZKTree s.
Proof.
  intros Hb Hd E Hk Hu Hc Hf Hv Hr Ha. destruct (built_from b t0 t Hb Hd E) as [W S].
  apply signed_fields in S as (Ek & _ & _ & _ & Eu & Ec & En & Ep & _).
  rewrite Hk in Ek. rewrite Hu in Eu. rewrite Hc in Ec. rewrite <-Ep, <-En in Hv. rewrite <-En in Hr |- *.
  destruct (stage1_unstake_accepts deps sys t pub c s) as (s1 & E1 & Esil); [done..|].
  assert (Enull : txNullifiers t = [tx_Nullifier t]) by (unfold txNullifiers; by rewrite Ek).
  pose proof (stage1_Ok _ _ _ _ _ E1) as (_ & C1 & _ & F1).
  destruct (spend_accepts json_marshal deps t at_ s s1 W Ha) as (t' & s' & Eacc);
    [by rewrite Ek|exact E1|exact Esil|..].
  - intros s2 [Q2 _]. eapply stage4_unstake_accepts; [done|done|].
    rewrite (sc_zk _ _ Q2), (sc_zk _ _ C1). apply (rd_room _ _ _ _ _ Hr).
  - rewrite Enull. apply NoDup_singleton.
  - eapply Forall_impl; [exact F1|]. by intros x [_ ?].
  - exists t', s'. split; [done|]. pose proof (processOne_cases json_marshal deps t at_ s) as H.
    rewrite Eacc in H. destruct H as (? & ? & ? & ? & ? & A).
    pose proof (accepted_notes _ _ _ _ _ _ _ _ _ _ _ _ A) as [Hz _].
    apply accepted_spends in A as (_ & Hs & _). rewrite Enull in Hs. split; [|].
    + rewrite Hs. cbn. set_solver.
    + rewrite Hz. unfold note_commitments. by rewrite Ek, Ec.
Qed.
End claims.
