(* ===== verification/Clients.v ===== *)
(** The properties of the clients: the shielded wallet, the two mirrors, the ballots and
    claims of the transaction builder and the query client, each against the node they
    talk to; their witnesses on concrete primitives; and what modelling them showed. *)
From S2P Require Import Prelude Words Decimal Hashing Types Epoch Mempool Governance Bank Merkle.
From S2P Require Import Field ZkTree Circuit Groth NFT Silent Store Chain Pipeline Sample Admission.
From S2P Require Import Batch Tally Prover Accept Builder Query Canonical Memo Mirrors Wallet Spend Ballot.
Import Shielded.

(** * Lemmas *)

Section client_lemmas.
Lemma Ok_inj {A} (a b : A) : Ok a = Ok b → a = b.
Proof. by intros [= ->]. Qed.

Context `{SHA : Sha256}.

(** A client connected to a server that answers. *)
Definition connected (s : Query.Server) : QueryClient.Transport := λ r, Ok (Query.serve s r).

Lemma ParseHash_encode h : is_bytes h → length h = 32%nat → ParseHash (hex_encode h) = Ok h.
Proof. intros Hb Hl. unfold ParseHash. rewrite hex_decode_encode by done. cbn. by rewrite bool_decide_true. Qed.
End client_lemmas.

(** * Properties *)

Module ClientSpec.

(** C12: every note a wallet claims to own can be spent. Whatever sequence of syncs,
    imports, seeds and transfers a new wallet has been through, and whatever its server
    answered, each note it holds is recorded under its own commitment with its own
    nullifier, and the tree it mirrors proves that commitment at the wallet's current
    root, along a path the circuit's membership gadget accepts. *)
Theorem wallet_notes_are_provable `{SHA : Sha256, SG : Mode3Signer, FR : Fr, FL : !FrLaws, MM : MiMC,
    ML : !MiMCLaws, MF : !MimcField, FE : !Frontend, L : !FrontendLaws, GR : !Groth16, PR : !Groth16Prover,
    XX : X25519, HK : Hkdf, AE : Aead, AL : !AeadLaws} pk sk xpub xsk base w0 ops :
  New pk sk xpub xsk base = Ok w0 → Forall op_ok ops →
  let w := foldl apply_op w0 ops in
  map_Forall (λ c n,
    FieldElementFromBytes32 c = NoteSecret_Commitment (on_secret n) ∧
    on_nullifier n = ToBytes32 (NoteSecret_Nullifier (on_secret n)) ∧
    ∃ p, ZkTree.Prove (w_tree w) (on_index n) = Ok p ∧ ZkTree.pf_Root p = CurrentRoot w ∧
      at_ (ZkTree.pf_Path p) 0 = NoteSecret_Commitment (on_secret n) ∧
      VerifyProof (CurrentRoot w) (ZkTree.pf_Path p) (ValueElement (u64 (ZkTree.pf_Index p))))
    (w_notes w).
Proof.
  intros E HF w. pose proof (run_ops_ok w0 ops HF (New_wallet_ok _ _ _ _ _ _ E)) as Hw. fold w in Hw.
  pose proof (tree_ok_room _ (wo_tree _ Hw)) as Hcap. clearbody w.
  intros c n Hn. destruct (wo_notes _ Hw _ _ Hn) as [Hi Hl Hk Hnu _].
  split; [done|]. split; [done|]. destruct (Prove_Ok _ _ _ Hi Hl) as [p Hp]. exists p. split; [done|].
  split; [by eapply Prove_root|]. exact (Prove_verifies _ _ _ _ Hp Hcap Hl).
Qed.

(** C10: a transfer the wallet builds is one the network takes. With amounts that cannot
    overflow, a transaction [BuildTransfer] returns spends two different notes the wallet
    holds, its two largest, which cover the amount and the fee; it pays the amount and
    returns the change under two fresh commitments, and the wallet forgets exactly the notes
    it spent. And if the two notes have different nullifiers (two payments made under the
    same secrets do not), any node with the matching verifying key that recognizes the
    wallet's root, has not seen the nullifiers and has room accepts it through all five
    stages, marks the two nullifiers spent and appends the two outputs to its tree. *)
Theorem wallet_transfer_accepted `{SHA : Sha256, M3 : Mode3, SG : Mode3Signer, ED : Ed25519, BR : BigRat,
    FR : Fr, FL : !FrLaws, MM : MiMC, ML : !MiMCLaws, MF : !MimcField, FE : !Frontend, L : !FrontendLaws,
    GR : !Groth16, PR : !Groth16Prover, PL : !ProverLaws, XX : X25519, XL : !X25519Laws, HK : Hkdf,
    AE : Aead, AL : !AeadLaws} json_marshal deps sys w order receiverPub amount fee draws t w' :
  complete_transfer sys → keypair (w_pk w) (w_sk w) → wallet_ok w →
  order ≡ₚ map_to_list (w_notes w) → 0 ≤ amount → 0 ≤ fee → amount + fee < 2 ^ 64 →
  map_Forall (λ _ n, ns_Value (on_secret n) < 2 ^ 63) (w_notes w) →
  BuildTransfer order sys receiverPub amount fee draws w = (Ok t, w') →
  ∃ a b pub,
    w_notes w !! a.1 = Some a.2 ∧ w_notes w !! b.1 = Some b.2 ∧ two_largest w a b ∧
    amount + fee ≤ note_value a + note_value b ∧
    w_notes w' = delete b.1 (delete a.1 (w_notes w)) ∧
    tx_Transfer t = Some pub ∧ tpi_FeeAmount pub = fee ∧
    tpi_Nullifiers pub = [on_nullifier a.2; on_nullifier b.2] ∧
    tpi_OutCommits pub =
      [ToBytes32 (NoteSecret_Commitment (freshNoteSecret amount (dw_payment draws)));
       ToBytes32 (NoteSecret_Commitment
         (freshNoteSecret (note_value a + note_value b - amount - fee) (dw_change draws)))] ∧
    ∀ at_ s, node_ready deps sys (CurrentRoot w) (tpi_Nullifiers pub) 2 s → on_nullifier a.2 ≠ on_nullifier b.2 →
      admits json_marshal deps t at_ s → tx_FeeCommit t ≠ hash_zero →
      ∃ t' s', processOne json_marshal deps t at_ s = (t', None, s') ∧
        Rows.nullifiers (st_Store s') = list_to_set (tpi_Nullifiers pub) ∪ Rows.nullifiers (st_Store s) ∧
        st_ZKTree s' = (λ tree, insert_list tree (tpi_OutCommits pub)) <$> st_ZKTree s.
Proof.
  intros Hsys Hk Hw Ho Ha Hf Hlt Hvals E.
  destruct (selectInputsLocked order amount fee) as [selected|] eqn:Hsel.
  2: { unfold BuildTransfer in E. rewrite Hsel in E. by case_match. }
  destruct (BuildTransfer_selects sys w order receiverPub amount fee draws selected Hsys Hw Ho Hsel Ha Hf Hlt Hvals)
    as (a & b & inp & proof & -> & La & Lb & Hcov & Hp & Hv & Hr & Hfee & Hns & Hos & Eb).
  rewrite Eb in E. injection E as E <-.
  assert (Hne : Nullifiers inp ≠ []) by by rewrite Hns.
  assert (Hout : ti_OutSecrets inp ≠ []) by by rewrite Hos.
  destruct (finish_transfer_fields _ _ _ _ _ _ _ Hp E Hk Hne Hout) as (_ & Et & _).
  destruct (wo_notes _ Hw _ _ La) as [_ _ _ Na _]. destruct (wo_notes _ Hw _ _ Lb) as [_ _ _ Nb _].
  assert (En : tpi_Nullifiers (public_inputs inp) = [on_nullifier a.2; on_nullifier b.2]).
  { unfold public_inputs, Public. cbn. by rewrite Hns, Na, Nb. }
  exists a, b, (public_inputs inp). split_and!; try done.
  { by eapply select_largest. }
  { unfold public_inputs, Public, OutCommitments. cbn. by rewrite Hos. }
  intros at_ s Hready Hdiff Hadm Hfc. rewrite <-Hr in Hready.
  eapply finished_transfer_accepted; try done; [|by rewrite Hos].
  rewrite En. apply NoDup_cons. split; [|apply NoDup_singleton].
  intros Hin%list_elem_of_singleton. by apply Hdiff.
Qed.

(** C11: a payment arrives. When two notes cover it and the key agreements of its memos
    succeed, [BuildTransfer] returns a transaction; once a block holds it, the receiver,
    whose public key is all the sender used, replays the block and then holds exactly the
    note of the amount, and the sender replaying it holds exactly the note of the change:
    same value, same secrets, with its nullifier. (Unless the same commitment is put out
    a second time later in the block.) *)
Theorem payment_arrives `{SHA : Sha256, M3 : Mode3, SG : Mode3Signer, ED : Ed25519, FR : Fr, FL : !FrLaws,
    MM : MiMC, ML : !MiMCLaws, MF : !MimcField, FE : !Frontend, L : !FrontendLaws, GR : !Groth16, PR : !Groth16Prover,
    PL : !ProverLaws, XX : X25519, XL : !X25519Laws, HK : Hkdf, AE : Aead, AL : !AeadLaws}
    sys w r order amount fee draws selected :
  complete_transfer sys → keypair (w_pk w) (w_sk w) → wallet_ok w →
  order ≡ₚ map_to_list (w_notes w) → 0 ≤ amount → 0 ≤ fee → amount + fee < 2 ^ 64 →
  map_Forall (λ _ n, ns_Value (on_secret n) < 2 ^ 63) (w_notes w) →
  selectInputsLocked order amount fee = Some selected →
  w_shieldedPub w = x25519_public (w_shieldedKey w) → (∀ k, draw_ok (dw_memos draws k)) →
  (∀ k pub, [x25519_public (w_shieldedKey r); w_shieldedPub w] !! k = Some pub →
     is_Some (x25519_ECDH (md_ephemeral (dw_memos draws k)) pub)) →
  let payment := freshNoteSecret amount (dw_payment draws) in
  let change := freshNoteSecret (sum_values (snd <$> selected) - amount - fee) (dw_change draws) in
  let cp := ToBytes32 (NoteSecret_Commitment payment) in
  let cc := ToBytes32 (NoteSecret_Commitment change) in
  ∃ t w', BuildTransfer order sys (x25519_public (w_shieldedKey r)) amount fee draws w = (Ok t, w') ∧
    ∀ b pre post, b_Batch b = pre ++ t :: post → cp ≠ cc →
      cp ∉ concat (replayed_commitments <$> post) → cc ∉ concat (replayed_commitments <$> post) →
      let grown := Z.of_nat (length (concat (replayed_commitments <$> b_Batch b))) in
      (ZkTree.used (w_tree r) + grown ≤ TreeSize → ∃ i, w_notes (replayBlock r b) !! cp = Some (own payment i)) ∧
      (ZkTree.used (w_tree w') + grown ≤ TreeSize → ∃ i, w_notes (replayBlock w' b) !! cc = Some (own change i)).
Proof.
  intros Hsys Hk Hw Ho Ha Hf Hlt Hvals Hsel Hown Hd Hx payment.
  destruct (BuildTransfer_selects sys w order (x25519_public (w_shieldedKey r)) amount fee draws selected
    Hsys Hw Ho Hsel Ha Hf Hlt Hvals)
    as (a & b & inp & proof & -> & La & Lb & Hcov & Hp & _ & _ & _ & Hns & Hos & Eb).
  assert (Es : sum_values (snd <$> [a; b]) = note_value a + note_value b) by by eapply sum_values_pair.
  rewrite Es. intros change cp cc.
  destruct (finish_transfer_Ok w sys (x25519_public (w_shieldedKey r)) inp draws proof payment change Hp Hk Hos Hd Hx)
    as [t E].
  exists t, (w <| w_notes ::= delete_notes [a; b] |>). split; [by rewrite Eb, E|].
  assert (Hne : Nullifiers inp ≠ []) by by rewrite Hns.
  assert (Hout : ti_OutSecrets inp ≠ []) by by rewrite Hos.
  destruct (finish_transfer_fields _ _ _ _ _ _ _ Hp E Hk Hne Hout) as (Ek & Et & _ & Em & _).
  rewrite Hos in Em.
  assert (Eo : tpi_OutCommits (public_inputs inp) = ToBytes32 <$> (NoteSecret_Commitment <$> [payment; change])).
  { unfold public_inputs, Public, OutCommitments. cbn. by rewrite Hos. }
  assert (Hvc : 0 ≤ ns_Value change < 2 ^ 64).
  { destruct (wo_notes _ Hw _ _ La) as [_ _ _ _ Va]. destruct (wo_notes _ Hw _ _ Lb) as [_ _ _ _ Vb].
    pose proof (Hvals _ _ La). pose proof (Hvals _ _ Lb). cbn beta in *.
    unfold note_value in *. unfold change. cbn [freshNoteSecret ns_Value]. lia. }
  intros bl pre post Ebl Hdiff Hcp Hcc grown. unfold replayBlock. subst grown. rewrite Ebl.
  split; intros Hroom; [eapply (output_received _ _ _ _ _ _ _ _ 0)|eapply (output_received _ _ _ _ _ _ _ _ 1)];
    try eassumption; try reflexivity; try (cbn; congruence); try (cbn; lia).
  - rewrite Eo. apply not_elem_of_app. split; [|exact Hcp]. cbn. intros ?%list_elem_of_singleton. by apply Hdiff.
  - rewrite Eo. apply not_elem_of_app. split; [|exact Hcc]. cbn. by intros ?%elem_of_nil.
Qed.

(** C13: the mirrors are the node's trees. When a node accepts every transaction of a batch,
    a client that had its eligibility tree and replays the block has its new eligibility
    tree, and a voter whose mint is in the block then finds itself eligible; a wallet that
    had its note tree has its new note tree, if the block redeems no staked position. *)
Theorem mirrors_follow_node `{SHA : Sha256, M3 : Mode3, SG : Mode3Signer, ED : Ed25519, BR : BigRat,
    FR : Fr, FL : !FrLaws, MM : MiMC, ML : !MiMCLaws, MF : !MimcField, GR : !Groth16,
    XX : X25519, HK : Hkdf, AE : Aead} json_marshal deps entries s results s' b :
  ProcessBatch json_marshal deps entries s = (results, s') → Forall (λ r, rs_Error r = None) results →
  b_Batch b = e_Tx <$> entries →
  (∀ w : GovWallet.Wallet, st_EligibilityTree s = Some (GovWallet.w_tree w) →
     st_EligibilityTree s' = Some (GovWallet.w_tree (GovWallet.replayBlock w b)) ∧
     (∀ t pub, gov_ok w → t ∈ b_Batch b → tx_Kind t = TxNFTMint → tx_NFTMint t = Some pub →
        nmpi_VoterCommitment pub = GovWallet.VoterCommitment w →
        ZkTree.used (GovWallet.w_tree w) + Z.of_nat (length entries) ≤ TreeSize →
        GovWallet.Eligible (GovWallet.replayBlock w b) = true)) ∧
  (∀ w : Wallet, st_ZKTree s = Some (w_tree w) → Forall (λ e, tx_Kind (e_Tx e) ≠ TxUnstake) entries →
     st_ZKTree s' = Some (w_tree (replayBlock w b))).
Proof.
  intros E HF Hb. destruct (ProcessBatch_trees _ _ _ _ _ _ E HF) as [Hz He]. split.
  - intros w Hw. split.
    + rewrite He, Hw. unfold GovWallet.replayBlock. rewrite gov_replay_tree, Hb, <-list_fmap_compose. done.
    + intros t pub Hok Hin Hk Hp Hc Hroom. eapply gov_replay_finds; try done.
      by rewrite Hb, length_fmap.
  - intros w Hw Hu. rewrite Hz, Hw. unfold replayBlock. rewrite wallet_replay_tree, Hb, <-list_fmap_compose.
    cbn [fmap option_fmap option_map]. do 3 f_equal. apply Forall_fmap_ext_1. eapply Forall_impl; [exact Hu|].
    intros e Hne. symmetry. by apply replayed_is_canonical.
Qed.


(** C15: the builder builds nothing the checks refuse. Whatever method of the builder returned
    a transaction, of whatever kind it is, as long as the commitment or nullifier it binds is
    not the empty hash, it passes the intake checks of every node that admits it (fresh,
    small, signer not held, co-signature allowed): identifier, both signatures and the inputs
    of its kind are in order, so that if the node rejects it, other than a redemption, it is
    the effect itself, in stage 4, that fails. *)
Theorem built_tx_reaches_execution `{SHA : Sha256, M3 : Mode3, SG : Mode3Signer, ED : Ed25519,
    ES : Ed25519Signer, BR : BigRat, FR : Fr, MM : MiMC, MF : !MimcField, GR : !Groth16, PR : !Groth16Prover,
    PL : !ProverLaws} json_marshal deps b t at_ s :
  builder_keys b → builds b t → binds_zero t = false → admits json_marshal deps t at_ s →
  well_formed t ∧
  (tx_Kind t ≠ TxUnstake → ∀ t' err s',
     processOne json_marshal deps t at_ s = (t', Some err, s') → se_Stage err = 4).
Proof.
  intros Hb Hbuilt Hz Ha. destruct (builds_well_formed b t Hb Hbuilt Hz) as [W Hk]. split; [exact W|].
  intros Hu t' err s' E. by eapply plain_reaches_execution.
Qed.

(** A mint claim binds what its proposer can open. On a node with the matching mint or
    stake key and no such proposal yet, the ballot [ProposeMint] builds is accepted and the
    stored proposal binds the claimed amount to the commitment of the returned note, worth
    the amount net of the fee; the ballot [ProposeMintStaked] builds for the node's epoch
    binds it to the commitment of the returned position, worth the whole amount. *)
Theorem mint_claims_bind `{SHA : Sha256, M3 : Mode3, SG : Mode3Signer, ED : Ed25519, ES : Ed25519Signer,
    BR : BigRat, FR : Fr, FL : !FrLaws, MM : MiMC, ML : !MiMCLaws, MF : !MimcField, FE : !Frontend,
    L : !FrontendLaws, GR : !Groth16, PR : !Groth16Prover, PL : !ProverLaws}
    json_marshal deps sys msys (w : GovWallet.Wallet) b id approve amount e sk rho t at_ s :
  eligible_proof sys w id e → polls deps sys w s → builder_keys b →
  Rows.GetProposal id (st_Store s) = None → 0 ≤ amount < 2 ^ 64 → 0 ≤ d_Epoch deps < 2 ^ 32 →
  binds_zero t = false → admits json_marshal deps t at_ s →
  (∀ n, complete_mint msys → d_MintZK deps = Some (sys_vk msys) →
     Builder.ProposeMint b id approve amount msys e sk rho = Ok (t, n) →
     ns_Value n = MintNetAmount amount ∧
     ∃ t' s' r, processOne json_marshal deps t at_ s = (t', None, s') ∧
       Rows.GetProposal id (st_Store s') = Some r ∧ pr_Tallied r = false ∧ pr_MintAmount r = amount ∧
       pr_MintStaked r = false ∧ pr_MintOutCommit r = ToBytes32 (NoteSecret_Commitment n)) ∧
  (∀ n, complete_stake msys → d_StakeZK deps = Some (sys_vk msys) →
     Builder.ProposeMintStaked b id approve amount (d_Epoch deps) msys e sk rho = Ok (t, n) →
     ss_Principal n = amount ∧ ss_StartEpoch n = d_Epoch deps ∧
     ∃ t' s' r, processOne json_marshal deps t at_ s = (t', None, s') ∧
       Rows.GetProposal id (st_Store s') = Some r ∧ pr_Tallied r = false ∧ pr_MintAmount r = amount ∧
       pr_MintStaked r = true ∧ pr_StakePositionCommit r = StakeWallet.commitment n).
Proof.
  intros Hel Hpo Hb Hnone Ha Hep Hz Hadm.
  assert (Hacc : ∀ t0 pub, Builder.finalize b t0 = Ok t → drafted t0 → tx_Kind t0 = TxVote →
    tx_Vote t0 = Some pub → tx_VoteEligibility t0 = Some e → vpi_ProposalID pub = id →
    check_proposal deps s pub = Ok tt →
    ∃ t' s' r, processOne json_marshal deps t at_ s = (t', None, s') ∧
      Rows.GetProposal id (st_Store s') = Some r ∧ pr_Tallied r = false ∧
      (pr_MintAmount r, pr_MintStaked r, pr_MintOutCommit r, pr_StakePositionCommit r) =
      (vpi_MintAmount pub, vpi_MintStaked pub, vpi_MintOutCommit pub, vpi_StakePositionCommit pub)).
  { intros t0 pub Ef Hd Hk Hv He <- Hck.
    destruct (ballot_accepted json_marshal deps sys w b t0 t pub e at_ s)
      as (t' & s' & r & E & [H1 H2 _ _ H5]); try done.
    { unfold takes. by rewrite Hnone. }
    exists t', s', r. split_and!; try done. by rewrite (H5 Hnone). }
  split; intros n Hsys Hkey E.
  - destruct (ProposeMint_drafts deps b id approve amount msys e sk rho t n s Hsys Hkey E Hz)
      as (t0 & pub & Ef & Hd & Hk & Hv & He & Hid & Hck & Em & Es & Ec & Hn). split; [exact Hn|].
    destruct (Hacc t0 pub) as (t' & s' & r & E1 & E2 & E3 & [= Q1 Q2 Q3 _]); try done.
    exists t', s', r. by rewrite Q1, Q2, Q3, Em, Es, Ec.
  - destruct (ProposeMintStaked_drafts deps b id approve amount msys e sk rho t n s Hsys Hkey Ha Hep E Hz)
      as (t0 & pub & Ef & Hd & Hk & Hv & He & Hid & Hck & Em & Es & Ec & ->). split; [done|]. split; [done|].
    destruct (Hacc t0 pub) as (t' & s' & r & E1 & E2 & E3 & [= Q1 Q2 _ Q3]); try done.
    exists t', s', r. by rewrite Q1, Q2, Q3, Em, Es, Ec.
Qed.

(** A found position redeems. After any sync of a stake wallet that knows a position's
    secret, if the wallet found it, its proof exists at the wallet's root; and the
    transaction [Unstake] builds from it for the node's epoch is accepted by a node with the
    matching key that recognizes the root, has not seen the nullifier and has room: the
    nullifier is spent, and a note of principal plus yield, which the builder returned, is
    appended to the note tree. *)
Theorem found_position_redeems `{SHA : Sha256, M3 : Mode3, SG : Mode3Signer, ED : Ed25519,
    ES : Ed25519Signer, BR : BigRat, FR : Fr, FL : !FrLaws, MM : MiMC, ML : !MiMCLaws, MF : !MimcField,
    FE : !Frontend, L : !FrontendLaws, GR : !Groth16, PR : !Groth16Prover, PL : !ProverLaws}
    json_marshal deps tr w w' sys b pos root mp sk rho t n at_ s :
  complete_unstake sys → builder_keys b → stake_ok w → StakeWallet.Sync tr w = (Ok tt, w') →
  StakeWallet.Found w' pos = true → 0 ≤ ss_Principal pos < 2 ^ 64 → 0 ≤ ss_StartEpoch pos < 2 ^ 32 →
  StakeWallet.CurrentRoot w' = Ok root → StakeWallet.ProofFor w' pos = Ok mp →
  Builder.Unstake b pos mp root (d_Epoch deps) sys sk rho = Ok (t, n) → binds_zero t = false →
  redeems deps sys root (ToBytes32 (StakeSecret_Nullifier pos)) s → admits json_marshal deps t at_ s →
  ns_Value n = FinalAmount (ss_Principal pos) (ss_StartEpoch pos) (d_Epoch deps) ∧
  ∃ t' s', processOne json_marshal deps t at_ s = (t', None, s') ∧
    Rows.nullifiers (st_Store s') =
      {[ToBytes32 (StakeSecret_Nullifier pos)]} ∪ Rows.nullifiers (st_Store s) ∧
    st_ZKTree s' = (λ tree, insert_list tree [ToBytes32 (NoteSecret_Commitment n)]) <$> st_ZKTree s.
Proof.
  intros Hsys Hb Hw Hsync Hf Hp He Hroot Hmp E Hz Hr Ha.
  destruct (stake_Sync_ok tr w w' Hw Hsync) as (Hw' & _ & _).
  destruct (Unstake_drafts b w' pos mp root (d_Epoch deps) sys sk rho t n Hsys Hw' Hf Hp He Hmp Hroot E Hz)
    as (Hn & t0 & pub & Ef & Hd & Hk & Hu & Hc & Hnu & Hrt & Hfa & Hv). split; [exact Hn|].
  rewrite <-Hnu in Hr |- *. rewrite <-Hrt in Hr. by eapply redemption_accepted.
Qed.

(** What the client reads is what the node holds. Connected to a node's query server,
    the client gets the head, the stored block at a height or not-found, whether a nullifier
    is spent, an NFT, a hold or a proposal or not-found, and the status of a transaction;
    and no answer about a proposal depends on its ballots: two nodes whose proposals differ
    in sealed and revealed ballots only answer alike. *)
Theorem client_reads_node `{SHA : Sha256} srv :
  (is_bytes (Chain.headHash (Query.s_chn srv)) → length (Chain.headHash (Query.s_chn srv)) = 32%nat →
   QueryClient.Status (connected srv) =
     Ok {| QueryClient.st_Height := Chain.headHeight (Query.s_chn srv);
           QueryClient.st_HeadHash := Chain.headHash (Query.s_chn srv);
           QueryClient.st_GenesisMs := Query.s_genesis srv |}) ∧
  (∀ h, 0 ≤ h < 2 ^ 64 →
     QueryClient.Block_ (connected srv) h =
       from_option Ok (Err QueryClient.ErrNotFound)
         (ChainRows.GetBlock h (Chain.ch_store (Query.s_chn srv)))) ∧
  (∀ x, is_bytes x → length x = 32%nat →
     QueryClient.NullifierSpent (connected srv) x = Ok (Rows.IsNullifierSpent x (Query.s_store srv)) ∧
     QueryClient.NoteExists (connected srv) x = Ok (bool_decide (x ∈ Query.s_notes srv)) ∧
     QueryClient.NFT (connected srv) x =
       from_option Ok (Err QueryClient.ErrNotFound) (Rows.GetNFT x (Query.s_store srv)) ∧
     QueryClient.Hold (connected srv) x =
       from_option Ok (Err QueryClient.ErrNotFound) (Rows.GetHold x (Query.s_store srv)) ∧
     QueryClient.TxStatus (connected srv) x =
       Ok (match ChainRows.GetTxHeight x (Chain.ch_store (Query.s_chn srv)) with
           | Some h => ("committed"%string, Some h)
           | None => (if Mempool.Contains (Query.s_mempool srv) x then "pending"%string
                      else "unknown"%string, None)
           end)) ∧
  (∀ id, id ≠ EmptyString →
     QueryClient.Proposal_ (connected srv) id =
       from_option (Ok ∘ Query.project) (Err QueryClient.ErrNotFound) (Rows.GetProposal id (Query.s_store srv))) ∧
  QueryClient.Proposals (connected srv) = Ok (Query.project <$> Rows.ListProposals (Query.s_store srv)) ∧
  (∀ p ballots reveals,
     Query.project (p <| pr_Commitments := ballots |> <| pr_Reveals := reveals |>) = Query.project p).
Proof.
  split_and!.
  - intros Hb Hl. unfold QueryClient.Status, QueryClient.get, connected. cbn. by rewrite ParseHash_encode.
  - intros h Hh. unfold QueryClient.Block_, QueryClient.get, connected. cbn. unfold Query.handleBlock.
    rewrite ParseUint_format by done. by destruct (ChainRows.GetBlock _ _).
  - intros x Hb Hl. unfold QueryClient.NullifierSpent, QueryClient.NoteExists, QueryClient.NFT, QueryClient.Hold, QueryClient.TxStatus,
      QueryClient.get, connected. cbn [mbind result_bind Query.serve].
    unfold Query.handleNullifier, Query.handleNote, Query.handleNFT, Query.handleHold, Query.handleTx, Query.parseNFTID.
    rewrite !parseHash_encode by done. split_and!; [done|done|by destruct (Rows.GetNFT _ _)|by destruct (Rows.GetHold _ _)|].
    destruct (ChainRows.GetTxHeight _ _); [done|]. by destruct (Mempool.Contains _ _).
  - intros id Hid. unfold QueryClient.Proposal_, QueryClient.get, connected. cbn [mbind result_bind Query.serve].
    unfold Query.handleProposal. rewrite bool_decide_false by done. by destruct (Rows.GetProposal _ _).
  - done.
  - done.
Qed.
End ClientSpec.

(** * A concrete client *)

(** The primitives of [Sample], [Prover] and [Memo]. *)
Module ClientModel.
Import FrModel FrontendModel GrothModel PipelineModel.
Export SignerModel MemoModel ProverModel.
Lemma builder_keys_of k : builder_keys (Builder.New [k] [k]).
Proof. split; [apply keys|by left]. Qed.

(** The node trusts [AnyKey] for every circuit. *)
Definition deps_any : Deps := deps <| d_ZK := Some AnyKey |>.

Lemma admitted `{SHA : Sha256} t s : st_Silent s = None → st_Governance s = None → admits json deps_any t Minute s.
Proof.
  intros Hs Hg. split; [done| | |].
  - intros size. cbn. by intros [= <-].
  - unfold check_rate, mbind, call_bind, gets. by rewrite Hs.
  - right. intros g. by rewrite Hg.
Qed.

(** ** The shielded wallet *)

Definition url : string := "http".
Definition draw (k : Z) : NoteDraw := {| nd_sk := of_Z (20 + k); nd_rho := of_Z (30 + k) |}.
Definition draws : Draws :=
  {| dw_change := draw 1; dw_payment := draw 2;
     dw_memos := λ k, {| md_ephemeral := [40 + Z.of_nat k]; md_nonce := replicate 12 (50 + Z.of_nat k) |} |}.
Lemma draws_ok k : draw_ok (dw_memos draws k).
Proof. done. Qed.

Definition or_new (r : result Wallet) : Wallet :=
  match r with
  | Ok w => w
  | Err _ => {| w_pk := []; w_sk := []; w_shieldedPub := []; w_shieldedKey := []; w_tree := ZkTree.NewTree;
                w_syncedHeight := 0; w_synced := false; w_notes := ∅ |}
  end.
Definition fresh (k : Z) : Wallet := or_new (New [k] [k] (pad [k]) [k] url).

(** A server at genesis. *)
Definition server : Query.Server :=
  {| Query.s_store := Rows.empty; Query.s_notes := ∅;
     Query.s_chn := {| Chain.ch_store := ChainRows.SetHead 0 (ChainRows.PutBlock (Chain.genesis 0) ChainRows.empty);
                       Chain.headHeight := 0; Chain.headHash := HashBlock (Chain.genesis 0) |};
     Query.s_mempool := Mempool.NewMempool; Query.s_genesis := 0 |}.

(** The payer imports the two notes of the node's tree. *)
Definition funding : list op := [OpSync (connected server); OpImport (note 7); OpImport (note 5)].
Definition payer : Wallet := foldl apply_op (fresh 7) funding.
Definition order : list (Hash * ownedNote) := map_to_list (w_notes payer).

Lemma payer_ok : wallet_ok payer.
Proof.
  apply run_ops_ok; [|by apply (New_wallet_ok [7] [7] (pad [7]) [7] url)].
  repeat constructor; cbn; lia.
Qed.
End ClientModel.

(** * Witnesses *)

Module ClientWitness.
Import FrModel FrontendModel GrothModel PipelineModel ClientModel.

(** A receiver's wallet, and the transfer of 4 with a fee of 2 to it. *)
Definition receiver : Wallet := fresh 9.
Definition paying : result ShieldedTx * Wallet :=
  BuildTransfer order sys (x25519_public (w_shieldedKey receiver)) 4 2 draws payer.

Lemma order_ok : order ≡ₚ map_to_list (w_notes payer).
Proof. reflexivity. Qed.
Definition values_small : bool := forallb (λ kn, ns_Value (on_secret kn.2) <? 2 ^ 63) order.
Lemma values_small_true : values_small = true.
Proof. vm_compute. reflexivity. Qed.
Lemma values_ok : map_Forall (λ _ n, ns_Value (on_secret n) < 2 ^ 63) (w_notes payer).
Proof.
  apply map_Forall_lookup_2. intros c n Hn. apply elem_of_map_to_list in Hn. fold order in Hn.
  pose proof values_small_true as HF. unfold values_small in HF. rewrite forallb_forall in HF. apply Z.ltb_lt.
  exact (HF (c, n) (proj1 (list_elem_of_In _ _) Hn)).
Qed.

Lemma payer_notes : KnownNoteCount payer = 2.
Proof. vm_compute. reflexivity. Qed.

Lemma wallet_notes_are_provable_witness :
  KnownNoteCount payer = 2 ∧
  map_Forall (λ c n, FieldElementFromBytes32 c = NoteSecret_Commitment (on_secret n) ∧
    on_nullifier n = ToBytes32 (NoteSecret_Nullifier (on_secret n)) ∧
    ∃ p, ZkTree.Prove (w_tree payer) (on_index n) = Ok p ∧ ZkTree.pf_Root p = CurrentRoot payer ∧
      at_ (ZkTree.pf_Path p) 0 = NoteSecret_Commitment (on_secret n) ∧
      VerifyProof (CurrentRoot payer) (ZkTree.pf_Path p) (ValueElement (u64 (ZkTree.pf_Index p))))
    (w_notes payer).
Proof.
  split; [exact payer_notes|].
  apply (ClientSpec.wallet_notes_are_provable [7] [7] (pad [7]) [7] url (fresh 7) funding); [reflexivity|].
  repeat constructor; cbn; lia.
Defined.

Definition pays : bool := is_ok paying.1.
Lemma paying_ok : pays = true.
Proof. vm_compute. reflexivity. Qed.
Definition paid : ShieldedTx := match paying.1 with Ok t => t | Err _ => transfer end.
Lemma paying_eq : paying = (Ok paid, paying.2).
Proof. unfold paid. pose proof paying_ok as H. unfold pays in H. destruct paying as [[t|e] w']; [done|discriminate H]. Qed.
Definition paid_nullifiers : list Hash := match tx_Transfer paid with Some p => tpi_Nullifiers p | None => [] end.
Definition paid_distinct : bool := bool_decide (NoDup paid_nullifiers) && negb (bool_decide (tx_FeeCommit paid = [])).
Definition root_known : bool :=
  RootHistory.Contains (RootHistory.NewRootHistory (ZkTree.Root tree)) (CurrentRoot payer) &&
  zk_room 2 (st_ZKTree state).
Lemma paid_checks : paid_distinct && negb (bool_decide (tx_FeeCommit paid = hash_zero)) && root_known = true.
Proof. vm_compute. reflexivity. Qed.

Lemma wallet_transfer_accepted_witness :
  ∃ t' s', processOne json deps_any paid Minute state = (t', None, s') ∧
    Rows.nullifiers (st_Store s') = list_to_set paid_nullifiers ∪ Rows.nullifiers (st_Store state).
Proof.
  destruct (ClientSpec.wallet_transfer_accepted json deps_any sys payer order
    (x25519_public (w_shieldedKey receiver)) 4 2 draws paid paying.2)
    as (a & b & pub & _ & _ & _ & _ & _ & Et & _ & Enull & _ & H).
  1: apply complete. 1: apply keys. 1: exact payer_ok. 1: exact order_ok. 1-3: lia. 1: exact values_ok.
  1: exact paying_eq.
  assert (Ep : paid_nullifiers = tpi_Nullifiers pub) by (unfold paid_nullifiers; by rewrite Et).
  pose proof paid_checks as Hc. unfold paid_distinct, root_known in Hc.
  apply andb_true_iff in Hc as [[[Hd _]%andb_true_iff Hf]%andb_true_iff [Hr Hz]%andb_true_iff].
  rewrite Ep in Hd |- *. destruct (H Minute state) as (t' & s' & E & En & _).
  - split; [done| | |exact Hz].
    + intros h [= <-]. exact Hr.
    + apply Forall_forall. intros n _. split; apply not_elem_of_empty.
  - rewrite Enull in Hd. apply bool_decide_eq_true, NoDup_cons in Hd as [Hd _].
    intros E. apply Hd. rewrite E. by left.
  - by apply admitted.
  - by apply negb_true_iff, bool_decide_eq_false in Hf.
  - exists t', s'. exact (conj E En).
Defined.
(** The block that holds the payment. *)
Definition block_of (ts : list ShieldedTx) : Block := let b := Chain.genesis 0 in b <| b_Batch := ts |>.
Definition chosen : list (Hash * ownedNote) := default [] (selectInputsLocked order 4 2).
Definition payment : NoteSecret := freshNoteSecret 4 (dw_payment draws).
Definition change : NoteSecret := freshNoteSecret (sum_values (snd <$> chosen) - 4 - 2) (dw_change draws).
Definition change_6_distinct : bool :=
  (ns_Value change =? 6) && (length chosen =? 2)%nat &&
  negb (bool_decide (ToBytes32 (NoteSecret_Commitment payment) = ToBytes32 (NoteSecret_Commitment change))).
Lemma change_checks : change_6_distinct = true.
Proof. vm_compute. reflexivity. Qed.
Lemma chosen_eq : selectInputsLocked order 4 2 = Some chosen.
Proof.
  pose proof change_checks as H. unfold change_6_distinct in H.
  apply andb_true_iff in H as [[_ H]%andb_true_iff _]. revert H. unfold chosen.
  destruct (selectInputsLocked order 4 2); [reflexivity|discriminate].
Qed.
Definition receiver_room : bool :=
  ZkTree.used (w_tree receiver) + Z.of_nat (length (concat (replayed_commitments <$> [paid]))) <=? TreeSize.
Lemma receiver_room_true : receiver_room = true.
Proof. vm_compute. reflexivity. Qed.

Lemma payment_arrives_witness :
  ∃ i, w_notes (replayBlock receiver (block_of [paid])) !! ToBytes32 (NoteSecret_Commitment payment) =
         Some (own payment i).
Proof.
  destruct (ClientSpec.payment_arrives sys payer receiver order 4 2 draws chosen) as (t & w' & E & H).
  1: apply complete. 1: apply keys. 1: exact payer_ok. 1: exact order_ok. 1-3: lia. 1: exact values_ok.
  1: exact chosen_eq. 1: reflexivity. 1: exact draws_ok.
  { intros k pub Hk. cbn [x25519_ECDH x25519]. destruct (decide (length pub = 32%nat)) as [Hl|Hl].
    - rewrite bool_decide_true by exact Hl. eexists. reflexivity.
    - exfalso. destruct k as [|[|k]]; cbn in Hk; [| |discriminate]; injection Hk as <-; by apply Hl, pad_length. }
  assert (Et : Ok t = Ok paid) by exact (eq_trans (eq_sym (f_equal fst E)) (f_equal fst paying_eq)).
  apply Ok_inj in Et. rewrite Et in H.
  pose proof change_checks as Hc. unfold change_6_distinct in Hc. apply andb_true_iff in Hc as [_ Hc].
  apply negb_true_iff, bool_decide_eq_false in Hc.
  destruct (H (block_of [paid]) [] [] eq_refl Hc) as [Hr _]; [apply not_elem_of_nil..|].
  apply Hr. pose proof receiver_room_true as Hroom. unfold receiver_room in Hroom. apply Z.leb_le in Hroom.
  exact Hroom.
Defined.
(** ** The mirrors *)

(** A voter whose mirror has just found its own mint. *)
Definition gov0 : GovWallet.Wallet :=
  match GovWallet.New [7] url with
  | Ok w => w
  | Err _ => {| GovWallet.w_voterSK := of_Z 0; GovWallet.w_tree := ZkTree.NewTree; GovWallet.w_syncedHeight := 0;
                GovWallet.w_synced := false; GovWallet.w_myIndex := 0; GovWallet.w_haveIndex := false |}
  end.
Definition own_mint : ShieldedTx :=
  mint_tx <| tx_NFTMint ::= option_map (λ pub, pub <| nmpi_VoterCommitment := GovWallet.VoterCommitment gov0 |>) |>.
Definition own_entry : Entry := {| e_Tx := own_mint; e_SubmittedAt := Minute |}.
Definition voter : GovWallet.Wallet := GovWallet.replayBlock gov0 (block_of [own_mint]).

Lemma gov0_ok : gov_ok gov0.
Proof. apply (gov_New_ok [7] url). reflexivity. Qed.
Lemma voter_ok : gov_ok voter.
Proof. unfold voter, GovWallet.replayBlock. apply gov_replay_ok, gov0_ok. Qed.

Definition minted : list Result * State := ProcessBatch json deps_any [own_entry] state.
Definition minted_clean : bool := forallb (λ r, match rs_Error r with None => true | Some _ => false end) minted.1.
Lemma minted_clean_true : minted_clean = true.
Proof. vm_compute. reflexivity. Qed.

Lemma mirrors_follow_node_witness :
  st_EligibilityTree minted.2 = Some (GovWallet.w_tree voter) ∧ GovWallet.Eligible voter = true.
Proof.
  pose proof minted_clean_true as Hc. unfold minted_clean in Hc. rewrite forallb_forall in Hc.
  destruct (ClientSpec.mirrors_follow_node json deps_any [own_entry] state minted.1 minted.2 (block_of [own_mint]))
    as [H _].
  - apply surjective_pairing.
  - apply Forall_forall. intros r Hr. specialize (Hc r (proj1 (list_elem_of_In _ _) Hr)).
    destruct (rs_Error r); [discriminate Hc|reflexivity].
  - reflexivity.
  - destruct (H gov0 eq_refl) as [H1 H2]. split; [exact H1|].
    eapply (H2 own_mint).
    + exact gov0_ok.
    + apply list_elem_of_here.
    + reflexivity.
    + reflexivity.
    + reflexivity.
    + vm_compute. discriminate.
Defined.

(** ** Ballots *)

Definition polling : State :=
  state <| st_EligibilityRoots := Some (RootHistory.NewRootHistory (GovWallet.CurrentRoot voter)) |>.
Definition no_eligibility : VoteEligibilityProof := {| vep_Proof := []; vep_MerkleRoot := []; vep_Nullifier := [] |}.
Definition or_no_proof (r : result VoteEligibilityProof) : VoteEligibilityProof :=
  match r with Ok e => e | Err _ => no_eligibility end.
Definition or_transfer (r : result ShieldedTx) : ShieldedTx := match r with Ok t => t | Err _ => transfer end.
Definition or_pair {A} (a : A) (r : result (ShieldedTx * A)) : ShieldedTx * A :=
  match r with Ok x => x | Err _ => (transfer, a) end.
Lemma or_no_proof_eq r : is_ok r = true → r = Ok (or_no_proof r).
Proof. by destruct r. Qed.
Lemma or_transfer_eq r : is_ok r = true → r = Ok (or_transfer r).
Proof. by destruct r. Qed.
Lemma or_pair_eq {A} (a : A) r : is_ok r = true → r = Ok ((or_pair a r).1, (or_pair a r).2).
Proof. by destruct r as [[]|]. Qed.

Definition proved_id : result VoteEligibilityProof := GovWallet.BuildEligibilityProof voter sys "p".
Definition ballot_proof : VoteEligibilityProof := or_no_proof proved_id.
Definition cast_ : result ShieldedTx := Builder.Vote (Builder.New [7] [7]) "p" true "k" "v" ballot_proof.
Definition revealed : result ShieldedTx := Builder.VoteReveal (Builder.New [8] [8]) "p" true ballot_proof.
Definition ballots_built : bool :=
  is_ok proved_id && is_ok cast_ && is_ok revealed &&
  RootHistory.Contains (RootHistory.NewRootHistory (GovWallet.CurrentRoot voter)) (GovWallet.CurrentRoot voter).
Lemma ballots_built_true : ballots_built = true.
Proof. vm_compute. reflexivity. Qed.
Lemma ballots :
  proved_id = Ok ballot_proof ∧ cast_ = Ok (or_transfer cast_) ∧ revealed = Ok (or_transfer revealed) ∧
  RootHistory.Contains (RootHistory.NewRootHistory (GovWallet.CurrentRoot voter)) (GovWallet.CurrentRoot voter) = true.
Proof.
  pose proof ballots_built_true as H. unfold ballots_built in H.
  apply andb_true_iff in H as [[[H1 H2]%andb_true_iff H3]%andb_true_iff H4]. split_and!; [| | |exact H4].
  - exact (or_no_proof_eq _ H1).
  - exact (or_transfer_eq _ H2).
  - exact (or_transfer_eq _ H3).
Qed.
Lemma polling_polls : polls deps_any sys voter polling.
Proof. split; [reflexivity|]. eexists. split; [reflexivity|]. exact (proj2 (proj2 (proj2 ballots))). Qed.


(** A deposit, which the node of [Sample] rejects in stage 4: it authorizes no asset. *)
Definition quoted : Oracle.Quote :=
  {| Oracle.qt_PriceUSD := Decimal.FromInt 2; Oracle.qt_ATRUSD := Decimal.FromInt 3; Oracle.qt_Timestamp := 0 |}.
Definition deposit : result ShieldedTx :=
  Builder.BankDepositFromQuote (Builder.New [7] [7]) "BTC" quoted (replicate 32 5).
Definition intake_checks (r : result ShieldedTx) (outcome : ShieldedTx → ShieldedTx * option StageError * State)
    : bool :=
  match r with
  | Ok t => negb (binds_zero t) && negb (bool_decide (tx_Kind t = TxUnstake)) && (err_stage (outcome t) =? 4)
  | Err _ => false
  end.
Lemma intake_checked r outcome : intake_checks r outcome = true →
  ∃ t, r = Ok t ∧ binds_zero t = false ∧ tx_Kind t ≠ TxUnstake ∧ (err_stage (outcome t) =? 4) = true.
Proof.
  destruct r as [t|]; [|done]. cbn. intros [[Hz%negb_true_iff Hk%negb_true_iff]%andb_true_iff H]%andb_true_iff.
  apply bool_decide_eq_false in Hk. by exists t.
Qed.
Lemma deposit_built : intake_checks deposit (λ t, processOne json deps_any t Minute state) = true.
Proof. vm_compute. reflexivity. Qed.
Lemma rejected_at (r : ShieldedTx * option StageError * State) :
  (err_stage r =? 4) = true → ∃ t' err s', r = (t', Some err, s').
Proof. destruct r as [[t' [err|]] s']; [|done]. intros _. by eexists _, _, _. Qed.

Lemma built_tx_reaches_execution_witness :
  ∃ t, deposit = Ok t ∧ well_formed t ∧
    ∃ t' err s', processOne json deps_any t Minute state = (t', Some err, s') ∧ se_Stage err = 4.
Proof.
  destruct (intake_checked _ _ deposit_built) as (t & E & Hz & Hk & H4). exists t. split; [exact E|].
  destruct (ClientSpec.built_tx_reaches_execution json deps_any (Builder.New [7] [7]) t Minute state) as [W Hstage].
  - apply builder_keys_of.
  - exact (build_deposit _ _ _ _ _ E).
  - exact Hz.
  - by apply admitted.
  - split; [exact W|]. destruct (rejected_at _ H4) as (t' & err & s' & Er).
    exists t', err, s'. split; [exact Er|]. exact (Hstage Hk t' err s' Er).
Defined.

(** ** Claims *)

Definition no_note : NoteSecret := note 0.
Definition claimed : result (ShieldedTx * NoteSecret) :=
  Builder.ProposeMint (Builder.New [7] [7]) "p" true 100 sys ballot_proof (of_Z 61) (of_Z 62).
Definition claim_tx : ShieldedTx := (or_pair no_note claimed).1.
Definition claim_built : bool := is_ok claimed && negb (binds_zero claim_tx).
Lemma claim_built_true : claim_built = true.
Proof. vm_compute. reflexivity. Qed.

Lemma mint_claims_bind_witness :
  let n := (or_pair no_note claimed).2 in
  ns_Value n = MintNetAmount 100 ∧
  ∃ t' s' r, processOne json deps_any claim_tx Minute polling = (t', None, s') ∧
    Rows.GetProposal "p" (st_Store s') = Some r ∧ pr_Tallied r = false ∧ pr_MintAmount r = 100 ∧
    pr_MintStaked r = false ∧ pr_MintOutCommit r = ToBytes32 (NoteSecret_Commitment n).
Proof.
  intros n. pose proof claim_built_true as H. unfold claim_built in H.
  apply andb_true_iff in H as [H1 H2%negb_true_iff].
  destruct (BuildEligibilityProof_Ok sys voter "p" (complete _ _ _) voter_ok
    (BuildEligibilityProof_eligible _ _ _ _ (proj1 ballots))) as (e & He & Hel).
  assert (Ee : ballot_proof = e) by exact (Ok_inj _ _ (eq_trans (eq_sym (proj1 ballots)) He)).
  rewrite <-Ee in Hel.
  destruct (ClientSpec.mint_claims_bind json deps_any sys sys voter (Builder.New [7] [7]) "p" true 100 ballot_proof
    (of_Z 61) (of_Z 62) claim_tx Minute polling) as [H _].
  1: exact Hel. 1: exact polling_polls. 1: apply builder_keys_of. 1: reflexivity. 1: lia.
  1: change (0 ≤ 3 < 2 ^ 32); lia. 1: exact H2. 1: by apply admitted.
  apply H; [apply complete|reflexivity|]. exact (or_pair_eq no_note claimed H1).
Defined.
(** ** Redemptions *)

Definition position : StakeSecret :=
  {| ss_Principal := 100; ss_StartEpoch := 1; ss_OwnerSK := of_Z 71; ss_Rho := of_Z 72 |}.
(** A passed and applied staked proposal. *)
Definition staked_proposal (id : string) (commit : Hash) : ProposalRecord :=
  due_proposal <| pr_ProposalID := id |> <| pr_MintStaked := true |> <| pr_StakePositionCommit := commit |>
               <| pr_Tallied := true |> <| pr_Passed := true |> <| pr_MintApplied := true |>.
Definition staked_server : Query.Server :=
  {| Query.s_store := Rows.PutProposal (staked_proposal "p" (StakeWallet.commitment position)) Rows.empty;
     Query.s_notes := ∅;
     Query.s_chn := Query.s_chn server; Query.s_mempool := Mempool.NewMempool; Query.s_genesis := 0 |}.

Definition new_stake_wallet : StakeWallet.Wallet :=
  {| StakeWallet.w_tree := ZkTree.NewTree; StakeWallet.w_synced := false; StakeWallet.w_remembered := ∅;
     StakeWallet.w_indices := ∅ |}.
Definition staker0 : StakeWallet.Wallet := StakeWallet.Remember new_stake_wallet position.
Definition staker : StakeWallet.Wallet := (StakeWallet.Sync (connected staked_server) staker0).2.
Lemma staker0_ok : stake_ok staker0.
Proof.
  apply Remember_ok. split; [exact tree_ok_new|intros c s H; discriminate H|intros c i H; discriminate H].
Qed.

Definition or_root (r : result elem) : elem := match r with Ok e => e | Err _ => of_Z 0 end.
Definition or_path (r : result ZkTree.Proof) : ZkTree.Proof := match r with Ok p => p | Err _ => no_proof end.
Lemma or_root_eq r : is_ok r = true → r = Ok (or_root r).
Proof. by destruct r. Qed.
Lemma or_path_eq r : is_ok r = true → r = Ok (or_path r).
Proof. by destruct r. Qed.

Definition stake_root : result elem := StakeWallet.CurrentRoot staker.
Definition stake_path : result ZkTree.Proof := StakeWallet.ProofFor staker position.
Definition redemption : result (ShieldedTx * NoteSecret) :=
  Builder.Unstake (Builder.New [7] [7]) position (or_path stake_path) (or_root stake_root) 3 sys (of_Z 81) (of_Z 82).
Definition redemption_tx : ShieldedTx := (or_pair no_note redemption).1.
Definition redeeming : State :=
  state <| st_StakeRoots := Some (RootHistory.NewRootHistory (or_root stake_root)) |>.
Definition redemption_built : bool :=
  is_ok stake_root && is_ok stake_path && is_ok redemption && negb (binds_zero redemption_tx) &&
  StakeWallet.Found staker position &&
  RootHistory.Contains (RootHistory.NewRootHistory (or_root stake_root)) (or_root stake_root) && zk_room 1 (st_ZKTree state).
Lemma redemption_built_true : redemption_built = true.
Proof. vm_compute. reflexivity. Qed.

Lemma found_position_redeems_witness :
  let n := (or_pair no_note redemption).2 in
  ns_Value n = FinalAmount 100 1 3 ∧
  ∃ t' s', processOne json deps_any redemption_tx Minute redeeming = (t', None, s') ∧
    Rows.nullifiers (st_Store s') =
      {[ToBytes32 (StakeSecret_Nullifier position)]} ∪ Rows.nullifiers (st_Store redeeming).
Proof.
  intros n. pose proof redemption_built_true as H. unfold redemption_built in H.
  apply andb_true_iff in H as
    [[[[[[H1 H2]%andb_true_iff H3]%andb_true_iff H4%negb_true_iff]%andb_true_iff H5]%andb_true_iff H6]%andb_true_iff H7].
  destruct (ClientSpec.found_position_redeems json deps_any (connected staked_server) staker0 staker sys
    (Builder.New [7] [7]) position (or_root stake_root) (or_path stake_path) (of_Z 81) (of_Z 82) redemption_tx n
    Minute redeeming) as (Hn & t' & s' & E & En & _).
  1: apply complete. 1: apply builder_keys_of. 1: exact staker0_ok. 1: reflexivity. 1: exact H5.
  1: change (0 ≤ 100 < 2 ^ 64); lia. 1: change (0 ≤ 1 < 2 ^ 32); lia.
  1: exact (or_root_eq _ H1). 1: exact (or_path_eq _ H2). 1: exact (or_pair_eq no_note redemption H3). 1: exact H4.
  { split; [reflexivity| | |exact H7].
    - eexists. split; [reflexivity|exact H6].
    - split; apply not_elem_of_empty. }
  1: by apply admitted.
  split; [exact Hn|]. exists t', s'. exact (conj E En).
Defined.

(** ** Queries *)

Lemma client_reads_node_witness :
  QueryClient.Block_ (connected server) 0 = Ok (Chain.genesis 0) ∧
  QueryClient.Block_ (connected server) 7 = Err QueryClient.ErrNotFound.
Proof.
  destruct (ClientSpec.client_reads_node server) as (_ & H & _).
  rewrite !H by lia. split; reflexivity.
Defined.
End ClientWitness.

(** * Findings *)

Module ClientFindings.

(** The wallet replays transfers only. After a node accepts a redemption, its note tree has
    the proceeds note that a wallet which mirrored it does not insert: every root and index
    the wallet computes from then on is another tree's. *)
Theorem redemption_is_not_replayed `{SHA : Sha256, M3 : Mode3, ED : Ed25519, BR : BigRat, FR : Fr, MM : MiMC,
    MF : !MimcField, GR : !Groth16, XX : X25519, HK : Hkdf, AE : Aead} json_marshal deps t at_ s t' s' w c :
  tx_Kind t = TxUnstake → tx_Commitments t = [c] → st_ZKTree s = Some (w_tree w) →
  processOne json_marshal deps t at_ s = (t', None, s') →
  st_ZKTree s' = Some (insert_or_keep (w_tree w) c) ∧ w_tree (replayTx w t) = w_tree w.
Proof.
  intros Hk Hc Hw E. pose proof (processOne_cases json_marshal deps t at_ s) as H. rewrite E in H.
  destruct H as (? & ? & ? & ? & ? & A). apply accepted_notes in A as [Hz _]. split.
  - rewrite Hz, Hw. unfold note_commitments. by rewrite Hk, Hc.
  - unfold replayTx. by rewrite Hk.
Qed.

(** A sync never removes a note: a note spent by another copy of the wallet, or by a
    transfer that it built and forgot, is counted and selected for ever. *)
Theorem sync_keeps_every_note `{FR : Fr, MM : MiMC, MF : !MimcField, XX : X25519, HK : Hkdf, AE : Aead}
    tr (w : Wallet) c :
  is_Some (w_notes w !! c) → is_Some (w_notes (Sync tr w).2 !! c).
Proof.
  assert (Hscan : ∀ cs memos v, is_Some (w_notes v !! c) → is_Some (w_notes (scanOutputs v cs memos) !! c)).
  { intros cs. induction cs as [|c' cs IH]; intros memos v Hv; [done|]. apply IH. unfold scanOutput.
    repeat case_match; try done. cbn. destruct (decide (c = c')) as [->|Hne];
      [by rewrite lookup_insert_eq|by rewrite lookup_insert_ne]. }
  assert (Hreplay : ∀ ts v, is_Some (w_notes v !! c) → is_Some (w_notes (foldl replayTx v ts) !! c)).
  { intros ts. induction ts as [|t ts IH]; intros v Hv; [done|]. apply IH. unfold replayTx.
    destruct (tx_Kind t), (tx_Transfer t); try done. by apply Hscan. }
  assert (Hloop : ∀ hs v, is_Some (w_notes v !! c) → is_Some (w_notes (sync_loop tr hs v).2 !! c)).
  { intros hs. induction hs as [|h hs IH]; intros v Hv; [done|]. cbn [sync_loop].
    destruct (fetchBlock tr h) as [b|]; [|done]. apply IH. by apply (Hreplay (b_Batch b)). }
  intros Hw. unfold Sync. destruct (fetchStatus tr) as [head|]; [|done]. by apply Hloop.
Qed.

(** A sealed ballot hides nothing: its nonce is derived from the proposal and from the
    nullifier the ballot itself carries, so anyone recomputes both commitments and sees which
    one it is. *)
Theorem sealed_ballot_is_readable `{SHA : Sha256, SG : Mode3Signer, ES : Ed25519Signer} b id approve key value e t :
  Builder.Vote b id approve key value e = Ok t →
  ∃ pub p, tx_Vote t = Some pub ∧ tx_VoteEligibility t = Some p ∧
    let seal choice :=
      ComputeVoteCommitment (vep_Nullifier p) choice (Builder.voteNonce (vpi_ProposalID pub) (vep_Nullifier p)) in
    vpi_Commitment pub = seal approve ∧ (vpi_Commitment pub = seal (negb approve) → seal true = seal false).
Proof.
  intros E. unfold Builder.Vote, Builder.needs_proposal, Builder.cast in E. ok_inv.
  match goal with H : Builder.finalize b _ = Ok t |- _ =>
    apply finalize_signed, signed_fields in H as (_ & Ev & _ & Ee & _) end.
  cbn in Ev, Ee. eexists _, e. split; [exact Ev|]. split; [exact Ee|]. split; [done|].
  intros Es. cbn in Es |- *. by destruct approve.
Qed.

Import FrModel FrontendModel GrothModel PipelineModel ClientModel ClientWitness.

(** The notes are dropped before the proof is made: a transfer that fails afterwards, here
    for a receiver key of the wrong size, leaves the wallet without them. *)
Theorem failed_transfer_forgets_notes :
  let r := BuildTransfer order sys [] 4 2 draws payer in
  (is_ok r.1, KnownNoteCount payer, KnownNoteCount r.2, Balance payer, Balance r.2) = (false, 2, 0, 12, 0).
Proof. vm_compute. reflexivity. Qed.

(** The nullifier of a note does not depend on its value, and the sender chooses the secrets
    it derives from: two payments under the same secrets are both counted, and only one of
    them can be spent. *)
Definition twin (v : Z) : NoteSecret := {| ns_Value := v; ns_OwnerSK := of_Z 11; ns_Rho := of_Z 12 |}.
Theorem two_notes_one_nullifier :
  let w := foldl apply_op (fresh 7) [OpImport (twin 7); OpImport (twin 5)] in
  (KnownNoteCount w, Balance w) = (2, 12) ∧
  length (remove_dups (on_nullifier ∘ snd <$> map_to_list (w_notes w))) = 1%nat.
Proof. split; vm_compute; reflexivity. Qed.

(** The stake wallet replays applied proposals in the order of their identifiers; the node
    inserted them in the order it tallied them. *)
Definition staked_claim (id : string) (epoch : Z) (commit : Hash) : ProposalRecord :=
  due_proposal <| pr_ProposalID := id |> <| pr_Epoch := epoch |> <| pr_MintStaked := true |>
               <| pr_StakePositionCommit := commit |>.
Definition staking : State :=
  state <| st_Store ::= λ r, Rows.PutProposal (staked_claim "b" 2 (replicate 32 1))
                              (Rows.PutProposal (staked_claim "a" 3 (replicate 32 2)) (Rows.PutNFT alice_nft r)) |>
        <| st_StakeTree := Some ZkTree.NewTree |>.
Definition tallied_twice : State := (TallyDueProposals 4 (TallyDueProposals 3 staking).2).2.
Definition tallied_server : Query.Server :=
  {| Query.s_store := st_Store tallied_twice; Query.s_notes := ∅; Query.s_chn := Query.s_chn server;
     Query.s_mempool := Mempool.NewMempool; Query.s_genesis := 0 |}.
Theorem stake_order_differs :
  let mirror := (StakeWallet.Sync (connected tallied_server) new_stake_wallet).2 in
  option_map (λ t, head <$> ZkTree.leaves t) (st_StakeTree tallied_twice) = Some [Some 1; Some 2] ∧
  (head <$> ZkTree.leaves (StakeWallet.w_tree mirror)) = [Some 2; Some 1].
Proof. split; vm_compute; reflexivity. Qed.
End ClientFindings.
