(* ===== verification/TxClient.v ===== *)
(** pkg/txclient, with the sending half of pkg/net/protocol.go: a client that broadcasts a
    transaction to the peers it is connected to and polls query servers until one reports
    it committed. The libp2p host, the transports and the clock are arguments. *)
From S2P Require Import Prelude Words Decimal Hashing Types Mempool NFT Store Chain Net Query.
Local Open Scope Z_scope.

(** * Sending (pkg/net/protocol.go) *)

(** A libp2p host during one broadcast: the peers it is connected to when it is asked, and
    whether a stream to a peer takes an envelope. *)
Record Host := { h_peers : list PeerID; h_stream : PeerID → Envelope → result unit }.

Definition Send (h : Host) (p : PeerID) (env : Envelope) : result unit :=
  match h_stream h p env with Ok _ => Ok tt | Err _ => Err "net: write envelope" end.

Fixpoint broadcast_loop (h : Host) (ps : list PeerID) (env : Envelope) (errs : gmap PeerID string)
    : gmap PeerID string :=
  match ps with
  | [] => errs
  | p :: ps =>
      broadcast_loop h ps env (match Send h p env with Ok _ => errs | Err e => <[p := e]> errs end)
  end.
Definition Broadcast (h : Host) (env : Envelope) : gmap PeerID string :=
  broadcast_loop h (h_peers h) env ∅.

(** The peers that took the envelope. *)
Definition reached (h : Host) (env : Envelope) : list PeerID :=
  filter (λ p, is_ok (Send h p env) = true) (h_peers h).

Module TxClient.

(** * client.go *)

Definition DefaultPollInterval : Duration := 750 * Millisecond.

(** [cf_Net] tells whether the configured libp2p node is non-nil. *)
Record Config := { cf_Net : bool; cf_QueryURLs : list string; cf_PollInterval : Duration }.
Record Client := { c_queryURLs : list string; c_pollInterval : Duration }.

Definition New (cfg : Config) : result Client :=
  if negb (cf_Net cfg) then Err "txclient: Config.Net must not be nil"
  else Ok {| c_queryURLs := cf_QueryURLs cfg;
             c_pollInterval := if cf_PollInterval cfg <=? 0 then DefaultPollInterval else cf_PollInterval cfg |}.

(** The connected peers are listed three times: before, by [Broadcast], and after; the
    host at each of these instants is [before], [during] and [after]. *)
Definition Submit `{Codec} (before during after : Host) (txn : ShieldedTx) : result unit :=
  if bool_decide (length (h_peers before) = 0%nat) then Err "txclient: no connected peers"
  else
    match NewEnvelope MsgTxOffer (PTxOffer txn) with
    | Err _ => Err "txclient: build envelope"
    | Ok env =>
        let errs := Broadcast during env in
        let attempted := length (h_peers after) in
        if (0 <? size errs)%nat && (attempted <=? size errs)%nat
        then Err "txclient: send failed to all connected peers" else Ok tt
    end.

(** * status.go *)

Definition StatusCommitted : string := "committed".
Definition StatusPending : string := "pending".
Definition StatusUnknown : string := "unknown".

Record Status := { st_State : string; st_Height : option Z }.
#[export] Instance Status_eq_dec : EqDecision Status.
Proof. solve_decision. Defined.
Definition no_status : Status := {| st_State := EmptyString; st_Height := None |}.

(** What answers at each base URL. *)
Abbreviation Web := (string → QueryClient.Transport).

Definition queryOne (web : Web) (base : string) (txid : Hash) : result Status :=
  match web base (Query.GetTx (hex_encode txid)) with
  | Err _ => Err "txclient: query"
  | Ok resp =>
      if negb (Query.r_code resp =? Query.StatusOK) then Err "txclient: returned HTTP"
      else match Query.r_body resp with
           | Query.BTx status height => Ok {| st_State := status; st_Height := height |}
           | _ => Err "txclient: decode response"
           end
  end.

Definition disagree : string := "txclient: query endpoints disagree on committed height".

(** One round of the loop of [aggregate], over [best] and [committedHeight]. *)
Definition aggregate_step (best : Status) (committedHeight : option Z) (r : Status)
    : result (Status * option Z) :=
  if bool_decide (st_State r = StatusCommitted) then
    match committedHeight, st_Height r with
    | Some a, Some b => if negb (a =? b) then Err disagree else Ok (r, Some b)
    | _, Some b => Ok (r, Some b)
    | _, None => Ok (r, committedHeight)
    end
  else if bool_decide (st_State r = StatusPending) then
    Ok (if bool_decide (st_State best = StatusUnknown) then r else best, committedHeight)
  else Ok (best, committedHeight).
Fixpoint aggregate_loop (results : list Status) (best : Status) (committedHeight : option Z) : result Status :=
  match results with
  | [] => Ok best
  | r :: results =>
      '(best, committedHeight) ← aggregate_step best committedHeight r;
      aggregate_loop results best committedHeight
  end.
Definition aggregate (results : list Status) : result Status :=
  aggregate_loop results {| st_State := StatusUnknown; st_Height := None |} None.

(** The endpoints that answered, in the order they are asked. *)
Definition answers (web : Web) (urls : list string) (txid : Hash) : list Status :=
  omap (λ base, match queryOne web base txid with Ok st => Some st | Err _ => None end) urls.

Definition QueryStatus (c : Client) (web : Web) (txid : Hash) : result Status :=
  if bool_decide (length (c_queryURLs c) = 0%nat) then Err "txclient: no query endpoints configured"
  else
    let results := answers web (c_queryURLs c) txid in
    if bool_decide (length results = 0%nat) then Err "txclient: all query endpoints failed to respond"
    else aggregate results.

(** One round of [Confirm]: what the endpoints answer, the instant the deadline is tested,
    and whether the wait for the next tick ends by the context. *)
Record Poll := { po_web : Web; po_now : Time; po_cancelled : bool }.

Inductive Error := ErrConfirmTimeout | ErrContext.

(** What the round returns, or [None] when it waited for the next tick. *)
Definition confirm_round (c : Client) (txid : Hash) (deadline : Time) (p : Poll)
    : option (Status * option Error) :=
  let asked := QueryStatus c (po_web p) txid in
  let st := match asked with Ok st => st | Err _ => no_status end in
  if is_ok asked && bool_decide (st_State st = StatusCommitted) then Some (st, None)
  else if deadline <? po_now p then Some (st, Some ErrConfirmTimeout)
  else if po_cancelled p then Some (no_status, Some ErrContext)
  else None.
(** [None]: the fuel ran out, the client still waits. *)
Fixpoint confirm_loop (fuel : nat) (c : Client) (txid : Hash) (deadline : Time) (polls : nat → Poll) (i : nat)
    : option (Status * option Error) :=
  match fuel with
  | O => None
  | S fuel =>
      match confirm_round c txid deadline (polls i) with
      | Some outcome => Some outcome
      | None => confirm_loop fuel c txid deadline polls (S i)
      end
  end.
Definition Confirm (fuel : nat) (c : Client) (txid : Hash) (timeout : Duration) (start : Time) (polls : nat → Poll)
    : option (Status * option Error) :=
  confirm_loop fuel c txid (time_add start timeout) polls 0.

(** What [SubmitAndConfirm] returns: the error of [Submit], or of [Confirm]. *)
Inductive Outcome := Submitted (st : Status) | SubmitFailed (e : string) | ConfirmFailed (st : Status) (e : Error).
Definition SubmitAndConfirm `{Codec} (fuel : nat) (c : Client) (before during after : Host) (txn : ShieldedTx)
    (timeout : Duration) (start : Time) (polls : nat → Poll) : option Outcome :=
  match Submit before during after txn with
  | Err e => Some (SubmitFailed e)
  | Ok _ =>
      '(st, err) ← Confirm fuel c (tx_TxID txn) timeout start polls;
      Some (match err with Some e => ConfirmFailed st e | None => Submitted st end)
  end.
End TxClient.

(** * Lemmas *)

(** ** Sending *)

Lemma broadcast_loop_lookup h ps env errs p :
  broadcast_loop h ps env errs !! p =
    match decide (p ∈ ps), Send h p env with
    | left _, Err e => Some e
    | _, _ => errs !! p
    end.
Proof.
  revert errs. induction ps as [|q ps IH]; intros errs; cbn.
  { destruct (decide (p ∈ [])) as [H|]; [by apply not_elem_of_nil in H|by destruct (Send h p env)]. }
  rewrite IH. destruct (decide (p = q)) as [->|Hq].
  - destruct (decide (q ∈ q :: ps)) as [_|Hn]; [|set_solver].
    destruct (Send h q env) as [u|e]; [by destruct (decide (q ∈ ps))|].
    destruct (decide (q ∈ ps)); [done|]. by simplify_map_eq.
  - destruct (decide (p ∈ ps)) as [Hi|Hi], (decide (p ∈ q :: ps)) as [Hj|Hj]; try set_solver.
    + destruct (Send h p env); [|done]. destruct (Send h q env); by simplify_map_eq.
    + destruct (Send h q env); by simplify_map_eq.
Qed.

Lemma Broadcast_dom h env :
  dom (Broadcast h env) = list_to_set (filter (λ p, is_ok (Send h p env) = false) (h_peers h)).
Proof.
  apply set_eq. intros p. unfold Broadcast.
  rewrite elem_of_dom, elem_of_list_to_set, list_elem_of_filter, broadcast_loop_lookup, lookup_empty.
  destruct (decide (p ∈ h_peers h)) as [Hi|Hi], (Send h p env); cbn; unfold is_Some; naive_solver.
Qed.

Lemma Broadcast_size h env :
  NoDup (h_peers h) → (size (Broadcast h env) + length (reached h env))%nat = length (h_peers h).
Proof.
  intros Hnd. rewrite <-size_dom, Broadcast_dom, size_list_to_set by by apply NoDup_filter.
  unfold reached. clear Hnd. induction (h_peers h) as [|p ps IH]; [done|].
  rewrite !filter_cons. destruct (is_ok (Send h p env)) eqn:E; cbn; repeat case_decide; try done; cbn in *; lia.
Qed.

Lemma reached_nil h env : NoDup (h_peers h) →
  reached h env = [] ↔ size (Broadcast h env) = length (h_peers h).
Proof. intros Hnd. assert (H := Broadcast_size h env Hnd). rewrite <-length_zero_iff_nil. lia. Qed.

Import TxClient.

(** With the same peers before, during and after, a submission succeeds exactly when some
    peer took the offer. *)
Lemma Submit_stable `{Codec} h txn : NoDup (h_peers h) →
  Submit h h h txn = Ok tt ↔
  ∃ env, NewEnvelope MsgTxOffer (PTxOffer txn) = Ok env ∧ ∃ p, p ∈ reached h env.
Proof.
  intros Hnd. unfold Submit. case_bool_decide as Hp.
  { split; [done|]. intros (env & _ & p & Hi). apply list_elem_of_filter in Hi as [_ Hi].
    apply length_zero_iff_nil in Hp. rewrite Hp in Hi. by apply not_elem_of_nil in Hi. }
  destruct (NewEnvelope _ _) as [env|e]; [|naive_solver]. assert (Hs := Broadcast_size h env Hnd).
  destruct (reached h env) as [|p ps] eqn:Er.
  - replace (_ && _) with true; [split; [done|]|].
    + intros (env' & [= <-] & p & Hi). rewrite Er in Hi. by apply not_elem_of_nil in Hi.
    + symmetry. apply andb_true_iff. rewrite Nat.ltb_lt, Nat.leb_le. cbn in Hs. lia.
  - replace (_ && _) with false; [split; [|done]|].
    + intros _. exists env. split; [done|]. exists p. rewrite Er. left.
    + symmetry. apply andb_false_iff. rewrite Nat.leb_gt. cbn in Hs. right. lia.
Qed.

(** ** Aggregation *)

Definition is_state (state : string) (r : Status) : bool := bool_decide (st_State r = state).
(** The best of the answers' states. *)
Definition verdict (rs : list Status) : string :=
  if existsb (is_state StatusCommitted) rs then StatusCommitted
  else if existsb (is_state StatusPending) rs then StatusPending else StatusUnknown.
(** [rs] holds an answer that commits the transaction at height [h]. *)
Definition commits_at (rs : list Status) (h : Z) : Prop :=
  {| st_State := StatusCommitted; st_Height := Some h |} ∈ rs.
Definition conflict (rs : list Status) : Prop := ∃ h1 h2, commits_at rs h1 ∧ commits_at rs h2 ∧ h1 ≠ h2.

Record agg_ok (seen : list Status) (best : Status) (ch : option Z) : Prop := {
  agg_state : st_State best = verdict seen;
  agg_best : best ∈ seen ∨ st_State best = StatusUnknown;
  agg_height : ∀ h, ch = Some h ↔ commits_at seen h }.

Lemma verdict_snoc rs r :
  verdict (rs ++ [r]) =
    if is_state StatusCommitted r then StatusCommitted
    else if is_state StatusPending r then
      if bool_decide (verdict rs = StatusUnknown) then StatusPending else verdict rs
    else verdict rs.
Proof.
  unfold verdict. rewrite !existsb_app. cbn [existsb].
  by destruct (existsb _ rs), (existsb (is_state StatusPending) rs), (is_state StatusCommitted r),
    (is_state StatusPending r).
Qed.

Lemma commits_at_snoc rs r h :
  commits_at (rs ++ [r]) h ↔ commits_at rs h ∨ r = {| st_State := StatusCommitted; st_Height := Some h |}.
Proof. unfold commits_at. rewrite elem_of_app, list_elem_of_singleton. naive_solver. Qed.

(** A round keeps what the loop knows of the answers it has seen, or meets a conflict. *)
Lemma aggregate_step_ok seen best ch r :
  agg_ok seen best ch →
  match aggregate_step best ch r with
  | Ok (best, ch) => agg_ok (seen ++ [r]) best ch
  | Err _ => conflict (seen ++ [r])
  end.
Proof.
  intros [Hst Hb Hc]. destruct r as [s h]. unfold aggregate_step. cbn [st_State st_Height].
  assert (Hskip : s ≠ StatusCommitted ∨ h = None → ∀ k, ch = Some k ↔ commits_at (seen ++ [{| st_State := s; st_Height := h |}]) k).
  { intros Hs k. rewrite Hc, commits_at_snoc. naive_solver. }
  assert (Hv := verdict_snoc seen {| st_State := s; st_Height := h |}). unfold is_state in Hv. cbn [st_State] in Hv.
  case_bool_decide as Ec; [subst s|case_bool_decide as Ep; [subst s|]].
  - destruct h as [b|].
    + assert (Hgo : ch = None ∨ ch = Some b →
        agg_ok (seen ++ [{| st_State := StatusCommitted; st_Height := Some b |}])
          {| st_State := StatusCommitted; st_Height := Some b |} (Some b)).
      { intros Hch. split; [by rewrite Hv|set_solver|]. intros k. rewrite commits_at_snoc, <-Hc.
        destruct Hch as [-> | ->]; naive_solver. }
      destruct ch as [a|]; [|by apply Hgo; left].
      destruct (a =? b) eqn:E; bools; cbn [negb]; [apply Hgo; right; congruence|].
      exists a, b. rewrite !commits_at_snoc, <-Hc. naive_solver.
    + assert (agg_ok (seen ++ [{| st_State := StatusCommitted; st_Height := None |}])
        {| st_State := StatusCommitted; st_Height := None |} ch); [|by destruct ch].
      split; [by rewrite Hv|set_solver|]. apply Hskip. by right.
  - split; [| |apply Hskip; by left].
    + rewrite Hv, <-Hst. by destruct (bool_decide (st_State best = StatusUnknown)).
    + destruct (bool_decide (st_State best = StatusUnknown)); rewrite elem_of_app, list_elem_of_singleton; tauto.
  - split; [by rewrite Hv|set_solver|]. apply Hskip. by left.
Qed.

Lemma aggregate_loop_ok rest : ∀ seen best ch,
  agg_ok seen best ch →
  match aggregate_loop rest best ch with
  | Ok best => ∃ ch, agg_ok (seen ++ rest) best ch
  | Err _ => conflict (seen ++ rest)
  end.
Proof.
  induction rest as [|r rest IH]; intros seen best ch Hok; cbn.
  { rewrite app_nil_r. eauto. }
  assert (Hs := aggregate_step_ok seen best ch r Hok).
  destruct (aggregate_step best ch r) as [[best' ch']|e]; cbn.
  - assert (H := IH _ _ _ Hs). by rewrite <-app_assoc in H.
  - destruct Hs as (h1 & h2 & H1 & H2 & Hne). exists h1, h2. unfold commits_at in *. set_solver.
Qed.

(** The aggregate of some answers: an error exactly when two of them commit the transaction
    at different heights, and otherwise the best of them. *)
Lemma aggregate_ok rs :
  match aggregate rs with
  | Ok best => ¬ conflict rs ∧ st_State best = verdict rs ∧ (best ∈ rs ∨ st_State best = StatusUnknown)
  | Err _ => conflict rs
  end.
Proof.
  assert (H := aggregate_loop_ok rs [] {| st_State := StatusUnknown; st_Height := None |} None).
  unfold aggregate. destruct (aggregate_loop _ _ _) as [best|e].
  - destruct H as (ch & [Hst Hb Hc]); [split; [done|by right|unfold commits_at; set_solver]|].
    split_and!; [|done|done]. intros (h1 & h2 & H1%Hc & H2%Hc & Hne). congruence.
  - apply H. split; [done|by right|unfold commits_at; set_solver].
Qed.

Lemma QueryStatus_ok c web txid st :
  QueryStatus c web txid = Ok st →
  ¬ conflict (answers web (c_queryURLs c) txid) ∧
  st_State st = verdict (answers web (c_queryURLs c) txid) ∧
  (st ∈ answers web (c_queryURLs c) txid ∨ st_State st = StatusUnknown).
Proof.
  unfold QueryStatus. repeat (case_bool_decide; [done|]). intros Ha.
  assert (H' := aggregate_ok (answers web (c_queryURLs c) txid)). by rewrite Ha in H'.
Qed.

Lemma answers_elem web urls txid st :
  st ∈ answers web urls txid ↔ ∃ base, base ∈ urls ∧ queryOne web base txid = Ok st.
Proof.
  unfold answers. rewrite list_elem_of_omap. split; intros (base & Hb & E); exists base; (split; [done|]).
  - destruct (queryOne web base txid); naive_solver.
  - by rewrite E.
Qed.

(** ** Waiting *)

(** [Confirm] returns what the first round that ends returns. *)
Lemma confirm_loop_Some fuel c txid deadline polls r : ∀ i,
  confirm_loop fuel c txid deadline polls i = Some r ↔
  ∃ k, (i ≤ k < i + fuel)%nat ∧ confirm_round c txid deadline (polls k) = Some r ∧
    ∀ j, (i ≤ j < k)%nat → confirm_round c txid deadline (polls j) = None.
Proof.
  induction fuel as [|fuel IH]; intros i; cbn.
  { split; [done|]. intros (k & Hk & _). lia. }
  destruct (confirm_round c txid deadline (polls i)) as [r'|] eqn:Er.
  - split.
    + intros [= <-]. exists i. split_and!; [lia|lia|done|]. intros j Hj. lia.
    + intros (k & Hk & Hr & Hj). destruct (decide (k = i)) as [->|Hne]; [congruence|].
      rewrite Hj in Er by lia. done.
  - rewrite IH. split; intros (k & Hk & Hr & Hj).
    + exists k. split_and!; [lia|lia|done|]. intros j Hij.
      destruct (decide (j = i)) as [->|Hne]; [done|]. apply Hj. lia.
    + destruct (decide (k = i)) as [->|Hne]; [congruence|].
      exists k. split_and!; [lia|lia|done|]. intros j Hij. apply Hj. lia.
Qed.

(** A round past the deadline ends. *)
Lemma confirm_round_late c txid deadline p :
  deadline < po_now p → is_Some (confirm_round c txid deadline p).
Proof.
  intros Hd. unfold confirm_round. apply Z.ltb_lt in Hd. rewrite Hd. by destruct (_ && _).
Qed.

Lemma confirm_loop_late fuel c txid deadline polls : ∀ i,
  (∃ k, (i ≤ k < i + fuel)%nat ∧ is_Some (confirm_round c txid deadline (polls k))) →
  is_Some (confirm_loop fuel c txid deadline polls i).
Proof.
  induction fuel as [|fuel IH]; intros i (k & Hk & Hs); cbn; [lia|].
  destruct (confirm_round c txid deadline (polls i)) as [r|] eqn:Er; [done|].
  destruct (decide (k = i)) as [->|Hne]; [rewrite Er in Hs; by destruct Hs|].
  apply IH. exists k. split; [lia|done].
Qed.

(** A committed outcome is an answer of the round, and no two answers of it conflict. *)
Lemma confirm_round_committed c txid deadline p st :
  confirm_round c txid deadline p = Some (st, None) ↔
  QueryStatus c (po_web p) txid = Ok st ∧ st_State st = StatusCommitted.
Proof.
  unfold confirm_round. destruct (QueryStatus c (po_web p) txid) as [st'|e]; cbn.
  - destruct (bool_decide (st_State st' = StatusCommitted)) eqn:E; bools.
    + naive_solver.
    + split; [|naive_solver]. by repeat case_match.
  - split; [|naive_solver]. by repeat case_match.
Qed.

(** An answer that commits settles the verdict, unless another one contradicts it. *)
Lemma QueryStatus_commits c web txid h :
  commits_at (answers web (c_queryURLs c) txid) h → ¬ conflict (answers web (c_queryURLs c) txid) →
  ∃ st, QueryStatus c web txid = Ok st ∧ st_State st = StatusCommitted.
Proof.
  intros Hc Hn. assert (Ha := aggregate_ok (answers web (c_queryURLs c) txid)). unfold QueryStatus.
  assert (Hin := Hc). apply answers_elem in Hin as (base & Hb & _).
  rewrite bool_decide_false by (intros E; apply length_zero_iff_nil in E; rewrite E in Hb; by apply not_elem_of_nil in Hb).
  rewrite bool_decide_false
    by (intros E; apply length_zero_iff_nil in E; unfold commits_at in Hc; rewrite E in Hc; by apply not_elem_of_nil in Hc).
  destruct (aggregate _) as [best|e]; [|done]. destruct Ha as (_ & Hs & _). exists best. split; [done|].
  rewrite Hs. unfold verdict.
  replace (existsb _ _) with true; [done|]. symmetry. apply existsb_exists.
  exists {| st_State := StatusCommitted; st_Height := Some h |}. split; [by apply list_elem_of_In|done].
Qed.

(** ** Against query servers *)

(** Every endpoint is the query server of a node, or fails to respond. *)
Definition answered_by (web : Web) (urls : list string) (srv : string → option Query.Server) : Prop :=
  ∀ base, base ∈ urls →
    match srv base with
    | Some s => ∀ r, web base r = Ok (Query.serve s r)
    | None => ∀ r, is_ok (web base r) = false
    end.

(** What a server says of a transaction. *)
Definition status_at (s : Query.Server) (txid : Hash) : Status :=
  match ChainRows.GetTxHeight txid (Chain.ch_store (Query.s_chn s)) with
  | Some h => {| st_State := StatusCommitted; st_Height := Some h |}
  | None => {| st_State := if Mempool.Contains (Query.s_mempool s) txid then StatusPending else StatusUnknown;
               st_Height := None |}
  end.

Lemma queryOne_served web urls srv base txid :
  is_bytes txid → length txid = 32%nat → answered_by web urls srv → base ∈ urls →
  match srv base with
  | Some s => queryOne web base txid = Ok (status_at s txid)
  | None => is_ok (queryOne web base txid) = false
  end.
Proof.
  intros Hb Hl Ha Hin. specialize (Ha base Hin). unfold queryOne. destruct (srv base) as [s|].
  - rewrite Ha. cbn. unfold Query.handleTx. rewrite parseHash_encode by done. unfold status_at.
    destruct (ChainRows.GetTxHeight _ _); [done|]. by destruct (Mempool.Contains _ _).
  - specialize (Ha (Query.GetTx (hex_encode txid))). by destruct (web base _).
Qed.

Lemma status_at_committed s txid :
  st_State (status_at s txid) = StatusCommitted →
  ∃ h, ChainRows.GetTxHeight txid (Chain.ch_store (Query.s_chn s)) = Some h ∧
    status_at s txid = {| st_State := StatusCommitted; st_Height := Some h |}.
Proof.
  unfold status_at. destruct (ChainRows.GetTxHeight _ _) as [h|]; [by exists h|]. by destruct (Mempool.Contains _ _).
Qed.

(** A confirmed status is that of a block of a server's chain, and no server that answered in
    the same round contradicts it. *)
Lemma confirmed_on_chain `{Sha256} fuel c txid timeout start polls srv st :
  is_bytes txid → length txid = 32%nat →
  (∀ i, answered_by (po_web (polls i)) (c_queryURLs c) (srv i)) →
  (∀ i base s, srv i base = Some s → linked (Query.s_chn s)) →
  Confirm fuel c txid timeout start polls = Some (st, None) →
  ∃ i base s b, base ∈ c_queryURLs c ∧ srv i base = Some s ∧
    st = {| st_State := StatusCommitted; st_Height := Some (b_Height b) |} ∧
    ChainRows.GetBlock (b_Height b) (Chain.ch_store (Query.s_chn s)) = Some b ∧
    txid ∈ tx_TxID <$> b_Batch b ∧
    ∀ base' s' h', base' ∈ c_queryURLs c → srv i base' = Some s' →
      ChainRows.GetTxHeight txid (Chain.ch_store (Query.s_chn s')) = Some h' → h' = b_Height b.
Proof.
  intros Hb Hl Hweb Hlk Ec.
  apply confirm_loop_Some in Ec as (i & _ & [Hq Hs]%confirm_round_committed & _).
  apply QueryStatus_ok in Hq as (Hn & _ & [Hin|Hu]); [|by rewrite Hs in Hu].
  assert (Hin' := Hin). apply answers_elem in Hin' as (base & Hbase & Hone).
  assert (Hsrv := queryOne_served _ _ _ base _ Hb Hl (Hweb i) Hbase).
  destruct (srv i base) as [s|] eqn:E; [|by rewrite Hone in Hsrv].
  assert (st = status_at s txid) as -> by congruence.
  destruct (status_at_committed _ _ Hs) as (h & Hh & Hst).
  destruct (lk_index _ (Hlk i base s E) _ _ Hh) as (b & Hr & Hblk & Hmem).
  destruct (lk_blocks _ (Hlk i base s E) h Hr) as (b' & Hblk' & Hbh).
  assert (b' = b) as -> by congruence.
  exists i, base, s, b. rewrite Hbh. split_and!; [done..|].
  intros base' s' h' Hbase' E' Hh'. destruct (decide (h' = h)) as [|Hne]; [done|]. destruct Hn.
  exists h', h. split_and!; [|by unfold commits_at; rewrite <-Hst|done].
  apply answers_elem. exists base'. split; [done|].
  assert (Hsrv' := queryOne_served _ _ _ base' _ Hb Hl (Hweb i) Hbase'). rewrite E' in Hsrv'.
  rewrite Hsrv'. unfold status_at. by rewrite Hh'.
Qed.

(** * Properties *)

Module TxClientSpec.

(** C23: a confirmed submission is on a chain. When the peers stay the same and the endpoints
    are query servers of nodes, or silent, [SubmitAndConfirm] returns a status without an
    error only if some peer took the offer and one of the servers has, in one round, the
    transaction in the block it returns the height of; no other server that answered in
    that round has it at another height. *)
Theorem submit_confirm_sound `{Sha256, Codec} fuel c host txn timeout start polls srv st :
  is_bytes (tx_TxID txn) → length (tx_TxID txn) = 32%nat → NoDup (h_peers host) →
  (∀ i, answered_by (po_web (polls i)) (c_queryURLs c) (srv i)) →
  (∀ i base s, srv i base = Some s → linked (Query.s_chn s)) →
  SubmitAndConfirm fuel c host host host txn timeout start polls = Some (Submitted st) →
  (∃ env p, NewEnvelope MsgTxOffer (PTxOffer txn) = Ok env ∧ p ∈ reached host env) ∧
  ∃ i base s b, base ∈ c_queryURLs c ∧ srv i base = Some s ∧
    st = {| st_State := StatusCommitted; st_Height := Some (b_Height b) |} ∧
    ChainRows.GetBlock (b_Height b) (Chain.ch_store (Query.s_chn s)) = Some b ∧
    tx_TxID txn ∈ tx_TxID <$> b_Batch b ∧
    ∀ base' s' h', base' ∈ c_queryURLs c → srv i base' = Some s' →
      ChainRows.GetTxHeight (tx_TxID txn) (Chain.ch_store (Query.s_chn s')) = Some h' → h' = b_Height b.
Proof.
  intros Hb Hl Hnd Hweb Hlk. unfold SubmitAndConfirm.
  destruct (Submit host host host txn) as [[]|e] eqn:Es; [|done]. intros Hc. split.
  { apply Submit_stable in Es as (env & He & p & Hp); eauto. }
  destruct (Confirm _ _ _ _ _ _) as [[st' err]|] eqn:Ec; [|done]. cbn in Hc.
  destruct err; [done|]. injection Hc as ->. by eapply confirmed_on_chain.
Qed.

(** C24: waiting ends, and ends well when it can. A client built by [New] whose ticks are at
    least its interval apart returns from [Confirm] within the rounds the timeout has room
    for; without an error it returns a committed status of one of them; with a time-out,
    that round was past the deadline and none up to it saw the transaction committed; with
    the context's error, the context was cancelled. If in some round an endpoint reports it
    committed, no other contradicts it, and no earlier round was late or cancelled, there
    is no error. *)
Theorem confirm_terminates cfg c txid timeout start polls :
  New cfg = Ok c → 0 ≤ timeout →
  (∀ n, start + Z.of_nat n * c_pollInterval c ≤ po_now (polls n)) →
  let rounds := S (S (Z.to_nat (timeout / c_pollInterval c))) in
  let asked n := QueryStatus c (po_web (polls n)) txid in
  let uncommitted n := ∀ st, asked n = Ok st → st_State st ≠ StatusCommitted in
  ∃ st err, Confirm rounds c txid timeout start polls = Some (st, err) ∧
    (∃ k, (k < rounds)%nat ∧
      match err with
      | None => asked k = Ok st ∧ st_State st = StatusCommitted
      | Some ErrConfirmTimeout => start + timeout < po_now (polls k) ∧ ∀ j, (j ≤ k)%nat → uncommitted j
      | Some ErrContext => po_cancelled (polls k) = true ∧ ∀ j, (j ≤ k)%nat → uncommitted j
      end) ∧
    ∀ n h, commits_at (answers (po_web (polls n)) (c_queryURLs c) txid) h →
      ¬ conflict (answers (po_web (polls n)) (c_queryURLs c) txid) →
      (∀ j, (j < n)%nat → po_now (polls j) ≤ start + timeout ∧ po_cancelled (polls j) = false) →
      err = None.
Proof.
  intros Hnew Ht Hticks rounds asked uncommitted.
  assert (Hpos : 0 < c_pollInterval c).
  { unfold New in Hnew. destruct (negb _); [done|]. injection Hnew as <-. cbn.
    destruct (cf_PollInterval cfg <=? 0) eqn:E; [done|]. bools. lia. }
  assert (Hround : ∀ k st err, confirm_round c txid (start + timeout) (polls k) = Some (st, err) →
    match err with
    | None => asked k = Ok st ∧ st_State st = StatusCommitted
    | Some ErrConfirmTimeout => start + timeout < po_now (polls k) ∧ uncommitted k
    | Some ErrContext => po_cancelled (polls k) = true ∧ uncommitted k
    end).
  { intros k st err Hr. destruct err as [err|]; [|by apply confirm_round_committed in Hr].
    assert (Hu : uncommitted k).
    { intros st' Ha Hs. assert (H := proj2 (confirm_round_committed c txid (start + timeout) (polls k) st') (conj Ha Hs)).
      congruence. }
    unfold confirm_round in Hr. destruct (is_ok _ && _); [done|].
    destruct (_ <? _) eqn:Ed; [bools; by injection Hr as <- <-|].
    destruct (po_cancelled (polls k)); [by injection Hr as <- <-|done]. }
  assert (Hnone : ∀ k, confirm_round c txid (start + timeout) (polls k) = None → uncommitted k).
  { intros k Hr st Ha Hs. assert (H := proj2 (confirm_round_committed c txid (start + timeout) (polls k) st) (conj Ha Hs)).
    congruence. }
  destruct (confirm_loop_late rounds c txid (start + timeout) polls 0) as [[st err] Hc].
  { exists (S (Z.to_nat (timeout / c_pollInterval c))). split; [unfold rounds; lia|]. apply confirm_round_late.
    specialize (Hticks (S (Z.to_nat (timeout / c_pollInterval c)))).
    assert (0 ≤ timeout / c_pollInterval c) by (apply Z.div_pos; lia).
    rewrite Nat2Z.inj_succ, Z2Nat.id in Hticks by done.
    assert (Hm := Z.mul_succ_div_gt timeout (c_pollInterval c) Hpos). lia. }
  exists st, err. split; [done|]. apply confirm_loop_Some in Hc as (k & Hk & Hr & Hj).
  assert (Hrk := Hround k st err Hr).
  assert (Hun : uncommitted k → ∀ j, (j ≤ k)%nat → uncommitted j).
  { intros Hu j Hle. destruct (decide (j = k)) as [->|]; [done|]. apply Hnone, Hj. lia. }
  split.
  { exists k. split; [lia|]. destruct err as [[]|]; naive_solver. }
  intros n h Hcom Hconf Hearly. destruct (QueryStatus_commits _ _ _ _ Hcom Hconf) as (st' & Ha & Hs).
  assert (Hkn : (k ≤ n)%nat).
  { destruct (decide (k ≤ n)%nat); [done|]. assert (confirm_round c txid (start + timeout) (polls n) = None) by (apply Hj; lia).
    by destruct (Hnone n ltac:(done) st' Ha). }
  destruct (decide (k = n)) as [->|Hne].
  - assert (H := proj2 (confirm_round_committed c txid (start + timeout) (polls n) st') (conj Ha Hs)). congruence.
  - destruct (Hearly k ltac:(lia)) as [Hd Hca]. destruct err as [[]|]; [lia| |done]. destruct Hrk; congruence.
Qed.
End TxClientSpec.

(** * A concrete submission *)

(** Two peers, of which one takes envelopes; two query servers, one of which is down in the
    first round and the other of which has the block in the second. *)
Module TxClientModel.
Import CryptoModel.
#[export] Existing Instance sha.
#[export] Existing Instance mode3.
#[export] Instance codec : Codec :=
  {| json_marshal _ := Ok []; marshal_payload _ := Ok [1]; decode_heartbeat _ := Err "json";
     decode_tx_offer _ := Err "json"; decode_proposal _ := Err "json"; decode_vote _ := Err "json";
     decode_announce _ := Err "json"; decode_part _ := Err "json"; decode_request _ := Err "json";
     decode_response _ := Err "json"; unmarshal_batch _ := Err "json" |}.

Definition offer : ShieldedTx := zero_tx (replicate 32 9) TxTransfer.
Definition host : Host :=
  {| h_peers := ["a"; "b"]%string; h_stream p _ := if bool_decide (p = "b"%string) then Ok tt else Err "reset" |}.

Definition members : list NFTID := [[1]; [2]; [3]].
Definition lookup_key : Chain.PubKeyLookup := λ id, if decide (length id = 1%nat) then Some [7] else None.
Definition block : Block :=
  let b := {| b_Height := 1; b_Epoch := 0; b_PrevHash := HashBlock (Chain.genesis 0); b_Timestamp := 5;
              b_Batch := [offer]; b_TxRoot := hash_zero; b_StateRoot := hash_zero;
              b_DARoot := hash_zero; b_Proposer := [1]; b_ProposerSig := []; b_Votes := [];
              b_DualTrack := false |} in
  let vote id := {| v_Validator := id; v_StateRoot := HashBlock b; v_Sig := [len (HashBlock b) mod 256] |} in
  b <| b_Votes := [vote [1]; vote [2]] |>.
Definition chain0 : Chain.Chain :=
  {| Chain.ch_store := ChainRows.SetHead 0 (ChainRows.PutBlock (Chain.genesis 0) ChainRows.empty);
     Chain.headHeight := 0; Chain.headHash := HashBlock (Chain.genesis 0) |}.
Definition chain1 : Chain.Chain := Chain.run chain0 [(block, members, lookup_key)].

Definition server (c : Chain.Chain) : Query.Server :=
  {| Query.s_store := Rows.empty; Query.s_notes := ∅; Query.s_chn := c;
     Query.s_mempool := Mempool.NewMempool; Query.s_genesis := 0 |}.
Definition srv (i : nat) (base : string) : option Query.Server :=
  if bool_decide (base = "http://a"%string) then Some (server (if (i =? 0)%nat then chain0 else chain1))
  else if (i =? 0)%nat then None else Some (server chain0).
Definition web (i : nat) : Web := λ base r,
  match srv i base with Some s => Ok (Query.serve s r) | None => Err "connection refused" end.
Definition cfg : Config :=
  {| cf_Net := true; cf_QueryURLs := ["http://a"; "http://b"]%string; cf_PollInterval := 0 |}.
Definition client : Client :=
  {| c_queryURLs := ["http://a"; "http://b"]%string; c_pollInterval := DefaultPollInterval |}.
Definition polls (i : nat) : Poll :=
  {| po_web := web i; po_now := Minute + Z.of_nat i * DefaultPollInterval; po_cancelled := false |}.
Definition landed : Status := {| st_State := StatusCommitted; st_Height := Some 1 |}.

Lemma web_served i : answered_by (web i) (c_queryURLs client) (srv i).
Proof. intros base _. unfold web. by destruct (srv i base). Qed.
Lemma chain0_open : Chain.Open ChainRows.empty 0 = Ok chain0.
Proof. done. Qed.
Lemma srv_linked i base s : srv i base = Some s → linked (Query.s_chn s).
Proof.
  assert (L0 := linked_open_genesis 0 chain0 chain0_open).
  assert (L1 : linked chain1) by (apply run_linked; [done|by vm_compute]).
  unfold srv. repeat case_match; intros [= <-]; done.
Qed.
End TxClientModel.

Module TxClientWitness.
Import TxClientModel.

Lemma submit_confirm_sound_witness :
  SubmitAndConfirm 3 client host host host offer Second Minute polls = Some (Submitted landed) ∧
  ∃ env p, NewEnvelope MsgTxOffer (PTxOffer offer) = Ok env ∧ p ∈ reached host env.
Proof.
  assert (E : SubmitAndConfirm 3 client host host host offer Second Minute polls = Some (Submitted landed))
    by (vm_compute; reflexivity).
  split; [exact E|].
  apply (TxClientSpec.submit_confirm_sound 3 client host offer Second Minute polls srv landed).
  - apply (Forall_replicate _ 32 9). lia.
  - reflexivity.
  - apply (bool_decide_unpack _). vm_compute. exact I.
  - apply web_served.
  - apply srv_linked.
  - exact E.
Defined.

Lemma confirm_terminates_witness :
  Confirm 3 client (tx_TxID offer) Second Minute polls = Some (landed, None) ∧
  ∃ st err, Confirm 3 client (tx_TxID offer) Second Minute polls = Some (st, err) ∧ err = None.
Proof.
  split; [vm_compute; reflexivity|].
  destruct (TxClientSpec.confirm_terminates cfg client (tx_TxID offer) Second Minute polls) as (st & err & Hc & _ & H).
  - reflexivity.
  - vm_compute. discriminate.
  - intros n. reflexivity.
  - exists st, err. split; [exact Hc|]. apply (H 1%nat 1).
    + vm_compute. left.
    + intros (h1 & h2 & H1 & H2 & Hne). apply Hne.
      assert (∀ h, commits_at (answers (po_web (polls 1)) (c_queryURLs client) (tx_TxID offer)) h → h = 1) as Hall.
      { intros h Hin. vm_compute in Hin. apply elem_of_cons in Hin as [Hin|Hin]; [by injection Hin|].
        apply elem_of_cons in Hin as [Hin|Hin]; [done|by apply not_elem_of_nil in Hin]. }
      by rewrite (Hall h1 H1), (Hall h2 H2).
    + intros j Hj. assert (j = 0%nat) as -> by lia. by vm_compute.
Defined.
End TxClientWitness.

(** * Findings *)

Module TxClientFindings.
Import TxClientModel.

(** A peer that connects while an offer fails hides the failure: [Submit] counts the peers
    again after the broadcast, and reports success though no peer took the offer. *)
Lemma late_peer_hides_failure :
  let alone : Host := {| h_peers := ["a"%string]; h_stream _ _ := Err "reset" |} in
  let joined : Host := {| h_peers := ["a"; "c"]%string; h_stream _ _ := Err "reset" |} in
  Submit alone alone joined offer = Ok tt ∧ (∀ env, reached alone env = []).
Proof. done. Qed.

(** A peer that leaves after its send failed makes [Submit] report that every send failed,
    though another peer took the offer. *)
Lemma gone_peer_hides_success :
  let left : Host := {| h_peers := ["b"%string]; h_stream := h_stream host |} in
  is_ok (Submit host host left offer) = false ∧ (∀ env, reached host env = ["b"%string]).
Proof. done. Qed.

(** A committed answer without a height hides the height another endpoint gave. *)
Lemma nil_height_hides_height :
  aggregate [landed; {| st_State := StatusCommitted; st_Height := None |}] =
    Ok {| st_State := StatusCommitted; st_Height := None |}.
Proof. done. Qed.
End TxClientFindings.
