(* ===== verification/Keystore.v ===== *)
(** pkg/walletkey and the commands of cmd/walletkey: the keystore a wallet's identity is
    sealed in under a passphrase. Argon2, Dilithium, X25519, the AEAD, encoding/json and the
    disk are parameters; random draws and the lines a person types are arguments. *)
From S2P Require Import Prelude Words Decimal Hashing Types NFT Field Prover Memo.
Local Open Scope Z_scope.

(** * kdf.go *)

Record argon2Params := { TimeCost : Z; MemoryKiB : Z; Threads : Z; SaltLength : Z }.
Definition defaultArgon2Params : argon2Params :=
  {| TimeCost := 3; MemoryKiB := 64 * 1024; Threads := 4; SaltLength := 16 |}.

(** [argon2.IDKey] of a password, a salt, its costs and a length; it panics without a round
    or without a thread, kept as an error. *)
Class Argon2 := argon2_IDKey : bytes → bytes → Z → Z → Z → nat → bytes.
Definition EncryptionKeySize : nat := 32.
Definition deriveKey `{Argon2} (passphrase : string) (salt : bytes) (p : argon2Params) : result bytes :=
  if TimeCost p <? 1 then Err "panic: argon2: number of rounds too small"
  else if Threads p <? 1 then Err "panic: argon2: parallelism degree too low"
  else
    let raw := argon2_IDKey (string_bytes passphrase) salt (TimeCost p) (MemoryKiB p) (Threads p) EncryptionKeySize in
    Ok (take EncryptionKeySize (raw ++ replicate EncryptionKeySize 0)).

(** * keystore.go *)

Record keystoreFile := {
  f_Version : Z; f_PublicKey : string; f_X25519PublicKey : string; f_KDF : string;
  f_KDFParams : argon2Params; f_Salt : string; f_Ciphertext : string }.
Record sealedSecrets := { DilithiumSK : bytes; X25519SK : bytes }.

(** encoding/json on the two types, and what it promises of what is written here: text that
    is hex or the name of the KDF, and byte strings. *)
Class KeystoreJson := {
  marshal_file : keystoreFile → bytes; unmarshal_file : bytes → result keystoreFile;
  marshal_secrets : sealedSecrets → bytes; unmarshal_secrets : bytes → result sealedSecrets }.
Class KeystoreJsonLaws `{KeystoreJson} : Prop := {
  file_roundtrip : ∀ version pk xpk kdf params salt ct,
    let f := {| f_Version := version; f_PublicKey := hex_encode pk; f_X25519PublicKey := hex_encode xpk;
                f_KDF := kdf; f_KDFParams := params; f_Salt := hex_encode salt;
                f_Ciphertext := hex_encode ct |} in
    kdf = "argon2id"%string → params = defaultArgon2Params → unmarshal_file (marshal_file f) = Ok f;
  secrets_roundtrip : ∀ s, is_bytes (DilithiumSK s) → is_bytes (X25519SK s) →
    is_bytes (marshal_secrets s) ∧ unmarshal_secrets (marshal_secrets s) = Ok s }.

(** A directory of files. *)
Abbreviation Files := (gmap string bytes).

Module Keystore.
Section keystore.
Context `{SHA : Sha256, M3 : Mode3, MS : !Mode3Signer, XX : X25519, AE : Aead, A2 : Argon2, KJ : KeystoreJson}.

Definition keystoreVersion : Z := 2.
Definition kdfArgon2id : string := "argon2id".
Definition selfTestMessage : bytes := string_bytes "shadowforge-walletkey-self-test-v1".

(** crypto/ecdh: a key is 32 bytes. *)
Definition NewPublicKey (b : bytes) : result bytes :=
  if bool_decide (length b = 32%nat) then Ok b else Err "crypto/ecdh: invalid public key".
Definition NewPrivateKey (b : bytes) : result bytes :=
  if bool_decide (length b = 32%nat) then Ok b else Err "crypto/ecdh: invalid private key size".

(** [Keystore] has one field; [file] is its record. *)
Record Keystore := { file : keystoreFile }.
Record ShieldedIdentity := {
  si_PublicKey : bytes; si_PrivateKey : bytes; si_ShieldedPub : bytes; si_ShieldedKey : bytes }.

(** What sealing and generating draw. Drawing can fail, which is [None] below: the salt's or
    the nonce's failure, and either key pair's. *)
Record SealDraw := { sd_salt : bytes; sd_nonce : bytes }.
Record KeyDraw := { kd_pk : bytes; kd_sk : bytes; kd_xsk : bytes }.

Definition seal (pk sk xsk : bytes) (passphrase : string) (draw : option SealDraw) : result Keystore :=
  let params := defaultArgon2Params in
  draw ← match draw with Some draw => Ok draw | None => Err "walletkey: random draw" end;
  let salt := sd_salt draw in
  key ← deriveKey passphrase salt params;
  let plain := marshal_secrets {| DilithiumSK := sk; X25519SK := xsk |} in
  let xpk := x25519_public xsk in
  let aad := pk ++ xpk in
  let ciphertext := Encrypt key plain aad (sd_nonce draw) in
  Ok {| file := {| f_Version := keystoreVersion; f_PublicKey := hex_encode pk;
                   f_X25519PublicKey := hex_encode xpk; f_KDF := kdfArgon2id; f_KDFParams := params;
                   f_Salt := hex_encode salt; f_Ciphertext := hex_encode ciphertext |} |}.

Definition Generate (passphrase : string) (keys : option KeyDraw) (draw : option SealDraw) : result Keystore :=
  if bool_decide (passphrase = EmptyString) then Err "walletkey: passphrase must not be empty"
  else
    match keys with
    | None => Err "walletkey: generate identity"
    | Some keys => seal (kd_pk keys) (kd_sk keys) (kd_xsk keys) passphrase draw
    end.

(** ** The disk *)

(** How a write and a rename end. A failed write, or a crash during it, leaves [partial] in the
    file, or leaves it as it was; a crash after the write is a failed rename. *)
Inductive WriteOutcome := Written | WriteFailed (partial : option bytes).
Record Disk := { dk_write : WriteOutcome; dk_rename : bool }.

Definition Load (path : string) (fs : Files) : result Keystore :=
  match fs !! path with
  | None => Err "walletkey: read"
  | Some b =>
      match unmarshal_file b with
      | Err _ => Err "walletkey: parse"
      | Ok f =>
          _ ← require (f_Version f =? keystoreVersion) "walletkey: unsupported version";
          _ ← require (bool_decide (f_KDF f = kdfArgon2id)) "walletkey: uses unsupported kdf";
          match hex_decode (f_PublicKey f) with
          | Err _ => Err "walletkey: malformed public key"
          | Ok _ =>
              match hex_decode (f_X25519PublicKey f) with
              | Err _ => Err "walletkey: malformed shielded public key"
              | Ok xpkBytes =>
                  match NewPublicKey xpkBytes with
                  | Err _ => Err "walletkey: invalid shielded public key"
                  | Ok _ => Ok {| file := f |}
                  end
              end
          end
      end
  end.

Definition tmp_of (path : string) : string := path +:+ ".tmp".
Definition Save (k : Keystore) (path : string) (disk : Disk) : call Files unit :=
  let b := marshal_file (file k) in
  let tmp := tmp_of path in
  match dk_write disk with
  | WriteFailed partial =>
      _ ← modify (λ fs, from_option (λ p, <[tmp := p]> fs) fs partial);
      fail "walletkey: write"
  | Written =>
      _ ← modify (λ fs, <[tmp := b]> fs);
      if dk_rename disk then modify (λ fs, from_option (λ p, <[path := p]> (delete tmp fs)) fs (fs !! tmp))
      else fail "walletkey: rename"
  end.

(** ** What needs no passphrase *)

(** The decoding cannot fail on a keystore [Load] or [seal] made. *)
Definition PublicKey (k : Keystore) : bytes :=
  match hex_decode (f_PublicKey (file k)) with Ok b => b | Err _ => [] end.
Definition ShieldedPublicKey (k : Keystore) : option bytes :=
  match hex_decode (f_X25519PublicKey (file k)) with
  | Ok b => match NewPublicKey b with Ok pub => Some pub | Err _ => None end
  | Err _ => None
  end.
Definition Identity (k : Keystore) : NFTID := SumHash [PublicKey k].

(** ** Unlocking *)

Definition unlockSecrets (k : Keystore) (passphrase : string) : result sealedSecrets :=
  if bool_decide (passphrase = EmptyString) then Err "walletkey: passphrase must not be empty"
  else
    match hex_decode (f_Salt (file k)) with
    | Err _ => Err "walletkey: malformed salt"
    | Ok salt =>
        match hex_decode (f_Ciphertext (file k)) with
        | Err _ => Err "walletkey: malformed ciphertext"
        | Ok ciphertext =>
            match hex_decode (f_X25519PublicKey (file k)) with
            | Err _ => Err "walletkey: malformed shielded public key"
            | Ok xpkBytes =>
                let aad := PublicKey k ++ xpkBytes in
                key ← deriveKey passphrase salt (f_KDFParams (file k));
                match Decrypt key ciphertext aad with
                | Err _ => Err "walletkey: wrong passphrase or corrupted keystore"
                | Ok plain =>
                    match unmarshal_secrets plain with
                    | Err _ => Err "walletkey: decrypted keystore is corrupt"
                    | Ok secrets => Ok secrets
                    end
                end
            end
        end
    end.

(** The self-test both ways of unlocking run. *)
Definition self_test (pk sk : bytes) : result unit :=
  match DilithiumSign sk selfTestMessage with
  | Err _ => Err "walletkey: decrypted key failed self-test signing"
  | Ok sig =>
      match DilithiumVerify pk selfTestMessage sig with
      | Ok true => Ok tt
      | _ => Err "walletkey: decrypted key failed self-test verification"
      end
  end.

Definition Unlock (k : Keystore) (passphrase : string) : result (bytes * bytes) :=
  secrets ← unlockSecrets k passphrase;
  let pk := PublicKey k in
  let sk := DilithiumSK secrets in
  _ ← self_test pk sk;
  Ok (pk, sk).

Definition UnlockShielded (k : Keystore) (passphrase : string) : result ShieldedIdentity :=
  secrets ← unlockSecrets k passphrase;
  let pk := PublicKey k in
  let sk := DilithiumSK secrets in
  _ ← self_test pk sk;
  match NewPrivateKey (X25519SK secrets) with
  | Err _ => Err "walletkey: decrypted shielded key is invalid"
  | Ok xsk => Ok {| si_PublicKey := pk; si_PrivateKey := sk; si_ShieldedPub := x25519_public xsk;
                    si_ShieldedKey := xsk |}
  end.

Definition ChangePassphrase (oldPassphrase newPassphrase : string) (draw : option SealDraw) : call Keystore unit :=
  k ← gets id;
  id ← lift (UnlockShielded k oldPassphrase);
  resealed ← lift (seal (si_PublicKey id) (si_PrivateKey id) (si_ShieldedKey id) newPassphrase draw);
  modify (λ _, {| file := file resealed |}).

(** * cmd/walletkey *)

(** A passphrase is the next line of stdin, or the next line typed at the terminal; there
    is none when stdin is exhausted or is not a terminal. *)
Definition read_line (e : string) : call (list string) string := λ lines,
  match lines with
  | [] => (Err e, [])
  | line :: lines => (Ok line, lines)
  end.
Definition readPassphraseLine : call (list string) string := read_line "no passphrase line found on stdin".
Definition promptMasked : call (list string) string := read_line "stdin is not a terminal".
Definition promptNewPassphrase : call (list string) string :=
  first ← promptMasked;
  _ ← check (negb (bool_decide (first = EmptyString))) "passphrase must not be empty";
  second ← promptMasked;
  _ ← check (bool_decide (first = second)) "passphrases did not match";
  mret first.
Definition readExistingPassphrase (fromStdin : bool) : call (list string) string :=
  if fromStdin then readPassphraseLine else promptMasked.
(** The two passphrases [runPasswd] reads. *)
Definition read_passwd (fromStdin : bool) : call (list string) (string * string) :=
  if fromStdin then
    oldPass ← readPassphraseLine;
    newPass ← readPassphraseLine;
    _ ← check (negb (bool_decide (newPass = EmptyString))) "new passphrase must not be empty";
    mret (oldPass, newPass)
  else
    oldPass ← promptMasked;
    newPass ← promptNewPassphrase;
    mret (oldPass, newPass).

(** What a command prints. *)
Inductive Output := Created (id : NFTID) (pk : bytes) | Shown (id : NFTID) (pk : bytes)
  | Signed (id : NFTID) (message : string) (sig : bytes) | Changed.

Definition runInit (path : string) (fromStdin : bool) (lines : list string) (keys : option KeyDraw)
    (draw : option SealDraw) (disk : Disk) : call Files Output :=
  fs ← gets id;
  if bool_decide (is_Some (fs !! path)) then fail "already exists"
  else
    passphrase ← lift ((if fromStdin then readPassphraseLine else promptNewPassphrase) lines).1;
    ks ← lift (Generate passphrase keys draw);
    _ ← Save ks path disk;
    mret (Created (Identity ks) (PublicKey ks)).

Definition runShow (path : string) : call Files Output :=
  fs ← gets id;
  ks ← lift (Load path fs);
  mret (Shown (Identity ks) (PublicKey ks)).

Definition runSign (path : string) (fromStdin : bool) (message : string) (lines : list string) : call Files Output :=
  _ ← check (negb (bool_decide (message = EmptyString))) "-message is required";
  fs ← gets id;
  ks ← lift (Load path fs);
  passphrase ← lift (readExistingPassphrase fromStdin lines).1;
  '(pk, sk) ← lift (Unlock ks passphrase);
  sig ← lift (DilithiumSign sk (string_bytes message));
  _ ← check (bool_decide (DilithiumVerify pk (string_bytes message) sig = Ok true)) "SAFETY";
  mret (Signed (Identity ks) message sig).

Definition runPasswd (path : string) (fromStdin : bool) (lines : list string) (draw : option SealDraw) (disk : Disk)
    : call Files Output :=
  fs ← gets id;
  ks ← lift (Load path fs);
  '(oldPass, newPass) ← lift (read_passwd fromStdin lines).1;
  let '(r, ks) := ChangePassphrase oldPass newPass draw ks in
  _ ← lift r;
  _ ← Save ks path disk;
  mret Changed.
End keystore.
End Keystore.

(** * The contract of the commands *)

(** What key generation promises, and how random draws look. *)
Record well_drawn `{Mode3, Mode3Signer, X25519} (keys : Keystore.KeyDraw) : Prop := {
  wd_pair : keypair (Keystore.kd_pk keys) (Keystore.kd_sk keys);
  wd_pk : is_bytes (Keystore.kd_pk keys); wd_sk : is_bytes (Keystore.kd_sk keys);
  wd_xsk : is_bytes (Keystore.kd_xsk keys); wd_len : length (Keystore.kd_xsk keys) = 32%nat;
  wd_xpk : is_bytes (x25519_public (Keystore.kd_xsk keys)) }.
Record salted (draw : Keystore.SealDraw) : Prop := {
  sl_salt : is_bytes (Keystore.sd_salt draw); sl_nonce : is_bytes (Keystore.sd_nonce draw);
  sl_len : length (Keystore.sd_nonce draw) = aead_NonceSize }.
(** Ciphertexts are bytes. *)
Class AeadBytes `{Aead} : Prop :=
  Seal_bytes : ∀ key nonce plain ad, is_bytes plain → is_bytes (aead_Seal key nonce plain ad).

Module KeystoreContract.
Import Keystore.
Section contract.
Context `{SHA : Sha256, M3 : Mode3, MS : !Mode3Signer, XX : X25519, AE : Aead, A2 : Argon2, KJ : KeystoreJson}.

(** The commands at one path, each with what it reads, draws and meets on the disk. *)
Inductive Cmd :=
| Init (fromStdin : bool) (lines : list string) (keys : option KeyDraw) (draw : option SealDraw) (disk : Disk)
| Show
| Sign (fromStdin : bool) (message : string) (lines : list string)
| Passwd (fromStdin : bool) (lines : list string) (draw : option SealDraw) (disk : Disk).
Definition exec (path : string) (c : Cmd) : call Files Output :=
  match c with
  | Init fromStdin lines keys draw disk => runInit path fromStdin lines keys draw disk
  | Show => runShow path
  | Sign fromStdin message lines => runSign path fromStdin message lines
  | Passwd fromStdin lines draw disk => runPasswd path fromStdin lines draw disk
  end.
Definition output (r : result Output) : option Output := match r with Ok out => Some out | Err _ => None end.
Fixpoint run (path : string) (cmds : list Cmd) (fs : Files) : list (option Output) * Files :=
  match cmds with
  | [] => ([], fs)
  | c :: cmds =>
      let '(r, fs) := exec path c fs in
      let '(outs, fs) := run path cmds fs in
      (output r :: outs, fs)
  end.

(** What the commands promise: an identity and its passphrase, or nothing yet. *)
Record Owner := { ow_keys : KeyDraw; ow_pass : string }.
Definition disk_ok (disk : Disk) : bool :=
  match dk_write disk with Written => dk_rename disk | WriteFailed _ => false end.
Definition identity_of (keys : KeyDraw) : NFTID := SumHash [kd_pk keys].
Definition spec (c : Cmd) (a : option Owner) : option Output * option Owner :=
  match c, a with
  | Init fromStdin lines (Some keys) (Some _) disk, None =>
      match ((if fromStdin then readPassphraseLine else promptNewPassphrase) lines).1 with
      | Ok p =>
          if negb (bool_decide (p = EmptyString)) && disk_ok disk
          then (Some (Created (identity_of keys) (kd_pk keys)), Some {| ow_keys := keys; ow_pass := p |})
          else (None, None)
      | Err _ => (None, None)
      end
  | Show, Some o => (Some (Shown (identity_of (ow_keys o)) (kd_pk (ow_keys o))), a)
  | Sign fromStdin message lines, Some o =>
      match (readExistingPassphrase fromStdin lines).1 with
      | Ok p =>
          if negb (bool_decide (message = EmptyString)) && bool_decide (p = ow_pass o)
          then (Some (Signed (identity_of (ow_keys o)) message
                        (mode3_SignTo (kd_sk (ow_keys o)) (string_bytes message))), a)
          else (None, a)
      | Err _ => (None, a)
      end
  | Passwd fromStdin lines (Some _) disk, Some o =>
      match (read_passwd fromStdin lines).1 with
      | Ok (oldPass, newPass) =>
          if bool_decide (oldPass = ow_pass o) && disk_ok disk
          then (Some Changed, Some {| ow_keys := ow_keys o; ow_pass := newPass |}) else (None, a)
      | Err _ => (None, a)
      end
  | _, _ => (None, a)
  end.
Fixpoint spec_run (cmds : list Cmd) (a : option Owner) : list (option Output) * option Owner :=
  match cmds with
  | [] => ([], a)
  | c :: cmds =>
      let '(out, a) := spec c a in
      let '(outs, a) := spec_run cmds a in
      (out :: outs, a)
  end.

(** The file at the path is a keystore of the owner's keys, sealed under its passphrase. *)
Definition represents (path : string) (fs : Files) (a : option Owner) : Prop :=
  match a with
  | None => fs !! path = None
  | Some o =>
      well_drawn (ow_keys o) ∧ ow_pass o ≠ EmptyString ∧
      ∃ draw k, salted draw ∧
        seal (kd_pk (ow_keys o)) (kd_sk (ow_keys o)) (kd_xsk (ow_keys o)) (ow_pass o) (Some draw) = Ok k ∧
        fs !! path = Some (marshal_file (file k))
  end.

Definition drawn (c : Cmd) : Prop :=
  match c with
  | Init _ _ keys draw _ => (∀ k, keys = Some k → well_drawn k) ∧ (∀ d, draw = Some d → salted d)
  | Passwd _ _ draw _ => ∀ d, draw = Some d → salted d
  | _ => True
  end.
(** The passphrase a command unlocks with. *)
Definition guess (c : Cmd) : option string :=
  match c with
  | Sign fromStdin _ lines =>
      match (readExistingPassphrase fromStdin lines).1 with Ok p => Some p | Err _ => None end
  | Passwd fromStdin lines _ _ =>
      match (read_passwd fromStdin lines).1 with Ok (p, _) => Some p | Err _ => None end
  | _ => None
  end.
(** Argon2 and the AEAD reject the wrong passphrases that are tried: one at a state, and
    those of a run. *)
Definition rejects (path : string) (c : Cmd) (fs : Files) (a : option Owner) : Prop :=
  ∀ o p k, a = Some o → guess c = Some p → p ≠ ow_pass o → Load path fs = Ok k →
    is_ok (unlockSecrets k p) = false.
Fixpoint rejects_wrong (path : string) (cmds : list Cmd) (fs : Files) (a : option Owner) : Prop :=
  match cmds with
  | [] => True
  | c :: cmds => rejects path c fs a ∧ rejects_wrong path cmds (exec path c fs).2 (spec c a).2
  end.
End contract.
End KeystoreContract.

(** * Lemmas *)

Module KeystoreLemmas.
Import Keystore KeystoreContract.
Section lemmas.
Context `{SHA : Sha256, M3 : Mode3, MS : !Mode3Signer, XX : X25519, XL : !X25519Laws, AE : Aead, AL : !AeadLaws,
          AB : !AeadBytes, A2 : Argon2, KJ : KeystoreJson, KL : !KeystoreJsonLaws}.

Lemma seal_Ok pk sk xsk pass draw :
  ∃ key, deriveKey pass (sd_salt draw) defaultArgon2Params = Ok key ∧
    seal pk sk xsk pass (Some draw) =
      Ok {| file := {| f_Version := keystoreVersion; f_PublicKey := hex_encode pk;
                       f_X25519PublicKey := hex_encode (x25519_public xsk); f_KDF := kdfArgon2id;
                       f_KDFParams := defaultArgon2Params; f_Salt := hex_encode (sd_salt draw);
                       f_Ciphertext := hex_encode (Encrypt key (marshal_secrets {| DilithiumSK := sk; X25519SK := xsk |})
                                                     (pk ++ x25519_public xsk) (sd_nonce draw)) |} |}.
Proof. eexists. split; reflexivity. Qed.

Section sealed.
Context (keys : KeyDraw) (pass : string) (draw : SealDraw) (k : Keystore).
Context (Hk : well_drawn keys) (Hd : salted draw).
Context (Hs : seal (kd_pk keys) (kd_sk keys) (kd_xsk keys) pass (Some draw) = Ok k).

Lemma sealed_PublicKey : PublicKey k = kd_pk keys.
Proof.
  destruct (seal_Ok (kd_pk keys) (kd_sk keys) (kd_xsk keys) pass draw) as (key & _ & E).
  rewrite E in Hs. injection Hs as <-. unfold PublicKey. cbn. by rewrite hex_decode_encode by apply Hk.
Qed.

Lemma sealed_ShieldedPublicKey : ShieldedPublicKey k = Some (x25519_public (kd_xsk keys)).
Proof.
  destruct (seal_Ok (kd_pk keys) (kd_sk keys) (kd_xsk keys) pass draw) as (key & _ & E).
  rewrite E in Hs. injection Hs as <-. unfold ShieldedPublicKey. cbn. rewrite hex_decode_encode by apply Hk.
  unfold NewPublicKey. by rewrite bool_decide_true by apply public_length.
Qed.

Lemma sealed_unlockSecrets :
  pass ≠ EmptyString → unlockSecrets k pass = Ok {| DilithiumSK := kd_sk keys; X25519SK := kd_xsk keys |}.
Proof.
  intros Hp. unfold unlockSecrets. rewrite bool_decide_false, sealed_PublicKey by done.
  destruct (seal_Ok (kd_pk keys) (kd_sk keys) (kd_xsk keys) pass draw) as (key & Ekey & E).
  rewrite E in Hs. injection Hs as <-. cbn [file f_Salt f_Ciphertext f_X25519PublicKey f_KDFParams].
  destruct (secrets_roundtrip {| DilithiumSK := kd_sk keys; X25519SK := kd_xsk keys |}) as [Hb Hj]; [apply Hk..|].
  rewrite !hex_decode_encode; [|apply Hk| |apply Hd].
  - rewrite Ekey. cbn. rewrite Decrypt_Encrypt; [by rewrite Hj|apply Hd|done].
  - unfold Encrypt, is_bytes. apply Forall_app. split; [apply Hd|by apply Seal_bytes].
Qed.

Lemma sealed_UnlockShielded :
  pass ≠ EmptyString →
  Unlock k pass = Ok (kd_pk keys, kd_sk keys) ∧
  UnlockShielded k pass =
    Ok {| si_PublicKey := kd_pk keys; si_PrivateKey := kd_sk keys;
          si_ShieldedPub := x25519_public (kd_xsk keys); si_ShieldedKey := kd_xsk keys |}.
Proof.
  intros Hp. unfold Unlock, UnlockShielded. rewrite sealed_unlockSecrets, sealed_PublicKey by done. cbn.
  assert (Ht : self_test (kd_pk keys) (kd_sk keys) = Ok tt).
  { destruct (keypair_signs _ _ selfTestMessage (wd_pair _ Hk)) as (sig & Es & Ev & _).
    unfold self_test. by rewrite Es, Ev. }
  rewrite Ht. cbn. unfold NewPrivateKey. by rewrite bool_decide_true by apply Hk.
Qed.

Lemma sealed_Load path fs : fs !! path = Some (marshal_file (file k)) → Load path fs = Ok k.
Proof.
  intros Hf. unfold Load. rewrite Hf.
  destruct (seal_Ok (kd_pk keys) (kd_sk keys) (kd_xsk keys) pass draw) as (key & _ & E).
  rewrite E in Hs. injection Hs as <-. cbn [file]. rewrite file_roundtrip by done. cbn.
  rewrite !hex_decode_encode by apply Hk. unfold NewPublicKey. by rewrite bool_decide_true by apply public_length.
Qed.
End sealed.

Lemma tmp_of_ne path : tmp_of path ≠ path.
Proof.
  unfold tmp_of. induction path as [|c path IH]; [done|]. cbn. by intros [= ?%IH].
Qed.

(** A save writes the whole file or leaves the old one, whatever the disk does. *)
Lemma Save_spec k path disk fs :
  let '(r, fs') := Save k path disk fs in
  is_ok r = disk_ok disk ∧
  fs' !! path = (if disk_ok disk then Some (marshal_file (file k)) else fs !! path) ∧
  ∀ q, q ≠ path → q ≠ tmp_of path → fs' !! q = fs !! q.
Proof.
  unfold Save, disk_ok. assert (Hne := tmp_of_ne path).
  destruct (dk_write disk) as [|partial]; unfold mbind, call_bind, modify, fail, lift; cbv beta iota.
  - destruct (dk_rename disk).
    + rewrite lookup_insert_eq. cbn [from_option is_ok]. split_and!; [done|by rewrite lookup_insert_eq|].
      intros q Hq Ht. by rewrite lookup_insert_ne, lookup_delete_ne, lookup_insert_ne.
    + split_and!; [done|by rewrite lookup_insert_ne|]. intros q Hq Ht. by rewrite lookup_insert_ne.
  - destruct partial; cbn [from_option is_ok]; split_and!; try done; [by rewrite lookup_insert_ne|].
    intros q Hq Ht. by rewrite lookup_insert_ne.
Qed.

(** ** One command *)

Lemma represents_ext path fs fs' a : fs' !! path = fs !! path → represents path fs a → represents path fs' a.
Proof. intros E. destruct a as [o|]; cbn; by rewrite E. Qed.

Lemma represents_opens path fs o : represents path fs (Some o) →
  ∃ k, Load path fs = Ok k ∧ PublicKey k = kd_pk (ow_keys o) ∧
    Unlock k (ow_pass o) = Ok (kd_pk (ow_keys o), kd_sk (ow_keys o)) ∧
    UnlockShielded k (ow_pass o) =
      Ok {| si_PublicKey := kd_pk (ow_keys o); si_PrivateKey := kd_sk (ow_keys o);
            si_ShieldedPub := x25519_public (kd_xsk (ow_keys o)); si_ShieldedKey := kd_xsk (ow_keys o) |}.
Proof.
  intros (Hk & Hp & draw & k & Hd & Hs & Hf). exists k.
  split; [by eapply sealed_Load|]. split; [by eapply sealed_PublicKey|]. by eapply sealed_UnlockShielded.
Qed.

(** What a command did at its path, and that it left every other file but the temporary one. *)
Definition does (path : string) (fs : Files) (res : result Output * Files) (expected : option Output * option Owner) : Prop :=
  output res.1 = expected.1 ∧ represents path res.2 expected.2 ∧
  ∀ q, q ≠ path → q ≠ tmp_of path → res.2 !! q = fs !! q.

Lemma does_nothing path fs a r : represents path fs a → is_ok r = false → does path fs (r, fs) (None, a).
Proof. intros Ha Hr. by destruct r. Qed.
Lemma does_show path fs a out : represents path fs a → does path fs (Ok out, fs) (Some out, a).
Proof. done. Qed.

Lemma does_save path fs a keys pass draw k disk out :
  represents path fs a → well_drawn keys → salted draw → pass ≠ EmptyString →
  seal (kd_pk keys) (kd_sk keys) (kd_xsk keys) pass (Some draw) = Ok k →
  does path fs ((Save k path disk ≫= λ _, mret out) fs)
    (if disk_ok disk then (Some out, Some {| ow_keys := keys; ow_pass := pass |}) else (None, a)).
Proof.
  intros Ha Hk Hd Hp Hs. assert (H := Save_spec k path disk fs). unfold mbind, call_bind.
  destruct (Save k path disk fs) as [r fs']. destruct H as (Hr & Hf & Hq).
  destruct (disk_ok disk); destruct r; try done.
  - split_and!; [done| |done]. cbn. by eauto 10.
  - split_and!; [done|by eapply represents_ext|done].
Qed.

Lemma read_passwd_nonempty fromStdin lines oldPass newPass rest :
  read_passwd fromStdin lines = (Ok (oldPass, newPass), rest) → newPass ≠ EmptyString.
Proof.
  unfold read_passwd, promptNewPassphrase. destruct fromStdin; intros H; call_inv; bools; by simplify_eq.
Qed.

Lemma runInit_does path fs a fromStdin lines keys draw disk :
  represents path fs a → (∀ k, keys = Some k → well_drawn k) → (∀ d, draw = Some d → salted d) →
  does path fs (runInit path fromStdin lines keys draw disk fs) (spec (Init fromStdin lines keys draw disk) a).
Proof.
  intros Ha Hk Hd. unfold runInit. unfold mbind at 1, call_bind at 1. cbn [gets]. unfold id.
  destruct a as [o|]; cbn [spec].
  { assert (is_Some (fs !! path)) by (destruct Ha as (? & ? & dr & k & ? & ? & Hf); eauto).
    rewrite bool_decide_true by done. destruct keys, draw; by apply does_nothing. }
  cbn in Ha. rewrite Ha, bool_decide_false by (by intros []). unfold lift.
  destruct ((if fromStdin then readPassphraseLine else promptNewPassphrase) lines).1 as [p|e];
    unfold mbind at 1, call_bind at 1; [|destruct keys, draw; by apply does_nothing].
  unfold Generate. case_bool_decide as Hp; unfold mbind at 1, call_bind at 1;
    [destruct keys, draw; by apply does_nothing|].
  destruct keys as [keys|], draw as [draw|]; try by apply does_nothing.
  specialize (Hk keys eq_refl). specialize (Hd draw eq_refl).
  destruct (seal_Ok (kd_pk keys) (kd_sk keys) (kd_xsk keys) p draw) as (key & _ & E).
  match type of E with _ = Ok ?k => set (ks := k) in * end. rewrite E. cbn [negb andb].
  unfold Identity. rewrite (sealed_PublicKey _ _ _ _ Hk E). by apply (does_save _ _ None _ _ draw).
Qed.

Lemma runShow_does path fs a : represents path fs a → does path fs (runShow path fs) (spec Show a).
Proof.
  intros Ha. unfold runShow, mbind, call_bind, gets, lift, id. destruct a as [o|]; cbn [spec].
  - destruct (represents_opens _ _ _ Ha) as (k & -> & Hpk & _). unfold Identity. rewrite Hpk. by apply does_show.
  - cbn in Ha. unfold Load. rewrite Ha. by apply does_nothing.
Qed.

Lemma guess_rejected path fs o c p k :
  rejects path c fs (Some o) → guess c = Some p → p ≠ ow_pass o → Load path fs = Ok k →
  is_ok (Unlock k p) = false ∧ is_ok (UnlockShielded k p) = false.
Proof.
  intros Hr Hg Hp Hk. specialize (Hr o p k eq_refl Hg Hp Hk). unfold Unlock, UnlockShielded.
  by destruct (unlockSecrets k p).
Qed.

Lemma runSign_does path fs a fromStdin message lines :
  represents path fs a → rejects path (Sign fromStdin message lines) fs a →
  does path fs (runSign path fromStdin message lines fs) (spec (Sign fromStdin message lines) a).
Proof.
  intros Ha Hr. unfold runSign, check, require, lift, gets, id, mbind, call_bind. cbn [spec].
  destruct a as [o|]; cbn [spec].
  - destruct (represents_opens _ _ _ Ha) as (k & Hk & Hpk & Hu & _).
    assert (Hg := λ p, guess_rejected _ _ _ _ p k Hr). cbn [guess] in Hg. rewrite Hk.
    case_bool_decide as Hm; cbn [negb andb].
    { destruct (readExistingPassphrase fromStdin lines).1; by apply does_nothing. }
    destruct (readExistingPassphrase fromStdin lines).1 as [p|e]; [|by apply does_nothing].
    case_bool_decide as Hp.
    + subst p. rewrite Hu. destruct (keypair_signs _ _ (string_bytes message) (wd_pair _ (proj1 Ha))) as (sig & Es & Ev & _).
      rewrite Es, Ev, bool_decide_true by done. unfold Identity. rewrite Hpk. cbn.
      unfold DilithiumSign in Es. case_match; [done|]. injection Es as <-. by apply does_show.
    + destruct (Hg p eq_refl Hp Hk) as [Hu' _]. destruct (Unlock k p) as [[]|]; [done|]. by apply does_nothing.
  - cbn in Ha. unfold Load. rewrite Ha. case_bool_decide; by apply does_nothing.
Qed.

Lemma runPasswd_does path fs a fromStdin lines draw disk :
  represents path fs a → (∀ d, draw = Some d → salted d) → rejects path (Passwd fromStdin lines draw disk) fs a →
  does path fs (runPasswd path fromStdin lines draw disk fs) (spec (Passwd fromStdin lines draw disk) a).
Proof.
  intros Ha Hd Hr. unfold runPasswd. unfold mbind at 1, call_bind at 1. cbn [gets]. unfold id.
  unfold mbind at 1, call_bind at 1, lift at 1. destruct a as [o|]; cbn [spec].
  - destruct (represents_opens _ _ _ Ha) as (k & Hk & Hpk & _ & Hu).
    assert (Hg := λ p, guess_rejected _ _ _ _ p k Hr). cbn [guess] in Hg. rewrite Hk.
    destruct (read_passwd fromStdin lines) as [[[oldPass newPass]|e] rest] eqn:El; cbn [fst] in *;
      unfold mbind at 1, call_bind at 1, lift at 1; [|destruct draw; by apply does_nothing].
    apply read_passwd_nonempty in El. unfold ChangePassphrase. unfold mbind at 1, call_bind at 1. cbn [gets]. unfold id.
    unfold mbind at 1, call_bind at 1, lift at 1. case_bool_decide as Hp; cbn [andb].
    + subst oldPass. rewrite Hu. unfold mbind at 1, call_bind at 1, lift at 1. cbn [si_PublicKey si_PrivateKey si_ShieldedKey].
      destruct draw as [draw|]; [specialize (Hd draw eq_refl)|by apply does_nothing].
      destruct Ha as (Hw & Hne & Ha).
      destruct (seal_Ok (kd_pk (ow_keys o)) (kd_sk (ow_keys o)) (kd_xsk (ow_keys o)) newPass draw) as (key & _ & E).
      match type of E with _ = Ok ?k => set (ks := k) in * end. rewrite E. unfold modify. cbn [file].
      unfold mbind at 1, call_bind at 1, lift at 1. apply (does_save _ _ (Some o) _ _ draw); [by split|done..].
    + destruct (Hg oldPass eq_refl Hp Hk) as [_ Hu']. destruct (UnlockShielded k oldPass) as [|]; [done|]. destruct draw; by apply does_nothing.
  - cbn in Ha. unfold Load. rewrite Ha. destruct draw; by apply does_nothing.
Qed.

Lemma exec_does path fs a c :
  represents path fs a → drawn c → rejects path c fs a → does path fs (exec path c fs) (spec c a).
Proof.
  intros Ha Hc Hr. destruct c; cbn [exec].
  - destruct Hc. by apply runInit_does.
  - by apply runShow_does.
  - by apply runSign_does.
  - by apply runPasswd_does.
Qed.

(** No command changes the keys of an identity that exists. *)
Lemma spec_keeps c o : ∃ o', (spec c (Some o)).2 = Some o' ∧ ow_keys o' = ow_keys o.
Proof. destruct c; cbn; repeat case_match; eauto. Qed.
End lemmas.
End KeystoreLemmas.

(** * Properties *)

Module KeystoreSpec.
Import Keystore KeystoreContract KeystoreLemmas.

(** C25: the keystore commands implement their contract. Over any sequence of init, show,
    sign and passwd on one path, whatever the disk does to the writes and renames and
    whichever random draws fail, and provided the wrong passphrases that are tried are
    rejected by the cipher: every command prints, or fails, as the contract says, where a
    command that could not draw or write changes nothing; the file always holds the
    contract's identity sealed under its passphrase, or is not there; no other file is
    touched but the temporary one; and an identity once there keeps its keys, which its
    current passphrase unlocks. *)
Theorem keystore_refines `{SHA : Sha256, M3 : Mode3, MS : !Mode3Signer, XX : X25519, XL : !X25519Laws, AE : Aead,
    AL : !AeadLaws, AB : !AeadBytes, A2 : Argon2, KJ : KeystoreJson, KL : !KeystoreJsonLaws} path cmds fs a :
  represents path fs a → Forall drawn cmds → rejects_wrong path cmds fs a →
  (run path cmds fs).1 = (spec_run cmds a).1 ∧
  represents path (run path cmds fs).2 (spec_run cmds a).2 ∧
  (∀ q, q ≠ path → q ≠ tmp_of path → (run path cmds fs).2 !! q = fs !! q) ∧
  (∀ o, a = Some o → ∃ o' k, (spec_run cmds a).2 = Some o' ∧ ow_keys o' = ow_keys o ∧
     Load path (run path cmds fs).2 = Ok k ∧
     Unlock k (ow_pass o') = Ok (kd_pk (ow_keys o), kd_sk (ow_keys o)) ∧
     UnlockShielded k (ow_pass o') =
       Ok {| si_PublicKey := kd_pk (ow_keys o); si_PrivateKey := kd_sk (ow_keys o);
             si_ShieldedPub := x25519_public (kd_xsk (ow_keys o)); si_ShieldedKey := kd_xsk (ow_keys o) |}).
Proof.
  revert fs a. induction cmds as [|c cmds IH]; intros fs a Ha Hd Hr; cbn [run spec_run].
  { split_and!; [done..|]. intros o ->. destruct (represents_opens _ _ _ Ha) as (k & Hk & _ & Hu). by exists o, k. }
  apply Forall_cons in Hd as [Hc Hd]. destruct Hr as [Hr Hrs].
  destruct (exec_does path fs a c Ha Hc Hr) as (Ho & Ha' & Hq).
  destruct (IH _ _ Ha' Hd Hrs) as (Ho' & Ha'' & Hq' & Hkeep). assert (Hsk := spec_keeps c).
  destruct (exec path c fs) as [r fs1], (spec c a) as [out a1] eqn:Es. cbn [fst snd] in *.
  destruct (run path cmds fs1) as [outs fs2], (spec_run cmds a1) as [outs' a2]. cbn [fst snd] in *.
  split_and!; [by rewrite Ho, Ho'|done|intros q H1 H2; by rewrite Hq', Hq|].
  intros o ->. destruct (Hsk o) as (o1 & E1 & Ek). rewrite Es in E1.
  destruct (Hkeep o1 E1) as (o' & k & H1 & H2 & H3). exists o', k. rewrite <-Ek. by rewrite H2.
Qed.
End KeystoreSpec.

(** * A concrete keystore *)

Module KeystoreModel.
Import Keystore KeystoreContract SignerModel MemoModel.
#[export] Existing Instance CryptoModel.sha.
#[export] Instance argon2 : Argon2 := λ pass salt _ _ _ n, take n (pass ++ salt ++ replicate n 0).

(** A file is its fields, and secrets are the first key's length in unary, then the keys. *)
#[export] Instance params_eq_dec : EqDecision argon2Params.
Proof. solve_decision. Defined.
#[export] Instance params_countable : Countable argon2Params :=
  inj_countable' (λ p, (TimeCost p, MemoryKiB p, Threads p, SaltLength p))
    (λ '(t, m, h, l), {| TimeCost := t; MemoryKiB := m; Threads := h; SaltLength := l |}) ltac:(by intros []).
#[export] Instance file_eq_dec : EqDecision keystoreFile.
Proof. solve_decision. Defined.
#[export] Instance file_countable : Countable keystoreFile :=
  inj_countable' (λ f, (f_Version f, f_PublicKey f, f_X25519PublicKey f, f_KDF f, f_KDFParams f, f_Salt f, f_Ciphertext f))
    (λ '(v, pk, xpk, kdf, p, salt, ct),
      {| f_Version := v; f_PublicKey := pk; f_X25519PublicKey := xpk; f_KDF := kdf; f_KDFParams := p; f_Salt := salt;
         f_Ciphertext := ct |}) ltac:(by intros []).
Fixpoint unmark (b : bytes) : nat * bytes :=
  match b with
  | [] => (O, [])
  | x :: b => if x =? 1 then let '(n, rest) := unmark b in (S n, rest) else (O, b)
  end.
#[export] Instance json : KeystoreJson :=
  {| marshal_file f := [Zpos (encode f)];
     unmarshal_file b := match b with
                         | [Zpos p] => from_option Ok (Err "json") (decode p)
                         | _ => Err "json"
                         end;
     marshal_secrets s := replicate (length (DilithiumSK s)) 1 ++ 0 :: DilithiumSK s ++ X25519SK s;
     unmarshal_secrets b := let '(n, rest) := unmark b in
                            Ok {| DilithiumSK := take n rest; X25519SK := drop n rest |} |}.
Lemma unmark_mark n rest : unmark (replicate n 1 ++ 0 :: rest) = (n, rest).
Proof. induction n as [|n IH]; [done|]. cbn. by rewrite IH. Qed.
#[export] Instance json_laws : KeystoreJsonLaws.
Proof.
  split.
  - intros version pk xpk kdf params salt ct f _ _. unfold unmarshal_file, marshal_file, json. by rewrite countable.decode_encode.
  - intros [sk xsk] Hs Hx. cbn in *. split.
    + apply Forall_app. split; [by apply Forall_replicate|]. apply Forall_cons. split; [done|]. by apply Forall_app.
    + by rewrite unmark_mark, take_app_length, drop_app_length.
Qed.
#[export] Instance aead_bytes : AeadBytes.
Proof.
  intros key nonce plain ad Hp. apply Forall_app. split; [done|]. apply Forall_replicate. by apply Z.mod_pos_bound.
Qed.

Definition owner_keys : KeyDraw := {| kd_pk := [7]; kd_sk := [7]; kd_xsk := replicate 32 5 |}.
Definition draw (x : Z) : SealDraw := {| sd_salt := replicate 16 x; sd_nonce := replicate 12 x |}.
Definition good : Disk := {| dk_write := Written; dk_rename := true |}.
Definition torn : Disk := {| dk_write := WriteFailed (Some [1]); dk_rename := true |}.
(** An identity, whose first attempt draws no salt; a passphrase changed by a write that tears
    and then by one that does not, the old one tried, and a message signed. *)
Definition path : string := "wallet.json".
Definition cmds : list Cmd :=
  [Sign true "hi" ["a"]; Init false ["one"; "one"] (Some owner_keys) None good;
   Init false ["one"; "one"] (Some owner_keys) (Some (draw 3)) good; Passwd true ["one"; "two"] (Some (draw 4)) torn;
   Passwd true ["one"; "two"] (Some (draw 5)) good; Sign true "hi" ["one"]; Sign false "hi" ["two"]]%string.
Definition outputs : list (option Output) :=
  [None; None; Some (Created (SumHash [[7]]) [7]); None; Some Changed; None;
   Some (Signed (SumHash [[7]]) "hi" [2])].

Lemma keys_ok : well_drawn owner_keys.
Proof. split; [apply SignerModel.keys|by repeat constructor..|by apply (Forall_replicate _ 32 5)|done|by apply (Forall_replicate _ 32 5)]. Qed.
Lemma draw_salted x : 0 ≤ x < 256 → salted (draw x).
Proof. intros Hx. split; [by apply (Forall_replicate _ 16 x)|by apply (Forall_replicate _ 12 x)|done]. Qed.
Lemma cmds_drawn : Forall drawn cmds.
Proof.
  unfold cmds. rewrite !Forall_cons. cbn [drawn].
  split_and!; try exact I; try done; try (intros ? [= <-]; first [apply keys_ok|apply draw_salted; lia]).
Qed.

(** [rejects_wrong], computed. *)
Fixpoint rejects_check (path : string) (cmds : list Cmd) (fs : Files) (a : option Owner) : bool :=
  match cmds with
  | [] => true
  | c :: cmds =>
      match a, guess c, Load path fs with
      | Some o, Some p, Ok k => bool_decide (p = ow_pass o) || negb (is_ok (unlockSecrets k p))
      | _, _, _ => true
      end && rejects_check path cmds (exec path c fs).2 (spec c a).2
  end.
Lemma rejects_checked p cs : ∀ fs a, rejects_check p cs fs a = true → rejects_wrong p cs fs a.
Proof.
  induction cs as [|c cs IH]; intros fs a; cbn [rejects_check rejects_wrong]; [done|].
  intros [H Hcs]%andb_true_iff. split; [|by apply IH]. intros o q k -> Hg Hq Hk. rewrite Hg, Hk in H.
  bools. destruct H as [H|H]; [done|]. by destruct (is_ok _).
Qed.
End KeystoreModel.

Module KeystoreWitness.
Import Keystore KeystoreContract KeystoreModel SignerModel MemoModel.

Lemma keystore_refines_witness :
  (run path cmds ∅).1 = outputs ∧
  ∃ k, Load path (run path cmds ∅).2 = Ok k ∧ Unlock k "two" = Ok ([7], [7]).
Proof.
  destruct (KeystoreSpec.keystore_refines path (take 3 cmds) ∅ None) as (_ & Hrep & _).
  - reflexivity.
  - apply Forall_take, cmds_drawn.
  - apply rejects_checked. vm_compute. reflexivity.
  - destruct (KeystoreSpec.keystore_refines path (drop 3 cmds) (run path (take 3 cmds) ∅).2
      (Some {| ow_keys := owner_keys; ow_pass := "one" |})) as (_ & _ & _ & H).
    + exact Hrep.
    + apply Forall_drop, cmds_drawn.
    + apply rejects_checked. vm_compute. reflexivity.
    + destruct (H _ eq_refl) as (o' & k & Ho & _ & Hk & Hu & _). split; [vm_compute; reflexivity|].
      assert (Hp : ow_pass o' = "two"%string).
      { assert (Hs : (spec_run (drop 3 cmds) (Some {| ow_keys := owner_keys; ow_pass := "one" |})).2 =
                     Some {| ow_keys := owner_keys; ow_pass := "two" |}) by (vm_compute; reflexivity).
        rewrite Hs in Ho. injection Ho as <-. reflexivity. }
      rewrite Hp in Hu. exists k. split; [|exact Hu].
      assert (Hrun : (run path cmds ∅).2 = (run path (drop 3 cmds) (run path (take 3 cmds) ∅).2).2)
        by (vm_compute; reflexivity).
      rewrite Hrun. exact Hk.
Defined.
End KeystoreWitness.

(** * Findings *)

Module KeystoreFindings.
Import Keystore KeystoreLemmas.
Section findings.
Context `{SHA : Sha256, M3 : Mode3, MS : !Mode3Signer, XX : X25519, XL : !X25519Laws, AE : Aead, AL : !AeadLaws,
          AB : !AeadBytes, A2 : Argon2, KJ : KeystoreJson, KL : !KeystoreJsonLaws}.

(** [ChangePassphrase] takes an empty new passphrase, which [Generate] refuses, and no
    unlocking accepts it afterwards: the keystore is locked for good. *)
Theorem empty_new_passphrase_locks keys pass draw k draw' :
  well_drawn keys → salted draw → pass ≠ EmptyString →
  seal (kd_pk keys) (kd_sk keys) (kd_xsk keys) pass (Some draw) = Ok k →
  let '(r, k') := ChangePassphrase pass EmptyString (Some draw') k in
  r = Ok tt ∧
  Unlock k' EmptyString = Err "walletkey: passphrase must not be empty" ∧
  UnlockShielded k' EmptyString = Err "walletkey: passphrase must not be empty".
Proof.
  intros Hk Hd Hp Hs. destruct (sealed_UnlockShielded keys pass draw k Hk Hd Hs Hp) as [_ Hu].
  unfold ChangePassphrase, mbind, call_bind, gets, lift, id. rewrite Hu. cbn [si_PublicKey si_PrivateKey si_ShieldedKey].
  destruct (seal_Ok (kd_pk keys) (kd_sk keys) (kd_xsk keys) EmptyString draw') as (key & _ & ->). done.
Qed.

(** [Load] accepts the cost parameters of a file as they are; without a round, every
    unlocking with a passphrase panics inside Argon2. *)
Theorem load_accepts_panicking_costs path b k salt ct xpk :
  unmarshal_file b = Ok (file k) → f_Version (file k) = keystoreVersion → f_KDF (file k) = kdfArgon2id →
  f_PublicKey (file k) = hex_encode (PublicKey k) → is_bytes (PublicKey k) →
  f_X25519PublicKey (file k) = hex_encode xpk → is_bytes xpk → length xpk = 32%nat →
  f_Salt (file k) = hex_encode salt → is_bytes salt → f_Ciphertext (file k) = hex_encode ct → is_bytes ct →
  TimeCost (f_KDFParams (file k)) = 0 →
  Load path {[path := b]} = Ok k ∧
  ∀ pass, pass ≠ EmptyString → Unlock k pass = Err "panic: argon2: number of rounds too small".
Proof.
  intros Hb Hv Hkdf Hpk Hpkb Hx Hxb Hxl Hsa Hsab Hct Hctb Ht. split.
  - unfold Load. rewrite lookup_singleton_eq, Hb, Hv, Hkdf, Hpk, Hx. cbn. rewrite !hex_decode_encode by done.
    unfold NewPublicKey. rewrite bool_decide_true by done. by destruct k.
  - intros pass Hp. unfold Unlock, unlockSecrets, deriveKey.
    by rewrite bool_decide_false, Hsa, Hct, Hx, !hex_decode_encode, Ht by done.
Qed.
End findings.
End KeystoreFindings.
