(* ===== verification/Flags.v ===== *)
(** What the binaries share: splitting and trimming flags, and waiting for the file a sibling
    process announces its address in (the [waitForAddrFile] of cmd/node and cmd/wallet). *)
From S2P Require Import Prelude Words Decimal Hashing Types.
Local Open Scope Z_scope.

(** [strings.Split] at commas. *)
Fixpoint split_comma (s : string) : list string :=
  match s with
  | EmptyString => [EmptyString]
  | String c s =>
      let rest := split_comma s in
      if (Ascii.nat_of_ascii c =? 44)%nat then EmptyString :: rest
      else match rest with [] => [String c EmptyString] | w :: ws => String c w :: ws end
  end.

(** [strings.TrimSpace] of ASCII text. *)
Definition is_space (c : Ascii.ascii) : bool :=
  let n := Ascii.nat_of_ascii c in (n =? 32)%nat || ((9 <=? n) && (n <=? 13))%nat.
Fixpoint trim_left (s : string) : string :=
  match s with
  | EmptyString => EmptyString
  | String c rest => if is_space c then trim_left rest else s
  end.
Fixpoint trim_right (s : string) : string :=
  match s with
  | EmptyString => EmptyString
  | String c rest =>
      match trim_right rest with
      | EmptyString => if is_space c then EmptyString else String c EmptyString
      | rest => String c rest
      end
  end.
Definition TrimSpace (s : string) : string := trim_right (trim_left s).

(** The parts of a comma-separated flag that are not blank, as every such loop visits them. *)
Definition flag_parts (s : string) : list string := filter (λ p, p ≠ EmptyString) (TrimSpace <$> split_comma s).

(** One round of the wait: what the file holds if it can be read, the instant the deadline is
    tested, and whether the wait for the tick ends by the context. *)
Record AddrPoll := { ad_file : option string; ad_now : Time; ad_cancelled : bool }.
Definition addr_interval : Duration := 200 * Millisecond.
Definition addr_timeout : Duration := 30 * Second.

(** [None]: the fuel ran out, the process still waits. *)
Fixpoint addr_loop (fuel : nat) (deadline : Time) (polls : nat → AddrPoll) (i : nat) : option (result string) :=
  match fuel with
  | O => None
  | S fuel =>
      let p := polls i in
      match ad_file p with
      | Some (String _ _ as s) => Some (Ok (TrimSpace s))
      | _ =>
          if deadline <? ad_now p then Some (Err "timed out")
          else if ad_cancelled p then Some (Err "context")
          else addr_loop fuel deadline polls (S i)
      end
  end.
Definition waitForAddrFile (fuel : nat) (start : Time) (polls : nat → AddrPoll) : option (result string) :=
  addr_loop fuel (time_add start addr_timeout) polls 0.

(** * Lemmas *)

Lemma addr_loop_late fuel deadline polls : ∀ i,
  (∃ k, (i ≤ k < i + fuel)%nat ∧ deadline < ad_now (polls k)) → is_Some (addr_loop fuel deadline polls i).
Proof.
  induction fuel as [|fuel IH]; intros i (k & Hk & Hd); cbn; [lia|].
  assert (Hgo : is_Some (if deadline <? ad_now (polls i) then Some (Err "timed out")
    else if ad_cancelled (polls i) then Some (Err "context") else addr_loop fuel deadline polls (S i))).
  { destruct (deadline <? ad_now (polls i)) eqn:E; [done|]. destruct (ad_cancelled _); [done|]. bools.
    destruct (decide (k = i)) as [->|Hne]; [lia|]. apply IH. exists k. split; [lia|done]. }
  destruct (ad_file (polls i)) as [[|c s]|]; done.
Qed.

(** The wait ends within 152 rounds when the ticks are at least their interval apart. *)
Definition addr_rounds : nat := 152.
Lemma waitForAddrFile_returns fuel start polls :
  (∀ n, start + Z.of_nat n * addr_interval ≤ ad_now (polls n)) → (addr_rounds ≤ fuel)%nat →
  is_Some (waitForAddrFile fuel start polls).
Proof.
  intros Hticks Hfuel. apply addr_loop_late. exists 151%nat. unfold addr_rounds in Hfuel. split; [lia|].
  specialize (Hticks 151%nat). unfold time_add, addr_timeout, addr_interval, Second, Millisecond in *. lia.
Qed.

(** A blank list of parts is an empty flag. *)
Lemma flag_parts_empty : flag_parts EmptyString = [].
Proof. reflexivity. Qed.
