(* ===== verification/Params.v ===== *)
(** pkg/zk/*_persist.go with cmd/wallet/zksetup.go and the loaders of cmd/node/main.go: the
    Groth16 parameters that independent processes share through a file. Compiling and
    setting up a circuit and the serialization of one key are gnark's and are parameters;
    how a disk behaves is an argument. *)
From S2P Require Import Prelude Words Decimal Hashing Types Field ZkTree Circuit Groth Prover Memo Keystore.
Local Open Scope Z_scope.

(** The five circuits, each with a [System] type of its own. *)
Inductive CircuitKind := KTransfer | KEligibility | KMint | KStake | KUnstake.
#[export] Instance CircuitKind_eq_dec : EqDecision CircuitKind.
Proof. solve_decision. Defined.

(** gnark: whether a circuit compiles, and the serialization of the keys. A reader takes a key
    from the front of a stream. *)
Class Gnark `{Groth16Prover} := {
  frontend_Compile : CircuitKind → bool;
  pk_WriteTo : ProvingKey → bytes; pk_ReadFrom : bytes → option (ProvingKey * bytes);
  vk_WriteTo : VerifyingKey → bytes; vk_ReadFrom : bytes → option (VerifyingKey * bytes) }.
Class GnarkLaws `{Gnark} : Prop := {
  pk_Read_Write : ∀ k rest, pk_ReadFrom (pk_WriteTo k ++ rest) = Some (k, rest);
  vk_Read_Write : ∀ k rest, vk_ReadFrom (vk_WriteTo k ++ rest) = Some (k, rest) }.

(** An [io.Writer]: what it has taken, and how many bytes it still takes ([None]: any). *)
Record Writer := { wr_out : bytes; wr_room : option nat }.
Definition Write (b : bytes) : call Writer Z := λ w,
  match wr_room w with
  | None => (Ok (Z.of_nat (length b)), {| wr_out := wr_out w ++ b; wr_room := None |})
  | Some room =>
      if (length b <=? room)%nat
      then (Ok (Z.of_nat (length b)), {| wr_out := wr_out w ++ b; wr_room := Some (room - length b)%nat |})
      else (Err "short write", {| wr_out := wr_out w ++ take room b; wr_room := Some 0%nat |})
  end.

Module Params.
Section params.
Context `{FR : Fr, GR : !Groth16, PR : !Groth16Prover, GN : !Gnark}.

(** * The persist files of pkg/zk *)

Definition compiledCircuit (kind : CircuitKind) : result unit :=
  require (frontend_Compile kind) "zk: compile circuit".

(** [drawn]: the keys the randomized setup returns, if it succeeds. *)
Definition Setup (kind : CircuitKind) (drawn : option System) : result System :=
  _ ← compiledCircuit kind;
  match drawn with None => Err "zk: groth16 setup" | Some sys => Ok sys end.

Definition WriteTo (s : System) : call Writer Z :=
  n ← Write (pk_WriteTo (sys_pk s));
  m ← Write (vk_WriteTo (sys_vk s));
  mret (n + m).

Definition ReadSystem (kind : CircuitKind) (r : bytes) : result System :=
  _ ← compiledCircuit kind;
  match pk_ReadFrom r with
  | None => Err "zk: read proving key"
  | Some (pk, r) =>
      match vk_ReadFrom r with
      | None => Err "zk: read verifying key"
      | Some (vk, _) => Ok {| sys_pk := pk; sys_vk := vk |}
      end
  end.

(** * The commands *)

(** How a file is created and written: whether [os.Create] succeeds, and the room there is. *)
Record Creation := { cr_create : bool; cr_room : option nat }.

(** The lines with which every set-up command and loader ends. *)
Definition create_and_write (path : string) (sys : System) (cr : Creation) : call Files unit :=
  if negb (cr_create cr) then fail "create"
  else
    let '(r, w) := WriteTo sys {| wr_out := []; wr_room := cr_room cr |} in
    _ ← modify (λ fs, <[path := wr_out w]> fs);
    match r with Err _ => fail "write" | Ok _ => mret tt end.

(** What a process does once it has found no file: it sets up keys, for minutes, and creates
    the file. Nothing holds the path in the meantime, and [os.Create] replaces a file that
    has appeared. *)
Definition create_system (kind : CircuitKind) (path : string) (drawn : option System) (cr : Creation)
    : call Files System :=
  sys ← lift (Setup kind drawn);
  _ ← create_and_write path sys cr;
  mret sys.

(** [run*ZKSetup] of cmd/wallet, with no other process at work on the path. *)
Definition run_setup (kind : CircuitKind) (out : string) (drawn : option System) (cr : Creation) : call Files unit :=
  fs ← gets id;
  if bool_decide (is_Some (fs !! out)) then fail "already exists"
  else _ ← create_system kind out drawn cr; mret tt.

(** [load*System] of cmd/wallet. *)
Definition load_system (kind : CircuitKind) (path : string) (fs : Files) : result System :=
  if bool_decide (path = EmptyString) then Err "params are required"
  else match fs !! path with
       | None => Err "open zk params file"
       | Some b => match ReadSystem kind b with Err _ => Err "load zk params" | Ok sys => Ok sys end
       end.

(** [loadOrCreate*System] of cmd/node, likewise; a file that exists can be opened. *)
Definition loadOrCreate (kind : CircuitKind) (path : string) (drawn : option System) (cr : Creation)
    : call Files System :=
  if bool_decide (path = EmptyString) then lift (Setup kind drawn)
  else
    fs ← gets id;
    match fs !! path with
    | Some b => lift (match ReadSystem kind b with Err _ => Err "load zk params" | Ok sys => Ok sys end)
    | None => create_system kind path drawn cr
    end.
End params.
End Params.

(** * Lemmas *)

Section params_lemmas.
Context `{FR : Fr, GR : !Groth16, PR : !Groth16Prover, GN : !Gnark, GL : !GnarkLaws}.
Import Params.

Lemma Write_Ok b w n w' : Write b w = (Ok n, w') → wr_out w' = wr_out w ++ b.
Proof. unfold Write. repeat case_match; [|done|]; by intros [= <- <-]. Qed.

Lemma WriteTo_Ok sys w n w' :
  WriteTo sys w = (Ok n, w') → wr_out w' = wr_out w ++ pk_WriteTo (sys_pk sys) ++ vk_WriteTo (sys_vk sys).
Proof.
  unfold WriteTo. intros E. call_inv.
  repeat match goal with H : Write _ _ = (Ok _, _) |- _ => apply Write_Ok in H end.
  unfold mret, call_ret in *. simplify_eq. rewrite app_assoc. congruence.
Qed.

(** What was written is read back, whatever follows it. *)
Lemma ReadSystem_written kind sys rest :
  frontend_Compile kind = true →
  ReadSystem kind (pk_WriteTo (sys_pk sys) ++ vk_WriteTo (sys_vk sys) ++ rest) = Ok sys.
Proof.
  intros Hc. unfold ReadSystem, compiledCircuit. rewrite Hc. cbn.
  rewrite pk_Read_Write, vk_Read_Write. by destruct sys.
Qed.

Lemma Setup_Ok kind drawn sys : Setup kind drawn = Ok sys → frontend_Compile kind = true ∧ drawn = Some sys.
Proof.
  unfold Setup, compiledCircuit. intros E. ok_inv. split; [done|]. destruct drawn; by ok_inv.
Qed.

Lemma create_and_write_Ok path sys cr fs fs' :
  create_and_write path sys cr fs = (Ok tt, fs') →
  fs' = <[path := pk_WriteTo (sys_pk sys) ++ vk_WriteTo (sys_vk sys)]> fs.
Proof.
  unfold create_and_write. destruct (negb _); [done|].
  destruct (WriteTo sys _) as [[n|e] w] eqn:E; [|done]. apply WriteTo_Ok in E. cbn in E.
  unfold mbind, call_bind, modify, mret, call_ret. intros [= <-]. by rewrite E.
Qed.

(** Whatever happens, only the named file changes. *)
Lemma create_and_write_frame path sys cr fs q :
  q ≠ path → (create_and_write path sys cr fs).2 !! q = fs !! q.
Proof.
  intros Hq. unfold create_and_write. destruct (negb _); [done|].
  destruct (WriteTo sys _) as [[n|e] w]; unfold mbind, call_bind, modify; cbn; by rewrite lookup_insert_ne.
Qed.

(** The file at the path holds these parameters. *)
Definition holds_params (kind : CircuitKind) (path : string) (sys : System) (fs : Files) : Prop :=
  ∃ b, fs !! path = Some b ∧ ReadSystem kind b = Ok sys.

Lemma written_holds kind path sys fs : frontend_Compile kind = true →
  holds_params kind path sys (<[path := pk_WriteTo (sys_pk sys) ++ vk_WriteTo (sys_vk sys)]> fs).
Proof.
  intros Hc. eexists. split; [apply lookup_insert_eq|].
  assert (H := ReadSystem_written kind sys [] Hc). by rewrite app_nil_r in H.
Qed.

Lemma loadOrCreate_Ok kind path drawn cr fs sys fs' :
  path ≠ EmptyString → loadOrCreate kind path drawn cr fs = (Ok sys, fs') →
  holds_params kind path sys fs' ∧ (∀ q, q ≠ path → fs' !! q = fs !! q) ∧ (is_Some (fs !! path) → fs' = fs).
Proof.
  intros Hp. unfold loadOrCreate. rewrite bool_decide_false by done.
  unfold mbind at 1, call_bind at 1, gets, id. cbv beta iota. destruct (fs !! path) as [b|] eqn:Ef.
  - unfold lift. destruct (ReadSystem kind b) as [s|e] eqn:Er; [|done]. intros [= <- <-].
    split; [by exists b|done].
  - unfold create_system. intros E. call_inv. unfold lift in *. unfold mret, call_ret in *. simplify_eq.
    match goal with H : Setup _ _ = Ok _ |- _ => apply Setup_Ok in H as [Hc ->] end.
    match goal with H : create_and_write _ _ _ ?fs0 = (Ok ?u, _) |- _ => destruct u;
      assert (Hf := λ q, create_and_write_frame path sys cr fs0 q); rewrite H in Hf; apply create_and_write_Ok in H as -> end.
    split; [by apply written_holds|]. split; [exact Hf|]. by intros [? [=]].
Qed.

Lemma holds_loadOrCreate kind path sys fs drawn cr : path ≠ EmptyString →
  holds_params kind path sys fs → loadOrCreate kind path drawn cr fs = (Ok sys, fs).
Proof.
  intros Hp (b & Ef & Er). unfold loadOrCreate. rewrite bool_decide_false by done.
  unfold mbind, call_bind, gets, id, lift. by rewrite Ef, Er.
Qed.
Lemma holds_load_system kind path sys fs : path ≠ EmptyString →
  holds_params kind path sys fs → load_system kind path fs = Ok sys.
Proof. intros Hp (b & Ef & Er). unfold load_system. by rewrite bool_decide_false, Ef, Er by done. Qed.
Lemma holds_run_setup kind path sys fs drawn cr :
  holds_params kind path sys fs → run_setup kind path drawn cr fs = (Err "already exists", fs).
Proof.
  intros (b & Ef & _). unfold run_setup, mbind, call_bind, gets, id, fail. by rewrite Ef, bool_decide_true by done.
Qed.
End params_lemmas.

(** * Properties *)

Module ParamsSpec.
Import Params.

(** A file of parameters that every process reads alike: nothing else changed, every loader
    returns these keys without touching the disk, and no set-up overwrites it. *)
Definition shares `{Gnark} (kind : CircuitKind) (path : string) (sys : System) (fs fs' : Files) : Prop :=
  (∀ q, q ≠ path → fs' !! q = fs !! q) ∧ load_system kind path fs' = Ok sys ∧
  ∀ drawn cr, loadOrCreate kind path drawn cr fs' = (Ok sys, fs') ∧
              run_setup kind path drawn cr fs' = (Err "already exists", fs').

(** C20: parameters are created once and then shared. Whoever creates a file, the wallet's
    set-up command or a node at its start, if it reports success then from that disk on
    every node and every wallet pointed at the file loads the very keys that were drawn,
    whatever they would draw themselves, and no later set-up replaces them; a node that
    found the file shares what is in it. *)
Theorem parameters_are_shared `{Fr, GR : !Groth16, PR : !Groth16Prover, GN : !Gnark, GL : !GnarkLaws}
    kind path drawn cr fs fs' :
  path ≠ EmptyString →
  (run_setup kind path drawn cr fs = (Ok tt, fs') →
     fs !! path = None ∧ ∃ sys, drawn = Some sys ∧ shares kind path sys fs fs') ∧
  (∀ sys, loadOrCreate kind path drawn cr fs = (Ok sys, fs') →
     shares kind path sys fs fs' ∧ (fs !! path = None → drawn = Some sys)).
Proof.
  intros Hp.
  assert (Hsh : ∀ sys, (∀ q, q ≠ path → fs' !! q = fs !! q) → holds_params kind path sys fs' →
    shares kind path sys fs fs').
  { intros sys Hq Hh. split; [done|]. split; [by apply holds_load_system|]. intros drawn' cr'.
    split; [by apply holds_loadOrCreate|by eapply holds_run_setup]. }
  split.
  - intros E. unfold run_setup, mbind, call_bind, gets, id in E. cbv beta iota in E.
    case_bool_decide as Hex; [done|]. unfold create_system, mbind, call_bind, lift in E.
    destruct (Setup kind drawn) as [sys|e] eqn:Es; [|done].
    apply Setup_Ok in Es as [Hc ->]. split; [by destruct (fs !! path); [destruct Hex|]|]. exists sys. split; [done|].
    destruct (create_and_write path sys cr fs) as [[[]|] fs1] eqn:E1; [|done]. injection E as <-. rename E1 into E.
    apply create_and_write_Ok in E as ->. apply Hsh; [|by apply written_holds].
    intros q Hq. by rewrite lookup_insert_ne.
  - intros sys E. assert (E' := E). apply loadOrCreate_Ok in E' as (Hh & Hq & _); [|done].
    split; [by apply Hsh|]. intros Hn. unfold loadOrCreate in E. rewrite bool_decide_false in E by done.
    unfold mbind at 1, call_bind at 1, gets, id in E. cbv beta iota in E. rewrite Hn in E.
    unfold create_system, mbind, call_bind, lift in E.
    destruct (Setup kind drawn) as [sys'|e] eqn:Es; [|done]. apply Setup_Ok in Es as [_ ->].
    destruct (create_and_write _ _ _ _) as [[]]; [|done]. unfold mret, call_ret in E. by injection E as ->.
Qed.
End ParamsSpec.

(** * Concrete parameters *)

Module ParamsModel.
Import FrModel GrothModel ProverModel.
#[export] Instance gnark : Gnark :=
  { frontend_Compile _ := true;
    pk_WriteTo _ := [1; 2]; pk_ReadFrom r := match r with 1 :: 2 :: r => Some (tt, r) | _ => None end;
    vk_WriteTo k := [match k with TransferKey => 3 | AnyKey => 4 end];
    vk_ReadFrom r := match r with 3 :: r => Some (TransferKey, r) | 4 :: r => Some (AnyKey, r) | _ => None end }.
#[export] Instance gnark_laws : GnarkLaws.
Proof. split; [by intros [] rest|by intros [] rest]. Qed.
Definition transfer_sys : System := {| sys_pk := tt; sys_vk := TransferKey |}.
Definition roomy : Params.Creation := {| Params.cr_create := true; Params.cr_room := None |}.
Definition full : Params.Creation := {| Params.cr_create := true; Params.cr_room := Some 1%nat |}.
End ParamsModel.

Module ParamsWitness.
Import Params ParamsModel ProverModel GrothModel FrModel.

(** Two processes that drew different keys agree on those of the file. *)
Lemma parameters_are_shared_witness :
  ∃ fs, run_setup KTransfer "zk" (Some transfer_sys) roomy ∅ = (Ok tt, fs) ∧ sys ≠ transfer_sys ∧
    loadOrCreate KTransfer "zk" (Some sys) roomy fs = (Ok transfer_sys, fs) ∧
    load_system KTransfer "zk" fs = Ok transfer_sys.
Proof.
  exists {["zk"%string := [1; 2; 3]]}.
  destruct (ParamsSpec.parameters_are_shared KTransfer "zk" (Some transfer_sys) roomy ∅ {["zk"%string := [1; 2; 3]]})
    as [H _]; [discriminate|].
  assert (E : run_setup KTransfer "zk" (Some transfer_sys) roomy ∅ = (Ok tt, {["zk"%string := [1; 2; 3]]})) by reflexivity.
  destruct (H E) as (_ & s & Hs & _ & Hl & Hall). injection Hs as <-.
  split; [exact E|]. split; [discriminate|]. split; [exact (proj1 (Hall (Some sys) roomy))|exact Hl].
Defined.
End ParamsWitness.

(** * Findings *)

Module ParamsFindings.
Import Params ParamsModel ProverModel GrothModel FrModel.

(** A set-up that fails while it writes leaves what it wrote: from then on the set-up refuses
    to run again, the wallets cannot load the file, and no node that names it starts. *)
Theorem torn_parameters_stick :
  ∃ fs, run_setup KTransfer "zk" (Some sys) full ∅ = (Err "write", fs) ∧
    ∀ drawn cr, run_setup KTransfer "zk" drawn cr fs = (Err "already exists", fs) ∧
      loadOrCreate KTransfer "zk" drawn cr fs = (Err "load zk params", fs) ∧
      is_ok (load_system KTransfer "zk" fs) = false.
Proof. eexists. split; [reflexivity|]. intros drawn cr. split; [reflexivity|]. split; reflexivity. Qed.

(** Two first starts at once: both find no file, and each then sets up keys of its own. The
    second to write leaves its keys in the file and its peer running on others. *)
Theorem concurrent_first_starts_differ :
  let fs : Files := ∅ in
  let '(r1, fs1) := create_system KTransfer "zk" (Some sys) roomy fs in
  let '(r2, fs2) := create_system KTransfer "zk" (Some transfer_sys) roomy fs1 in
  fs !! "zk"%string = None ∧ r1 = Ok sys ∧ r2 = Ok transfer_sys ∧ sys ≠ transfer_sys ∧
  load_system KTransfer "zk" fs2 = Ok transfer_sys.
Proof. cbv zeta. split_and!; try reflexivity. discriminate. Qed.
End ParamsFindings.
