(* ===== verification/WalletCmd.v ===== *)
(** cmd/wallet: the command line client, as the composition of the key store, the mirrors,
    the builders and the submission client. A command is given its parsed flags and what its
    process meets: files, entered lines, servers, peers, the clock and its random draws. *)
From S2P Require Import Prelude Words Decimal Hashing Types Epoch Mempool Governance Bank Merkle.
From S2P Require Import Field ZkTree Circuit Groth NFT Silent Store Chain Pipeline Net.
From S2P Require Import Prover Accept Builder Query Canonical Mirrors Memo Wallet TxClient Keystore Flags Params.
Local Open Scope Z_scope.

(** The JSON of a dual-sign key file. *)
Record classicalKeyFile := { ckf_PublicKey : string; ckf_PrivateKey : string }.
Class ClassicalKeyJson := {
  marshal_classical : classicalKeyFile → bytes; unmarshal_classical : bytes → result classicalKeyFile }.

Module WalletCmd.

(** What one run of the binary meets. The servers are asked twice, by a sync and for the
    status after it; a broadcast and the polls of its confirmation follow. *)
Record Env := {
  e_fs : Files; e_lines : list string; e_sync : TxClient.Web; e_status : TxClient.Web; e_now : Time;
  e_NewHost : string → result unit; e_addrFile : nat → AddrPoll; e_Connect : string → result unit; e_before : Host; e_during : Host; e_after : Host;
  e_start : Time; e_polls : nat → TxClient.Poll; e_fuel : nat }.

Record networkFlags := {
  nf_listen : string; nf_bootstrap : string; nf_bootstrapFile : string; nf_query : string;
  nf_confirmTimeout : Duration }.

Definition queryURLs (f : networkFlags) : list string := flag_parts (nf_query f).
Definition firstQueryURL (f : networkFlags) : result string :=
  match queryURLs f with [] => Err "-query is required" | url :: _ => Ok url end.

(** A submission that was not waited for, or the confirmed status. *)
Inductive Report := NotWaited (txid : Hash) | Confirmed (txid : Hash) (st : TxClient.Status).

(** [None]: the process still waits, for its bootstrap file or for a confirmation, when the
    fuel is spent. *)
Definition submitTx `{Codec} (f : networkFlags) (txn : ShieldedTx) (env : Env) : option (result Report) :=
  if bool_decide (nf_bootstrap f = EmptyString) && bool_decide (nf_bootstrapFile f = EmptyString)
  then Some (Err "-bootstrap or -bootstrap-file is required")
  else if (0 <? nf_confirmTimeout f) && bool_decide (length (queryURLs f) = 0%nat)
  then Some (Err "-confirm-timeout > 0 needs at least one -query endpoint")
  else
    match e_NewHost env (nf_listen f) with
    | Err _ => Some (Err "create libp2p host")
    | Ok _ =>
        bootstrapAddr ← (if bool_decide (nf_bootstrap f = EmptyString)
                         then waitForAddrFile (e_fuel env) (e_now env) (e_addrFile env)
                         else Some (Ok (nf_bootstrap f)));
        let connected :=
          addr ← bootstrapAddr;
          _ ← e_Connect env addr;
          TxClient.New {| TxClient.cf_Net := true; TxClient.cf_QueryURLs := queryURLs f;
                          TxClient.cf_PollInterval := 0 |} in
        match connected with
        | Err e => Some (Err e)
        | Ok client =>
            if nf_confirmTimeout f <=? 0 then
              Some (match TxClient.Submit (e_before env) (e_during env) (e_after env) txn with
                    | Err _ => Err "submit"
                    | Ok _ => Ok (NotWaited (tx_TxID txn))
                    end)
            else
              outcome ← TxClient.SubmitAndConfirm (e_fuel env) client (e_before env) (e_during env) (e_after env)
                          txn (nf_confirmTimeout f) (e_start env) (e_polls env);
              Some (match outcome with
                    | TxClient.Submitted st => Ok (Confirmed (tx_TxID txn) st)
                    | TxClient.SubmitFailed e => Err e
                    | TxClient.ConfirmFailed _ _ => Err "txclient: confirm"
                    end)
        end
    end.

Section commands.
Context `{SHA : Sha256, M3 : Mode3, SG : !Mode3Signer, ED : Ed25519, ES : !Ed25519Signer, BR : BigRat, CD : Codec,
          FR : Fr, MM : MiMC, MF : !MimcField, GR : !Groth16, PR : !Groth16Prover, XX : X25519, HK : Hkdf, AE : Aead,
          A2 : Argon2, KJ : KeystoreJson, GN : !Gnark, CJ : ClassicalKeyJson}.

Definition passphrase (env : Env) (fromStdin : bool) : result string :=
  (Keystore.readExistingPassphrase fromStdin (e_lines env)).1.

(** [Load] and [Unlock] with the entered passphrase, as every signing command starts. *)
Definition unlock (path : string) (fromStdin : bool) (env : Env) : result (bytes * bytes) :=
  ks ← Keystore.Load path (e_fs env);
  pass ← passphrase env fromStdin;
  Keystore.Unlock ks pass.
Definition loadBuilder (path : string) (fromStdin : bool) (env : Env) : result Builder.Builder :=
  '(pk, sk) ← unlock path fromStdin env;
  Ok (Builder.New pk sk).

(** The parameter files (zksetup.go). *)
Definition loadZKSystem (path : string) (env : Env) := Params.load_system KTransfer path (e_fs env).
Definition loadEligibilitySystem (path : string) (env : Env) := Params.load_system KEligibility path (e_fs env).
Definition loadMintSystem (path : string) (env : Env) := Params.load_system KMint path (e_fs env).
Definition loadStakeSystem (path : string) (env : Env) := Params.load_system KStake path (e_fs env).
Definition loadUnstakeSystem (path : string) (env : Env) := Params.load_system KUnstake path (e_fs env).

(** ** Ballots (tx.go) *)

(** The mirror of the eligibility tree, synced from the first server. *)
Definition synced_mirror (sk : bytes) (queryURL : string) (env : Env) : result GovWallet.Wallet :=
  gw ← GovWallet.New sk queryURL;
  match GovWallet.Sync (e_sync env queryURL) gw with
  | (Err _, _) => Err "sync eligibility tree"
  | (Ok _, gw) => Ok gw
  end.
Definition buildVoteEligibility (keystorePath : string) (fromStdin : bool) (queryURL eligibilityParams : string)
    (proposalID : string) (env : Env) : result VoteEligibilityProof :=
  if bool_decide (queryURL = EmptyString) then Err "-query is required"
  else
    '(_, sk) ← unlock keystorePath fromStdin env;
    gw ← synced_mirror sk queryURL env;
    _ ← require (GovWallet.Eligible gw) "this wallet's NFT was not found in any synced Kind NFTMint";
    sys ← loadEligibilitySystem eligibilityParams env;
    GovWallet.BuildEligibilityProof gw sys proposalID.

(** The key pair [throwawayVoteSigner] generates. *)
Record Throwaway := { tw_pk : bytes; tw_sk : bytes }.
Definition throwawayVoteSigner (keys : Throwaway) : Builder.Builder := Builder.New (tw_pk keys) (tw_sk keys).

(** The flags the voting commands share. *)
Record voteFlags := {
  vf_keystore : string; vf_fromStdin : bool; vf_proposal : string; vf_approve : bool;
  vf_eligibilityParams : string; vf_net : networkFlags }.

(** What the voting commands do before they build: the server to ask, the eligibility proof
    and the throwaway builder. *)
Definition ballot_inputs (f : voteFlags) (keys : Throwaway) (env : Env)
    : result (string * VoteEligibilityProof * Builder.Builder) :=
  queryURL ← firstQueryURL (vf_net f);
  eligibility ← buildVoteEligibility (vf_keystore f) (vf_fromStdin f) queryURL (vf_eligibilityParams f)
                  (vf_proposal f) env;
  Ok (queryURL, eligibility, throwawayVoteSigner keys).
Definition needs_id (f : voteFlags) : result unit :=
  require (negb (bool_decide (vf_proposal f = EmptyString))) "-proposal is required".
Definition submit_built (f : networkFlags) (built : result ShieldedTx) (env : Env) : option (result Report) :=
  match built with Err e => Some (Err e) | Ok txn => submitTx f txn env end.

Definition build_vote (f : voteFlags) (paramKey newValue : string) (keys : Throwaway) (env : Env) : result ShieldedTx :=
  _ ← needs_id f;
  '(_, eligibility, b) ← ballot_inputs f keys env;
  Builder.Vote b (vf_proposal f) (vf_approve f) paramKey newValue eligibility.
Definition runVote (f : voteFlags) (paramKey newValue : string) (keys : Throwaway) (env : Env)
    : option (result Report) :=
  submit_built (vf_net f) (build_vote f paramKey newValue keys env) env.

Definition build_reveal (f : voteFlags) (keys : Throwaway) (env : Env) : result ShieldedTx :=
  _ ← needs_id f;
  '(_, eligibility, b) ← ballot_inputs f keys env;
  Builder.VoteReveal b (vf_proposal f) (vf_approve f) eligibility.
Definition runVoteReveal (f : voteFlags) (keys : Throwaway) (env : Env) : option (result Report) :=
  submit_built (vf_net f) (build_reveal f keys env) env.

Definition parseNFTID (s : string) : result NFTID := ParseHash s.
Definition parseAddress (s : string) : result Address := ParseHash s.

Definition build_slash (f : voteFlags) (targetHex : string) (burn : bool) (keys : Throwaway) (env : Env)
    : result ShieldedTx :=
  _ ← needs_id f;
  target ← parseNFTID targetHex;
  '(_, eligibility, b) ← ballot_inputs f keys env;
  Builder.ProposeSlash b (vf_proposal f) (vf_approve f) target burn eligibility.
Definition runProposeSlash (f : voteFlags) (targetHex : string) (burn : bool) (keys : Throwaway) (env : Env) :=
  submit_built (vf_net f) (build_slash f targetHex burn keys env) env.

Definition build_unlock_transfer (f : voteFlags) (targetHex : string) (keys : Throwaway) (env : Env)
    : result ShieldedTx :=
  _ ← needs_id f;
  target ← parseNFTID targetHex;
  '(_, eligibility, b) ← ballot_inputs f keys env;
  Builder.ProposeUnlockTransfer b (vf_proposal f) (vf_approve f) target eligibility.
Definition runProposeUnlockTransfer (f : voteFlags) (targetHex : string) (keys : Throwaway) (env : Env) :=
  submit_built (vf_net f) (build_unlock_transfer f targetHex keys env) env.

Definition build_authorize_asset (f : voteFlags) (asset : string) (keys : Throwaway) (env : Env)
    : result ShieldedTx :=
  _ ← needs_id f;
  _ ← require (negb (bool_decide (asset = EmptyString))) "-asset is required";
  '(_, eligibility, b) ← ballot_inputs f keys env;
  Builder.ProposeAuthorizeAsset b (vf_proposal f) (vf_approve f) asset eligibility.
Definition runProposeAuthorizeAsset (f : voteFlags) (asset : string) (keys : Throwaway) (env : Env) :=
  submit_built (vf_net f) (build_authorize_asset f asset keys env) env.

Definition build_unwind (f : voteFlags) (keys : Throwaway) (env : Env) : result ShieldedTx :=
  _ ← needs_id f;
  '(_, eligibility, b) ← ballot_inputs f keys env;
  Builder.ProposeUnwindDualSign b (vf_proposal f) (vf_approve f) eligibility.
Definition runProposeUnwindDualSign (f : voteFlags) (keys : Throwaway) (env : Env) :=
  submit_built (vf_net f) (build_unwind f keys env) env.

(** ** Mint proposals and redemptions *)

(** The openings the commands print, in hex, "the only way" to what they open. *)
Record PositionFlags := { pf_principal : Z; pf_startEpoch : Z; pf_ownerSK : string; pf_rho : string }.
Definition print_position (position : StakeSecret) : PositionFlags :=
  {| pf_principal := ss_Principal position; pf_startEpoch := ss_StartEpoch position;
     pf_ownerSK := hex_encode (ToBytes32 (ss_OwnerSK position)); pf_rho := hex_encode (ToBytes32 (ss_Rho position)) |}.
Record NoteLines := { nl_commitment : string; nl_value : Z; nl_ownerSK : string; nl_rho : string }.
Definition print_note (secret : NoteSecret) : NoteLines :=
  {| nl_commitment := hex_encode (ToBytes32 (NoteSecret_Commitment secret)); nl_value := ns_Value secret;
     nl_ownerSK := hex_encode (ToBytes32 (ns_OwnerSK secret)); nl_rho := hex_encode (ToBytes32 (ns_Rho secret)) |}.

Definition parseFieldElementHex (s : string) : result FieldElement :=
  match hex_decode s with
  | Err _ => Err "invalid hex"
  | Ok b => _ ← require (bool_decide (length b = 32%nat)) "expected 32 bytes"; Ok (FieldElementFromBytes32 b)
  end.
Definition parse_position (f : PositionFlags) : result StakeSecret :=
  _ ← require (negb (pf_principal f =? 0)) "-principal must be greater than 0";
  _ ← require (negb (bool_decide (pf_ownerSK f = EmptyString) || bool_decide (pf_rho f = EmptyString)))
        "-owner-sk and -rho are required";
  ownerSK ← parseFieldElementHex (pf_ownerSK f);
  rho ← parseFieldElementHex (pf_rho f);
  Ok {| ss_Principal := pf_principal f; ss_StartEpoch := pf_startEpoch f; ss_OwnerSK := ownerSK; ss_Rho := rho |}.

(** The epoch a command computes from the server's genesis time. *)
Definition current_epoch (queryURL : string) (env : Env) : result Z :=
  match QueryClient.Status (e_status env queryURL) with
  | Err _ => Err "fetch status for current epoch"
  | Ok status => Ok (CurrentEpoch (QueryClient.st_GenesisMs status) (e_now env))
  end.

(** The secrets a command draws for what it mints. *)
Record Secrets := { sc_ownerSK : FieldElement; sc_rho : FieldElement }.
Definition needs_amount (amount : Z) : result unit :=
  require (negb (amount =? 0)) "-amount must be greater than 0".

Definition build_mint_staked (f : voteFlags) (amount : Z) (stakeParams : string) (keys : Throwaway)
    (secrets : Secrets) (env : Env) : result (ShieldedTx * StakeSecret) :=
  _ ← needs_id f;
  _ ← needs_amount amount;
  '(queryURL, eligibility, b) ← ballot_inputs f keys env;
  currentEpoch ← current_epoch queryURL env;
  sys ← loadStakeSystem stakeParams env;
  Builder.ProposeMintStaked b (vf_proposal f) (vf_approve f) amount currentEpoch sys eligibility
    (sc_ownerSK secrets) (sc_rho secrets).
Definition build_mint_direct (f : voteFlags) (amount : Z) (mintParams : string) (keys : Throwaway)
    (secrets : Secrets) (env : Env) : result (ShieldedTx * NoteSecret) :=
  _ ← needs_id f;
  _ ← needs_amount amount;
  '(_, eligibility, b) ← ballot_inputs f keys env;
  sys ← loadMintSystem mintParams env;
  Builder.ProposeMint b (vf_proposal f) (vf_approve f) amount sys eligibility (sc_ownerSK secrets) (sc_rho secrets).

(** The opening is printed before the submission is tried. *)
Inductive Opening := OpensPosition (f : PositionFlags) | OpensNote (l : NoteLines).
Definition runProposeMint (f : voteFlags) (amount : Z) (staked : bool) (mintParams stakeParams : string)
    (keys : Throwaway) (secrets : Secrets) (env : Env) : option Opening * option (result Report) :=
  if staked then
    match build_mint_staked f amount stakeParams keys secrets env with
    | Err e => (None, Some (Err e))
    | Ok (txn, position) => (Some (OpensPosition (print_position position)), submitTx (vf_net f) txn env)
    end
  else
    match build_mint_direct f amount mintParams keys secrets env with
    | Err e => (None, Some (Err e))
    | Ok (txn, secret) => (Some (OpensNote (print_note secret)), submitTx (vf_net f) txn env)
    end.

Definition build_unstake (path : string) (fromStdin : bool) (flags : PositionFlags) (unstakeParams : string)
    (nf : networkFlags) (secrets : Secrets) (env : Env) : result (ShieldedTx * NoteSecret) :=
  position ← parse_position flags;
  queryURL ← firstQueryURL nf;
  sw ← StakeWallet.New queryURL;
  match StakeWallet.Sync (e_sync env queryURL) (StakeWallet.Remember sw position) with
  | (Err _, _) => Err "sync stake tree"
  | (Ok _, sw) =>
      _ ← require (StakeWallet.Found sw position)
            "this position was not found in any synced, passed, applied staked proposal";
      root ← StakeWallet.CurrentRoot sw;
      merkleProof ← StakeWallet.ProofFor sw position;
      currentEpoch ← current_epoch queryURL env;
      sys ← loadUnstakeSystem unstakeParams env;
      b ← loadBuilder path fromStdin env;
      Builder.Unstake b position merkleProof root currentEpoch sys (sc_ownerSK secrets) (sc_rho secrets)
  end.
Definition runUnstake (path : string) (fromStdin : bool) (flags : PositionFlags) (unstakeParams : string)
    (nf : networkFlags) (secrets : Secrets) (env : Env) : option Opening * option (result Report) :=
  match build_unstake path fromStdin flags unstakeParams nf secrets env with
  | Err e => (None, Some (Err e))
  | Ok (txn, out) => (Some (OpensNote (print_note out)), submitTx nf txn env)
  end.

(** ** Shielded transfers (transfer.go) *)

Definition loadShieldedWallet (path : string) (fromStdin : bool) (queryBase : string) (env : Env)
    : result Shielded.Wallet :=
  if bool_decide (queryBase = EmptyString) then Err "-query is required"
  else
    ks ← Keystore.Load path (e_fs env);
    pass ← passphrase env fromStdin;
    id ← Keystore.UnlockShielded ks pass;
    w ← Shielded.New (Keystore.si_PublicKey id) (Keystore.si_PrivateKey id) (Keystore.si_ShieldedPub id)
          (Keystore.si_ShieldedKey id) queryBase;
    match Shielded.Sync (e_sync env queryBase) w with
    | (Err _, _) => Err "sync"
    | (Ok _, w) => Ok w
    end.

Definition runBalance (path : string) (fromStdin : bool) (queryURL : string) (env : Env)
    : result (Z * Z * Hash) :=
  w ← loadShieldedWallet path fromStdin queryURL env;
  Ok (Shielded.Balance w, Shielded.KnownNoteCount w, ToBytes32 (Shielded.CurrentRoot w)).

Record transferFlags := {
  tf_keystore : string; tf_fromStdin : bool; tf_to : string; tf_amount : Z; tf_fee : Z; tf_zkParams : string;
  tf_net : networkFlags }.
(** [order] is how the loop of [selectInputsLocked] visits the wallet's map of notes. *)
Definition build_transfer (f : transferFlags) (order : Shielded.Wallet → list (Hash * Shielded.ownedNote))
    (draws : Shielded.Draws) (env : Env) : result ShieldedTx :=
  _ ← require (negb (bool_decide (tf_to f = EmptyString))) "-to is required";
  _ ← needs_amount (tf_amount f);
  match hex_decode (tf_to f) with
  | Err _ => Err "-to"
  | Ok toBytes =>
      match Keystore.NewPublicKey toBytes with
      | Err _ => Err "-to: invalid X25519 public key"
      | Ok receiverPub =>
          queryURL ← firstQueryURL (tf_net f);
          w ← loadShieldedWallet (tf_keystore f) (tf_fromStdin f) queryURL env;
          _ ← require (negb (Shielded.KnownNoteCount w <? Z.of_nat NumInputs)) "a transfer needs more spendable notes";
          sys ← loadZKSystem (tf_zkParams f) env;
          match (Shielded.BuildTransfer (order w) sys receiverPub (tf_amount f) (tf_fee f) draws w).1 with
          | Err _ => Err "build transfer"
          | Ok txn => Ok txn
          end
      end
  end.
Definition runTransfer (f : transferFlags) (order : Shielded.Wallet → list (Hash * Shielded.ownedNote))
    (draws : Shielded.Draws) (env : Env) : option (result Report) :=
  submit_built (tf_net f) (build_transfer f order draws env) env.

(** ** NFTs (nftmint.go, tx.go) *)

(** The flags [runPoHAttest] prints for [runNFTMint]. *)
Record attestationFlags := { af_nonce : Z; af_issuedAtMs : Z; af_attestor : string; af_sig : string }.
Definition runPoHAttest (path : string) (fromStdin : bool) (ownerHex : string) (nonce issuedAtMs : Z) (env : Env)
    : result attestationFlags :=
  _ ← require (negb (bool_decide (ownerHex = EmptyString))) "-owner is required";
  match hex_decode ownerHex with
  | Err _ => Err "-owner"
  | Ok owner =>
      _ ← require (bool_decide (length owner = 32%nat)) "-owner must be 32 bytes";
      let issuedAtMs := if issuedAtMs =? 0 then unix_milli (e_now env) else issuedAtMs in
      '(attestorPK, attestorSK) ← unlock path fromStdin env;
      match NFT.SignPoHAttestation attestorPK attestorSK owner nonce issuedAtMs with
      | Err _ => Err "sign attestation"
      | Ok att => Ok {| af_nonce := NFT.at_Nonce att; af_issuedAtMs := NFT.at_IssuedAtMs att;
                        af_attestor := hex_encode (NFT.at_Attestor att); af_sig := hex_encode (NFT.at_Sig att) |}
      end
  end.
Definition build_nft_mint (path : string) (fromStdin : bool) (f : attestationFlags) (nullifier : Hash) (env : Env)
    : result ShieldedTx :=
  _ ← require (negb ((af_issuedAtMs f =? 0) || bool_decide (af_attestor f = EmptyString) ||
                     bool_decide (af_sig f = EmptyString)))
        "-attestation-issued-at-ms, -attestor-pubkey, and -attestation-sig are all required";
  match hex_decode (af_attestor f), hex_decode (af_sig f) with
  | Err _, _ => Err "-attestor-pubkey"
  | _, Err _ => Err "-attestation-sig"
  | Ok attestor, Ok attestationSig =>
      b ← loadBuilder path fromStdin env;
      Builder.NFTMint b (af_nonce f) (af_issuedAtMs f) attestor attestationSig nullifier
  end.
Definition runNFTMint (path : string) (fromStdin : bool) (f : attestationFlags) (nf : networkFlags)
    (nullifier : Hash) (env : Env) : option (result Report) :=
  submit_built nf (build_nft_mint path fromStdin f nullifier env) env.

Definition runMint (path : string) (fromStdin : bool) (nf : networkFlags) (nullifier : Hash) (env : Env)
    : option (result Report) :=
  submit_built nf (b ← loadBuilder path fromStdin env; Builder.Mint b nullifier) env.

Definition runNFTTransfer (path : string) (fromStdin : bool) (targetHex newOwnerHex : string) (nf : networkFlags)
    (nullifier : Hash) (env : Env) : option (result Report) :=
  submit_built nf
    (target ← parseNFTID targetHex;
     newOwner ← parseAddress newOwnerHex;
     b ← loadBuilder path fromStdin env;
     Builder.NFTTransfer b target newOwner nullifier) env.

(** [drawn] is the salt drawn when none is given. *)
Definition runNFTTrait (path : string) (fromStdin : bool) (targetHex key : string) (delta : Z) (saltHex : string)
    (drawn : bytes) (nf : networkFlags) (nullifier : Hash) (env : Env) : option (result Report) :=
  submit_built nf
    (_ ← require (negb (bool_decide (targetHex = EmptyString) || bool_decide (key = EmptyString)))
           "-target and -key are required";
     target ← parseNFTID targetHex;
     salt ← (if bool_decide (saltHex = EmptyString) then Ok drawn else hex_decode saltHex);
     b ← loadBuilder path fromStdin env;
     Builder.NFTTrait b target key delta salt nullifier) env.

(** ** The Bank, and dual signing (classicalkey.go) *)

Definition runClassicalKeygen (out : string) (pk sk : bytes) (disk : Keystore.Disk) : call Files unit :=
  fs ← gets id;
  if bool_decide (is_Some (fs !! out)) then fail "already exists"
  else
    let b := marshal_classical {| ckf_PublicKey := hex_encode pk; ckf_PrivateKey := hex_encode sk |} in
    match Keystore.dk_write disk with
    | Keystore.Written => modify (λ fs, <[out := b]> fs)
    | Keystore.WriteFailed partial =>
        _ ← modify (λ fs, from_option (λ p, <[out := p]> fs) fs partial);
        fail "write"
    end.
Definition loadClassicalKey (path : string) (env : Env) : result (bytes * bytes) :=
  match e_fs env !! path with
  | None => Err "read"
  | Some b =>
      match unmarshal_classical b with
      | Err _ => Err "parse"
      | Ok f => pk ← hex_decode (ckf_PublicKey f); sk ← hex_decode (ckf_PrivateKey f); Ok (pk, sk)
      end
  end.
Definition withOptionalClassicalKey (b : Builder.Builder) (path : string) (env : Env) : result Builder.Builder :=
  if bool_decide (path = EmptyString) then Ok b
  else '(pk, sk) ← loadClassicalKey path env; Ok (Builder.WithClassicalKey b pk sk).

(** The price services are the sources of the quorum. *)
Definition oracleQuorumFromFlags (maxDisagreement : string) (feeds : list Oracle.Source) : result Oracle.Quorum :=
  match Decimal.FromString maxDisagreement with
  | Err _ => Err "-oracle-max-disagreement"
  | Ok d => Ok (Oracle.NewQuorum d feeds)
  end.
Definition bank_builder (path : string) (fromStdin : bool) (classicalKey maxDisagreement : string)
    (feeds : list Oracle.Source) (env : Env) : result (Oracle.Quorum * Builder.Builder) :=
  quorum ← oracleQuorumFromFlags maxDisagreement feeds;
  b ← loadBuilder path fromStdin env;
  b ← withOptionalClassicalKey b classicalKey env;
  Ok (quorum, b).
Definition runBankDeposit (path : string) (fromStdin : bool) (asset classicalKey maxDisagreement : string)
    (feeds : list Oracle.Source) (nf : networkFlags) (nullifier : Hash) (env : Env) : option (result Report) :=
  submit_built nf
    ('(quorum, b) ← bank_builder path fromStdin classicalKey maxDisagreement feeds env;
     (Builder.BankDeposit b quorum asset nullifier).1) env.
Definition runBankWithdraw (path : string) (fromStdin : bool) (asset classicalKey maxDisagreement : string)
    (feeds : list Oracle.Source) (nf : networkFlags) (nullifier : Hash) (env : Env) : option (result Report) :=
  submit_built nf
    ('(quorum, b) ← bank_builder path fromStdin classicalKey maxDisagreement feeds env;
     (Builder.BankWithdraw b quorum asset nullifier).1) env.

(** ** Queries (query.go) *)

(** Identity, address, public key and shielded public key; the process dies when the
    shielded key does not decode. *)
Definition runIdentity (path : string) (env : Env) : result (NFTID * Address * bytes * bytes) :=
  ks ← Keystore.Load path (e_fs env);
  match Keystore.ShieldedPublicKey ks with
  | None => Err "panic: nil public key"
  | Some pub => Ok (Keystore.Identity ks, AddressFromPubkey (Keystore.PublicKey ks), Keystore.PublicKey ks, pub)
  end.

Definition needs_query (queryURL arg : string) : result unit :=
  require (negb (bool_decide (queryURL = EmptyString) || bool_decide (arg = EmptyString))) "-query and the id are required".
Definition runStatus (queryURL : string) (env : Env) : result QueryClient.Status_t :=
  _ ← require (negb (bool_decide (queryURL = EmptyString))) "-query is required";
  QueryClient.Status (e_sync env queryURL).
Definition runTxStatus (queryURL txidHex : string) (env : Env) : result (string * option Z) :=
  _ ← needs_query queryURL txidHex;
  txid ← ParseHash txidHex;
  QueryClient.TxStatus (e_sync env queryURL) txid.
Definition runNullifier (queryURL hashHex : string) (env : Env) : result bool :=
  _ ← needs_query queryURL hashHex;
  h ← ParseHash hashHex;
  QueryClient.NullifierSpent (e_sync env queryURL) h.
Definition runNote (queryURL commitmentHex : string) (env : Env) : result bool :=
  _ ← needs_query queryURL commitmentHex;
  c ← ParseHash commitmentHex;
  QueryClient.NoteExists (e_sync env queryURL) c.
Definition not_found {A} (e : string) (r : result A) : result A :=
  match r with Err e' => if bool_decide (e' = QueryClient.ErrNotFound) then Err e else Err e' | Ok a => Ok a end.
Definition runNFT (queryURL idHex : string) (env : Env) : result ValidatorNFT :=
  _ ← needs_query queryURL idHex;
  id ← parseNFTID idHex;
  not_found "no NFT with that id" (QueryClient.NFT (e_sync env queryURL) id).
Definition runHold (queryURL idHex : string) (env : Env) : result BankHold :=
  _ ← needs_query queryURL idHex;
  id ← ParseHash idHex;
  not_found "no hold with that id" (QueryClient.Hold (e_sync env queryURL) id).
Definition runProposal (queryURL id : string) (env : Env) : result Query.proposalResponse :=
  _ ← needs_query queryURL id;
  not_found "no proposal with that id" (QueryClient.Proposal_ (e_sync env queryURL) id).
Definition runProposals (queryURL : string) (env : Env) : result (list Query.proposalResponse) :=
  _ ← require (negb (bool_decide (queryURL = EmptyString))) "-query is required";
  QueryClient.Proposals (e_sync env queryURL).
End commands.
End WalletCmd.
