(* ===== verification/Commands.v ===== *)
(** The commands of cmd/wallet against the network: what a command that succeeds has done.
    Helper lemmas, the properties, their witnesses, and a finding. *)
From S2P Require Import Prelude Words Decimal Hashing Types Epoch Mempool Governance Bank Merkle.
From S2P Require Import Field ZkTree Circuit Groth NFT Silent Store Chain Pipeline Sample Admission Net.
From S2P Require Import Prover Accept Builder Query Canonical Mirrors Memo Wallet Spend Ballot Clients.
From S2P Require Import TxClient Keystore Flags Params WalletCmd.
Local Open Scope Z_scope.
Import WalletCmd.

(** * Lemmas *)

(** A confirmed submission was taken by the submission client and confirmed by it. *)
Lemma submitTx_Confirmed `{Codec} f txn env txid st :
  submitTx f txn env = Some (Ok (Confirmed txid st)) →
  txid = tx_TxID txn ∧ ∃ client, TxClient.c_queryURLs client = queryURLs f ∧
    TxClient.Submit (e_before env) (e_during env) (e_after env) txn = Ok tt ∧
    TxClient.Confirm (e_fuel env) client txid (nf_confirmTimeout f) (e_start env) (e_polls env) = Some (st, None).
Proof.
  unfold submitTx. destruct (_ && _); [done|]. destruct (_ && _); [done|].
  destruct (e_NewHost _ _); [|done]. intros E. apply bind_Some in E as (addr & _ & E).
  match type of E with match ?m with _ => _ end = _ => destruct m as [client|e] eqn:Ec; [|done] end.
  ok_inv. match goal with H : TxClient.New _ = Ok _ |- _ => unfold TxClient.New in H; cbn in H; injection H as <- end.
  destruct (nf_confirmTimeout f <=? 0).
  { by destruct (TxClient.Submit _ _ _ _). }
  unfold TxClient.SubmitAndConfirm in E.
  destruct (TxClient.Submit _ _ _ _) as [[]|e] eqn:Es; [|done].
  destruct (TxClient.Confirm _ _ _ _ _ _) as [[st' [err|]]|] eqn:Ec; [done| |done].
  unfold mbind in E. cbv beta iota delta [option_bind] in E. simplify_eq. split; [done|].
  eexists. split_and!; [|done|exact Ec]. done.
Qed.

(** A submission none of whose building steps failed. *)
Lemma submit_built_Ok `{Codec} f built env r :
  submit_built f built env = Some (Ok r) → ∃ txn, built = Ok txn ∧ submitTx f txn env = Some (Ok r).
Proof. destruct built as [txn|e]; [|done]. by exists txn. Qed.

Section keys.
Context `{SHA : Sha256, M3 : Mode3, SG : !Mode3Signer, ED : Ed25519, ES : !Ed25519Signer, XX : X25519, XL : !X25519Laws, AE : Aead, AL : !AeadLaws,
          AB : !AeadBytes, A2 : Argon2, KJ : KeystoreJson, KL : !KeystoreJsonLaws}.
Import KeystoreContract.

(** The keystore at a path is an owner's, and the passphrase entered is its. *)
Definition opened_by (path : string) (fromStdin : bool) (env : Env) (o : Owner) : Prop :=
  represents path (e_fs env) (Some o) ∧ passphrase env fromStdin = Ok (ow_pass o).

Lemma opened_unlock path fromStdin env o : opened_by path fromStdin env o →
  unlock path fromStdin env = Ok (Keystore.kd_pk (ow_keys o), Keystore.kd_sk (ow_keys o)).
Proof.
  intros [Hr Hp]. destruct (KeystoreLemmas.represents_opens _ _ _ Hr) as (k & Hk & _ & Hu & _).
  unfold unlock. rewrite Hk. cbn. rewrite Hp. exact Hu.
Qed.

Lemma opened_keypair path fromStdin env o : opened_by path fromStdin env o →
  keypair (Keystore.kd_pk (ow_keys o)) (Keystore.kd_sk (ow_keys o)).
Proof. intros [(Hw & _) _]. apply Hw. Qed.

Lemma opened_loadBuilder path fromStdin env o b : opened_by path fromStdin env o →
  loadBuilder path fromStdin env = Ok b →
  b = Builder.New (Keystore.kd_pk (ow_keys o)) (Keystore.kd_sk (ow_keys o)) ∧ builder_keys b.
Proof.
  intros Ho. unfold loadBuilder. rewrite (opened_unlock _ _ _ _ Ho). intros [= <-]. split; [done|].
  split; [by eapply opened_keypair|by left].
Qed.
End keys.

(** ** Shielded transfers *)

Section transfer.
Context `{SHA : Sha256, M3 : Mode3, SG : !Mode3Signer, FR : Fr, FL : !FrLaws, MM : MiMC, ML : !MiMCLaws,
          MF : !MimcField, GR : !Groth16, PR : !Groth16Prover, XX : X25519, XL : !X25519Laws, HK : Hkdf,
          AE : Aead, AL : !AeadLaws, AB : !AeadBytes, A2 : Argon2, KJ : KeystoreJson, KL : !KeystoreJsonLaws,
          GN : !Gnark}.
Import KeystoreContract.

(** The wallet a command loads is the owner's, and knows its notes. *)
Record loaded (o : Owner) (w : Shielded.Wallet) : Prop := {
  ld_ok : wallet_ok w;
  ld_pk : Shielded.w_pk w = Keystore.kd_pk (ow_keys o); ld_sk : Shielded.w_sk w = Keystore.kd_sk (ow_keys o);
  ld_pub : Shielded.w_shieldedPub w = x25519_public (Keystore.kd_xsk (ow_keys o));
  ld_key : Shielded.w_shieldedKey w = Keystore.kd_xsk (ow_keys o) }.

(** The keys of a wallet, which a sync keeps. *)
Definition wallet_keys (w : Shielded.Wallet) : bytes * bytes * bytes * bytes :=
  (Shielded.w_pk w, Shielded.w_sk w, Shielded.w_shieldedPub w, Shielded.w_shieldedKey w).
Lemma scanOutputs_keys cs memos w : wallet_keys (Shielded.scanOutputs w cs memos) = wallet_keys w.
Proof.
  revert memos w. induction cs as [|c cs IH]; intros memos w; [done|]. cbn [Shielded.scanOutputs]. rewrite IH.
  unfold Shielded.scanOutput. by repeat case_match.
Qed.
Lemma replay_keys ts w : wallet_keys (foldl Shielded.replayTx w ts) = wallet_keys w.
Proof.
  revert w. induction ts as [|t ts IH]; intros w; [done|]. cbn [foldl]. rewrite IH.
  unfold Shielded.replayTx. destruct (tx_Kind t), (tx_Transfer t); try done. apply scanOutputs_keys.
Qed.
Lemma sync_loop_keys tr hs w : wallet_keys (Shielded.sync_loop tr hs w).2 = wallet_keys w.
Proof.
  revert w. induction hs as [|h hs IH]; intros w; [done|]. cbn [Shielded.sync_loop].
  destruct (Shielded.fetchBlock tr h) as [b|]; [|done]. unfold mbind, call_bind, modify. cbv beta iota zeta.
  rewrite IH. exact (replay_keys (b_Batch b) w).
Qed.
Lemma Sync_keys tr w : wallet_keys (Shielded.Sync tr w).2 = wallet_keys w.
Proof.
  unfold Shielded.Sync. destruct (Shielded.fetchStatus tr) as [head|]; [|done]. apply sync_loop_keys.
Qed.

Lemma loadShieldedWallet_ok path fromStdin base env o w : opened_by path fromStdin env o →
  loadShieldedWallet path fromStdin base env = Ok w → loaded o w.
Proof.
  intros [Hr Hp]. destruct (KeystoreLemmas.represents_opens _ _ _ Hr) as (k & Hk & _ & _ & Hu).
  unfold loadShieldedWallet. case_bool_decide; [done|]. rewrite Hk. cbn. rewrite Hp. cbn. rewrite Hu. cbn.
  destruct (Shielded.New _ _ _ _ _) as [w0|e] eqn:En; [|done]. cbn.
  assert (H0 := New_wallet_ok _ _ _ _ _ _ En). assert (Hs := Sync_ok (e_sync env base) w0 H0).
  destruct (Shielded.Sync (e_sync env base) w0) as [[[]|e] w'] eqn:Es; [|done]. intros [= <-].
  assert (Hkeys := Sync_keys (e_sync env base) w0). rewrite Es in Hkeys. injection Hkeys as K1 K2 K3 K4.
  unfold Shielded.New in En. case_bool_decide; [done|]. injection En as <-.
  by split; rewrite ?K1, ?K2, ?K3, ?K4.
Qed.

(** The passphrase entered, if it is a wrong one, is rejected by the cipher. *)
Definition refuses_wrong (path : string) (fromStdin : bool) (env : Env) (o : Owner) : Prop :=
  ∀ p k, passphrase env fromStdin = Ok p → p ≠ ow_pass o → Keystore.Load path (e_fs env) = Ok k →
    is_ok (Keystore.unlockSecrets k p) = false.

(** A wallet is loaded with the owner's passphrase only. *)
Lemma loadShieldedWallet_opens path fromStdin base env o w : represents path (e_fs env) (Some o) →
  refuses_wrong path fromStdin env o → loadShieldedWallet path fromStdin base env = Ok w →
  opened_by path fromStdin env o.
Proof.
  intros Hr Hw E. split; [done|].
  destruct (KeystoreLemmas.represents_opens _ _ _ Hr) as (k & Hk & _).
  unfold loadShieldedWallet in E. case_bool_decide; [done|]. rewrite Hk in E. cbn in E.
  destruct (passphrase env fromStdin) as [p|e] eqn:Ep; [|done]. cbn in E.
  destruct (decide (p = ow_pass o)) as [->|Hne]; [done|]. exfalso. specialize (Hw p k Ep Hne Hk).
  unfold Keystore.UnlockShielded in E. by destruct (Keystore.unlockSecrets k p).
Qed.

Lemma build_transfer_opens f order draws env o t : represents (tf_keystore f) (e_fs env) (Some o) →
  refuses_wrong (tf_keystore f) (tf_fromStdin f) env o → build_transfer f order draws env = Ok t →
  opened_by (tf_keystore f) (tf_fromStdin f) env o.
Proof.
  intros Hr Hw. unfold build_transfer. intros E. ok_inv.
  destruct (hex_decode (tf_to f)) as [to|] eqn:Et; [|done].
  destruct (Keystore.NewPublicKey to) as [pub|] eqn:Ep; [|done]. ok_inv.
  by eapply loadShieldedWallet_opens.
Qed.

(** What a transfer command has built, when it has built. *)
Lemma build_transfer_Ok f order draws env o t : opened_by (tf_keystore f) (tf_fromStdin f) env o →
  build_transfer f order draws env = Ok t →
  ∃ url w sys receiverPub w', firstQueryURL (tf_net f) = Ok url ∧ hex_decode (tf_to f) = Ok receiverPub ∧
    loadShieldedWallet (tf_keystore f) (tf_fromStdin f) url env = Ok w ∧ loaded o w ∧
    loadZKSystem (tf_zkParams f) env = Ok sys ∧
    Shielded.BuildTransfer (order w) sys receiverPub (tf_amount f) (tf_fee f) draws w = (Ok t, w').
Proof.
  intros Ho. unfold build_transfer. intros E. ok_inv.
  destruct (hex_decode (tf_to f)) as [to|] eqn:Et; [|done].
  destruct (Keystore.NewPublicKey to) as [pub|] eqn:Ep; [|done]. unfold Keystore.NewPublicKey in Ep.
  case_bool_decide; [|done]. injection Ep as ->. ok_inv.
  match goal with H : loadShieldedWallet _ _ _ _ = Ok ?w |- _ => rename w into w, H into Hw end.
  match goal with H : context [Shielded.BuildTransfer ?o ?s ?p ?a ?f ?d ?w] |- _ =>
    destruct (Shielded.BuildTransfer o s p a f d w) as [[t'|e] w'] eqn:Eb; cbn in H; ok_inv end.
  do 5 eexists. split_and!; try done; first [by eapply loadShieldedWallet_ok|exact Eb].
Qed.
End transfer.

(** ** What the network has seen *)

(** A confirmed command, whose peers stayed the same and whose endpoints are query servers
    or silent: some peer took the offer, and one of the servers has the transaction in the
    block it gave the height of. *)
Definition on_chain `{Codec} (urls : list string) (host : Host) (srv : nat → string → option Query.Server)
    (t : ShieldedTx) (st : TxClient.Status) : Prop :=
  (∃ envelope p, NewEnvelope MsgTxOffer (PTxOffer t) = Ok envelope ∧ p ∈ reached host envelope) ∧
  ∃ i base s b, base ∈ urls ∧ srv i base = Some s ∧
    st = {| TxClient.st_State := TxClient.StatusCommitted; TxClient.st_Height := Some (b_Height b) |} ∧
    ChainRows.GetBlock (b_Height b) (Chain.ch_store (Query.s_chn s)) = Some b ∧
    tx_TxID t ∈ tx_TxID <$> b_Batch b.

(** The peers do not change while a command broadcasts, and each endpoint it polls is the
    query server of a node with a linked chain, or silent. *)
Record network `{Sha256} (urls : list string) (srv : nat → string → option Query.Server) (env : Env) : Prop := {
  nw_before : e_before env = e_during env; nw_after : e_after env = e_during env;
  nw_peers : NoDup (h_peers (e_during env));
  nw_served : ∀ i, answered_by (TxClient.po_web (e_polls env i)) urls (srv i);
  nw_linked : ∀ i base s, srv i base = Some s → linked (Query.s_chn s) }.

Lemma submitTx_on_chain `{Sha256, Codec} f txn env srv txid st :
  network (queryURLs f) srv env → is_bytes (tx_TxID txn) → length (tx_TxID txn) = 32%nat →
  submitTx f txn env = Some (Ok (Confirmed txid st)) →
  txid = tx_TxID txn ∧ on_chain (queryURLs f) (e_during env) srv txn st.
Proof.
  intros [Hbe Haf Hnd Hsrv Hlk] Hb Hl E. apply submitTx_Confirmed in E as (-> & client & Hu & Es & Ec).
  split; [done|]. rewrite Hbe, Haf in Es. split.
  - apply Submit_stable in Es as (envelope & He & p & Hp); eauto.
  - rewrite <-Hu in Hsrv. destruct (confirmed_on_chain _ _ _ _ _ _ srv _ Hb Hl Hsrv Hlk Ec)
      as (i & base & s & b & H1 & H2 & H3 & H4 & H5 & _). exists i, base, s, b. by rewrite <-Hu.
Qed.

(** The polls of a run keep up with the clock, and there is fuel for the waits. *)
Record keeps_up (f : networkFlags) (env : Env) : Prop := {
  ku_timeout : 0 ≤ nf_confirmTimeout f;
  ku_addr : ∀ n, e_now env + Z.of_nat n * addr_interval ≤ ad_now (e_addrFile env n);
  ku_polls : ∀ n, e_start env + Z.of_nat n * TxClient.DefaultPollInterval ≤ TxClient.po_now (e_polls env n);
  ku_fuel : (addr_rounds ≤ e_fuel env)%nat ∧
            (S (S (Z.to_nat (nf_confirmTimeout f / TxClient.DefaultPollInterval))) ≤ e_fuel env)%nat }.

(** A submission then returns. *)
Lemma submitTx_returns `{Codec} f txn env : keeps_up f env → is_Some (submitTx f txn env).
Proof.
  intros [Ht Haddr Hticks [Hfa Hfuel]]. unfold submitTx. destruct (_ && _); [done|]. destruct (_ && _); [done|].
  destruct (e_NewHost _ _); [|done].
  assert (Hw : is_Some (if bool_decide (nf_bootstrap f = EmptyString)
    then waitForAddrFile (e_fuel env) (e_now env) (e_addrFile env) else Some (Ok (nf_bootstrap f)))).
  { destruct (bool_decide _); [by apply waitForAddrFile_returns|done]. }
  destruct Hw as [addr ->]. unfold mbind at 1. cbv beta iota delta [option_bind].
  match goal with |- is_Some (match ?m with _ => _ end) => destruct m as [client|e] eqn:Ec; [|done] end.
  ok_inv. match goal with H : TxClient.New _ = Ok _ |- _ => unfold TxClient.New in H; cbn in H; injection H as <- end.
  destruct (_ <=? 0); [done|]. unfold TxClient.SubmitAndConfirm. destruct (TxClient.Submit _ _ _ _); [|done].
  unfold TxClient.Confirm.
  match goal with |- context [TxClient.confirm_loop ?n ?c ?x ?d ?p 0] =>
    destruct (confirm_loop_late n c x d p 0) as [[st err] ->] end; [|by destruct err].
  exists (S (Z.to_nat (nf_confirmTimeout f / TxClient.DefaultPollInterval))). split; [lia|]. apply confirm_round_late.
  specialize (Hticks (S (Z.to_nat (nf_confirmTimeout f / TxClient.DefaultPollInterval)))).
  assert (Hpos : 0 < TxClient.DefaultPollInterval) by done.
  assert (0 ≤ nf_confirmTimeout f / TxClient.DefaultPollInterval) by (apply Z.div_pos; lia).
  rewrite Nat2Z.inj_succ, Z2Nat.id in Hticks by done.
  assert (Hm := Z.mul_succ_div_gt (nf_confirmTimeout f) TxClient.DefaultPollInterval Hpos). unfold time_add. lia.
Qed.

(** A built transfer carries the identifier the stages compute. *)
Lemma finish_transfer_TxID `{SHA : Sha256, SG : Mode3Signer, FR : Fr, MM : MiMC, MF : !MimcField, GR : !Groth16,
    PR : !Groth16Prover, XX : X25519, HK : Hkdf, AE : Aead} w sys receiverPub inp draws t :
  Shielded.finish_transfer w sys receiverPub inp draws = Ok t →
  tx_TxID t = ComputeTxID (tx_Proof t) (tx_Commitments t) (tx_Nullifier t).
Proof.
  unfold Shielded.finish_transfer. destruct (System_Prove sys inp); [|done]. cbv zeta.
  destruct (EncryptMemos _ _ _); [|done]. destruct (DilithiumSign _ _); [|done]. by intros [= <-].
Qed.

(** ** Attested mints *)

(** A mint with a valid attestation, for an owner without an NFT and a tree with room. *)
Lemma exec_mint_accepts `{SHA : Sha256, M3 : Mode3, FR : Fr, MM : MiMC, GR : !Groth16} deps pub s :
  Rows.GetNFTByOwner (nmpi_Owner pub) (st_Store s) = None → elig_room s →
  NFT.verify {| NFT.at_Owner := nmpi_Owner pub; NFT.at_Nonce := nmpi_Nonce pub;
    NFT.at_IssuedAtMs := nmpi_AttestationIssuedAtMs pub; NFT.at_Attestor := nmpi_Attestor pub;
    NFT.at_Sig := nmpi_AttestationSig pub |} (nmpi_Owner pub) (nmpi_Nonce pub) (d_Now deps)
    (d_TrustedPoHAttestors deps) = Ok tt →
  ∃ s', exec_mint deps pub s = (Ok tt, s') ∧
    Rows.GetNFTByOwner (nmpi_Owner pub) (st_Store s') =
      Some {| nft_ID := NFT.mint_id (nmpi_Owner pub) (nmpi_Nonce pub); nft_Owner := nmpi_Owner pub;
              nft_MintedAt := d_Height deps; nft_Traits := ∅; nft_TP := 0; nft_Slashed := false |} ∧
    st_EligibilityTree s' = (λ tree, insert_list tree [nmpi_VoterCommitment pub]) <$> st_EligibilityTree s.
Proof.
  intros Hno Hroom Hv.
  assert (Hput : ∀ o nft r, nft_Owner nft = o → Rows.GetNFTByOwner o (Rows.PutNFT nft r) = Some nft).
  { intros o nft r <-. unfold Rows.GetNFTByOwner, Rows.PutNFT. cbn. rewrite lookup_insert_eq. cbn. apply lookup_insert_eq. }
  unfold exec_mint, mbind, call_bind, gets, lift, modify, mret, call_ret, fail. cbv beta iota zeta.
  rewrite Hno. unfold NFT.Mint. cbn -[NFT.verify NFT.mint_id]. rewrite Hv. cbn -[NFT.mint_id].
  unfold elig_room in Hroom. destruct (st_EligibilityTree s) as [tree|] eqn:Et.
  - unfold insert_list, insert_or_keep. cbn [foldl].
    unfold ZkTree.Insert. destruct (Z.leb_spec TreeSize (ZkTree.used tree)); [lia|].
    eexists. split; [reflexivity|]. split.
    + case_match; by apply Hput.
    + case_match; cbn; by rewrite (proj2 (Z.leb_gt TreeSize (ZkTree.used tree))) by lia.
  - eexists. split; [reflexivity|]. split; [by apply Hput|done].
Qed.

Section mints.
Context `{SHA : Sha256, M3 : Mode3, SG : !Mode3Signer, ED : Ed25519, ES : !Ed25519Signer, FR : Fr, MM : MiMC,
          MF : !MimcField, XX : X25519, XL : !X25519Laws, AE : Aead, AL : !AeadLaws,
          AB : !AeadBytes, A2 : Argon2, KJ : KeystoreJson, KL : !KeystoreJsonLaws}.
Import KeystoreContract.

(** What [poh-attest] prints is a valid signature over the owner, the nonce and the time. *)
Lemma runPoHAttest_Ok path fromStdin env attestor owner nonce issuedAtMs f :
  opened_by path fromStdin env attestor → is_bytes owner →
  runPoHAttest path fromStdin (hex_encode owner) nonce issuedAtMs env = Ok f →
  ∃ sig issued, DilithiumSign (Keystore.kd_sk (ow_keys attestor)) (NFT.poHAttestationMessage owner nonce issued) = Ok sig ∧
    f = {| af_nonce := nonce; af_issuedAtMs := issued;
           af_attestor := hex_encode (Keystore.kd_pk (ow_keys attestor)); af_sig := hex_encode sig |}.
Proof.
  intros Ha Hown. unfold runPoHAttest. rewrite (hex_decode_encode owner Hown), (opened_unlock _ _ _ _ Ha).
  intros E. ok_inv. unfold NFT.SignPoHAttestation in *.
  destruct (DilithiumSign _ _) as [sig|] eqn:Es; [|done]. ok_inv. by eexists sig, _.
Qed.

(** The mint [nft-mint] builds from them. *)
Lemma build_nft_mint_Ok path fromStdin env o nonce issuedAtMs attestor sig nullifier t :
  opened_by path fromStdin env o → is_bytes attestor → is_bytes sig →
  build_nft_mint path fromStdin
    {| af_nonce := nonce; af_issuedAtMs := issuedAtMs; af_attestor := hex_encode attestor; af_sig := hex_encode sig |}
    nullifier env = Ok t →
  well_formed t ∧ tx_Kind t = TxNFTMint ∧
  tx_NFTMint t = Some {| nmpi_Owner := AddressFromPubkey (Keystore.kd_pk (ow_keys o)); nmpi_Nonce := nonce;
    nmpi_AttestationIssuedAtMs := issuedAtMs; nmpi_Attestor := attestor; nmpi_AttestationSig := sig;
    nmpi_VoterCommitment := ToBytes32 (VoterCommitment (DeriveVoterSK (Keystore.kd_sk (ow_keys o)))) |}.
Proof.
  intros Ho Hat Hs. unfold build_nft_mint. cbn [af_attestor af_sig af_nonce af_issuedAtMs].
  rewrite !hex_decode_encode by done. intros E. ok_inv.
  match goal with H : loadBuilder _ _ _ = Ok _ |- _ => destruct (opened_loadBuilder _ _ _ _ _ Ho H) as [-> Hb] end.
  unfold Builder.NFTMint in *. ok_inv.
  match goal with H : Builder.finalize ?b ?t0 = Ok t |- _ =>
    destruct (built_from b t0 t Hb) as [W (id & psig & cs & cpk & ->)]; [|exact H|] end.
  { by apply drafted_plain. }
  done.
Qed.
End mints.

(** ** Printed openings *)

Section openings.
Context `{SHA : Sha256, M3 : Mode3, SG : !Mode3Signer, ED : Ed25519, ES : !Ed25519Signer, FR : Fr, FL : !FrLaws,
          MM : MiMC, MF : !MimcField, GR : !Groth16, PR : !Groth16Prover, XX : X25519, XL : !X25519Laws, AE : Aead,
          AL : !AeadLaws, AB : !AeadBytes, A2 : Argon2, KJ : KeystoreJson, KL : !KeystoreJsonLaws, GN : !Gnark}.

Lemma parseFieldElementHex_print (e : FieldElement) : parseFieldElementHex (hex_encode (ToBytes32 e)) = Ok e.
Proof.
  unfold parseFieldElementHex, ToBytes32, FieldElementFromBytes32. rewrite hex_decode_encode by apply Bytes_canonical.
  rewrite bool_decide_true by apply Bytes_length. cbn. by rewrite SetBytes_Bytes.
Qed.
Lemma hex_encode_nonempty b : b ≠ [] → hex_encode b ≠ EmptyString.
Proof. by destruct b. Qed.

(** The flags of a position are read back as the position. *)
Lemma parse_print_position position :
  ss_Principal position ≠ 0 → parse_position (print_position position) = Ok position.
Proof.
  intros Hp. unfold parse_position, print_position. cbn [pf_principal pf_startEpoch pf_ownerSK pf_rho].
  assert (Hne : ∀ e : FieldElement, hex_encode (ToBytes32 e) ≠ EmptyString).
  { intros e. apply hex_encode_nonempty. intros E. assert (Hl := Bytes_length e). unfold ToBytes32 in E. by rewrite E in Hl. }
  rewrite !bool_decide_false by apply Hne. rewrite (proj2 (Z.eqb_neq _ _) Hp). cbn.
  rewrite !parseFieldElementHex_print. cbn. by destruct position.
Qed.

(** What a staked proposal has built. *)
Lemma build_mint_staked_Ok f amount stakeParams keys secrets env t position :
  build_mint_staked f amount stakeParams keys secrets env = Ok (t, position) →
  amount ≠ 0 ∧ ss_Principal position = amount ∧
  ∃ pub, tx_Vote t = Some pub ∧ vpi_ProposalID pub = vf_proposal f ∧ vpi_MintAmount pub = amount ∧
    vpi_MintStaked pub = true ∧ vpi_StakePositionCommit pub = StakeWallet.commitment position.
Proof.
  unfold build_mint_staked, needs_amount. intros E. ok_inv.
  match goal with x : (string * VoteEligibilityProof * Builder.Builder)%type |- _ => destruct x as [[url e] b] end.
  ok_inv. unfold Builder.ProposeMintStaked, Builder.cast in *. ok_inv.
  match goal with H : Builder.finalize _ _ = Ok t |- _ => apply finalize_signed, signed_fields in H as (_ & Hv & _) end.
  match goal with H : negb (amount =? 0) = true |- _ => apply negb_true_iff, Z.eqb_neq in H end.
  split; [done|]. split; [done|]. eexists. split; [exact Hv|]. done.
Qed.

(** What a redemption has done before it signs. *)
Lemma build_unstake_Ok path fromStdin f unstakeParams nf secrets env o position t n :
  opened_by path fromStdin env o → parse_position f = Ok position →
  build_unstake path fromStdin f unstakeParams nf secrets env = Ok (t, n) →
  ∃ url w root mp epoch sys b, firstQueryURL nf = Ok url ∧ stake_ok w ∧ StakeWallet.Found w position = true ∧
    StakeWallet.CurrentRoot w = Ok root ∧ StakeWallet.ProofFor w position = Ok mp ∧
    current_epoch url env = Ok epoch ∧ loadUnstakeSystem unstakeParams env = Ok sys ∧ builder_keys b ∧
    Builder.Unstake b position mp root epoch sys (sc_ownerSK secrets) (sc_rho secrets) = Ok (t, n).
Proof.
  intros Ho Hp. unfold build_unstake. rewrite Hp. intros E. ok_inv.
  destruct (StakeWallet.Sync _ _) as [[[]|e] w] eqn:Es; [|done]. ok_inv.
  match goal with H : loadBuilder _ _ _ = Ok _ |- _ => destruct (opened_loadBuilder _ _ _ _ _ Ho H) as [_ Hb] end.
  match goal with H : StakeWallet.New _ = Ok ?w0 |- _ => assert (Hnew : stake_ok w0) end.
  { match goal with H : StakeWallet.New _ = Ok _ |- _ => unfold StakeWallet.New in H; case_match; [done|]; injection H as <- end.
    split; [exact tree_ok_new| |]; intros ? ? Hl; discriminate Hl. }
  assert (Hw := stake_Sync_ok _ _ _ (Remember_ok _ _ Hnew) Es). destruct Hw as (Hw & _ & _).
  do 7 eexists. by split_and!; try eassumption.
Qed.
End openings.

Module CommandSpec.

(** C16: a transfer the command reports is one the owner made, and is on a chain. Say the key
    store the command is given holds an owner's identity, and the passphrase entered, if it
    is not the owner's, is rejected by the cipher. The command always returns when its polls
    keep up with the clock. If it reports a confirmation, the passphrase entered is the
    owner's, and the transaction confirmed is the one [BuildTransfer] built from the owner's
    freshly synced wallet: it spends two different notes of it, the two largest, that cover
    the amount and the fee, pays the amount, returns the change, and is well formed under the
    owner's keys; some peer took its offer, and the transaction is in a block of the chain of
    one of the servers, at the height reported. *)
Theorem transfer_command_lands `{SHA : Sha256, M3 : Mode3, SG : !Mode3Signer, ED : Ed25519, CD : Codec,
    FR : Fr, FL : !FrLaws, MM : MiMC, ML : !MiMCLaws, MF : !MimcField, FE : !Frontend, L : !FrontendLaws,
    GR : !Groth16, PR : !Groth16Prover, PL : !ProverLaws, XX : X25519, XL : !X25519Laws, HK : Hkdf, AE : Aead,
    AL : !AeadLaws, AB : !AeadBytes, A2 : Argon2, KJ : KeystoreJson, KL : !KeystoreJsonLaws, GN : !Gnark}
    f order draws env o sys srv :
  KeystoreContract.represents (tf_keystore f) (e_fs env) (Some o) → refuses_wrong (tf_keystore f) (tf_fromStdin f) env o →
  loadZKSystem (tf_zkParams f) env = Ok sys → complete_transfer sys →
  (∀ w, order w ≡ₚ map_to_list (Shielded.w_notes w)) →
  0 ≤ tf_amount f → 0 ≤ tf_fee f → tf_amount f + tf_fee f < 2 ^ 64 →
  (∀ url w, firstQueryURL (tf_net f) = Ok url →
     loadShieldedWallet (tf_keystore f) (tf_fromStdin f) url env = Ok w →
     map_Forall (λ _ n, ns_Value (Shielded.on_secret n) < 2 ^ 63) (Shielded.w_notes w)) →
  network (queryURLs (tf_net f)) srv env →
  (∀ b, is_bytes (sha256 b) ∧ length (sha256 b) = 32%nat) →
  keeps_up (tf_net f) env →
  is_Some (runTransfer f order draws env) ∧
  ∀ txid st, runTransfer f order draws env = Some (Ok (Confirmed txid st)) →
  passphrase env (tf_fromStdin f) = Ok (KeystoreContract.ow_pass o) ∧
  ∃ url w receiverPub t w' a b pub,
    firstQueryURL (tf_net f) = Ok url ∧ hex_decode (tf_to f) = Ok receiverPub ∧
    loadShieldedWallet (tf_keystore f) (tf_fromStdin f) url env = Ok w ∧ loaded o w ∧
    Shielded.BuildTransfer (order w) sys receiverPub (tf_amount f) (tf_fee f) draws w = (Ok t, w') ∧
    Shielded.w_notes w !! a.1 = Some a.2 ∧ Shielded.w_notes w !! b.1 = Some b.2 ∧ two_largest w a b ∧
    tf_amount f + tf_fee f ≤ Shielded.note_value a + Shielded.note_value b ∧
    tx_Transfer t = Some pub ∧ tpi_FeeAmount pub = tf_fee f ∧
    tpi_Nullifiers pub = [Shielded.on_nullifier a.2; Shielded.on_nullifier b.2] ∧
    tpi_OutCommits pub =
      [ToBytes32 (NoteSecret_Commitment (Shielded.freshNoteSecret (tf_amount f) (Shielded.dw_payment draws)));
       ToBytes32 (NoteSecret_Commitment (Shielded.freshNoteSecret
         (Shielded.note_value a + Shielded.note_value b - tf_amount f - tf_fee f) (Shielded.dw_change draws)))] ∧
    (tx_FeeCommit t ≠ hash_zero → well_formed t) ∧
    txid = tx_TxID t ∧ on_chain (queryURLs (tf_net f)) (e_during env) srv t st.
Proof.
  intros Hrep Hwrong Hz Hsys Hord Ha Hf Hlt Hvals Hnet Hsha Hup. split.
  { unfold runTransfer, submit_built. destruct (build_transfer _ _ _ _); [by apply submitTx_returns|done]. }
  intros txid st E. apply submit_built_Ok in E as (t & Et & E).
  assert (Ho := build_transfer_opens _ _ _ _ _ _ Hrep Hwrong Et). split; [apply Ho|].
  destruct (build_transfer_Ok f order draws env o t Ho Et)
    as (url & w & sys' & receiverPub & w' & Hurl & Hto & Hw & Hld & Hz' & Eb).
  rewrite Hz in Hz'. injection Hz' as <-. assert (Hv := Hvals url w Hurl Hw). assert (Hld' := Hld).
  destruct Hld' as [Hok Hpk Hsk _ _]. assert (Eb' := Eb).
  destruct (Shielded.selectInputsLocked (order w) (tf_amount f) (tf_fee f)) as [selected|] eqn:Hsel.
  2: { unfold Shielded.BuildTransfer in Eb. rewrite Hsel in Eb. by case_match. }
  destruct (BuildTransfer_selects sys w (order w) receiverPub (tf_amount f) (tf_fee f) draws selected Hsys Hok (Hord w)
    Hsel Ha Hf Hlt Hv) as (a & b & inp & proof & -> & La & Lb & Hcov & Hp & _ & _ & Hfee & Hns & Hos & Ef).
  rewrite Ef in Eb'. injection Eb' as Efin _.
  assert (Hk : keypair (Shielded.w_pk w) (Shielded.w_sk w)) by (rewrite Hpk, Hsk; by eapply opened_keypair).
  destruct (finish_transfer_fields _ _ _ _ _ _ _ Hp Efin Hk) as (_ & Epub & _ & _ & _ & _ & Hwf);
    [by rewrite Hns|by rewrite Hos|].
  destruct (wo_notes _ Hok _ _ La) as [_ _ _ Na _]. destruct (wo_notes _ Hok _ _ Lb) as [_ _ _ Nb _].
  assert (Eid := finish_transfer_TxID _ _ _ _ _ _ Efin).
  destruct (submitTx_on_chain (tf_net f) t env srv txid st Hnet) as [-> Hchain]; [..|exact E|].
  1-2: rewrite Eid; apply Hsha.
  exists url, w, receiverPub, t, w', a, b, (Shielded.public_inputs inp). split_and!; try done.
  - exact (select_largest w (order w) _ _ a b (Hord w) Hsel).
  - unfold Shielded.public_inputs, Public. cbn. by rewrite Hns, Na, Nb.
  - unfold Shielded.public_inputs, Public, OutCommitments. cbn. by rewrite Hos.
Qed.

(** C17: an attested wallet becomes a voter. The flags that an attestor's [poh-attest] prints
    for a wallet's address make the mint of that wallet's [nft-mint] one that any node
    trusting the attestor accepts while the attestation is fresh, if the owner has no NFT
    and the eligibility tree room: the owner then holds the NFT of that nonce, without
    points and not slashed, and the tree has the commitment of the owner's voting secret;
    and any mirror under the owner's key that replays a block with the mint finds itself
    eligible, so that the voting commands go on from there. *)
Theorem attested_wallet_votes `{SHA : Sha256, M3 : Mode3, SG : !Mode3Signer, ED : Ed25519, ES : !Ed25519Signer,
    BR : BigRat, FR : Fr, FL : !FrLaws, MM : MiMC, ML : !MiMCLaws, MF : !MimcField, GR : !Groth16,
    PR : !Groth16Prover, PL : !ProverLaws, XX : X25519, XL : !X25519Laws, AE : Aead, AL : !AeadLaws, AB : !AeadBytes,
    A2 : Argon2, KJ : KeystoreJson, KL : !KeystoreJsonLaws}
    path path' fromStdin fromStdin' env env' attestor o nonce issuedAtMs f nullifier t :
  opened_by path fromStdin env attestor → opened_by path' fromStdin' env' o →
  (∀ msg, is_bytes (mode3_SignTo (Keystore.kd_sk (KeystoreContract.ow_keys attestor)) msg)) →
  let owner := AddressFromPubkey (Keystore.kd_pk (KeystoreContract.ow_keys o)) in
  let voterSK := DeriveVoterSK (Keystore.kd_sk (KeystoreContract.ow_keys o)) in
  is_bytes owner →
  runPoHAttest path fromStdin (hex_encode owner) nonce issuedAtMs env = Ok f →
  build_nft_mint path' fromStdin' f nullifier env' = Ok t →
  (∀ json_marshal deps at_ s,
     Keystore.kd_pk (KeystoreContract.ow_keys attestor) ∈ d_TrustedPoHAttestors deps →
     0 ≤ d_Now deps - time_of_milli (af_issuedAtMs f) ≤ NFT.PoHAttestationTTL →
     Rows.GetNFTByOwner owner (st_Store s) = None → elig_room s → admits json_marshal deps t at_ s →
     ∃ t' s', processOne json_marshal deps t at_ s = (t', None, s') ∧
       Rows.GetNFTByOwner owner (st_Store s') =
         Some {| nft_ID := NFT.mint_id owner nonce; nft_Owner := owner; nft_MintedAt := d_Height deps;
                 nft_Traits := ∅; nft_TP := 0; nft_Slashed := false |} ∧
       st_EligibilityTree s' =
         (λ tree, insert_list tree [ToBytes32 (VoterCommitment voterSK)]) <$> st_EligibilityTree s) ∧
  (∀ w b, gov_ok w → GovWallet.w_voterSK w = voterSK → t ∈ b_Batch b →
     ZkTree.used (GovWallet.w_tree w) + Z.of_nat (length (b_Batch b)) ≤ TreeSize →
     GovWallet.Eligible (GovWallet.replayBlock w b) = true).
Proof.
  intros Ha Ho Hsig owner voterSK Hown Ef Et.
  destruct (runPoHAttest_Ok _ _ _ _ _ _ _ _ Ha Hown Ef) as (sig & issued & Es & ->). cbn [af_issuedAtMs].
  assert (Hka := opened_keypair _ _ _ _ Ha).
  destruct (keypair_signs _ _ (NFT.poHAttestationMessage owner nonce issued) Hka)
    as (sig' & Es' & Hv & _). rewrite Es in Es'. injection Es' as <-.
  assert (Hsb : is_bytes sig) by (unfold DilithiumSign in Es; case_match; [done|injection Es as <-; apply Hsig]).
  destruct (build_nft_mint_Ok _ _ _ _ _ _ _ _ _ _ Ho (wd_pk _ (proj1 (proj1 Ha))) Hsb Et) as (W & Hk & Hp).
  split.
  - intros json_marshal deps at_ s Htr Hfresh Hno Hroom Had.
    destruct (plain_accepts json_marshal deps t at_ s W Had) as (s2 & [Q _] & Hacc); [by rewrite Hk..|].
    match type of Hp with _ = Some ?pub => destruct (exec_mint_accepts deps pub s2) as (s4 & E4 & Hn & He) end.
    { by rewrite (sc_store _ _ Q). }
    { unfold elig_room. by rewrite (sc_elig _ _ Q). }
    { by apply verify_attested. }
    destruct (Hacc s4) as [t' Ep].
    { unfold stage4SendExec. cbn [with_stage tx_Kind tx_NFTMint]. rewrite Hk, Hp. by eapply bind_accepts. }
    exists t', s4. split; [done|]. split; [exact Hn|]. by rewrite He, (sc_elig _ _ Q).
  - intros w b Hw Hsk Hin Hroom. eapply gov_replay_finds; try done. cbn. unfold GovWallet.VoterCommitment. by rewrite Hsk.
Qed.

(** C18: the opening a staked proposal prints redeems what it staked. The flags printed by
    [propose-mint] are read back by [unstake] as the very position whose commitment the
    proposal binds, for the amount proposed. If a redemption of them is built, its note is
    worth the principal with its yield up to the epoch of the server's clock, and a node of
    that epoch with the matching key that recognizes the root, has not seen the position's
    nullifier and has room accepts it: the nullifier is spent, the note is appended. *)
Theorem printed_position_redeems `{SHA : Sha256, M3 : Mode3, SG : !Mode3Signer, ED : Ed25519, ES : !Ed25519Signer,
    BR : BigRat, FR : Fr, FL : !FrLaws, MM : MiMC, ML : !MiMCLaws, MF : !MimcField, FE : !Frontend,
    L : !FrontendLaws, GR : !Groth16, PR : !Groth16Prover, PL : !ProverLaws, XX : X25519, XL : !X25519Laws, AE : Aead,
    AL : !AeadLaws, AB : !AeadBytes, A2 : Argon2, KJ : KeystoreJson, KL : !KeystoreJsonLaws, GN : !Gnark}
    f amount stakeParams keys secrets env tx position :
  build_mint_staked f amount stakeParams keys secrets env = Ok (tx, position) →
  0 ≤ amount < 2 ^ 64 → 0 ≤ ss_StartEpoch position < 2 ^ 32 →
  parse_position (print_position position) = Ok position ∧
  (∃ pub, tx_Vote tx = Some pub ∧ vpi_ProposalID pub = vf_proposal f ∧ vpi_MintAmount pub = amount ∧
     vpi_MintStaked pub = true ∧ vpi_StakePositionCommit pub = StakeWallet.commitment position) ∧
  ∀ path fromStdin unstakeParams nf secrets' env' o sys t n,
    opened_by path fromStdin env' o → loadUnstakeSystem unstakeParams env' = Ok sys → complete_unstake sys →
    build_unstake path fromStdin (print_position position) unstakeParams nf secrets' env' = Ok (t, n) →
    binds_zero t = false →
    ∃ url epoch pub, firstQueryURL nf = Ok url ∧ current_epoch url env' = Ok epoch ∧ tx_Unstake t = Some pub ∧
      ns_Value n = FinalAmount amount (ss_StartEpoch position) epoch ∧
      ∀ json_marshal deps at_ s, d_Epoch deps = epoch →
        redeems deps sys (FieldElementFromBytes32 (upi_MerkleRoot pub)) (ToBytes32 (StakeSecret_Nullifier position)) s →
        admits json_marshal deps t at_ s →
        ∃ t' s', processOne json_marshal deps t at_ s = (t', None, s') ∧
          Rows.nullifiers (st_Store s') =
            {[ToBytes32 (StakeSecret_Nullifier position)]} ∪ Rows.nullifiers (st_Store s) ∧
          st_ZKTree s' = (λ tree, insert_list tree [ToBytes32 (NoteSecret_Commitment n)]) <$> st_ZKTree s.
Proof.
  intros E Ha He. destruct (build_mint_staked_Ok _ _ _ _ _ _ _ _ E) as (Hz & Hp & Hpub).
  assert (Hparse : parse_position (print_position position) = Ok position) by (apply parse_print_position; by rewrite Hp).
  split; [exact Hparse|]. split; [exact Hpub|].
  intros path fromStdin unstakeParams nf secrets' env' o sys t n Ho Hsys Hc Eu Hbz.
  destruct (build_unstake_Ok _ _ _ _ _ _ _ _ _ _ _ Ho Hparse Eu)
    as (url & w & root & mp & epoch & sys' & b & Hurl & Hw & Hf & Hroot & Hmp & Hep & Hsys' & Hb & EU).
  rewrite Hsys in Hsys'. injection Hsys' as <-.
  destruct (Unstake_drafts b w position mp root epoch sys _ _ t n Hc Hw Hf ltac:(by rewrite Hp) He Hmp Hroot EU Hbz)
    as (Hn & t0 & pub & Efin & Hd & Hk & Hu & Hcm & Hnu & Hrt & Hfa & Hv).
  assert (Hsig := finalize_signed _ _ _ Efin). apply signed_fields in Hsig as (_ & _ & _ & _ & Hsu & _).
  exists url, epoch, pub. split_and!; [done|done|by rewrite Hsu|by rewrite Hn, Hp|].
  intros json_marshal deps at_ s Hde Hr Had. rewrite <-Hnu in Hr |- *. rewrite <-Hde in Hfa.
  by eapply redemption_accepted.
Qed.
End CommandSpec.

(** * A concrete command line *)

Module CommandModel.
Import FrModel FrontendModel GrothModel KeystoreModel TxClientModel ParamsModel ClientModel.

(** A stand-in hash of 32 bytes. *)
Definition sha32 : Sha256 := λ b, replicate 30 0 ++ [checksum b / 256 mod 256; checksum b mod 256].
#[export] Existing Instance sha32.
#[export] Existing Instance CryptoModel.ed25519.
#[export] Existing Instance PipelineModel.bigrat.
Lemma sha32_bytes (b : bytes) : is_bytes (sha256 b) ∧ length (sha256 b) = 32%nat.
Proof.
  split; [|done]. apply Forall_app. split; [by apply (Forall_replicate _ 30 0)|].
  by repeat (apply Forall_cons; split; [by apply Z.mod_pos_bound|]).
Qed.

(** The key store of an identity, sealed under a passphrase, and a file of parameters. *)
Definition owner_at (k : Z) (pass : string) : KeystoreContract.Owner :=
  {| KeystoreContract.ow_keys := {| Keystore.kd_pk := [k]; Keystore.kd_sk := [k]; Keystore.kd_xsk := replicate 32 5 |};
     KeystoreContract.ow_pass := pass |}.
Definition files (k : Z) (pass : string) : Files :=
  match Keystore.seal [k] [k] (replicate 32 5) pass (Some (KeystoreModel.draw 3)) with
  | Ok ks => {[KeystoreModel.path := marshal_file (Keystore.file ks); "zk"%string := [1; 2; 4]]}
  | Err _ => ∅
  end.
Lemma files_represent k pass : 0 ≤ k < 256 → pass ≠ EmptyString →
  KeystoreContract.represents KeystoreModel.path (files k pass) (Some (owner_at k pass)).
Proof.
  intros Hk Hp. destruct (KeystoreLemmas.seal_Ok [k] [k] (replicate 32 5) pass (KeystoreModel.draw 3)) as (key & _ & Es).
  unfold files. rewrite Es. split.
  { assert (Hone : is_bytes [k]) by (by apply Forall_singleton).
    split; [apply SignerModel.keys|exact Hone|exact Hone|by apply (Forall_replicate _ 32 5)|done|
      by apply (Forall_replicate _ 32 5)]. }
  split; [exact Hp|]. eexists (KeystoreModel.draw 3), _. split; [apply draw_salted; lia|]. split; [exact Es|].
  apply lookup_insert_eq.
Qed.
Lemma files_opened k pass fromStdin env : 0 ≤ k < 256 → pass ≠ EmptyString → e_fs env = files k pass →
  passphrase env fromStdin = Ok pass → opened_by KeystoreModel.path fromStdin env (owner_at k pass).
Proof. intros Hk Hp Ef Ep. split; [rewrite Ef; by apply files_represent|exact Ep]. Qed.
Lemma files_zk k pass : files k pass !! "zk"%string = Some [1; 2; 4].
Proof.
  destruct (KeystoreLemmas.seal_Ok [k] [k] (replicate 32 5) pass (KeystoreModel.draw 3)) as (key & _ & Es).
  unfold files. rewrite Es. rewrite lookup_insert_ne by discriminate. apply lookup_singleton_eq.
Qed.

(** Blocks under the votes of two of three validators. *)
Definition voted (height : Z) (prev : Hash) (batch : list ShieldedTx) : Block :=
  let b := {| b_Height := height; b_Epoch := 0; b_PrevHash := prev; b_Timestamp := 5; b_Batch := batch;
              b_TxRoot := hash_zero; b_StateRoot := hash_zero; b_DARoot := hash_zero; b_Proposer := [1];
              b_ProposerSig := []; b_Votes := []; b_DualTrack := false |} in
  let vote id := {| v_Validator := id; v_StateRoot := HashBlock b; v_Sig := [len (HashBlock b) mod 256] |} in
  b <| b_Votes := [vote [1]; vote [2]] |>.
Definition extended (c : Chain.Chain) (batch : list ShieldedTx) : Chain.Chain :=
  Chain.run c [(voted (Chain.headHeight c + 1) (Chain.headHash c) batch, members, lookup_key)].
Definition at_genesis : Chain.Chain :=
  {| Chain.ch_store := ChainRows.SetHead 0 (ChainRows.PutBlock (Chain.genesis 0) ChainRows.empty);
     Chain.headHeight := 0; Chain.headHash := HashBlock (Chain.genesis 0) |}.
Definition served_by (c : Chain.Chain) : Query.Server :=
  {| Query.s_store := Rows.empty; Query.s_notes := ∅; Query.s_chn := c;
     Query.s_mempool := Mempool.NewMempool; Query.s_genesis := 0 |}.

(** A transfer of notes of 7 and of 5 to the owner, in the first block. *)
Definition owner_pub : bytes := x25519_public (replicate 32 5).
Definition funding : ShieldedTx :=
  let t := zero_tx (replicate 32 9) TxTransfer in
  t <| tx_Transfer := Some {| tpi_MerkleRoot := []; tpi_Nullifiers := [];
         tpi_OutCommits := ToBytes32 <$> (NoteSecret_Commitment <$> [note 7; note 5]); tpi_FeeAmount := 0 |} |>
    <| tx_Memo := match EncryptMemos [owner_pub; owner_pub] [note 7; note 5] (Shielded.dw_memos draws) with
                  | Ok memo => memo | Err _ => [] end |>.
Definition funded : Chain.Chain := extended at_genesis [funding].

Definition flags : transferFlags :=
  {| tf_keystore := KeystoreModel.path; tf_fromStdin := true; tf_to := hex_encode (pad [9]); tf_amount := 4; tf_fee := 2;
     tf_zkParams := "zk";
     tf_net := {| nf_listen := "l"; nf_bootstrap := "p"; nf_bootstrapFile := EmptyString; nf_query := " http://a,,http://b";
                  nf_confirmTimeout := Second |} |}.
Definition order (w : Shielded.Wallet) : list (Hash * Shielded.ownedNote) := map_to_list (Shielded.w_notes w).

(** A run that syncs from a server at [c], and whose polls of the endpoints meet one server
    at [c'] and a silent one. *)
Definition servers (c' : Chain.Chain) (i : nat) (base : string) : option Query.Server :=
  if bool_decide (base = "http://a"%string) then Some (served_by c') else None.
Definition env_at (c c' : Chain.Chain) : Env :=
  {| e_fs := files 7 "one"; e_lines := ["one"%string]; e_sync := λ _, connected (served_by c);
     e_status := λ _, connected (served_by c); e_now := Minute; e_NewHost := λ _, Ok tt;
     e_addrFile := λ n, {| ad_file := None; ad_now := Minute + Z.of_nat n * addr_interval; ad_cancelled := false |};
     e_Connect := λ _, Ok tt; e_before := host; e_during := host;
     e_after := host; e_start := Minute;
     e_polls := λ i, {| TxClient.po_web := λ base r, match servers c' i base with
                                                     | Some s => Ok (Query.serve s r) | None => Err "refused" end;
                        TxClient.po_now := Minute + Z.of_nat i * TxClient.DefaultPollInterval;
                        TxClient.po_cancelled := false |};
     e_fuel := addr_rounds |}.
Lemma linked_extended c batch : linked c → Chain.headHeight c + 1 < 2 ^ 64 → linked (extended c batch).
Proof. intros Hl Hh. by apply run_linked. Qed.
Lemma linked_at_genesis : linked at_genesis.
Proof. by apply (linked_open_genesis 0). Qed.
Lemma env_network c c' urls : linked c' → network urls (servers c') (env_at c c').
Proof.
  intros Hl. split; [reflexivity|reflexivity| | |].
  - apply (bool_decide_unpack _). vm_compute. exact I.
  - intros i base _. cbn [e_polls env_at TxClient.po_web]. by destruct (servers c' i base).
  - intros i base s. unfold servers. case_bool_decide; [|done]. by intros [= <-].
Qed.

(** The transfer, and the chain that takes it. *)
Definition paid : result ShieldedTx := build_transfer flags order draws (env_at funded funded).
Definition settled : Chain.Chain := extended funded (match paid with Ok t => [t] | Err _ => [] end).
Definition transferring : Env := env_at funded settled.
End CommandModel.

Module CommandWitness.
Import FrModel FrontendModel GrothModel KeystoreModel TxClientModel ParamsModel ClientModel CommandModel.

(** The run reports the second block, whatever proof was made; its wallet holds the two notes. *)
Definition report : option (result Report) := runTransfer flags order draws transferring.
Definition two_notes (r : result Shielded.Wallet) : bool :=
  match r with
  | Ok w => forallb (λ kn, ns_Value (Shielded.on_secret kn.2) <? 2 ^ 63) (order w) && (Shielded.KnownNoteCount w =? 2)
  | Err _ => false
  end.
Definition confirmed_at (r : option (result Report)) : option Z :=
  match r with Some (Ok (Confirmed _ st)) => TxClient.st_Height st | _ => None end.
Definition confirmed : bool :=
  bool_decide (confirmed_at report = Some 2) &&
  two_notes (loadShieldedWallet (tf_keystore flags) (tf_fromStdin flags) "http://a" transferring).
Lemma confirmed_true : confirmed = true.
Proof. vm_compute. reflexivity. Qed.
Lemma confirmed_report r : confirmed_at r = Some 2 →
  ∃ txid st, r = Some (Ok (Confirmed txid st)) ∧ TxClient.st_Height st = Some 2.
Proof. destruct r as [[[|txid st]|]|]; try done. intros H. by exists txid, st. Qed.
Lemma two_notes_values r w : two_notes r = true → r = Ok w →
  map_Forall (λ _ n, ns_Value (Shielded.on_secret n) < 2 ^ 63) (Shielded.w_notes w).
Proof.
  intros H ->. apply andb_true_iff in H as [H _]. rewrite forallb_forall in H. apply map_Forall_lookup_2. intros c n Hn.
  apply elem_of_map_to_list in Hn. apply Z.ltb_lt. exact (H (c, n) (proj1 (list_elem_of_In _ _) Hn)).
Qed.

Lemma transfer_command_lands_witness :
  ∃ txid st t w w', report = Some (Ok (Confirmed txid st)) ∧ TxClient.st_Height st = Some 2 ∧ txid = tx_TxID t ∧
    Shielded.BuildTransfer (order w) sys (pad [9]) 4 2 draws w = (Ok t, w') ∧
    on_chain (queryURLs (tf_net flags)) host (servers settled) t st.
Proof.
  assert (Hc := confirmed_true). unfold confirmed in Hc. apply andb_true_iff in Hc as [Hr Hw].
  apply bool_decide_eq_true in Hr. destruct (confirmed_report _ Hr) as (txid & st & Er & Hh).
  destruct (CommandSpec.transfer_command_lands flags order draws transferring (owner_at 7 "one") sys (servers settled)) as [_ H].
  - apply files_represent; [lia|discriminate].
  - intros p k Ep Hne _. exfalso. apply Hne. assert (E : passphrase transferring true = Ok "one"%string) by (vm_compute; reflexivity).
    change (tf_fromStdin flags) with true in Ep. rewrite E in Ep. by injection Ep as <-.
  - unfold loadZKSystem, Params.load_system. cbn [tf_zkParams flags e_fs transferring env_at]. rewrite files_zk. reflexivity.
  - apply complete.
  - intros w. reflexivity.
  - vm_compute. discriminate.
  - vm_compute. discriminate.
  - vm_compute. reflexivity.
  - intros url w Hu. assert (Hq : firstQueryURL (tf_net flags) = Ok "http://a"%string) by (vm_compute; reflexivity).
    rewrite Hq in Hu. apply Ok_inj in Hu. rewrite <-Hu. by apply two_notes_values.
  - apply env_network, linked_extended; [apply linked_extended; [exact linked_at_genesis|]|]; vm_compute; reflexivity.
  - exact sha32_bytes.
  - split; [vm_compute; discriminate|intros n; reflexivity|intros n; reflexivity|vm_compute; lia].
  - destruct (H txid st Er) as (_ & url & w & pub & t & w' & _ & _ & _ & _ & Hto & _ & _ & Eb & _ & _ & _ & _ & _ & _ & _ & _ & _ & Et & Hon).
    exists txid, st, t, w, w'. split; [exact Er|]. split; [exact Hh|]. split; [exact Et|]. split; [|exact Hon].
    assert (Ep : hex_decode (tf_to flags) = Ok (pad [9])) by (vm_compute; reflexivity).
    rewrite Ep in Hto. apply Ok_inj in Hto. rewrite Hto. exact Eb.
Defined.

(** ** An attested mint *)

(** A result that is one, with a value for the others. *)
Definition got {A} (d : A) (r : result A) : A := match r with Ok a => a | Err _ => d end.
Lemma got_eq {A} (d : A) r : is_ok r = true → r = Ok (got d r).
Proof. by destruct r. Qed.

(** A run by the second identity; the first one, whom the node of [Sample] trusts, attests. *)
Definition owner_address : Address := AddressFromPubkey [8].
Definition by_second (env : Env) : Env := env <| e_fs := files 8 "two" |> <| e_lines := ["two"%string] |>.
Definition printed : result attestationFlags := runPoHAttest KeystoreModel.path true (hex_encode owner_address) 5 1 (env_at funded funded).
Definition printed_flags : attestationFlags :=
  got {| af_nonce := 0; af_issuedAtMs := 0; af_attestor := EmptyString; af_sig := EmptyString |} printed.
Definition minting : result ShieldedTx :=
  build_nft_mint KeystoreModel.path true printed_flags (replicate 32 4) (by_second (env_at funded funded)).
Definition minted : ShieldedTx := got funding minting.
Definition new_mirror : result GovWallet.Wallet := GovWallet.New [8] "http://a".
Definition gov_dummy : GovWallet.Wallet :=
  {| GovWallet.w_voterSK := of_Z 0; GovWallet.w_tree := ZkTree.NewTree; GovWallet.w_syncedHeight := 0;
     GovWallet.w_synced := false; GovWallet.w_myIndex := 0; GovWallet.w_haveIndex := false |}.
Definition attested_checks : bool :=
  is_ok printed && is_ok minting && (af_issuedAtMs printed_flags =? 1) && is_ok new_mirror.
Lemma attested_checks_true : attested_checks = true.
Proof. vm_compute. reflexivity. Qed.

Lemma attested_wallet_votes_witness :
  ∃ f t t' s' w, printed = Ok f ∧ minting = Ok t ∧ processOne PipelineModel.json deps_any t Minute PipelineModel.state = (t', None, s') ∧
    is_Some (Rows.GetNFTByOwner owner_address (st_Store s')) ∧ new_mirror = Ok w ∧
    GovWallet.Eligible (GovWallet.replayBlock w (ClientWitness.block_of [t])) = true.
Proof.
  assert (Hc := attested_checks_true). unfold attested_checks in Hc.
  apply andb_true_iff in Hc as [[[Hp Hm]%andb_true_iff Hi%Z.eqb_eq]%andb_true_iff Hn].
  destruct (CommandSpec.attested_wallet_votes KeystoreModel.path KeystoreModel.path true true
    (env_at funded funded) (by_second (env_at funded funded)) (owner_at 7 "one") (owner_at 8 "two") 5 1 printed_flags (replicate 32 4) minted) as [H1 H2].
  - apply files_opened; [lia|discriminate|reflexivity|vm_compute; reflexivity].
  - apply files_opened; [lia|discriminate|reflexivity|vm_compute; reflexivity].
  - intros msg. cbn [mode3_SignTo SignerModel.signer]. apply Forall_singleton. by apply Z.mod_pos_bound.
  - exact (proj1 (sha32_bytes [8])).
  - exact (got_eq _ _ Hp).
  - exact (got_eq _ _ Hm).
  - destruct (H1 PipelineModel.json deps_any Minute PipelineModel.state) as (t' & s' & E & Hnft & _).
    + apply list_elem_of_singleton. reflexivity.
    + rewrite Hi. vm_compute. split; discriminate.
    + reflexivity.
    + vm_compute. reflexivity.
    + apply admitted; reflexivity.
    + exists printed_flags, minted, t', s', (got gov_dummy new_mirror). split; [exact (got_eq _ _ Hp)|].
      split; [exact (got_eq _ _ Hm)|]. split; [exact E|]. split; [exact (mk_is_Some _ _ Hnft)|].
      split; [exact (got_eq _ _ Hn)|]. apply H2.
      * apply (gov_New_ok [8] "http://a"). exact (got_eq _ _ Hn).
      * reflexivity.
      * apply list_elem_of_here.
      * vm_compute. discriminate.
Defined.

(** ** A staked mint, and its redemption *)

Definition voting_flags : voteFlags :=
  {| vf_keystore := KeystoreModel.path; vf_fromStdin := true; vf_proposal := "p"; vf_approve := true;
     vf_eligibilityParams := "zk"; vf_net := tf_net flags |}.
Definition throwaway : Throwaway := {| tw_pk := [9]; tw_sk := [9] |}.
Definition drawn (k : Z) : Secrets := {| sc_ownerSK := of_Z k; sc_rho := of_Z (k + 1) |}.
Definition proposed : result (ShieldedTx * StakeSecret) :=
  let voting := extended at_genesis [minted] in
  build_mint_staked voting_flags 100 "zk" throwaway (drawn 71) (by_second (env_at voting voting)).
Definition no_position : StakeSecret :=
  {| ss_Principal := 0; ss_StartEpoch := 0; ss_OwnerSK := of_Z 0; ss_Rho := of_Z 0 |}.
Definition position : StakeSecret := (got (funding, no_position) proposed).2.

(** A server whose store has the proposal, applied, and whose clock is in the node's epoch. *)
Definition applied : Query.Server :=
  {| Query.s_store := Rows.PutProposal (ClientWitness.staked_proposal "p" (StakeWallet.commitment position)) Rows.empty;
     Query.s_notes := ∅; Query.s_chn := at_genesis; Query.s_mempool := Mempool.NewMempool; Query.s_genesis := 0 |}.
Definition redeeming : Env :=
  let env := by_second (env_at at_genesis at_genesis) in
  env <| e_sync := λ _, connected applied |> <| e_now := 4 * Hour |>.
Definition redemption : result (ShieldedTx * NoteSecret) :=
  build_unstake KeystoreModel.path true (print_position position) "zk" (tf_net flags)
    (drawn 81) redeeming.
Definition redemption_tx : ShieldedTx := (got (funding, note 0) redemption).1.
Definition redemption_root : Hash := match tx_Unstake redemption_tx with Some pub => upi_MerkleRoot pub | None => [] end.
Definition redeems_at : State :=
  PipelineModel.state <| st_StakeRoots := Some (RootHistory.NewRootHistory (FieldElementFromBytes32 redemption_root)) |>.
Definition stake_checks : bool :=
  is_ok proposed && is_ok redemption && negb (binds_zero redemption_tx) && (ss_StartEpoch position =? 0) &&
  bool_decide (current_epoch "http://a" redeeming = Ok 3) && zk_room 1 (st_ZKTree PipelineModel.state) &&
  RootHistory.Contains (RootHistory.NewRootHistory (FieldElementFromBytes32 redemption_root))
    (FieldElementFromBytes32 redemption_root).
Lemma stake_checks_true : stake_checks = true.
Proof. vm_compute. reflexivity. Qed.
Lemma got_pair {A} (d : ShieldedTx * A) r : is_ok r = true → r = Ok ((got d r).1, (got d r).2).
Proof. by destruct r as [[]|]. Qed.

Lemma printed_position_redeems_witness :
  parse_position (print_position position) = Ok position ∧
  ∃ t n t' s', redemption = Ok (t, n) ∧ ns_Value n = FinalAmount 100 0 3 ∧
    processOne PipelineModel.json deps_any t Minute redeems_at = (t', None, s') ∧
    Rows.nullifiers (st_Store s') =
      {[ToBytes32 (StakeSecret_Nullifier position)]} ∪ Rows.nullifiers (st_Store redeems_at).
Proof.
  assert (Hc := stake_checks_true). unfold stake_checks in Hc.
  apply andb_true_iff in Hc as
    [[[[[[Hp Hr]%andb_true_iff Hz%negb_true_iff]%andb_true_iff Hs%Z.eqb_eq]%andb_true_iff
      He%bool_decide_eq_true]%andb_true_iff Hroom]%andb_true_iff Hroot].
  destruct (CommandSpec.printed_position_redeems voting_flags 100 "zk" throwaway (drawn 71)
    (by_second (env_at (extended at_genesis [minted]) (extended at_genesis [minted])))
    (got (funding, no_position) proposed).1 position) as (Hparse & _ & H).
  - exact (got_pair _ _ Hp).
  - lia.
  - rewrite Hs. lia.
  - split; [exact Hparse|].
    destruct (H KeystoreModel.path true "zk" (tf_net flags) (drawn 81) redeeming
      (owner_at 8 "two") sys redemption_tx (got (funding, note 0) redemption).2)
      as (url & epoch & pub & Hu & Hep & Hpub & Hn & Hacc).
    + apply files_opened; [lia|discriminate|reflexivity|vm_compute; reflexivity].
    + unfold loadUnstakeSystem, Params.load_system. change (e_fs redeeming) with (files 8 "two"). rewrite files_zk. reflexivity.
    + apply complete.
    + exact (got_pair _ _ Hr).
    + exact Hz.
    + assert (Hq : firstQueryURL (tf_net flags) = Ok "http://a"%string) by (vm_compute; reflexivity).
      rewrite Hq in Hu. apply Ok_inj in Hu. rewrite <-Hu, He in Hep. apply Ok_inj in Hep.
      destruct (Hacc PipelineModel.json deps_any Minute redeems_at) as (t' & s' & E & En & _).
      * rewrite <-Hep. reflexivity.
      * assert (Erp : redemption_root = upi_MerkleRoot pub) by (unfold redemption_root; rewrite Hpub; reflexivity).
        split; [reflexivity| | |exact Hroom].
        -- rewrite <-Erp. eexists. split; [reflexivity|exact Hroot].
        -- split; apply not_elem_of_empty.
      * apply admitted; reflexivity.
      * exists redemption_tx, (got (funding, note 0) redemption).2, t', s'. split; [exact (got_pair _ _ Hr)|].
        split; [rewrite Hn, Hs, Hep; reflexivity|]. exact (conj E En).
Defined.
End CommandWitness.

(** * Findings *)

Module CommandFindings.
Import FrModel FrontendModel GrothModel KeystoreModel TxClientModel ParamsModel ClientModel CommandModel.

(** Each command syncs a new wallet from genesis, and a sync finds the notes that earlier
    transfers spent again: once the first transfer is on the chain, the next one of the same
    owner is built from one of its spent notes, so that its nullifier is already spent. *)
Definition nullifiers_of (r : result ShieldedTx) : list Hash :=
  match r with
  | Ok t => match tx_Transfer t with Some pub => tpi_Nullifiers pub | None => [] end
  | Err _ => []
  end.
Theorem second_transfer_respends :
  let again := build_transfer flags order draws (env_at settled settled) in
  is_ok again = true ∧
  existsb (λ n, bool_decide (n ∈ nullifiers_of paid)) (nullifiers_of again) = true.
Proof. split; vm_compute; reflexivity. Qed.
End CommandFindings.
