(* ===== verification/Startup.v ===== *)
(** cmd/node: how a validator process starts. The secret material it keeps on its disk (the
    key of its store, its identity, the shared parameters), the files it announces itself
    and finds its peers by, and the wiring of [main] up to the running node. Badger's
    opening, libp2p, random draws and how writes end are arguments. *)
From S2P Require Import Prelude Words Decimal Hashing Types Epoch Revolver Committee Mempool Outage.
From S2P Require Import Governance Bank Merkle Field ZkTree Circuit Groth NFT Silent Store Chain.
From S2P Require Import Pipeline Sample Tally Net Node Consensus Propose Ledger NodeSample Agreement.
From S2P Require Import Prover Memo Keystore Flags Params Replica.
Local Open Scope Z_scope.

(** What a process finds and leaves: files, and the stores of data directories, each the rows
    of the ledger and the stored chain. *)
Record Machine := { mc_files : Files; mc_stores : gmap string (Rows * ChainRows) }.
Definition on_files {A} (c : call Files A) : call Machine A := λ m,
  let '(r, fs) := c (mc_files m) in (r, m <| mc_files := fs |>).

Module Startup.
Import Keystore(WriteOutcome, Written, WriteFailed, Disk, dk_write, dk_rename, tmp_of).

(** * File names *)

(** [strings.Split] at slashes. *)
Fixpoint split_slash (s : string) : list string :=
  match s with
  | EmptyString => [EmptyString]
  | String c s =>
      let rest := split_slash s in
      if (Ascii.nat_of_ascii c =? 47)%nat then EmptyString :: rest
      else match rest with [] => [String c EmptyString] | w :: ws => String c w :: ws end
  end.

(** [filepath.Clean] on Unix: [acc] holds the elements kept so far, the last one first. *)
Definition clean_element (rooted : bool) (acc : list string) (w : string) : list string :=
  if bool_decide (w = EmptyString) || bool_decide (w = ".") then acc
  else if bool_decide (w = "..") then
    match acc with
    | [] => if rooted then [] else [w]
    | last :: rest => if bool_decide (last = "..") then w :: acc else rest
    end
  else w :: acc.
Definition filepath_Clean (s : string) : string :=
  let rooted := match s with String c _ => (Ascii.nat_of_ascii c =? 47)%nat | EmptyString => false end in
  let kept := String.concat "/" (reverse (foldl (clean_element rooted) [] (split_slash s))) in
  if rooted then "/" +:+ kept else if bool_decide (kept = EmptyString) then "." else kept.
(** [filepath.Join] of two elements, the second not empty. *)
Definition filepath_Join (dir file : string) : string :=
  filepath_Clean (if bool_decide (dir = EmptyString) then file else dir +:+ "/" +:+ file).

(** * The key of the store *)

Definition state_key_path (dataDir : string) : string := filepath_Join dataDir "state.key".

(** [drawn]: the random key, if drawing one succeeds; [mkdir] and [write]: how making the
    directory and writing the file end. A file that exists can be read. *)
Definition loadOrCreateStateKey (dataDir : string) (drawn : option bytes) (mkdir : bool) (write : WriteOutcome)
    : call Files bytes :=
  if bool_decide (dataDir = EmptyString) then
    match drawn with None => fail "generate ephemeral state encryption key" | Some key => mret key end
  else
    let keyPath := state_key_path dataDir in
    fs ← gets id;
    match fs !! keyPath with
    | Some b =>
        if negb (bool_decide (length b = EncryptionKeySize)) then fail "state key file has the wrong size"
        else mret b
    | None =>
        match drawn with
        | None => fail "generate state encryption key"
        | Some key =>
            if negb mkdir then fail "create data dir"
            else match write with
                 | Written => _ ← modify (λ fs, <[keyPath := key]> fs); mret key
                 | WriteFailed partial =>
                     _ ← modify (λ fs, from_option (λ p, <[keyPath := p]> fs) fs partial);
                     fail "write state key file"
                 end
        end
    end.

(** * The identity *)

(** [int] of four bytes; it cannot be negative on a 64-bit machine. *)
Definition decodeIdentity (b : bytes) : result (bytes * bytes) :=
  match b with
  | b0 :: b1 :: b2 :: b3 :: rest =>
      let pkLen := Z.lor (Z.lor (Z.lor (Z.shiftl b0 24) (Z.shiftl b1 16)) (Z.shiftl b2 8)) b3 in
      if (pkLen <? 0) || (len b <? 4 + pkLen) then Err "identity file has an invalid public key length"
      else
        let pk := take (Z.to_nat pkLen) rest in
        let sk := drop (Z.to_nat pkLen) rest in
        if bool_decide (sk = []) then Err "identity file has no private key material" else Ok (pk, sk)
  | _ => Err "identity file too short"
  end.

(** The buffer of [writeIdentityFile]. *)
Definition encodeIdentity (pk sk : bytes) : bytes :=
  (byte_at (len pk) <$> [3; 2; 1; 0]) ++ pk ++ sk.

(** A write to a temporary file that is then renamed. *)
Definition write_renamed (path : string) (b : bytes) (disk : Disk) : call Files unit :=
  let tmp := tmp_of path in
  match dk_write disk with
  | WriteFailed partial =>
      _ ← modify (λ fs, from_option (λ p, <[tmp := p]> fs) fs partial);
      fail "write"
  | Written =>
      _ ← modify (λ fs, <[tmp := b]> fs);
      if dk_rename disk then modify (λ fs, from_option (λ p, <[path := p]> (delete tmp fs)) fs (fs !! tmp))
      else fail "rename"
  end.
Definition writeIdentityFile (path : string) (pk sk : bytes) (disk : Disk) : call Files unit :=
  write_renamed path (encodeIdentity pk sk) disk.

(** [drawn]: the key pair generated, if generating one succeeds. *)
Definition loadOrCreateIdentity (path : string) (drawn : option (bytes * bytes)) (disk : Disk)
    : call Files (bytes * bytes) :=
  fs ← gets id;
  match (if bool_decide (path = EmptyString) then None else fs !! path) with
  | Some b => lift (match decodeIdentity b with Err _ => Err "decode identity file" | Ok keys => Ok keys end)
  | None =>
      match drawn with
      | None => fail "generate identity"
      | Some (pk, sk) =>
          _ ← (if bool_decide (path = EmptyString) then mret tt else writeIdentityFile path pk sk disk);
          mret (pk, sk)
      end
  end.

(** * Addresses and attestors *)

Definition writeAddrFile (path addr : string) (disk : Disk) : call Files unit :=
  write_renamed path (string_bytes addr) disk.

(** A file that cannot be written is only logged. *)
Definition announce (path : string) (addrs : list string) (disk : Disk) : call Files unit :=
  match addrs with
  | addr :: _ =>
      if bool_decide (path = EmptyString) then mret tt
      else λ fs, (Ok tt, (writeAddrFile path addr disk fs).2)
  | [] => mret tt
  end.

Fixpoint decode_keys (parts : list string) : result (list bytes) :=
  match parts with
  | [] => Ok []
  | part :: parts =>
      match hex_decode part with
      | Err _ => Err "invalid hex attestor key"
      | Ok b => rest ← decode_keys parts; Ok (b :: rest)
      end
  end.
Definition parsePoHAttestorKeys (csv : string) : result (list bytes) :=
  if bool_decide (csv = EmptyString) then Ok [] else decode_keys (flag_parts csv).

(** * main *)

(** The flags, those of the five circuits by circuit. *)
Record Options := {
  op_bootstrap : string; op_dataDir : string; op_sentinel : bool; op_skipZK : CircuitKind → bool;
  op_zkParams : CircuitKind → string; op_announceFile : string; op_bootstrapFile : string;
  op_keyFile : string; op_genesisMs : Z; op_disableOracle : bool; op_oracleMaxDisagreement : string;
  op_queryListen : string; op_pohAttestorKeys : string }.

(** The wait for one bootstrap file: when it starts, what its rounds see, and which addresses
    can be dialled after it. *)
Record Wait := { wt_start : Time; wt_polls : string → nat → AddrPoll; wt_dial : string → bool }.

(** What a start meets: random draws, the ends of its writes, whether Badger, the host and
    the query server start, the host's addresses, the price sources and the network. *)
Record Start `{Groth16Prover} := {
  sa_stateKey : option bytes; sa_mkdir : bool; sa_keyWrite : WriteOutcome; sa_open : bool;
  sa_systems : CircuitKind → option System; sa_creations : CircuitKind → Params.Creation;
  sa_coingecko : Oracle.Source; sa_coinbase : Oracle.Source;
  sa_identity : option (bytes * bytes); sa_identityDisk : Disk;
  sa_host : option (list string); sa_announceDisk : Disk; sa_now : Time;
  sa_dial : string → bool; sa_waits : nat → Wait; sa_query : bool }.

Section main.
Context `{SHA : Sha256, M3 : Mode3, ED : Ed25519, SG : Mode3Signer, BR : BigRat, FR : Fr, MM : MiMC,
  GR : !Groth16, PR : !Groth16Prover, GN : !Gnark}.
Implicit Types (f : Options) (st : Start).

Definition open_chain f st : call Machine (Rows * Chain.Chain) :=
  let dir := op_dataDir f in
  _ ← check (sa_open st) "open state store";
  m ← gets id;
  let '(rows, chain) :=
    if bool_decide (dir = EmptyString) then (Rows.empty, ChainRows.empty)
    else default (Rows.empty, ChainRows.empty) (mc_stores m !! dir) in
  chn ← lift (Chain.Open chain (op_genesisMs f));
  _ ← modify (λ m, if bool_decide (dir = EmptyString) then m
                   else m <| mc_stores ::= <[dir := (rows, Chain.ch_store chn)]> |>);
  mret (rows, chn).

Definition load_circuit f st (kind : CircuitKind) : call Machine (option System) :=
  if op_skipZK f kind then mret None
  else
    sys ← on_files (Params.loadOrCreate kind (op_zkParams f kind) (sa_systems st kind) (sa_creations st kind));
    mret (Some sys).

Definition oracle_quorum f st : result (option Oracle.Quorum) :=
  if op_disableOracle f then Ok None
  else match FromString (op_oracleMaxDisagreement f) with
       | Err _ => Err "parse -oracle-max-disagreement"
       | Ok d => Ok (Some (Oracle.NewQuorum d [sa_coingecko st; sa_coinbase st]))
       end.

(** [main] up to the node, with the key of its store. *)
Definition assemble f st : call Machine (bytes * Node) :=
  key ← on_files (loadOrCreateStateKey (op_dataDir f) (sa_stateKey st) (sa_mkdir st) (sa_keyWrite st));
  '(rows, chn) ← open_chain f st;
  zkSys ← load_circuit f st KTransfer;
  eligibilityZK ← load_circuit f st KEligibility;
  mintZK ← load_circuit f st KMint;
  stakeZK ← load_circuit f st KStake;
  unstakeZK ← load_circuit f st KUnstake;
  oracleQuorum ← lift (oracle_quorum f st);
  '(pk, sk) ← on_files (loadOrCreateIdentity (op_keyFile f) (sa_identity st) (sa_identityDisk st));
  addrs ← lift (match sa_host st with None => Err "create libp2p host" | Some addrs => Ok addrs end);
  _ ← on_files (announce (op_announceFile f) addrs (sa_announceDisk st));
  trustedPoHAttestors ← lift (parsePoHAttestorKeys (op_pohAttestorKeys f));
  mret (key, NewNode (DefaultConfig (op_genesisMs f)) rows NewMerkleTree chn (sys_vk <$> zkSys)
               (Some (Vault.New Vault.DefaultSplits)) oracleQuorum trustedPoHAttestors
               (sys_vk <$> eligibilityZK) (sys_vk <$> mintZK) (sys_vk <$> stakeZK) (sys_vk <$> unstakeZK)
               Mempool.NewMempool pk sk (op_sentinel f) (sa_now st)).

(** The peers found by the files, in order; [None]: the fuel ran out. *)
Fixpoint join_files (fuel : nat) (waits : nat → Wait) (i : nat) (paths : list string) : option (list string) :=
  match paths with
  | [] => Some []
  | path :: paths =>
      let w := waits i in
      match waitForAddrFile fuel (wt_start w) (wt_polls w path), join_files fuel waits (S i) paths with
      | Some r, Some rest =>
          Some (match r with Ok addr => if wt_dial w addr then addr :: rest else rest | Err _ => rest end)
      | _, _ => None
      end
  end.

Record Started := { sd_key : bytes; sd_node : Node; sd_peers : list string }.

(** [None]: it still waits. A fatal error ends the process with what it has written. *)
Definition main (fuel : nat) f st (m : Machine) : option (result Started * Machine) :=
  match assemble f st m with
  | (Err e, m) => Some (Err e, m)
  | (Ok (key, n), m) =>
      let dialled := filter (λ addr, sa_dial st addr = true) (flag_parts (op_bootstrap f)) in
      match join_files fuel (sa_waits st) 0 (flag_parts (op_bootstrapFile f)) with
      | None => None
      | Some found =>
          if negb (bool_decide (op_queryListen f = EmptyString)) && negb (sa_query st)
          then Some (Err "start query API", m)
          else Some (Ok {| sd_key := key; sd_node := n; sd_peers := dialled ++ found |}, m)
      end
  end.
End main.
End Startup.

(** * Lemmas *)

(** ** The identity file *)

Lemma be32_value v : 0 ≤ v < 2 ^ 32 → be_value (byte_at v <$> [3; 2; 1; 0]) = v.
Proof.
  intros Hv. unfold be_value. cbn [fmap list_fmap foldl]. rewrite !byte_at_div by lia.
  Z.div_mod_to_equations. lia.
Qed.
Lemma value_be32 a b c d : Forall (λ x, 0 ≤ x < 256) [a; b; c; d] →
  byte_at (be_value [a; b; c; d]) <$> [3; 2; 1; 0] = [a; b; c; d].
Proof.
  intros H. repeat (apply Forall_cons in H as [? H]). unfold be_value. cbn [fmap list_fmap foldl].
  rewrite !byte_at_div by lia. repeat f_equal; Z.div_mod_to_equations; lia.
Qed.

(** Appending the low bits with [lor] is adding them. *)
Lemma lor_add a b n : 0 ≤ n → 0 ≤ b < 2 ^ n → Z.lor (Z.shiftl a n) b = a * 2 ^ n + b.
Proof.
  intros Hn Hb. rewrite Z.shiftl_mul_pow2 by done. symmetry. apply Z.add_nocarry_lor.
  apply Z.bits_inj'. intros i Hi. rewrite Z.land_spec, Z.bits_0.
  destruct (Z.lt_ge_cases i n) as [Hlt|Hge].
  - rewrite Z.mul_pow2_bits_low by done. done.
  - rewrite <-(Z.mod_small b (2 ^ n)), Z.mod_pow2_bits_high by lia. apply andb_false_r.
Qed.
Lemma shifts_value a b c d : Forall (λ x, 0 ≤ x < 256) [a; b; c; d] →
  Z.lor (Z.lor (Z.lor (Z.shiftl a 24) (Z.shiftl b 16)) (Z.shiftl c 8)) d = be_value [a; b; c; d].
Proof.
  intros H. repeat (apply Forall_cons in H as [? H]).
  rewrite <-!Z.lor_assoc, (lor_add c d 8), (lor_add b (c * 2 ^ 8 + d) 16), (lor_add a (b * 2 ^ 16 + (c * 2 ^ 8 + d)) 24) by lia.
  unfold be_value. cbn [foldl]. lia.
Qed.

Lemma be32_bytes v : Forall (λ x, 0 ≤ x < 256) (byte_at v <$> [3; 2; 1; 0]).
Proof. repeat constructor; by apply byte_at_range. Qed.

Section identity.
Import Startup.

Lemma decode_encodeIdentity pk sk :
  len pk < 2 ^ 32 → sk ≠ [] → decodeIdentity (encodeIdentity pk sk) = Ok (pk, sk).
Proof.
  intros Hp Hs. assert (Hv := be32_value (len pk)). assert (Hb := be32_bytes (len pk)).
  assert (H0 : 0 ≤ len pk) by (unfold len; lia).
  unfold encodeIdentity, decodeIdentity. cbn [fmap list_fmap app] in *.
  rewrite shifts_value, Hv by done. unfold len in *. cbn [length]. rewrite length_app.
  replace (_ <? 0) with false by lia. replace (_ <? _) with false by (symmetry; apply Z.ltb_ge; lia). cbn [orb].
  rewrite Nat2Z.id, take_app_length, drop_app_length. by rewrite bool_decide_false.
Qed.

Lemma decodeIdentity_Ok b pk sk : is_bytes b → decodeIdentity b = Ok (pk, sk) → b = encodeIdentity pk sk ∧ sk ≠ [].
Proof.
  intros Hb. destruct b as [|b0 [|b1 [|b2 [|b3 rest]]]]; try done.
  assert (H4 : Forall (λ x, 0 ≤ x < 256) [b0; b1; b2; b3]).
  { unfold is_bytes in Hb. rewrite !Forall_cons in Hb |- *. naive_solver. }
  unfold decodeIdentity. rewrite shifts_value by done. assert (Hv := value_be32 _ _ _ _ H4).
  set (v := be_value [b0; b1; b2; b3]) in *. unfold len. cbn [length].
  destruct ((v <? 0) || _) eqn:Ev; [done|]. case_bool_decide as Hs; [done|]. intros [= <- <-]. split; [|done].
  apply orb_false_iff in Ev as [E1%Z.ltb_ge E2%Z.ltb_ge]. unfold encodeIdentity.
  replace (len (take (Z.to_nat v) rest)) with v by (unfold len; rewrite length_take; lia).
  rewrite Hv, take_drop. done.
Qed.
End identity.

(** ** Files and who writes them *)

(** The files a start writes, by their role. *)
Inductive BootFile := FKey | FParams (kind : CircuitKind) | FIdentity | FIdentityTmp | FAnnounce | FAnnounceTmp.
#[export] Instance BootFile_eq_dec : EqDecision BootFile.
Proof. solve_decision. Defined.
Definition boot_path (f : Startup.Options) (x : BootFile) : string :=
  match x with
  | FKey => Startup.state_key_path (Startup.op_dataDir f)
  | FParams kind => Startup.op_zkParams f kind
  | FIdentity => Startup.op_keyFile f
  | FIdentityTmp => Keystore.tmp_of (Startup.op_keyFile f)
  | FAnnounce => Startup.op_announceFile f
  | FAnnounceTmp => Keystore.tmp_of (Startup.op_announceFile f)
  end.
Definition boot_used (f : Startup.Options) (x : BootFile) : bool :=
  match x with
  | FParams kind => negb (Startup.op_skipZK f kind)
  | FAnnounce | FAnnounceTmp => negb (bool_decide (Startup.op_announceFile f = EmptyString))
  | _ => true
  end.
(** The flags name different files. *)
Definition boot_apart (f : Startup.Options) : Prop :=
  ∀ x y, boot_used f x = true → boot_used f y = true → boot_path f x = boot_path f y → x = y.

(** Two disks that differ at most in these files. *)
Definition agree_off (ps : list string) (fs fs' : Files) : Prop := ∀ q, q ∉ ps → fs' !! q = fs !! q.
#[export] Instance agree_off_refl ps : Reflexive (agree_off ps).
Proof. by intros fs q _. Qed.
#[export] Instance agree_off_trans ps : Transitive (agree_off ps).
Proof. intros fs1 fs2 fs3 H1 H2 q Hq. by rewrite H2, H1. Qed.

Definition written_by (f : Startup.Options) (xs : list BootFile) : list string :=
  boot_path f <$> filter (λ x, boot_used f x = true) xs.
Lemma off_kept f xs fs fs' y : boot_apart f → boot_used f y = true → y ∉ xs →
  agree_off (written_by f xs) fs fs' → fs' !! boot_path f y = fs !! boot_path f y.
Proof.
  intros Ha Hy Hn Hoff. apply Hoff. intros Hin. apply list_elem_of_fmap in Hin as (x & Hp & Hx).
  apply list_elem_of_filter in Hx as [Hu Hx]. by rewrite (Ha y x Hy Hu Hp) in Hn.
Qed.

(** The file at a path passes a test. *)
Definition file_is (p : string) (P : bytes → Prop) (fs : Files) : Prop := ∃ b, fs !! p = Some b ∧ P b.
Lemma file_is_same p P fs fs' : fs' !! p = fs !! p → file_is p P fs → file_is p P fs'.
Proof. intros E (b & Hb & HP). exists b. by rewrite E. Qed.

Section calls.
Import Startup.

Lemma write_renamed_off path b disk :
  preserves (agree_off [path; Keystore.tmp_of path]) (write_renamed path b disk).
Proof.
  intros fs. unfold write_renamed, mbind, call_bind, modify, fail. destruct (Keystore.dk_write disk) as [|[p|]].
  - destruct (Keystore.dk_rename disk); cbv beta iota;
      rewrite ?lookup_insert_eq; intros q Hq; cbn; rewrite ?lookup_insert_ne, ?lookup_delete_ne, ?lookup_insert_ne by set_solver;
      done.
  - intros q Hq. cbn. rewrite lookup_insert_ne; set_solver.
  - done.
Qed.
Lemma write_renamed_Ok path b disk fs u fs' :
  write_renamed path b disk fs = (Ok u, fs') → fs' !! path = Some b.
Proof.
  unfold write_renamed. destruct (Keystore.dk_write disk) as [|p]; [|destruct p; done].
  unfold mbind, call_bind, modify, fail. destruct (Keystore.dk_rename disk); [|done].
  cbv beta iota. rewrite lookup_insert_eq. intros [= _ <-]. cbn. apply lookup_insert_eq.
Qed.

(** *** The key *)

Definition key_file (dir : string) (key : bytes) : Files → Prop :=
  file_is (state_key_path dir) (λ b, b = key ∧ length b = Keystore.EncryptionKeySize).

Lemma loadOrCreateStateKey_off dir drawn mkdir write :
  preserves (agree_off [state_key_path dir]) (loadOrCreateStateKey dir drawn mkdir write).
Proof.
  intros fs. unfold loadOrCreateStateKey. case_bool_decide; [by destruct drawn|].
  unfold mbind, call_bind, gets, id, modify, fail. cbv beta iota. destruct (fs !! _) as [b|]; [by case_bool_decide|].
  destruct drawn as [key|]; [|done]. destruct mkdir; [|done].
  destruct write as [|[p|]]; intros q Hq; cbn; rewrite ?lookup_insert_ne; set_solver.
Qed.
Lemma loadOrCreateStateKey_Ok dir drawn mkdir write fs key fs' : dir ≠ EmptyString →
  (∀ k, drawn = Some k → length k = Keystore.EncryptionKeySize) →
  loadOrCreateStateKey dir drawn mkdir write fs = (Ok key, fs') → key_file dir key fs'.
Proof.
  intros Hd Hk. unfold loadOrCreateStateKey. rewrite bool_decide_false by done.
  unfold mbind at 1, call_bind at 1, gets, id. cbv beta iota. destruct (fs !! _) as [b|] eqn:Eb.
  - case_bool_decide as Hl; [|done]. intros [= <- <-]. by exists b.
  - destruct drawn as [k|]; [|done]. destruct mkdir; [|done].
    destruct write as [|p]; [|destruct p; done]. intros [= <- <-]. exists k. split; [apply lookup_insert_eq|]. auto.
Qed.
Lemma key_again dir key fs drawn mkdir write : dir ≠ EmptyString →
  key_file dir key fs → loadOrCreateStateKey dir drawn mkdir write fs = (Ok key, fs).
Proof.
  intros Hd (b & Eb & -> & Hl). unfold loadOrCreateStateKey. rewrite bool_decide_false by done.
  unfold mbind, call_bind, gets, id. cbv beta iota. rewrite Eb. by rewrite bool_decide_true.
Qed.

(** *** The identity *)

Definition identity_file (path : string) (keys : bytes * bytes) : Files → Prop :=
  file_is path (λ b, decodeIdentity b = Ok keys).

Lemma loadOrCreateIdentity_off path drawn disk :
  preserves (agree_off [path; Keystore.tmp_of path]) (loadOrCreateIdentity path drawn disk).
Proof.
  intros fs. unfold loadOrCreateIdentity. unfold mbind at 1, call_bind at 1, gets, id. cbv beta iota.
  assert (Hw : ∀ b, agree_off [path; Keystore.tmp_of path] fs (write_renamed path b disk fs).2)
    by (intros b; apply write_renamed_off).
  case_bool_decide.
  - by destruct drawn as [[]|].
  - destruct (fs !! path); [done|]. destruct drawn as [[pk sk]|]; [|done].
    unfold writeIdentityFile. unfold mbind, call_bind. specialize (Hw (encodeIdentity pk sk)).
    by destruct (write_renamed _ _ _ _) as [[]].
Qed.
Lemma loadOrCreateIdentity_Ok path drawn disk fs keys fs' : path ≠ EmptyString →
  (∀ pk sk, drawn = Some (pk, sk) → len pk < 2 ^ 32 ∧ sk ≠ []) →
  loadOrCreateIdentity path drawn disk fs = (Ok keys, fs') → identity_file path keys fs'.
Proof.
  intros Hp Hk. unfold loadOrCreateIdentity. rewrite !bool_decide_false by done.
  unfold mbind at 1, call_bind at 1, gets, id. cbv beta iota. destruct (fs !! path) as [b|] eqn:Eb.
  - unfold lift. destruct (decodeIdentity b) eqn:Ed; [|done]. intros [= <- <-]. by exists b.
  - destruct drawn as [[pk sk]|]; [|done]. intros E. call_inv. simplify_eq.
    match goal with H : writeIdentityFile _ _ _ _ _ = _ |- _ => apply write_renamed_Ok in H; eexists; split; [exact H|] end.
    destruct (Hk pk sk eq_refl). by apply decode_encodeIdentity.
Qed.
Lemma identity_again path keys fs drawn disk : path ≠ EmptyString →
  identity_file path keys fs → loadOrCreateIdentity path drawn disk fs = (Ok keys, fs).
Proof.
  intros Hp (b & Eb & Ed). unfold loadOrCreateIdentity. rewrite !bool_decide_false by done.
  unfold mbind, call_bind, gets, id, lift. cbv beta iota. by rewrite Eb, Ed.
Qed.

Lemma announce_off path addrs disk fs : ∃ fs', announce path addrs disk fs = (Ok tt, fs') ∧
  agree_off (if bool_decide (path = EmptyString) then [] else [path; Keystore.tmp_of path]) fs fs'.
Proof.
  unfold announce. destruct addrs as [|addr addrs]; [by exists fs|]. case_bool_decide; [by exists fs|].
  eexists. split; [done|]. apply write_renamed_off.
Qed.
End calls.

(** ** The stored chain *)

Section persistence.
Context `{SHA : Sha256, M3 : Mode3}.
Implicit Types c : Chain.Chain.

(** The head a chain holds in memory is the one its store records. *)
Definition persisted c : Prop :=
  ChainRows.GetHead (Chain.ch_store c) = Some (Chain.headHeight c) ∧
  ∃ b, ChainRows.GetBlock (Chain.headHeight c) (Chain.ch_store c) = Some b ∧ Chain.headHash c = HashBlock b.

Lemma Open_persisted s t c : Chain.Open s t = Ok c → persisted c.
Proof.
  unfold Chain.Open. destruct (ChainRows.GetHead s) as [h|] eqn:Eh.
  - destruct (ChainRows.GetBlock h s) as [b|] eqn:Eb; [|done]. intros [= <-]. split; [done|by exists b].
  - intros [= <-]. split; [done|]. eexists. split; [apply lookup_insert_eq|done].
Qed.
Lemma Append_persisted c b committee lookup c' : Chain.Append c b committee lookup = Ok c' → persisted c'.
Proof.
  intros (_ & _ & _ & ->)%Append_Ok. unfold persisted, ChainRows.GetHead, ChainRows.GetBlock. cbn [Chain.headHeight Chain.ch_store Chain.headHash].
  match goal with |- context [Chain.index_batch ?h ?l ?s] => destruct (index_batch_frame h l s) as [-> ->] end.
  split; [done|]. exists b. split; [apply lookup_insert_eq|done].
Qed.
(** Opening the store again gives the chain that was being kept, whatever the genesis flag. *)
Lemma Open_again c t : persisted c → Chain.Open (Chain.ch_store c) t = Ok c.
Proof. intros (Eh & b & Eb & Ec). unfold Chain.Open. rewrite Eh, Eb, <-Ec. by destruct c. Qed.
End persistence.

Section restart.
Import Startup.
Context `{SHA : Sha256, M3 : Mode3, ED : Ed25519, SG : Mode3Signer, BR : BigRat, FR : Fr, MM : MiMC,
  GR : !Groth16, PR : !Groth16Prover, GN : !Gnark, GL : !GnarkLaws}.
Implicit Types (f : Options) (st : Start) (m : Machine).

Lemma ledger_persisted `{CD : Codec} l bs l' : ledger_run l bs l' → persisted l.2 → persisted l'.2.
Proof.
  induction 1 as [|l b l1 bs l2 He _ IH]; [done|]. intros _. apply IH.
  destruct He. by eapply Append_persisted.
Qed.

(** ** The steps of a start over the machine *)

Lemma on_files_Ok {A} (c : call Files A) m a m' : on_files c m = (Ok a, m') →
  ∃ fs', c (mc_files m) = (Ok a, fs') ∧ m' = m <| mc_files := fs' |>.
Proof. unfold on_files. destruct (c _) as [r fs']. intros [= -> <-]. eauto. Qed.
Lemma on_files_same {A} (c : call Files A) m a : c (mc_files m) = (Ok a, mc_files m) → on_files c m = (Ok a, m).
Proof. unfold on_files. intros ->. by destruct m. Qed.

Lemma open_chain_Ok f st m rows chn m' : open_chain f st m = (Ok (rows, chn), m') →
  persisted chn ∧ mc_files m' = mc_files m.
Proof.
  unfold open_chain. intros E. call_inv. case_match. call_inv. unfold lift, mret, call_ret in *. simplify_eq.
  match goal with H : Chain.Open _ _ = Ok _ |- _ => apply Open_persisted in H end.
  split; [done|]. case_bool_decide; done.
Qed.
Lemma open_chain_again f st m rows chn : op_dataDir f ≠ EmptyString → sa_open st = true → persisted chn →
  mc_stores m !! op_dataDir f = Some (rows, Chain.ch_store chn) → open_chain f st m = (Ok (rows, chn), m).
Proof.
  intros Hd Ho Hp Em. unfold open_chain, check, lift, require, gets, id, modify, mbind, call_bind, mret, call_ret.
  rewrite Ho, !bool_decide_false by done. rewrite Em. cbn. rewrite Open_again by done. f_equal.
  destruct m as [fs stores]. unfold set. cbn in *. f_equal. by apply insert_id.
Qed.

(** What the disk holds of a circuit's parameters. *)
Definition circuit_kept f (kind : CircuitKind) (sys : option System) (fs : Files) : Prop :=
  if op_skipZK f kind then sys = None
  else ∃ s, sys = Some s ∧ holds_params kind (op_zkParams f kind) s fs.

Lemma circuit_kept_same f kind sys fs fs' :
  (boot_used f (FParams kind) = true → fs' !! op_zkParams f kind = fs !! op_zkParams f kind) →
  circuit_kept f kind sys fs → circuit_kept f kind sys fs'.
Proof.
  unfold circuit_kept, boot_used. destruct (op_skipZK f kind); [done|]. intros E (s & -> & Hs).
  exists s. split; [done|]. revert Hs. by apply file_is_same, E.
Qed.

(** Flags under which nothing is left to chance at a later start. *)
Record durable f : Prop := {
  du_dir : op_dataDir f ≠ EmptyString; du_key : op_keyFile f ≠ EmptyString;
  du_params : ∀ kind, op_skipZK f kind = false → op_zkParams f kind ≠ EmptyString;
  du_apart : boot_apart f }.

Lemma load_circuit_Ok f st kind m sys m' : durable f → load_circuit f st kind m = (Ok sys, m') →
  circuit_kept f kind sys (mc_files m') ∧ agree_off (written_by f [FParams kind]) (mc_files m) (mc_files m').
Proof.
  intros Hd. unfold load_circuit, circuit_kept, written_by. cbn [filter list_filter]. unfold boot_used.
  destruct (op_skipZK f kind) eqn:Es; [by intros [= <- <-]|]. intros E. call_inv. unfold mret, call_ret in *. simplify_eq.
  match goal with H : on_files _ _ = _ |- _ => apply on_files_Ok in H as (fs' & E & ->) end. cbn.
  apply Params.loadOrCreate_Ok in E as (Hh & Hq & _); [|by apply du_params].
  split; [eauto|]. intros q Hn. apply Hq. set_solver.
Qed.
Lemma load_circuit_again f st kind m sys : durable f → circuit_kept f kind sys (mc_files m) →
  load_circuit f st kind m = (Ok sys, m).
Proof.
  intros Hd. unfold load_circuit, circuit_kept. destruct (op_skipZK f kind) eqn:Es; [by intros ->|].
  intros (s & -> & Hs). unfold mbind, call_bind. rewrite (on_files_same _ _ s); [done|].
  apply holds_loadOrCreate; [by apply du_params|done].
Qed.

(** ** A whole start *)

(** What the code relies on from the generators it draws with. *)
Record sane_draws st : Prop := {
  sn_key : ∀ k, sa_stateKey st = Some k → length k = Keystore.EncryptionKeySize;
  sn_identity : ∀ pk sk, sa_identity st = Some (pk, sk) → len pk < 2 ^ 32 ∧ sk ≠ [] }.

(** The secrets and parameters of a process. *)
Record Secrets := { sc_key : bytes; sc_keys : bytes * bytes; sc_systems : CircuitKind → option System }.
Definition secrets_kept f (sc : Secrets) (fs : Files) : Prop :=
  key_file (op_dataDir f) (sc_key sc) fs ∧ identity_file (op_keyFile f) (sc_keys sc) fs ∧
  ∀ kind, circuit_kept f kind (sc_systems sc kind) fs.

(** The node these make over a store and a chain. *)
Definition node_of f (sc : Secrets) (rows : Rows) (chn : Chain.Chain) quorum attestors now : Node :=
  let vk kind := sys_vk <$> sc_systems sc kind in
  NewNode (DefaultConfig (op_genesisMs f)) rows NewMerkleTree chn (vk KTransfer)
    (Some (Vault.New Vault.DefaultSplits)) quorum attestors (vk KEligibility) (vk KMint) (vk KStake) (vk KUnstake)
    Mempool.NewMempool (sc_keys sc).1 (sc_keys sc).2 (op_sentinel f) now.

Lemma secrets_kept_same f sc fs fs' :
  (∀ x, x ≠ FIdentityTmp → x ≠ FAnnounce → x ≠ FAnnounceTmp → boot_used f x = true →
     fs' !! boot_path f x = fs !! boot_path f x) →
  secrets_kept f sc fs → secrets_kept f sc fs'.
Proof.
  intros Hs (Hk & Hi & Hc). split_and!.
  - revert Hk. apply file_is_same. by apply (Hs FKey).
  - revert Hi. apply file_is_same. by apply (Hs FIdentity).
  - intros kind. generalize (Hc kind). apply circuit_kept_same. intros Hu. by apply (Hs (FParams kind)).
Qed.

Definition systems_of (t e m s u : option System) (kind : CircuitKind) : option System :=
  match kind with KTransfer => t | KEligibility => e | KMint => m | KStake => s | KUnstake => u end.

Lemma announced_off f : written_by f [FAnnounce; FAnnounceTmp] =
  if bool_decide (op_announceFile f = EmptyString) then [] else [op_announceFile f; Keystore.tmp_of (op_announceFile f)].
Proof. unfold written_by. cbn [filter list_filter]. unfold boot_used. by case_bool_decide. Qed.

(** Writes one after another, and what they leave of a kept fact. *)
Lemma off_seq f xs ys fs1 fs2 fs3 : agree_off (written_by f xs) fs1 fs2 → agree_off (written_by f ys) fs2 fs3 →
  agree_off (written_by f (xs ++ ys)) fs1 fs3.
Proof.
  intros H1 H2 q Hq. unfold written_by in Hq. rewrite filter_app, fmap_app in Hq.
  rewrite H2, H1; [done|set_solver..].
Qed.
Lemma circuit_off f kind sys xs fs fs' : durable f → FParams kind ∉ xs → agree_off (written_by f xs) fs fs' →
  circuit_kept f kind sys fs → circuit_kept f kind sys fs'.
Proof. intros Hd Hn Ho. apply circuit_kept_same. intros Hu. by apply (off_kept f xs _ _ _ (du_apart _ Hd) Hu Hn). Qed.
Lemma identity_off f drawn disk fs keys fs' :
  loadOrCreateIdentity (op_keyFile f) drawn disk fs = (Ok keys, fs') →
  agree_off (written_by f [FIdentity; FIdentityTmp]) fs fs'.
Proof. intros E. assert (H := loadOrCreateIdentity_off (op_keyFile f) drawn disk fs). by rewrite E in H. Qed.
Lemma announce_Ok_off f addrs disk fs u fs' : announce (op_announceFile f) addrs disk fs = (Ok u, fs') →
  agree_off (written_by f [FAnnounce; FAnnounceTmp]) fs fs'.
Proof.
  intros E. destruct (announce_off (op_announceFile f) addrs disk fs) as (fs2 & E2 & H).
  rewrite E in E2. injection E2 as _ <-. by rewrite announced_off.
Qed.

Lemma assemble_Ok f st m key n m' : durable f → sane_draws st → assemble f st m = (Ok (key, n), m') →
  ∃ sc rows chn quorum attestors,
    sc_key sc = key ∧ secrets_kept f sc (mc_files m') ∧ persisted chn ∧
    n = node_of f sc rows chn quorum attestors (sa_now st) ∧
    oracle_quorum f st = Ok quorum ∧ parsePoHAttestorKeys (op_pohAttestorKeys f) = Ok attestors.
Proof.
  intros Hd Hs. unfold assemble. intros E.
  apply call_bind_Ok in E as (k & m1 & (fs1 & E1 & ->)%on_files_Ok & E).
  apply call_bind_Ok in E as ([rows chn] & m2 & (Hc & F2)%open_chain_Ok & E).
  apply call_bind_Ok in E as (st' & m3 & [C3 O3]%load_circuit_Ok & E); [|done].
  apply call_bind_Ok in E as (se & m4 & [C4 O4]%load_circuit_Ok & E); [|done].
  apply call_bind_Ok in E as (sm & m5 & [C5 O5]%load_circuit_Ok & E); [|done].
  apply call_bind_Ok in E as (ss & m6 & [C6 O6]%load_circuit_Ok & E); [|done].
  apply call_bind_Ok in E as (su & m7 & [C7 O7]%load_circuit_Ok & E); [|done].
  apply call_bind_Ok in E as (quorum & m8 & Eq & E). injection Eq as Eq <-.
  apply call_bind_Ok in E as ([pk sk] & m9 & (fs9 & E9 & ->)%on_files_Ok & E).
  apply call_bind_Ok in E as (addrs & m10 & Ea & E). injection Ea as _ <-.
  apply call_bind_Ok in E as (u & m11 & (fs11 & E11 & ->)%on_files_Ok & E).
  apply call_bind_Ok in E as (attestors & m12 & Ep & E). injection Ep as Ep <-. injection E as <- <- <-.
  exists {| sc_key := k; sc_keys := (pk, sk); sc_systems := systems_of st' se sm ss su |}, rows, chn, quorum, attestors.
  split; [done|]. split; [|done]. apply identity_off in E9 as O9. apply announce_Ok_off in E11 as O11.
  assert (P9 := off_seq _ _ _ _ _ _ O9 O11). assert (P7 := off_seq _ _ _ _ _ _ O7 P9).
  assert (P6 := off_seq _ _ _ _ _ _ O6 P7). assert (P5 := off_seq _ _ _ _ _ _ O5 P6).
  assert (P4 := off_seq _ _ _ _ _ _ O4 P5). assert (P3 := off_seq _ _ _ _ _ _ O3 P4). rewrite F2 in P3.
  cbn [app] in *. split_and!.
  - apply loadOrCreateStateKey_Ok in E1; [|apply Hd|apply Hs]. revert E1. apply file_is_same.
    refine (off_kept f _ _ _ FKey (du_apart _ Hd) eq_refl _ P3). set_solver.
  - apply loadOrCreateIdentity_Ok in E9; [|apply Hd|apply Hs]. revert E9. apply file_is_same.
    refine (off_kept f _ _ _ FIdentity (du_apart _ Hd) eq_refl _ O11). set_solver.
  - intros []; cbn [systems_of sc_systems].
    + refine (circuit_off f _ _ _ _ _ Hd _ P4 C3). set_solver.
    + refine (circuit_off f _ _ _ _ _ Hd _ P5 C4). set_solver.
    + refine (circuit_off f _ _ _ _ _ Hd _ P6 C5). set_solver.
    + refine (circuit_off f _ _ _ _ _ Hd _ P7 C6). set_solver.
    + refine (circuit_off f _ _ _ _ _ Hd _ P9 C7). set_solver.
Qed.

Lemma oracle_quorum_again f st st2 q : oracle_quorum f st = Ok q → ∃ q2, oracle_quorum f st2 = Ok q2.
Proof. unfold oracle_quorum. destruct (op_disableOracle f); [eauto|]. destruct (FromString _); [eauto|done]. Qed.

Lemma assemble_again f st sc rows chn quorum attestors m :
  durable f → secrets_kept f sc (mc_files m) → persisted chn →
  mc_stores m !! op_dataDir f = Some (rows, Chain.ch_store chn) →
  sa_open st = true → is_Some (sa_host st) →
  oracle_quorum f st = Ok quorum → parsePoHAttestorKeys (op_pohAttestorKeys f) = Ok attestors →
  ∃ fs, assemble f st m = (Ok (sc_key sc, node_of f sc rows chn quorum attestors (sa_now st)), m <| mc_files := fs |>) ∧
    agree_off (written_by f [FAnnounce; FAnnounceTmp]) (mc_files m) fs.
Proof.
  intros Hd (Hk & Hi & Hc) Hp Em Ho [addrs Eh] Eq Ep.
  destruct (announce_off (op_announceFile f) addrs (sa_announceDisk st) (mc_files m)) as (fs & Ea & Hfs).
  exists fs. split; [|by rewrite announced_off]. unfold assemble, mbind, call_bind.
  rewrite (on_files_same _ _ _ (key_again _ _ _ _ _ _ (du_dir _ Hd) Hk)).
  rewrite (open_chain_again _ _ _ _ _ (du_dir _ Hd) Ho Hp Em).
  rewrite (load_circuit_again f st KTransfer m _ Hd (Hc KTransfer)), (load_circuit_again f st KEligibility m _ Hd (Hc KEligibility)),
    (load_circuit_again f st KMint m _ Hd (Hc KMint)), (load_circuit_again f st KStake m _ Hd (Hc KStake)),
    (load_circuit_again f st KUnstake m _ Hd (Hc KUnstake)).
  unfold lift. rewrite Eq, (on_files_same _ _ _ (identity_again _ _ _ _ _ (du_key _ Hd) Hi)), Eh, Ep.
  destruct (sc_keys sc) as [pk sk] eqn:Esk. unfold on_files. cbv beta. rewrite Ea. unfold node_of. by rewrite Esk.
Qed.

(** ** Joining the network *)

(** Ticks at least their interval apart. *)
Definition paced (w : Wait) : Prop :=
  ∀ path i, wt_start w + Z.of_nat i * addr_interval ≤ ad_now (wt_polls w path i).
Lemma join_files_returns fuel waits paths : (addr_rounds ≤ fuel)%nat → ∀ i,
  (∀ j, paced (waits j)) → is_Some (join_files fuel waits i paths).
Proof.
  intros Hf. induction paths as [|path paths IH]; intros i Hw; cbn; [done|].
  destruct (waitForAddrFile_returns fuel (wt_start (waits i)) (wt_polls (waits i) path)) as [r ->];
    [by apply Hw|done|]. by destruct (IH (S i) Hw) as [rest ->].
Qed.

Lemma main_Ok fuel f st m s m' : main fuel f st m = Some (Ok s, m') →
  assemble f st m = (Ok (sd_key s, sd_node s), m').
Proof.
  unfold main. destruct (assemble f st m) as [[[key n]|e] m1]; [|done].
  destruct (join_files _ _ _ _); [|done]. destruct (_ && _); [done|]. by intros [= <- <-].
Qed.
Lemma main_of_assemble fuel f st m key n m' : assemble f st m = (Ok (key, n), m') →
  (addr_rounds ≤ fuel)%nat → (∀ j, paced (sa_waits st j)) →
  (op_queryListen f = EmptyString ∨ sa_query st = true) →
  ∃ peers, main fuel f st m = Some (Ok {| sd_key := key; sd_node := n; sd_peers := peers |}, m').
Proof.
  intros E Hf Hw Hq. unfold main. rewrite E.
  destruct (join_files_returns fuel (sa_waits st) (flag_parts (op_bootstrapFile f)) Hf 0 Hw) as [found ->].
  replace (negb _ && negb _) with false; [eauto|]. destruct Hq as [-> | ->]; [done|]. by rewrite andb_false_r.
Qed.

Lemma node_of_starts f sc rows chn quorum attestors now :
  starts (node_of f sc rows chn quorum attestors now) rows NewMerkleTree chn.
Proof. constructor. Qed.
End restart.

(** * Properties *)

Module StartupSpec.
Import Startup.
Section spec.
Context `{SHA : Sha256, M3 : Mode3, ED : Ed25519, SG : Mode3Signer, BR : BigRat, FR : Fr, MM : MiMC,
  GR : !Groth16, CD : Codec}.

(** What a validator is to its peers and to the transactions it checks. *)
Definition same_validator (n n' : Node) : Prop :=
  n_identity n' = n_identity n ∧ n_pk n' = n_pk n ∧ n_sk n' = n_sk n ∧ n_cfg n' = n_cfg n ∧
  n_zkSys n' = n_zkSys n ∧ n_eligibilityZK n' = n_eligibilityZK n ∧ n_mintZK n' = n_mintZK n ∧
  n_stakeZK n' = n_stakeZK n ∧ n_unstakeZK n' = n_unstakeZK n ∧
  n_trustedPoHAttestors n' = n_trustedPoHAttestors n ∧ n_isSentinel n' = n_isSentinel n.

(** The machine a stopped process leaves: the store as the node kept it, and the files of the
    start with their contents. *)
Definition stopped (f : Options) (n : Node) (m1 m2 : Machine) : Prop :=
  mc_stores m2 !! op_dataDir f = Some (rows_of n, Chain.ch_store (n_chn n)) ∧
  ∀ x, boot_used f x = true → x ≠ FIdentityTmp → x ≠ FAnnounce → x ≠ FAnnounceTmp →
    mc_files m2 !! boot_path f x = mc_files m1 !! boot_path f x.

(** Nothing outside the process keeps it from starting. *)
Record can_start `{PR : !Groth16Prover} (f : Options) (st : Start) : Prop := {
  cs_open : sa_open st = true; cs_host : is_Some (sa_host st); cs_paced : ∀ j, paced (sa_waits st j);
  cs_query : op_queryListen f = EmptyString ∨ sa_query st = true }.
End spec.

Lemma node_of_same `{SHA : Sha256, M3 : Mode3, ED : Ed25519, SG : Mode3Signer, BR : BigRat, FR : Fr, MM : MiMC,
    GR : !Groth16, PR : !Groth16Prover} f sc rows chn q q' attestors now rows' chn' now' :
  same_validator (node_of f sc rows chn q attestors now) (node_of f sc rows' chn' q' attestors now').
Proof. unfold node_of, NewNode, same_validator. cbv zeta. by destruct (op_sentinel f). Qed.

(** C19: a restarted validator resumes. When a node was started with a data directory, a key
    file and parameter files of its own, and has run through any sequence of events, then
    every later start from the disk it left succeeds, whatever it would draw at random and
    however its own writes would end, and waits for its bootstrap files for a bounded time:
    it opens its store with the same key, is the same validator with the same keys and the
    same verifying keys for the five circuits, and continues the very chain and rows the
    node had reached; only the trees, the pool and the registry are new. *)
Theorem restart_resumes `{SHA : Sha256, M3 : Mode3, ED : Ed25519, SG : Mode3Signer, BR : BigRat, FR : Fr,
    MM : MiMC, GR : !Groth16, CD : Codec, PR : !Groth16Prover, GN : !Gnark, GL : !GnarkLaws}
    f st fuel m s m1 es m2 st2 :
  durable f → sane_draws st → main fuel f st m = Some (Ok s, m1) →
  let n := run_node (sd_node s) es in
  stopped f n m1 m2 → can_start f st2 →
  ∃ s2 m3, main addr_rounds f st2 m2 = Some (Ok s2, m3) ∧
    sd_key s2 = sd_key s ∧ same_validator (sd_node s) (sd_node s2) ∧
    starts (sd_node s2) (rows_of n) NewMerkleTree (n_chn n) ∧ mc_stores m3 = mc_stores m2.
Proof.
  intros Hd Hs E n [Em Hfs] Hcan. apply main_Ok in E.
  destruct (assemble_Ok _ _ _ _ _ _ Hd Hs E) as (sc & rows & chn & q & attestors & Ek & Hsc & Hp & En & Eq & Ep).
  assert (Hn : starts (sd_node s) rows NewMerkleTree chn) by (rewrite En; constructor).
  destruct (starts_ok _ _ _ _ Hn) as (Hok & El & _ & _).
  destruct (run_step es (sd_node s) Hok) as [_ [bs Hrun] _]. fold n in Hrun. rewrite El in Hrun.
  apply ledger_persisted in Hrun; [|done]. cbn in Hrun.
  destruct (oracle_quorum_again f st st2 q Eq) as [q2 Eq2].
  destruct (assemble_again f st2 sc (rows_of n) (n_chn n) q2 attestors m2) as (fs & E2 & _); [done| |done|done|by apply Hcan..|done|done|].
  { revert Hsc. apply secrets_kept_same. intros x H1 H2 H3 Hu. by apply Hfs. }
  destruct (main_of_assemble addr_rounds f st2 m2 _ _ _ E2) as [peers E3]; [done|by apply Hcan..|].
  eexists _, _. split; [exact E3|]. cbn [sd_key sd_node mc_stores].
  split; [done|]. split; [rewrite En; apply node_of_same|]. split; [constructor|done].
Qed.
End StartupSpec.

(** * A concrete start *)

Module StartupModel.
Export NodeModel ProverModel ParamsModel.
Import Startup.
(** Validator 1: the transfer and eligibility parameters in files, the other circuits skipped. *)
Definition flags : Options := {|
  op_bootstrap := EmptyString; op_dataDir := "data/"; op_sentinel := false;
  op_skipZK kind := match kind with KTransfer | KEligibility => false | _ => true end;
  op_zkParams kind := match kind with KTransfer => "zk" | _ => "eligibility" end;
  op_announceFile := "addr"; op_bootstrapFile := "peer"; op_keyFile := "id"; op_genesisMs := 0;
  op_disableOracle := true; op_oracleMaxDisagreement := "0.02"; op_queryListen := EmptyString;
  op_pohAttestorKeys := "07" |}.
Definition no_price : Oracle.Source := λ _, Err "offline".
Definition good_disk : Keystore.Disk := {| Keystore.dk_write := Keystore.Written; Keystore.dk_rename := true |}.
(** The file of the sibling is never there. *)
Definition waiting (_ : nat) : Wait :=
  {| wt_start := clock;
     wt_polls _ i := {| ad_file := None; ad_now := clock + Z.of_nat i * addr_interval; ad_cancelled := false |};
     wt_dial _ := true |}.
Definition first_start : Start := {|
  sa_stateKey := Some (replicate 32 9); sa_mkdir := true; sa_keyWrite := Keystore.Written; sa_open := true;
  sa_systems _ := Some sys; sa_creations _ := roomy; sa_coingecko := no_price; sa_coinbase := no_price;
  sa_identity := Some ([1], [1]); sa_identityDisk := good_disk; sa_host := Some ["/ip4/10.0.0.1/p2p/a"];
  sa_announceDisk := good_disk; sa_now := clock; sa_dial _ := true; sa_waits := waiting; sa_query := true |}.
(** A later start draws nothing and writes nothing, and hears from no host address. *)
Definition later_start : Start := first_start <| sa_stateKey := None |> <| sa_systems := λ _, None |>
  <| sa_identity := None |> <| sa_host := Some [] |>.
Definition new_machine : Machine := {| mc_files := ∅; mc_stores := ∅ |}.

Lemma flags_durable : durable flags.
Proof. split; [done..| |]; [by intros []|]. intros [|[]| | | |] [|[]| | | |]; vm_compute; congruence. Qed.
Lemma first_sane : sane_draws first_start.
Proof. split; [by intros k [= <-]|]. intros pk sk [= <- <-]. split; [done|discriminate]. Qed.
Lemma later_can_start : StartupSpec.can_start flags later_start.
Proof. split; [reflexivity|by exists []|intros j path i; apply Z.le_refl|left; reflexivity]. Qed.

Definition booted : Machine := (assemble flags first_start new_machine).2.
Lemma assemble_boot : assemble flags first_start new_machine = (Ok (replicate 32 9, boot 1), booted).
Proof. reflexivity. Qed.
End StartupModel.

Module StartupWitness.
Import Startup StartupSpec StartupModel AgreementWitness.

(** Validator 1 starts, takes part in a block, and is started again: at height 1. *)
Lemma restart_resumes_witness :
  let n := run_node (CD := wire [pay]) (boot 1) (life [pay]) in
  let left_behind := booted <| mc_stores := {["data/"%string := (rows_of n, Chain.ch_store (n_chn n))]} |> in
  ∃ s2 m3, main addr_rounds flags later_start left_behind = Some (Ok s2, m3) ∧
    sd_key s2 = replicate 32 9 ∧ n_identity (sd_node s2) = id_of 1 ∧
    Chain.headHeight (n_chn (sd_node s2)) = 1.
Proof.
  intros n left_behind.
  destruct (main_of_assemble addr_rounds flags first_start _ _ _ _ assemble_boot) as [peers E];
    [apply Nat.le_refl|intros j path i; apply Z.le_refl|left; reflexivity|].
  destruct (restart_resumes (CD := wire [pay]) flags first_start addr_rounds new_machine _ booted (life [pay]) left_behind
    later_start flags_durable first_sane E) as (s2 & m3 & E2 & Ek & Hv & Hn & _).
  - split; [apply lookup_insert_eq|]. intros x _ _ _ _. reflexivity.
  - exact later_can_start.
  - exists s2, m3. split; [exact E2|]. split; [exact Ek|]. destruct Hv as [Hi _]. split; [rewrite Hi; reflexivity|].
    apply starts_ok in Hn as (_ & _ & _ & ->). vm_compute. reflexivity.
Defined.
End StartupWitness.

(** * Findings *)

Module StartupFindings.
Import Startup.

(** The key of the store is written in place: a write that is cut short leaves a file of the
    wrong size, which every later start refuses and none replaces. *)
Theorem torn_state_key_sticks dir key part fs :
  dir ≠ EmptyString → fs !! state_key_path dir = None → length part ≠ Keystore.EncryptionKeySize →
  let fs' := (loadOrCreateStateKey dir (Some key) true (Keystore.WriteFailed (Some part)) fs).2 in
  ∀ drawn mkdir write,
    loadOrCreateStateKey dir drawn mkdir write fs' = (Err "state key file has the wrong size", fs').
Proof.
  intros Hd Hn Hl fs' drawn mkdir write.
  assert (E : fs' = <[state_key_path dir := part]> fs).
  { subst fs'. unfold loadOrCreateStateKey, mbind, call_bind, gets, id. rewrite bool_decide_false by done. by rewrite Hn. }
  rewrite E. unfold loadOrCreateStateKey, mbind, call_bind, gets, id. rewrite bool_decide_false by done.
  cbv beta iota. by rewrite lookup_insert_eq, bool_decide_false.
Qed.

(** A host has a new peer id at every start and its address file outlives it. A node that
    finds the file of an earlier run dials an address nobody answers at, does not look
    again, and starts without the peer, whatever the sibling announces a moment later. *)
Theorem stale_announcement_is_dialled fuel (waits : nat → Wait) path c s :
  ad_file (wt_polls (waits 0%nat) path 0) = Some (String c s) →
  wt_dial (waits 0%nat) (TrimSpace (String c s)) = false →
  join_files (S fuel) waits 0 [path] = Some [].
Proof. intros Ef Ed. unfold join_files, waitForAddrFile. cbn [addr_loop]. by rewrite Ef, Ed. Qed.
End StartupFindings.
