(* ===== verification/QueryServer.v ===== *)
(** pkg/query's server around its handlers (server.go, ratelimit.go): a token bucket for every
    remote address, the eviction of those that have gone quiet, and the chain of handlers a
    request passes. The bucket is golang.org/x/time/rate's and is a parameter. *)
From S2P Require Import Prelude Words Decimal Hashing Types Mempool Merkle Field ZkTree Circuit Groth NFT Silent Store Chain.
From S2P Require Import Prover Query Mirrors Memo Wallet.
Local Open Scope Z_scope.

(** [rate.NewLimiter] of a rate per second and a burst, and [Allow] at an instant. *)
Class TokenBucket := {
  Limiter : Type; NewLimiter : Z → Z → Limiter; Limiter_Allow : Limiter → Time → bool * Limiter }.

Section buckets.
Context `{TokenBucket}.

(** A bucket asked at the given instants: its answers, and what it is after them. *)
Fixpoint answers (l : Limiter) (ts : list Time) : list bool :=
  match ts with
  | [] => []
  | t :: ts => let '(ok, l) := Limiter_Allow l t in ok :: answers l ts
  end.
Definition after (l : Limiter) (ts : list Time) : Limiter := foldl (λ l t, (Limiter_Allow l t).2) l ts.

(** Instants from [t] on, in order. *)
Fixpoint ordered (t : Time) (ts : list Time) : Prop :=
  match ts with [] => True | u :: ts => t ≤ u ∧ ordered u ts end.
(** Two buckets that answer alike from [t] on. *)
Definition alike (t : Time) (l l' : Limiter) : Prop := ∀ ts, ordered t ts → answers l ts = answers l' ts.
Definition granted (bs : list bool) : Z := Z.of_nat (length (filter (λ b, b = true) bs)).
End buckets.

(** What the package documents, in exact arithmetic (its own counts tokens in float64, and
    rounds below a nanosecond): the bucket starts full and is refilled at its rate, so one
    that was left alone long enough is as good as new; and over a window it grants no more
    than the burst and what flows in. *)
Class TokenBucketLaws `{TokenBucket} : Prop := {
  refilled : ∀ limit burst t0 ts t, 0 < limit → 0 ≤ burst → (∀ u, u ∈ ts → u ≤ t0) →
    (∃ t1, ordered t1 ts) → t0 * limit + (burst + 1) * Second ≤ t * limit →
    alike t (after (NewLimiter limit burst) ts) (NewLimiter limit burst);
  window : ∀ limit burst t ts, 0 < limit → 0 ≤ burst → ordered t ts →
    granted (answers (NewLimiter limit burst) ts) * Second ≤ burst * Second + limit * (List.last ts t - t) }.

Module QueryServer.
Import Query.
Section server.
Context `{TB : TokenBucket}.

(** * ratelimit.go *)

Definition defaultRateLimit : Z := 10.
Definition defaultBurst : Z := 20.
Definition idleEntryTTL : Duration := 10 * Minute.

Record limiterEntry := { le_limiter : Limiter; le_lastSeen : Time }.
Record ipRateLimiter := { rl_entries : gmap string limiterEntry; rl_limit : Z; rl_burst : Z }.
Definition newIPRateLimiter (requestsPerSecond burst : Z) : ipRateLimiter :=
  {| rl_entries := ∅; rl_limit := requestsPerSecond; rl_burst := burst |}.

(** The part of [allow] that holds the mutex: the address's entry, made when it is new, is
    seen now. *)
Definition seen_entry (rl : ipRateLimiter) (ip : string) (now : Time) : limiterEntry :=
  match rl_entries rl !! ip with
  | Some e => e <| le_lastSeen := now |>
  | None => {| le_limiter := NewLimiter (rl_limit rl) (rl_burst rl); le_lastSeen := now |}
  end.
(** The bucket is asked after the mutex is released, under a lock of its own and at an
    instant it reads itself: an instant of the model is that of the bucket, and the entry is
    taken to be seen then too. What can come in between is another request, which leaves this
    address's bucket alone or is ordered against it by the bucket's lock, and a sweep, which
    spares an entry just seen. *)
Definition allow (rl : ipRateLimiter) (ip : string) (now : Time) : bool * ipRateLimiter :=
  let e := seen_entry rl ip now in
  let '(ok, l) := Limiter_Allow (le_limiter e) now in
  (ok, rl <| rl_entries ::= <[ip := e <| le_limiter := l |>]> |>).

(** One tick of [cleanupLoop]. *)
Definition cleanup (rl : ipRateLimiter) (now : Time) : ipRateLimiter :=
  rl <| rl_entries ::= filter (λ p : string * limiterEntry, ¬ idleEntryTTL < time_sub now (le_lastSeen p.2)) |>.

Definition StatusTooManyRequests : Z := 429.
Definition middleware (next : Response) (ip : string) (now : Time) (rl : ipRateLimiter) : Response * ipRateLimiter :=
  let '(ok, rl) := allow rl ip now in
  if ok then (next, rl) else (writeError StatusTooManyRequests "rate limit exceeded", rl).

(** * server.go *)

(** A request of one of the served paths, by its method. The router serves GET only (and HEAD
    as GET, where net/http leaves the body out). *)
Inductive Method := MGet (r : Request) | MOptions | MOther.
Definition StatusNoContent : Z := 204.
Definition StatusMethodNotAllowed : Z := 405.
Definition mux (s : Server) (m : Method) : Response :=
  match m with
  | MGet r => serve s r
  | _ => writeError StatusMethodNotAllowed "Method Not Allowed"
  end.
Definition corsMiddleware (m : Method) (next : ipRateLimiter → Response * ipRateLimiter) (rl : ipRateLimiter)
    : Response * ipRateLimiter :=
  match m with
  | MOptions => ({| r_code := StatusNoContent; r_body := BError EmptyString |}, rl)
  | _ => next rl
  end.
(** The handler [NewServer] builds, over what the node holds at the time. *)
Definition handle (s : Server) (m : Method) (ip : string) (now : Time) (rl : ipRateLimiter)
    : Response * ipRateLimiter :=
  corsMiddleware m (middleware (mux s m) ip now) rl.

(** A running server: requests, and the ticks of the cleanup. *)
Inductive Event := Ask (ip : string) (m : Method) (s : Server) (now : Time) | Tick (now : Time).
Definition event_time (e : Event) : Time := match e with Ask _ _ _ now | Tick now => now end.
Fixpoint run (rl : ipRateLimiter) (es : list Event) : list (string * Response) :=
  match es with
  | [] => []
  | Ask ip m s now :: es => let '(resp, rl) := handle s m ip now rl in (ip, resp) :: run rl es
  | Tick now :: es => run (cleanup rl now) es
  end.
Definition serving (es : list Event) : list (string * Response) :=
  run (newIPRateLimiter defaultRateLimit defaultBurst) es.

(** * What an address is promised *)

(** Its requests against a bucket of its own that is never dropped. *)
Fixpoint private (l : Limiter) (ip : string) (es : list Event) : list Response :=
  match es with
  | [] => []
  | Ask ip' m s now :: es =>
      if bool_decide (ip' = ip) then
        match m with
        | MOptions => {| r_code := StatusNoContent; r_body := BError EmptyString |} :: private l ip es
        | _ =>
            let '(ok, l) := Limiter_Allow l now in
            (if ok then mux s m else writeError StatusTooManyRequests "rate limit exceeded") :: private l ip es
        end
      else private l ip es
  | Tick _ :: es => private l ip es
  end.
Definition responses_to (ip : string) (rs : list (string * Response)) : list Response :=
  snd <$> filter (λ p, p.1 = ip) rs.
End server.
End QueryServer.

(** * Lemmas *)

Section lemmas.
Context `{TB : TokenBucket, TL : !TokenBucketLaws}.
Import QueryServer.
Implicit Types (l : Limiter) (rl : ipRateLimiter) (t : Time).

Lemma ordered_le t u ts : t ≤ u → ordered u ts → ordered t ts.
Proof. destruct ts; cbn; [done|]. intros ? []. split; [lia|done]. Qed.

#[global] Instance alike_equivalence t : Equivalence (alike t).
Proof.
  split; [by intros l ts|intros l l' Ha ts Ht; symmetry; by apply Ha|].
  intros l1 l2 l3 H1 H2 ts Ht. by rewrite H1, H2.
Qed.
Lemma alike_later t u l l' : t ≤ u → alike t l l' → alike u l l'.
Proof. intros Hle Ha ts Ht. apply Ha. by eapply ordered_le. Qed.

(** Buckets that answer alike do so after being asked. *)
Lemma alike_Allow t u l l' : alike t l l' → t ≤ u →
  (Limiter_Allow l u).1 = (Limiter_Allow l' u).1 ∧ alike u (Limiter_Allow l u).2 (Limiter_Allow l' u).2.
Proof.
  intros Ha Hu.
  assert (Hc : ∀ ts, ordered u ts → answers l (u :: ts) = answers l' (u :: ts)) by (intros ts Ht; by apply Ha).
  cbn in Hc. destruct (Limiter_Allow l u) as [b k], (Limiter_Allow l' u) as [b' k']. cbn. split.
  - specialize (Hc [] I). cbn in Hc. congruence.
  - intros ts Ht. specialize (Hc ts Ht). congruence.
Qed.

Lemma after_snoc l ts t : after l (ts ++ [t]) = (Limiter_Allow (after l ts) t).2.
Proof. unfold after. by rewrite foldl_app. Qed.
Lemma ordered_snoc t1 ts t : ordered t1 ts → (∀ u, u ∈ ts → u ≤ t) → t1 ≤ t → ordered t1 (ts ++ [t]).
Proof.
  revert t1. induction ts as [|u ts IH]; intros t1; cbn; [done|]. intros [H1 H2] Hle _. split; [done|].
  apply IH; [done|intros v Hv; apply Hle; by right|apply Hle; by left].
Qed.

(** An entry of the table is a new bucket after some requests, the last at [le_lastSeen]. *)
Definition entry_ok (limit burst : Z) (e : limiterEntry) : Prop :=
  ∃ ts t1, le_limiter e = after (NewLimiter limit burst) ts ∧ ordered t1 ts ∧ t1 ≤ le_lastSeen e ∧
    ∀ u, u ∈ ts → u ≤ le_lastSeen e.
(** What the table holds for an address answers, from [t] on, as its private bucket. *)
Definition stands_for (t : Time) rl (ip : string) (l : Limiter) : Prop :=
  match rl_entries rl !! ip with
  | None => alike t (NewLimiter (rl_limit rl) (rl_burst rl)) l
  | Some e => alike t (le_limiter e) l ∧ le_lastSeen e ≤ t ∧ entry_ok (rl_limit rl) (rl_burst rl) e
  end.

Lemma stands_for_later t u rl ip l : t ≤ u → stands_for t rl ip l → stands_for u rl ip l.
Proof.
  unfold stands_for. intros Hle. destruct (rl_entries rl !! ip) as [e|]; [|by apply alike_later].
  intros (Ha & Hs & He). split_and!; [by eapply alike_later|lia|done].
Qed.

Lemma allow_stands t u rl ip l : stands_for t rl ip l → t ≤ u →
  (allow rl ip u).1 = (Limiter_Allow l u).1 ∧ stands_for u (allow rl ip u).2 ip (Limiter_Allow l u).2.
Proof.
  unfold stands_for, allow, seen_entry. intros Hs Hu.
  set (k := match rl_entries rl !! ip with Some e => le_limiter e | None => NewLimiter (rl_limit rl) (rl_burst rl) end).
  assert (Hk : alike t k l ∧ ∃ ts t1, k = after (NewLimiter (rl_limit rl) (rl_burst rl)) ts ∧ ordered t1 ts ∧ t1 ≤ u ∧
    ∀ v, v ∈ ts → v ≤ u).
  { subst k. destruct (rl_entries rl !! ip) as [e|].
    - destruct Hs as (Ha & Hl & ts & t1 & E & Ho & H1 & Hle). split; [done|]. exists ts, t1. split_and!; [done..|lia|].
      intros v Hv. specialize (Hle v Hv). lia.
    - split; [done|]. exists [], u. split_and!; [done..|]. by intros v Hv%elem_of_nil. }
  destruct Hk as (Ha & ts & t1 & E & Ho & H1 & Hle). destruct (alike_Allow _ _ _ _ Ha Hu) as [Eb Hk].
  match goal with |- context [Limiter_Allow (le_limiter ?x) u] => set (en := x) end.
  assert (Een : le_limiter en = k ∧ le_lastSeen en = u) by (subst k en; by destruct (rl_entries rl !! ip)).
  clearbody en. destruct en as [k0 u0]. cbn in Een. destruct Een as [-> ->]. cbn [le_limiter].
  destruct (Limiter_Allow k u) as [b k'] eqn:Ek. cbn in *. split; [done|]. rewrite lookup_insert_eq. cbn.
  split_and!; [done|done|]. exists (ts ++ [u]), t1. split_and!; cbn.
  - by rewrite after_snoc, <-E, Ek.
  - by apply ordered_snoc.
  - done.
  - intros v [Hv| ->%list_elem_of_singleton]%elem_of_app; [by apply Hle|lia].
Qed.
Lemma allow_other t rl ip ip' u l : ip' ≠ ip → stands_for t rl ip l → stands_for t (allow rl ip' u).2 ip l.
Proof.
  intros Hne. unfold stands_for, allow. destruct (Limiter_Allow _ u) as [b k]. cbn. by rewrite lookup_insert_ne.
Qed.

(** Dropping a quiet entry cannot be noticed. *)
Lemma cleanup_stands t u rl ip l : 0 < rl_limit rl → 0 ≤ rl_burst rl →
  (rl_burst rl + 1) * Second ≤ idleEntryTTL * rl_limit rl →
  stands_for t rl ip l → t ≤ u → stands_for u (cleanup rl u) ip l.
Proof.
  intros Hl Hb Httl Hs Hu. apply (stands_for_later t u) in Hs; [|done]. unfold stands_for, cleanup in *. cbn.
  destruct (rl_entries rl !! ip) as [e|] eqn:Ee.
  - destruct (decide (idleEntryTTL < time_sub u (le_lastSeen e))) as [Hidle|Hidle].
    + rewrite map_lookup_filter_None_2; [|right; intros e' He'; rewrite Ee in He'; injection He' as <-; by intros []].
      destruct Hs as (Ha & _ & ts & t1 & E & Ho & _ & Hle). rewrite <-Ha, E. symmetry.
      apply (refilled _ _ (le_lastSeen e)); [done..|by exists t1|].
      unfold time_sub, MinInt64, MaxInt64, idleEntryTTL, Minute, Second in *. nia.
    + by rewrite (map_lookup_filter_Some_2 _ _ _ _ Ee Hidle).
  - rewrite map_lookup_filter_None_2; [done|]. by left.
Qed.
End lemmas.

Section isolation.
Context `{TB : TokenBucket, TL : !TokenBucketLaws}.
Import Query QueryServer.
#[local] Arguments responses_to : simpl never.

Lemma allow_cfg rl ip u : rl_limit (allow rl ip u).2 = rl_limit rl ∧ rl_burst (allow rl ip u).2 = rl_burst rl.
Proof. unfold allow. by destruct (Limiter_Allow _ _). Qed.

Lemma responses_cons ip ip' resp rs : responses_to ip ((ip', resp) :: rs) =
  if bool_decide (ip' = ip) then resp :: responses_to ip rs else responses_to ip rs.
Proof. unfold responses_to. rewrite filter_cons. cbn. case_bool_decide; by case_decide. Qed.

Lemma run_private ip es : ∀ t rl l, 0 < rl_limit rl → 0 ≤ rl_burst rl →
  (rl_burst rl + 1) * Second ≤ idleEntryTTL * rl_limit rl →
  stands_for t rl ip l → ordered t (event_time <$> es) →
  responses_to ip (run rl es) = private l ip es.
Proof.
  induction es as [|[ip' m s now|now] es IH]; intros t rl l Hl Hb Httl Hs; [done| |]; cbn; intros [Hle Ho].
  - destruct m as [r| |]; cbn.
    2: { rewrite responses_cons. case_bool_decide; [f_equal|];
         (eapply IH; [done|done|done|by eapply stands_for_later|exact Ho]). }
    all: unfold middleware; destruct (allow_cfg rl ip' now) as [El Eb].
    all: destruct (decide (ip' = ip)) as [->|Hne];
      [rewrite bool_decide_true by done; destruct (allow_stands _ _ _ _ _ Hs Hle) as [Ev Hs']
      |rewrite bool_decide_false by done; assert (Hs' := allow_other _ _ _ _ now _ Hne Hs);
       apply (stands_for_later t now) in Hs'; [|done]].
    all: destruct (allow _ _ now) as [b rl']; cbn [fst snd] in *; try (destruct (Limiter_Allow l now) as [b' l']; cbn in Ev; subst b');
      destruct b; rewrite responses_cons, ?bool_decide_true, ?bool_decide_false by done; try f_equal;
      eapply IH; [..|exact Ho]; rewrite ?El, ?Eb; done.
  - eapply IH; [done..| |exact Ho]. by eapply cleanup_stands.
Qed.

Lemma serving_private ip es t : ordered t (event_time <$> es) →
  responses_to ip (serving es) = private (NewLimiter defaultRateLimit defaultBurst) ip es.
Proof.
  intros Ho. unfold serving. eapply run_private; [by vm_compute..| |exact Ho]. unfold stands_for; cbn; rewrite lookup_empty; reflexivity.
Qed.

(** The instants an address's requests reach its bucket at, and those that were served. *)
Fixpoint asks (ip : string) (es : list Event) : list Time :=
  match es with
  | [] => []
  | Ask ip' (MGet _ | MOther) _ now :: es => if bool_decide (ip' = ip) then now :: asks ip es else asks ip es
  | _ :: es => asks ip es
  end.
Definition served (resp : Response) : Prop :=
  r_code resp ≠ StatusTooManyRequests ∧ r_code resp ≠ StatusNoContent.
#[global] Instance served_dec resp : Decision (served resp).
Proof. unfold served. apply _. Defined.

Lemma mux_served s m : served (mux s m).
Proof.
  destruct m as [r| |]; [|done..]. unfold served, mux, serve, handleStatus, handleBlock, handleTx, handleNullifier, handleNote, handleNFT,
    handleHold, handleProposal, handleProposals, writeError, writeJSON.
  destruct r; repeat case_match; done.
Qed.
Lemma private_served ip es : ∀ l,
  Z.of_nat (length (filter served (private l ip es))) = granted (answers l (asks ip es)).
Proof.
  unfold granted. induction es as [|[ip' m s now|now] es IH]; intros l; [done| |by apply IH]. cbn [private asks].
  destruct m as [r| |]; case_bool_decide; cbn [answers]; try apply IH.
  all: destruct (Limiter_Allow l now) as [[] l'];
    [rewrite !filter_cons_True by (done || apply mux_served); cbn [length]; by rewrite !Nat2Z.inj_succ, IH
    |rewrite !filter_cons_False by (done || (intros [Hn _]; by apply Hn)); apply IH].
Qed.
Lemma asks_ordered ip es t : ordered t (event_time <$> es) → ordered t (asks ip es).
Proof.
  revert t. induction es as [|[ip' m s now|now] es IH]; intros t; [done| |]; cbn; intros [Hle Ho].
  - destruct m; [case_bool_decide|..|case_bool_decide]; cbn;
      first [split; [done|by apply IH]|eapply ordered_le; [done|by apply IH]].
  - eapply ordered_le; [done|by apply IH].
Qed.
End isolation.

(** * Properties *)

Module QueryServerSpec.
Import QueryServer.

(** C21: every address has a bucket of its own. Over any sequence of requests of any addresses
    and of cleanups, an address gets exactly the answers it would get from a server only it
    talks to, that never forgets anybody: neither other addresses nor the eviction of quiet
    ones can be noticed. And of its requests since any instant before the first, no more are
    served than the burst and ten for each second up to its last one. *)
Theorem addresses_are_isolated `{TB : TokenBucket, TL : !TokenBucketLaws} es ip t :
  ordered t (event_time <$> es) →
  let own := private (NewLimiter defaultRateLimit defaultBurst) ip es in
  responses_to ip (serving es) = own ∧
  Z.of_nat (length (filter served own)) * Second
    ≤ defaultBurst * Second + defaultRateLimit * (List.last (asks ip es) t - t).
Proof.
  intros Ho own. split; [by eapply serving_private|].
  subst own. rewrite private_served. apply window; [done..|by apply asks_ordered].
Qed.
End QueryServerSpec.

(** * A concrete bucket *)

Module QueryServerModel.
(** Its content is counted in tokens and nanoseconds; a bucket not asked yet is full. *)
Record bucket := { bk_limit : Z; bk_burst : Z; bk_fill : Z; bk_last : option Time }.
Definition filled (b : bucket) (t : Time) : Z :=
  match bk_last b with
  | None => bk_burst b * Second
  | Some u => Z.min (bk_burst b * Second) (bk_fill b + bk_limit b * (t - u))
  end.
Definition take_one (b : bucket) (t : Time) : bool * bucket :=
  let fill := filled b t in
  let ok := Second <=? fill in
  (ok, {| bk_limit := bk_limit b; bk_burst := bk_burst b; bk_fill := if ok then fill - Second else fill;
          bk_last := Some t |}).
#[export] Instance token_bucket : TokenBucket := {
  Limiter := bucket; Limiter_Allow := take_one;
  NewLimiter limit burst := {| bk_limit := limit; bk_burst := burst; bk_fill := 0; bk_last := None |} }.

(** What asking keeps, for instants up to [t0]. *)
Definition asked (limit burst t0 : Z) (b : bucket) : Prop :=
  bk_limit b = limit ∧ bk_burst b = burst ∧ (∀ u, bk_last b = Some u → u ≤ t0 ∧ 0 ≤ bk_fill b).
Lemma asked_after limit burst t0 ts : 0 < limit → 0 ≤ burst → ∀ t1 b, ordered t1 ts →
  (∀ u, bk_last b = Some u → u ≤ t1) → (∀ u, u ∈ ts → u ≤ t0) →
  asked limit burst t0 b → asked limit burst t0 (after b ts).
Proof.
  intros Hl Hb. induction ts as [|t ts IH]; intros t1 b Ho H1 Hle Hasked; [done|]. cbn in Ho. destruct Ho as [Ht Ho].
  unfold after. cbn [foldl]. apply (IH t); [done|by intros u [= <-]|intros u Hu; apply Hle; by right|].
  destruct Hasked as (El & Eb & Hlast). split; [done|]. split; [done|]. intros u [= <-].
  split; [apply Hle; by left|].
  change (0 ≤ if Second <=? filled b t then filled b t - Second else filled b t).
  assert (0 ≤ filled b t).
  { unfold filled. destruct (bk_last b) as [v|] eqn:Ev; [|unfold Second; lia].
    destruct (Hlast v eq_refl). specialize (H1 v eq_refl). unfold Second. nia. }
  destruct (Second <=? filled b t) eqn:E; [apply Z.leb_le in E|]; lia.
Qed.
Lemma granted_cons (ok : bool) l : granted (ok :: l) = (if ok then 1 else 0) + granted l.
Proof. unfold granted. rewrite filter_cons. destruct ok; cbn [decide]; case_decide; try done; cbn [length]; lia. Qed.

Lemma last_from (ts : list Time) : ∀ u t, List.last (u :: ts) t = List.last ts u.
Proof.
  induction ts as [|v ts IH]; intros u t; [done|]. change (List.last (v :: ts) t = List.last (v :: ts) u). by rewrite !IH.
Qed.
Lemma window_from ts : ∀ t b, bk_last b = Some t → 0 ≤ bk_fill b → 0 < bk_limit b → 0 ≤ bk_burst b → ordered t ts →
  granted (answers b ts) * Second ≤ bk_fill b + bk_limit b * (List.last ts t - t).
Proof.
  induction ts as [|u ts IH]; intros t b Eb Hf Hl Hb Ho; cbn [answers].
  { unfold granted. cbn. lia. }
  destruct Ho as [Hle Ho]. cbn [Limiter_Allow token_bucket]. unfold take_one. rewrite granted_cons.
  assert (Hfill : 0 ≤ filled b u ≤ bk_fill b + bk_limit b * (u - t)).
  { unfold filled. rewrite Eb. split; [apply Z.min_glb; [unfold Second; lia|nia]|lia]. }
  rewrite last_from. match goal with |- context [answers ?b' ts] => specialize (IH u b' eq_refl) end. cbn in IH.
  destruct (Second <=? filled b u) eqn:E; [apply Z.leb_le in E|]; specialize (IH ltac:(lia) Hl Hb Ho); lia.
Qed.

#[export] Instance token_bucket_laws : TokenBucketLaws.
Proof.
  split.
  - intros limit burst t0 ts t Hl Hb Hle [t1 Ho] Hidle us Hus. destruct us as [|u us]; [done|]. destruct Hus as [Hu Hus].
    destruct (asked_after limit burst t0 ts Hl Hb t1 (@NewLimiter token_bucket limit burst) Ho ltac:(done) Hle) as (El & Eb & Hlast);
      [by split_and!|].
    set (b := after (@NewLimiter token_bucket limit burst) ts) in *.
    assert (Ef : filled b u = filled (@NewLimiter token_bucket limit burst) u).
    { unfold filled at 1. destruct (bk_last b) as [v|] eqn:Ev; [|by rewrite Eb].
      destruct (Hlast v eq_refl). rewrite El, Eb. cbn. unfold Second in *. nia. }
    cbn [answers Limiter_Allow token_bucket]. unfold take_one. by rewrite Ef, El, Eb.
  - intros limit burst t ts Hl Hb Ho. destruct ts as [|u us]; [unfold granted; cbn; unfold Second; lia|].
    destruct Ho as [Hu Ho]. cbn [answers Limiter_Allow token_bucket NewLimiter]. unfold take_one, filled. cbn [bk_last bk_burst bk_limit].
    rewrite granted_cons.
    rewrite last_from. match goal with |- context [answers ?b us] => assert (IH := window_from us u b eq_refl) end. cbn in IH.
    destruct (Second <=? burst * Second) eqn:E; [apply Z.leb_le in E|]; specialize (IH ltac:(unfold Second in *; lia) Hl Hb Ho); nia.
Qed.
End QueryServerModel.

Module QueryServerWitness.
Import Query QueryServer QueryServerModel QueryServerSpec.

Definition server : Server :=
  {| s_store := Rows.empty; s_notes := ∅; s_mempool := Mempool.NewMempool; s_genesis := 0;
     s_chn := {| Chain.ch_store := ChainRows.empty; Chain.headHeight := 0; Chain.headHash := [] |} |}.
(** Twenty-five requests of one address at an instant, one of another, and the first again
    once the cleanup has dropped it. *)
Definition visits : list Event :=
  replicate 25 (Ask "a" (MGet GetProposals) server 0) ++
  [Ask "b" (MGet GetProposals) server 0; Tick (11 * Minute); Ask "a" (MGet GetProposals) server (11 * Minute)].
Lemma addresses_are_isolated_witness :
  r_code <$> responses_to "a" (serving visits) = replicate 20 200 ++ replicate 5 429 ++ [200] ∧
  r_code <$> responses_to "b" (serving visits) = [200].
Proof.
  assert (Ho : ordered 0 (event_time <$> visits)) by (vm_compute; intuition discriminate).
  destruct (addresses_are_isolated visits "a" 0 Ho) as [-> _], (addresses_are_isolated visits "b" 0 Ho) as [-> _].
  split; vm_compute; reflexivity.
Defined.
End QueryServerWitness.

(** * Findings *)

Module QueryServerFindings.
Import Query QueryServer.
Section sync.
Context `{TB : TokenBucket, TL : !TokenBucketLaws, SHA : Sha256, SG : Mode3Signer, FR : Fr, MM : MiMC, MF : !MimcField,
  GR : !Groth16, PR : !Groth16Prover, XX : X25519, HK : Hkdf, AE : Aead}.

(** The requests of a wallet's first sync with a chain of this height, and a session of them
    from one address. *)
Definition sync_requests (height : Z) : list Request :=
  GetStatus :: ((λ h, GetBlocks (format_uint h)) <$> heights_from 0 height).
Definition session (ip : string) (s : Server) (rs : list Request) (ts : list Time) : list Event :=
  zip_with (λ r t, Ask ip (MGet r) s t) rs ts.

Lemma session_times ip s rs : ∀ ts, length rs = length ts → event_time <$> session ip s rs ts = ts.
Proof. unfold session. induction rs as [|r rs IH]; intros [|t ts] E; try done. cbn. f_equal. apply IH. by injection E. Qed.
Lemma session_private ip s rs : ∀ l ts, length rs = length ts →
  private l ip (session ip s rs ts) =
  zip_with (λ r ok, if ok : bool then serve s r else writeError StatusTooManyRequests "rate limit exceeded") rs (answers l ts).
Proof.
  unfold session. induction rs as [|r rs IH]; intros l [|t ts] E; try done. cbn. rewrite bool_decide_true by done.
  destruct (Limiter_Allow l t) as [ok l']. cbn. f_equal. apply IH. by injection E.
Qed.

Lemma some_refused bs : granted bs < Z.of_nat (length bs) → ∃ i, bs !! i = Some false.
Proof.
  unfold granted. induction bs as [|[] bs IH]; [cbn; lia| |by exists 0%nat].
  rewrite filter_cons_True by done. cbn [length]. intros Hlt. destruct IH as [i Hi]; [lia|]. by exists (S i).
Qed.
Lemma length_answers l ts : length (answers l ts) = length ts.
Proof. revert l. induction ts as [|t ts IH]; intros l; [done|]. cbn. destruct (Limiter_Allow l t). cbn. by rewrite IH. Qed.

Lemma sync_loop_refused (tr : QueryClient.Transport) hs : ∀ w, (∃ h e, h ∈ hs ∧ Shielded.fetchBlock tr h = Err e) →
  is_ok (Shielded.sync_loop tr hs w).1 = false.
Proof.
  induction hs as [|h' hs IH]; intros w (h & e & Hin & He); [by apply elem_of_nil in Hin|]. cbn [Shielded.sync_loop].
  destruct (Shielded.fetchBlock tr h') eqn:E'; [|done]. apply IH. exists h, e. split; [|done].
  apply elem_of_cons in Hin as [->|Hin]; [congruence|done].
Qed.

(** The wallet asks for a block at a time and gives up at the first refusal, and a refusal by
    the limiter is one. A first sync that takes less than a tenth of a second for each block
    beyond the twentieth fails, with any server that limits as this one does. Every command
    of cmd/wallet that needs a wallet starts with a first sync. *)
Theorem sync_outruns_the_limiter ip s ts t0 tr w :
  let rs := sync_requests (Chain.headHeight (s_chn s)) in
  0 ≤ Chain.headHeight (s_chn s) → Shielded.w_synced w = false → Shielded.w_syncedHeight w = 0 →
  length ts = length rs → ordered t0 ts →
  defaultBurst * Second + defaultRateLimit * (List.last ts t0 - t0) < Z.of_nat (length ts) * Second →
  (∀ i r resp, rs !! i = Some r → responses_to ip (serving (session ip s rs ts)) !! i = Some resp → tr r = Ok resp) →
  is_ok (Shielded.Sync tr w).1 = false.
Proof.
  intros rs Hh Hs H0 Hlen Ho Hfast Htr.
  rewrite (serving_private ip _ t0), session_private in Htr by (rewrite ?session_times; done).
  set (bs := answers (NewLimiter defaultRateLimit defaultBurst) ts) in *.
  destruct (some_refused bs) as [i Hi].
  { assert (W := window defaultRateLimit defaultBurst t0 ts ltac:(done) ltac:(done) Ho). fold bs in W.
    unfold bs. rewrite length_answers. fold bs. unfold Second in *. lia. }
  assert (Hlt := lookup_lt_Some _ _ _ Hi). unfold bs in Hlt. rewrite length_answers, Hlen in Hlt.
  apply lookup_lt_is_Some in Hlt as [r Hr].
  assert (Hresp : tr r = Ok (writeError StatusTooManyRequests "rate limit exceeded")).
  { apply (Htr i); [done|]. rewrite lookup_zip_with, Hr. cbn. by rewrite Hi. }
  unfold Shielded.Sync. destruct i as [|i].
  - injection Hr as <-. unfold Shielded.fetchStatus. by rewrite Hresp.
  - assert (Hhd : tr GetStatus = Ok (serve s GetStatus) ∨ is_ok (Shielded.fetchStatus tr) = false).
    { destruct (bs !! 0%nat) as [[]|] eqn:E0.
      - left. apply (Htr 0%nat); [done|]. rewrite lookup_zip_with. cbn. by rewrite E0.
      - right. unfold Shielded.fetchStatus. rewrite (Htr 0%nat GetStatus (writeError StatusTooManyRequests "rate limit exceeded")); [done..|].
        rewrite lookup_zip_with. cbn. by rewrite E0.
      - apply lookup_lt_Some in Hi. apply lookup_ge_None in E0. lia. }
    destruct Hhd as [Hst|Hst]; [|by destruct (Shielded.fetchStatus tr)].
    unfold Shielded.fetchStatus. rewrite Hst. cbn [mbind result_bind serve handleStatus]. cbn.
    unfold mbind, call_bind, gets, id. rewrite Hs, H0. apply sync_loop_refused. 
    change (((λ h, GetBlocks (format_uint h)) <$> heights_from 0 (Chain.headHeight (s_chn s))) !! i = Some r) in Hr.
    rewrite list_lookup_fmap in Hr.
    destruct (heights_from 0 _ !! i) as [h|] eqn:Eh; [|done]. injection Hr as <-. exists h. eexists.
    split; [by eapply list_elem_of_lookup_2|]. unfold Shielded.fetchBlock. by rewrite Hresp.
Qed.
End sync.
End QueryServerFindings.
