(* ===== verification/Feeds.v ===== *)
(** pkg/oracle's two price feeds (coingecko.go, coinbase.go): what they ask the public services,
    how they read the answers, and the average true range they compute, in float64 as the
    code does. HTTP, encoding/json and strconv's formatting are parameters. *)
From S2P Require Import Prelude Words Decimal Hashing Types Outage Governance Bank Net.
From Stdlib Require Import SpecFloat DecimalString DecimalZ DecimalPos.
Local Open Scope Z_scope.

(** A float64 number. *)
Abbreviation Float := spec_float.

(** [strconv.FormatFloat] in the format 'f' with as many digits as needed; and what
    [decimal.FromString] makes of it: a finite number is read, with its sign, infinities and
    NaN are not. *)
Class FormatFloat := format_float : Float → string.
Definition is_finite (f : Float) : bool :=
  match f with S754_zero _ | S754_finite _ _ _ => true | _ => false end.
Definition is_negative (f : Float) : bool :=
  match f with S754_zero s | S754_infinity s | S754_finite s _ _ => s | S754_nan => false end.
Class FormatFloatLaws `{BigRat, FormatFloat} : Prop := {
  format_finite : ∀ f, is_finite f = true →
    ∃ d, FromString (format_float f) = Ok d ∧ (is_negative f = false → (0 <= d)%Qc);
  format_special : ∀ f, is_finite f = false → is_ok (FromString (format_float f)) = false }.

(** encoding/json on the three shapes the services answer with. *)
Class FeedJson := {
  unmarshal_prices : bytes → result (gmap string (gmap string Float));
  unmarshal_rates : bytes → result (gmap string string);
  unmarshal_rows : bytes → result (list (list Float)) }.

(** The paths that are asked for, with their query values. *)
Inductive Endpoint :=
| SimplePrice (ids : string) | Ohlc (coinID : string) (days : Z)
| ExchangeRates (currency : string) | Candles (productID : string) (granularity : Z).

Module Feeds.
Section feeds.
Context `{BR : BigRat, FF : FormatFloat, FJ : FeedJson}.

(** What a service answers: a status and a body, unless the request fails. *)
Abbreviation Service := (Endpoint → result (Z * bytes)).

(** [readAllLimited]: what is beyond a megabyte is cut off. *)
Definition readAllLimited (body : bytes) : bytes := take (Z.to_nat (2 ^ 20)) body.
Definition get (web : Service) (e : Endpoint) : result bytes :=
  match web e with
  | Err _ => Err "request failed"
  | Ok (status, body) => if negb (status =? 200) then Err "unexpected status" else Ok (readAllLimited body)
  end.

Definition floatToDecimal (f : Float) : result Decimal := FromString (format_float f).

(** ** The average true range *)

Record ohlcCandle := { c_TimestampMS : Float; c_Open : Float; c_High : Float; c_Low : Float; c_Close : Float }.

(** [math.Abs] and [math.Max], with the special cases of the latter. *)
Definition math_Abs (x : Float) : Float := SFabs x.
Definition math_Max (x y : Float) : Float :=
  match x, y with
  | S754_infinity false, _ | _, S754_infinity false => S754_infinity false
  | S754_nan, _ | _, S754_nan => S754_nan
  | S754_zero s, S754_zero _ => if s then y else x
  | _, _ => if SFltb y x then x else y
  end.

(** [sort.Slice]: the order of equal timestamps is not specified; here they stay as they are. *)
Definition not_after (x y : ohlcCandle) : Prop := SFltb (c_TimestampMS y) (c_TimestampMS x) = false.
#[global] Instance not_after_dec : RelDecision not_after := λ x y, bool_eq_dec _ _.
Definition sorted_candles (candles : list ohlcCandle) : list ohlcCandle := merge_sort not_after candles.

Definition trueRange (prev c : ohlcCandle) : Float :=
  math_Max (float64_sub (c_High c) (c_Low c))
    (math_Max (math_Abs (float64_sub (c_High c) (c_Close prev))) (math_Abs (float64_sub (c_Low c) (c_Close prev)))).
Fixpoint trueRanges (prev : ohlcCandle) (candles : list ohlcCandle) : result (list Decimal) :=
  match candles with
  | [] => Ok []
  | c :: candles =>
      d ← floatToDecimal (trueRange prev c);
      ds ← trueRanges c candles;
      Ok (d :: ds)
  end.
Definition averageTrueRange (candles : list ohlcCandle) (period : Z) : result Decimal :=
  if Z.of_nat (length candles) <? 2 then Err "need at least 2 candles to compute a true range"
  else
    match sorted_candles candles with
    | [] => Err "runtime error: index out of range"
    | first :: rest =>
        trs ← trueRanges first rest;
        let n := Z.of_nat (length trs) in
        let trs := if (0 <? period) && (period <? n) then drop (Z.to_nat (n - period)) trs else trs in
        Decimal.Div (foldl Decimal.Add Decimal.Zero trs) (Decimal.FromInt (Z.of_nat (length trs)))
    end.

(** ** coingecko.go *)

Record CoinGeckoSource := { cg_CoinIDs : option (gmap string string); cg_OHLCDays : Z; cg_ATRPeriod : Z }.
Definition DefaultCoinGeckoIDs : gmap string string :=
  {[ AssetBTC := "bitcoin"%string; AssetETH := "ethereum"%string ]}.
Definition coinID (c : CoinGeckoSource) (asset : string) : result string :=
  match default DefaultCoinGeckoIDs (cg_CoinIDs c) !! asset with
  | None => Err "oracle: no CoinGecko coin id configured"
  | Some id => Ok id
  end.
Definition ohlcDays (c : CoinGeckoSource) : Z := if 0 <? cg_OHLCDays c then cg_OHLCDays c else 7.
Definition cg_atrPeriod (c : CoinGeckoSource) : Z := if 0 <? cg_ATRPeriod c then cg_ATRPeriod c else 14.

Definition cg_fetchPrice (web : Service) (coinID : string) : result Decimal :=
  body ← get web (SimplePrice coinID);
  parsed ← unmarshal_prices body;
  match parsed !! coinID with
  | None => Err "simple/price response missing coin id"
  | Some entry =>
      match entry !! "usd"%string with
      | None => Err "simple/price response missing usd field"
      | Some usd => floatToDecimal usd
      end
  end.
Fixpoint cg_candles (raw : list (list Float)) : result (list ohlcCandle) :=
  match raw with
  | [] => Ok []
  | [t; o; h; l; c] :: raw =>
      cs ← cg_candles raw;
      Ok ({| c_TimestampMS := t; c_Open := o; c_High := h; c_Low := l; c_Close := c |} :: cs)
  | _ :: _ => Err "ohlc candle has a wrong number of fields"
  end.
Definition cg_fetchATR (web : Service) (c : CoinGeckoSource) (coinID : string) : result Decimal :=
  body ← get web (Ohlc coinID (ohlcDays c));
  raw ← unmarshal_rows body;
  candles ← cg_candles raw;
  averageTrueRange candles (cg_atrPeriod c).
(** [now] is [time.Now().Unix()]. *)
Definition cg_Quote (web : Service) (now : Z) (c : CoinGeckoSource) : Oracle.Source := λ asset,
  id ← coinID c asset;
  price ← cg_fetchPrice web id;
  atr ← cg_fetchATR web c id;
  Ok {| Oracle.qt_PriceUSD := price; Oracle.qt_ATRUSD := atr; Oracle.qt_Timestamp := now |}.

(** ** coinbase.go *)

Record CoinbaseSource := { cb_Products : option (gmap string string); cb_Granularity : Z; cb_ATRPeriod : Z }.
Definition DefaultCoinbaseProducts : gmap string string :=
  {[ AssetBTC := "BTC-USD"%string; AssetETH := "ETH-USD"%string ]}.
Definition product (c : CoinbaseSource) (asset : string) : result string :=
  match default DefaultCoinbaseProducts (cb_Products c) !! asset with
  | None => Err "oracle: no Coinbase product configured"
  | Some p => Ok p
  end.
Definition granularity (c : CoinbaseSource) : Z := if 0 <? cb_Granularity c then cb_Granularity c else 3600.
Definition cb_atrPeriod (c : CoinbaseSource) : Z := if 0 <? cb_ATRPeriod c then cb_ATRPeriod c else 14.
Definition currencyCode (asset : string) : result string :=
  if bool_decide (asset = AssetBTC) then Ok "BTC"%string
  else if bool_decide (asset = AssetETH) then Ok "ETH"%string
  else Err "oracle: no Coinbase currency code configured".

Definition cb_fetchPrice (web : Service) (asset : string) : result Decimal :=
  code ← currencyCode asset;
  body ← get web (ExchangeRates code);
  rates ← unmarshal_rates body;
  match rates !! "USD"%string with
  | None => Err "exchange-rates response missing USD rate"
  | Some usd => FromString usd
  end.
Definition seconds_to_ms (t : Float) : Float := float64_mul t (float64_of_int 1000).
Fixpoint cb_candles (raw : list (list Float)) : result (list ohlcCandle) :=
  match raw with
  | [] => Ok []
  | [t; l; h; o; c; _] :: raw =>
      cs ← cb_candles raw;
      Ok ({| c_TimestampMS := seconds_to_ms t; c_Open := o; c_High := h; c_Low := l; c_Close := c |} :: cs)
  | _ :: _ => Err "candle has a wrong number of fields"
  end.
Definition cb_fetchATR (web : Service) (c : CoinbaseSource) (productID : string) : result Decimal :=
  body ← get web (Candles productID (granularity c));
  raw ← unmarshal_rows body;
  candles ← cb_candles raw;
  averageTrueRange candles (cb_atrPeriod c).
Definition cb_Quote (web : Service) (now : Z) (c : CoinbaseSource) : Oracle.Source := λ asset,
  productID ← product c asset;
  price ← cb_fetchPrice web asset;
  atr ← cb_fetchATR web c productID;
  Ok {| Oracle.qt_PriceUSD := price; Oracle.qt_ATRUSD := atr; Oracle.qt_Timestamp := now |}.
End feeds.
End Feeds.

(** * Lemmas *)

(** ** The order of float64 numbers *)

Lemma digits2_bounds (m : positive) : 2 ^ (Zpos (digits2_pos m) - 1) ≤ Zpos m < 2 ^ Zpos (digits2_pos m).
Proof.
  assert (Hs : ∀ p, Zpos (Pos.succ p) - 1 = Zpos p) by lia.
  assert (Hp : ∀ p, 2 ^ Zpos p = 2 * 2 ^ (Zpos p - 1)).
  { intros p. replace (Zpos p) with (Z.succ (Zpos p - 1)) at 1 by lia. apply Z.pow_succ_r. lia. }
  induction m as [m IH|m IH|]; cbn [digits2_pos]; [| |by vm_compute];
    rewrite Hs, (Hp (Pos.succ _)), Hs; rewrite (Hp (digits2_pos m)) in *; lia.
Qed.

(** A number is finite and in the format of the type. *)
Definition ordinary (f : Float) : bool := is_finite f && valid_binary 53 1024 f.
(** Its value in units of the least positive number. *)
Definition magnitude (m : positive) (e : Z) : Z := Zpos m * 2 ^ (e + 1074).
Definition float_key (f : Float) : Z :=
  match f with S754_finite s m e => if s then - magnitude m e else magnitude m e | _ => 0 end.

Lemma canonical_exponent m e : canonical_mantissa 53 1024 m e = true →
  Z.max (Zpos (digits2_pos m) + e - 53) (-1074) = e.
Proof. unfold canonical_mantissa, fexp, emin. intros H. by apply Z.eqb_eq in H. Qed.
Lemma magnitude_exponent m m' e e' : canonical_mantissa 53 1024 m e = true → canonical_mantissa 53 1024 m' e' = true →
  e < e' → magnitude m e < magnitude m' e'.
Proof.
  intros H%canonical_exponent H'%canonical_exponent Hlt. unfold magnitude. assert (He : 0 ≤ e + 1074) by lia.
  destruct (digits2_bounds m) as [_ Hm], (digits2_bounds m') as [Hm' _].
  assert (E53 : Zpos (digits2_pos m') = 53) by lia. rewrite E53 in Hm'.
  assert (Hm53 : Zpos m < 2 ^ 53) by (eapply Z.lt_le_trans; [exact Hm|]; apply Z.pow_le_mono_r; lia).
  replace (e' + 1074) with ((e' - e) + (e + 1074)) by lia. rewrite (Z.pow_add_r 2 (e' - e) (e + 1074)) by lia.
  assert (H2 : 2 ^ 1 ≤ 2 ^ (e' - e)) by (apply Z.pow_le_mono_r; lia).
  assert (Hpos : 0 < 2 ^ (e + 1074)) by (by apply Z.pow_pos_nonneg). rewrite Z.mul_assoc.
  apply Z.mul_lt_mono_pos_r; [done|]. change (2 ^ (53 - 1)) with 4503599627370496 in Hm'.
  change (2 ^ 53) with 9007199254740992 in Hm53. change (2 ^ 1) with 2 in H2. nia.
Qed.
Lemma magnitude_pos m e : canonical_mantissa 53 1024 m e = true → 0 < magnitude m e.
Proof. intros H%canonical_exponent. unfold magnitude. assert (0 < 2 ^ (e + 1074)) by (apply Z.pow_pos_nonneg; lia). nia. Qed.
Lemma magnitude_compare m m' e e' : canonical_mantissa 53 1024 m e = true → canonical_mantissa 53 1024 m' e' = true →
  (magnitude m e ?= magnitude m' e') =
  match e ?= e' with Lt => Lt | Gt => Gt | Eq => Pos.compare_cont Eq m m' end.
Proof.
  intros H H'. destruct (Z.compare_spec e e') as [->|Hlt|Hlt].
  - apply canonical_exponent in H. unfold magnitude.
    rewrite <-(Zmult_compare_compat_r (Zpos m) (Zpos m') (2 ^ (e' + 1074))); [done|].
    apply Z.lt_gt, Z.pow_pos_nonneg; lia.
  - apply Z.compare_lt_iff. by apply magnitude_exponent.
  - apply Z.compare_gt_iff. by apply magnitude_exponent.
Qed.

Lemma ordinary_finite s m e : ordinary (S754_finite s m e) = true → canonical_mantissa 53 1024 m e = true.
Proof. unfold ordinary. cbn [is_finite andb valid_binary]. unfold bounded. by intros [H _]%andb_true_iff. Qed.
Lemma SFcompare_key f g : ordinary f = true → ordinary g = true → SFcompare f g = Some (float_key f ?= float_key g).
Proof.
  intros Hf Hg. destruct f as [s| | |s m e], g as [s'| | |s' m' e']; try discriminate; try done; cbn [SFcompare float_key].
  - apply ordinary_finite, magnitude_pos in Hg. f_equal. symmetry.
    destruct s'; [apply Z.compare_gt_iff|apply Z.compare_lt_iff]; lia.
  - apply ordinary_finite, magnitude_pos in Hf. f_equal. symmetry.
    destruct s; [apply Z.compare_lt_iff|apply Z.compare_gt_iff]; lia.
  - apply ordinary_finite in Hf, Hg. assert (Hp := magnitude_pos _ _ Hf). assert (Hp' := magnitude_pos _ _ Hg).
    assert (Hc := magnitude_compare _ _ _ _ Hf Hg). destruct s, s'.
    + rewrite Z.compare_opp, (Z.compare_antisym (magnitude m e) (magnitude m' e')), Hc. destruct (e ?= e'); try done.
    + f_equal. symmetry. apply Z.compare_lt_iff. lia.
    + f_equal. symmetry. apply Z.compare_gt_iff. lia.
    + rewrite Hc. by destruct (e ?= e').
Qed.
Lemma SFltb_key f g : ordinary f = true → ordinary g = true → SFltb f g = (float_key f <? float_key g).
Proof. intros Hf Hg. unfold SFltb, Z.ltb. rewrite SFcompare_key by done. by destruct (_ ?= _). Qed.

(** ** Sorting by distinct timestamps *)

Section sorting.
Import Feeds.

Definition time_key (c : ohlcCandle) : Z := float_key (c_TimestampMS c).
Definition timed (cs : list ohlcCandle) : Prop :=
  Forall (λ c, ordinary (c_TimestampMS c) = true) cs ∧ NoDup (time_key <$> cs).

Lemma SFltb_asym x y : SFltb x y = true → SFltb y x = false.
Proof.
  unfold SFltb. destruct x as [s|s| |s m e], y as [s'|s'| |s' m' e']; cbn; try done; try (by destruct s); try (by destruct s'); try (by destruct s, s').
  assert (Hc : Pos.compare_cont Eq m' m = CompOpp (Pos.compare_cont Eq m m')) by (by rewrite Pos.compare_cont_antisym).
  destruct s, s'; cbn; try done; rewrite (Z.compare_antisym e e'), Hc; destruct (e ?= e'); cbn; try done;
    by destruct (Pos.compare_cont Eq m m').
Qed.
#[local] Instance not_after_total : Total not_after.
Proof.
  intros x y. unfold not_after. destruct (SFltb (c_TimestampMS y) (c_TimestampMS x)) eqn:E; [right|by left].
  by apply SFltb_asym.
Qed.

Lemma sorted_unique (l : list ohlcCandle) : ∀ l', l ≡ₚ l' →
  (∀ x y, x ∈ l → y ∈ l → time_key x = time_key y → x = y) →
  StronglySorted (λ x y, time_key x ≤ time_key y) l → StronglySorted (λ x y, time_key x ≤ time_key y) l' → l = l'.
Proof.
  induction l as [|x l IH]; intros l' Hp Hinj Hs Hs'; [by apply Permutation_nil_l in Hp as ->|].
  destruct l' as [|y l']; [by symmetry in Hp; apply Permutation_nil_cons in Hp|].
  apply StronglySorted_inv in Hs as [Hs Hx], Hs' as [Hs' Hy]. rewrite Forall_forall in Hx, Hy.
  assert (x = y) as <-.
  { assert (Hxin : x ∈ y :: l') by (rewrite <-Hp; by left). assert (Hyin : y ∈ x :: l) by (rewrite Hp; by left).
    apply Hinj; [by left|done|]. apply elem_of_cons in Hxin as [->|Hxin]; [done|].
    apply elem_of_cons in Hyin as [->|Hyin]; [done|]. specialize (Hx y Hyin). specialize (Hy x Hxin). cbn in *. lia. }
  f_equal. apply IH; [by apply Permutation_cons_inv in Hp| |done..]. intros a b Ha Hb. apply Hinj; by right.
Qed.

Lemma Sorted_key cs : Forall (λ c, ordinary (c_TimestampMS c) = true) cs → Sorted not_after cs →
  StronglySorted (λ x y, time_key x ≤ time_key y) cs.
Proof.
  intros Ho Hs. apply Sorted_StronglySorted; [intros x y z; lia|].
  induction Hs as [|x cs Hs IH Hhd]; [constructor|]. apply Forall_cons in Ho as [Hx Ho].
  constructor; [by apply IH|]. destruct Hhd as [|y cs Hxy]; constructor. apply Forall_cons in Ho as [Hy _].
  unfold not_after in Hxy. rewrite SFltb_key in Hxy by done. unfold time_key. by apply Z.ltb_ge in Hxy.
Qed.

(** The order in which a service lists its candles does not matter. *)
Lemma sorted_candles_perm cs cs' : timed cs → cs ≡ₚ cs' → sorted_candles cs = sorted_candles cs'.
Proof.
  intros [Ho Hn] Hp. unfold sorted_candles.
  assert (Ho' : Forall (λ c, ordinary (c_TimestampMS c) = true) cs') by (by rewrite <-Hp).
  assert (P := merge_sort_Permutation not_after cs). assert (P' := merge_sort_Permutation not_after cs').
  apply sorted_unique.
  - by rewrite P, P', Hp.
  - intros x y Hx Hy E. rewrite P in Hx, Hy. apply list_elem_of_lookup in Hx as [i Hx], Hy as [j Hy].
    assert (i = j) as ->; [|congruence]. eapply (NoDup_lookup (time_key <$> cs)); [done|by rewrite list_lookup_fmap, Hx|].
    by rewrite list_lookup_fmap, Hy, E.
  - apply Sorted_key; [by rewrite P|]. apply (Sorted_merge_sort _).
  - apply Sorted_key; [by rewrite P'|]. apply (Sorted_merge_sort _).
Qed.
End sorting.

(** ** The average *)

Section average.
Context `{BR : BigRat, FF : FormatFloat, FL : !FormatFloatLaws}.
Import Feeds.

Lemma math_Max_nonneg x y : is_negative y = false → is_finite (math_Max x y) = true → is_negative (math_Max x y) = false.
Proof.
  intros Hy Hf. destruct x as [[]|[]| |[] m e], y as [[]|[]| |[] m' e']; try done; cbn in *; try done.
  all: unfold SFltb in *; cbn in *; repeat case_match; done.
Qed.
Lemma math_Max_both x y : is_negative x = false → is_negative y = false → is_negative (math_Max x y) = false.
Proof.
  intros Hx Hy. destruct x as [[]|[]| |[] m e], y as [[]|[]| |[] m' e']; try done.
  all: unfold math_Max; case_match; done.
Qed.
Lemma trueRange_nonneg prev c : is_finite (trueRange prev c) = true → is_negative (trueRange prev c) = false.
Proof.
  apply math_Max_nonneg. apply math_Max_both; unfold math_Abs; by destruct (float64_sub _ _).
Qed.

Lemma floatToDecimal_range prev c d : floatToDecimal (trueRange prev c) = Ok d → (0 <= d)%Qc.
Proof.
  unfold floatToDecimal. intros E. destruct (is_finite (trueRange prev c)) eqn:Ef.
  - destruct (format_finite _ Ef) as (d' & E' & Hd). rewrite E in E'. injection E' as <-. by apply Hd, trueRange_nonneg.
  - apply format_special in Ef. by rewrite E in Ef.
Qed.
Lemma trueRanges_nonneg prev cs ds : trueRanges prev cs = Ok ds → Forall (λ d, (0 <= d)%Qc) ds.
Proof.
  revert prev ds. induction cs as [|c cs IH]; intros prev ds; cbn [trueRanges]; [by intros [= <-]|].
  intros E. ok_inv. constructor; [by eapply floatToDecimal_range|by eapply IH].
Qed.
Lemma sum_nonneg ds : Forall (λ d, (0 <= d)%Qc) ds → ∀ acc, (0 <= acc)%Qc → (0 <= foldl Decimal.Add acc ds)%Qc.
Proof.
  induction 1 as [|d ds Hd _ IH]; intros acc Ha; [done|]. cbn. apply IH.
  unfold Decimal.Add. rewrite <-(Qcplus_0_l 0). by apply Qcplus_le_compat.
Qed.
Lemma averageTrueRange_nonneg cs period a : averageTrueRange cs period = Ok a → (0 <= a)%Qc.
Proof.
  unfold averageTrueRange. destruct (_ <? 2); [done|]. destruct (sorted_candles cs) as [|first rest]; [done|].
  intros E. ok_inv. match goal with H : trueRanges _ _ = Ok ?l |- _ => apply trueRanges_nonneg in H; rename l into trs end.
  match goal with H : Decimal.Div (foldl _ _ ?u) _ = _ |- _ => set (used := u) in * end.
  assert (Hu : Forall (λ d, (0 <= d)%Qc) used) by (subst used; destruct (_ && _); [by apply Forall_drop|done]).
  unfold Decimal.Div in *. destruct (Decimal.Sign _ =? 0) eqn:Es; [done|]. ok_inv.
  assert (Hsum := sum_nonneg used Hu Decimal.Zero ltac:(by vm_compute)).
  unfold Qcle in *. unfold Qcdiv. rewrite this_mult. apply Qmult_le_0_compat; [exact Hsum|].
  unfold Qcinv. rewrite this_Q2Qc. apply Qinv_le_0_compat. rewrite this_FromInt. change 0%Q with (inject_Z 0). rewrite <-Zle_Qle. lia.
Qed.
End average.

(** * Properties *)

(** One bucket of a market, as a service lists it: its time in seconds, and its numbers. *)
Record market := { mk_time : Float; mk_open : Float; mk_high : Float; mk_low : Float; mk_close : Float; mk_volume : Float }.

Module FeedsSpec.
Import Feeds.

(** Coinbase lists time, low, high, open, close and volume; CoinGecko lists the time in
    milliseconds, open, high, low and close. *)
Definition coinbase_row (m : market) : list Float :=
  [mk_time m; mk_low m; mk_high m; mk_open m; mk_close m; mk_volume m].
Definition coingecko_row (m : market) : list Float :=
  [seconds_to_ms (mk_time m); mk_open m; mk_high m; mk_low m; mk_close m].
Definition answers_rows `{FeedJson} (web : Endpoint → result (Z * bytes)) (e : Endpoint) (rows : list (list Float)) : Prop :=
  ∃ body, web e = Ok (200, body) ∧ unmarshal_rows (readAllLimited body) = Ok rows.

Definition candle_of (m : market) : ohlcCandle :=
  {| c_TimestampMS := seconds_to_ms (mk_time m); c_Open := mk_open m; c_High := mk_high m; c_Low := mk_low m;
     c_Close := mk_close m |}.
Lemma cb_candles_of data : cb_candles (coinbase_row <$> data) = Ok (candle_of <$> data).
Proof. induction data as [|m data IH]; [done|]. cbn. by rewrite IH. Qed.
Lemma cg_candles_of data : cg_candles (coingecko_row <$> data) = Ok (candle_of <$> data).
Proof. induction data as [|m data IH]; [done|]. cbn. by rewrite IH. Qed.
Lemma averageTrueRange_perm `{BigRat, FormatFloat} cs cs' period : timed cs → cs ≡ₚ cs' →
  averageTrueRange cs period = averageTrueRange cs' period.
Proof. intros Ht Hp. unfold averageTrueRange. by rewrite (sorted_candles_perm _ _ Ht Hp), Hp. Qed.

(** C22: the two feeds measure alike. When the two services list the same buckets of a market,
    each in its own layout, its own unit of time and any order, with times that differ, the
    two clients compute the same average true range or fail alike; and an average that is
    computed is not negative. *)
Theorem feeds_measure_alike `{BR : BigRat, FF : FormatFloat, FL : !FormatFloatLaws, FJ : FeedJson}
    web web' cg cb id productID data data' :
  data ≡ₚ data' → timed (candle_of <$> data) → cg_atrPeriod cg = cb_atrPeriod cb →
  answers_rows web (Ohlc id (ohlcDays cg)) (coingecko_row <$> data) →
  answers_rows web' (Candles productID (granularity cb)) (coinbase_row <$> data') →
  cg_fetchATR web cg id = cb_fetchATR web' cb productID ∧
  ∀ atr, cb_fetchATR web' cb productID = Ok atr → (0 <= atr)%Qc.
Proof.
  intros Hp Ht Hperiod (b & Hb & Hrows) (b' & Hb' & Hrows').
  assert (E : cg_fetchATR web cg id = averageTrueRange (candle_of <$> data) (cg_atrPeriod cg)).
  { unfold cg_fetchATR, get. rewrite Hb. cbn. rewrite Hrows. cbn. by rewrite cg_candles_of. }
  assert (E' : cb_fetchATR web' cb productID = averageTrueRange (candle_of <$> data') (cb_atrPeriod cb)).
  { unfold cb_fetchATR, get. rewrite Hb'. cbn. rewrite Hrows'. cbn. by rewrite cb_candles_of. }
  rewrite E, E', Hperiod. split; [apply averageTrueRange_perm; [done|by rewrite Hp]|].
  intros atr. apply averageTrueRange_nonneg.
Qed.
End FeedsSpec.

(** * A concrete market *)

Module FeedsModel.
Import Feeds FeedsSpec.
(** A finite number is written by its integer part, which is enough for the laws, and exact
    for the prices below. *)
Definition whole (f : Float) : Z :=
  match f with S754_finite s m e => let v := Z.shiftl (Zpos m) e in if s then - v else v | _ => 0 end.
#[export] Instance bigrat : BigRat := λ s,
  match NilZero.int_of_string s with Some i => Some (Decimal.FromInt (Z.of_int i)) | None => None end.
#[export] Instance format_whole : FormatFloat := λ f,
  if is_finite f then Decimal.int_string (whole f) else "NaN"%string.

Lemma FromString_int z : FromString (Decimal.int_string z) = Ok (Decimal.FromInt z).
Proof.
  unfold FromString, SetString, bigrat, Decimal.int_string. rewrite NilZero.isi.
  - by rewrite DecimalZ.of_to.
  - destruct z; cbn; try done. intros [= H]. by apply DecimalPos.Unsigned.to_uint_nonnil in H.
  - destruct z; cbn; try done. intros [= H]. by apply DecimalPos.Unsigned.to_uint_nonnil in H.
Qed.
#[export] Instance format_laws : FormatFloatLaws.
Proof.
  split; intros f Hf; unfold format_float, format_whole; rewrite Hf; [|reflexivity].
  exists (Decimal.FromInt (whole f)). split; [apply FromString_int|]. intros Hn.
  change (Decimal.FromInt 0 <= Decimal.FromInt (whole f))%Qc. apply Decimal.FromInt_le.
  destruct f as [s|s| |s m e]; try done. cbn in Hn. subst s. unfold whole. by apply Z.shiftl_nonneg.
Qed.

(** A market that rises by the same amount every hour, in buckets of [hours]: the [i]-th. *)
Definition bucket (hours : Z) (i : nat) : market :=
  let start := hours * Z.of_nat i in
  let at_ t := float64_of_int (100000 + 100 * t) in
  {| mk_time := float64_of_int (3600 * start); mk_open := at_ start; mk_low := at_ start;
     mk_high := at_ (start + hours); mk_close := at_ (start + hours); mk_volume := float64_of_int 1 |}.
Definition buckets (hours : Z) (n : nat) : list market := bucket hours <$> seq 0 n.

(** Bodies name what they stand for: hourly buckets, or four-hourly ones. *)
#[export] Instance feed_json : FeedJson := {
  unmarshal_prices _ := Ok {[ "bitcoin"%string := {[ "usd"%string := float64_of_int 106400 ]} ]};
  unmarshal_rates _ := Ok {[ "USD"%string := "106400"%string ]};
  unmarshal_rows b :=
    match b with
    | [1] => Ok (coinbase_row <$> reverse (buckets 1 64))
    | [2] => Ok (coingecko_row <$> buckets 1 64)
    | [4] => Ok (coingecko_row <$> buckets 4 16)
    | _ => Err "json"
    end }.
Definition hourly (e : Endpoint) : result (Z * bytes) :=
  Ok (200, match e with Ohlc _ _ => [2] | _ => [1] end).
Definition four_hourly (e : Endpoint) : result (Z * bytes) :=
  Ok (200, match e with Ohlc _ _ => [4] | _ => [1] end).
(** [CoinGeckoSource{}] and [CoinbaseSource{}]. *)
Definition coingecko : CoinGeckoSource := {| cg_CoinIDs := None; cg_OHLCDays := 0; cg_ATRPeriod := 0 |}.
Definition coinbase : CoinbaseSource := {| cb_Products := None; cb_Granularity := 0; cb_ATRPeriod := 0 |}.
End FeedsModel.

Module FeedsWitness.
Import Feeds FeedsSpec FeedsModel.
Definition timedb (cs : list ohlcCandle) : bool :=
  forallb (λ c, ordinary (c_TimestampMS c)) cs && bool_decide (NoDup (time_key <$> cs)).
Lemma timedb_spec cs : timedb cs = true → timed cs.
Proof. intros [H1 H2]%andb_true_iff. split; [by apply Forall_forall; intros x Hx; eapply forallb_forall in H1; [|by apply list_elem_of_In]|by eapply bool_decide_eq_true]. Qed.

Lemma feeds_measure_alike_witness :
  cg_fetchATR hourly coingecko "bitcoin" = cb_fetchATR hourly coinbase "BTC-USD" ∧
  match cb_fetchATR hourly coinbase "BTC-USD" with Ok atr => Some (this atr) | Err _ => None end = Some (100 # 1)%Q.
Proof.
  destruct (feeds_measure_alike hourly hourly coingecko coinbase "bitcoin" "BTC-USD" (buckets 1 64) (reverse (buckets 1 64)))
    as [E _].
  - symmetry. apply reverse_Permutation.
  - apply timedb_spec. vm_compute. reflexivity.
  - reflexivity.
  - exists [2]. split; reflexivity.
  - exists [1]. split; reflexivity.
  - split; [exact E|]. vm_compute. reflexivity.
Defined.
End FeedsWitness.

(** * Findings *)

Module FeedsFindings.
Import Feeds FeedsSpec FeedsModel.

(** A reading as two fractions. *)
Definition shown (r : result Oracle.Quote) : option (Q * Q) :=
  match r with Ok quote => Some (this (Oracle.qt_PriceUSD quote), this (Oracle.qt_ATRUSD quote)) | Err _ => None end.
(** By default one source averages four-hour candles and the other one-hour candles, and the
    quorum holds the two averages to the bound that is meant for readings of one quantity.
    In a market that only rises steadily both sources answer and their prices are equal, but
    the averages differ by a factor of four: the quorum never has a price. *)
Theorem default_feeds_never_agree :
  let cg := cg_Quote four_hourly 0 coingecko in
  let cb := cb_Quote four_hourly 0 coinbase in
  shown (cg AssetBTC) = Some (106400 # 1, 400 # 1)%Q ∧ shown (cb AssetBTC) = Some (106400 # 1, 100 # 1)%Q ∧
  (Oracle.quote (Oracle.NewQuorum (Decimal.lit 2 100) [cg; cb]) AssetBTC).1 = Err Oracle.ErrDisagreement.
Proof. split; [vm_compute; reflexivity|]. split; vm_compute; reflexivity. Qed.
End FeedsFindings.
